(* ===== verification/_CoqProject ===== *)
-Q . S2P
Prelude.v
Tracker.v
TrackerBits.v
TrackerSpec.v
TrackerProps.v
Streams.v
GoFloat.v
GoFmt.v
GoTime.v
GoJson.v
Config.v
ConfigProps.v
Payload.v
Metrics.v
MetricsProps.v
Transport.v
TransportProps.v
Worker.v
WorkerProps.v
WorkerTypes.v
Verdict.v
Report.v
VerdictProps.v
Snapshot.v
Handlers.v
Tracked.v
OrderingKeys.v
Interop.v
DeadLetter.v
InflightCap.v
Engine.v
EngineProps.v
RunEnds.v
Shutdown.v
ExactlyOnce.v
Nack.v
Filtering.v
FanOut.v
PublishPull.v
SeekSnapshot.v
StreamingPull.v
SchemaEnforce.v
SchemaConform.v
Commands.v
Workers.v
LateGates.v
Clients.v
Api.v
Server.v
Console.v
Process.v
Reads.v
ExampleLib.v
Examples.v
ExamplesAdvanced.v
ExampleBroker.v
ExampleProps.v
ExampleVerify.v
ExampleReplay.v
ExamplePush.v
ExampleFilter.v
