(* ===== verification/Prelude.v ===== *)
(** * The burn-in harness and the Go samples of kubemq-gcp-pub-sub

    The program (src/burnin) is a soak harness for a Google Cloud Pub/Sub
    connector.  A process reads a configuration, serves a control API, and runs
    an engine; a run builds groups of workers, warms them up, measures, drains,
    stops them and computes a verdict from their counters; the verdict, the
    report and the exit code are the program's output.  Everything the verdict
    says rests on the accounting of the workers, and most of that on the
    per-producer sequence tracker.  Beside it, src/examples/go holds fifteen
    sample programs, each of which drives one feature of the connector and
    checks what it observes.

    ** Files and the code they model

    Shared vocabulary.
    - [Prelude]: fixed-width integers, results with errors, tactics, hints.
    - [GoFloat], [GoFmt], [GoTime], [GoJson]: what the source uses of Go's
      float64 (IEEE 754 binary64 with round to nearest even), of strings,
      strconv and fmt, of time.ParseDuration, and of encoding/json (parser,
      encoder, the UTF-8 repair of strings).

    Data plane.
    - [Tracker] (tracker/tracker.go): the bitset window, the watermark, the
      pending losses, [Record_], [DetectGaps], [Reset] and the totals.
      [TrackerBits] has the laws of the bitset, [TrackerSpec] an abstract
      tracker over unbounded sets and the simulation of one by the other,
      [TrackerProps] what follows, [Streams] what it means for complete streams
      of several producers.
    - [Payload] (payload/payload.go): bodies, CRC32, size distributions.
    - [Metrics], [MetricsProps] (metrics/metrics.go): every vector with its name
      and labels, every helper as the calls it makes, the rate windows.
    - [Transport], [TransportProps] (transport/): resource ids, channel
      mapping, endpoint, error classification, the idempotent wrappers over a
      client given by the class [PubSubAPI] and its laws.  [Clients]: the
      constructors of the clients with their options and the environment they
      share, schema and seek operations, the native client, and the calls on
      messages over the library's own (class [SDK]).
    - [Worker], [WorkerProps], [WorkerTypes] (worker/worker.go, attrs.go,
      util.go): the state and operations of [BaseWorker], the message envelope,
      the type invariant of its fields.

    Workers.  A worker is a record with a [BaseWorker] inside (class [HasBase])
    and the interface the engine uses (class [Worker], both in [Handlers]).
    - [Handlers]: the loops and handler parts the twelve workers share.
    - [Tracked]: class [TrackedHandler], a handler that reports each delivery to
      the tracker; its clients are proved against the class.
    - [PublishPull], [OrderingKeys], [ExactlyOnce], [DeadLetter], [FanOut],
      [Interop], [Nack], [Filtering], [SeekSnapshot], [InflightCap],
      [StreamingPull], [SchemaEnforce]: one file per worker, after the file of
      the same name in worker/; [SchemaConform] has the schemas the last one
      registers.
    - [Workers] (engine/worker_group.go, and [Start], [StartProducers] and
      [StopConsumers] of every worker file): the worker of each name as one
      type, the calls a start makes, what a stop closes.

    Control plane.
    - [Config], [ConfigProps] (config/config.go): defaults, environment,
      durations, validation.
    - [Verdict], [Report], [VerdictProps] (engine/verdict.go, report/report.go,
      RunReport of main.go): snapshots, gates, the report, exit codes.
    - [Snapshot] (the accessors of worker/worker.go, captureWorkerSnapshots of
      engine/engine.go): what a snapshot says of the workers of a group.
    - [Engine], [EngineProps] (engine/engine.go, worker_group.go,
      disconnect/disconnect.go): the lifecycle.
    - [RunEnds]: fair schedules of the engine.
    - [Shutdown] (engine/engine.go, worker_group.go, disconnect/disconnect.go,
      the stops of worker/worker.go, util.go): how long stopping takes, the
      periodic tasks, forced disconnects.
    - [LateGates]: the engine with the twelve workers, on the order of capture
      and stop.
    - [Api] (api/models.go, server/server.go, the adapter in main.go): run
      requests, control handlers, read models, how the process ends.
    - [Server] (server/server.go): routes, middleware, replies.
    - [Console] (PrintConsole and WriteJSON of report/report.go, logStatus and
      logFinalSummary of engine/engine.go): the lines they write.
    - [Process] (main.go, Start and Stop of server/server.go, the getters of
      engine/engine.go): from the flags to a serving process, RunReport with its
      separate reads, and the end of main.
    - [Reads]: the report and the exit code put together from these reads while
      the engine goes on.
    - [Commands] (cmd/cleanup/main.go, cmd/verify/main.go): the deletion passes
      over a connector given by the class [Connector] and its laws, the checks
      of verify and their exit code.

    Samples (src/examples/go).
    - [ExampleLib]: a sample is a tree of calls with a continuation for every
      answer; what the samples share; runs, and rules for what holds after
      every run.
    - [Examples], [ExamplesAdvanced]: the fifteen mains.
    - [ExampleBroker]: an in-memory broker to run them on.
    - [ExampleProps], [ExampleVerify]: what they leave behind, and what their
      PASS lines stand for; [ExampleReplay] has the histories of the seek,
      snapshot and schema samples, [ExamplePush] the envelope of a push delivery
      and the verdict on it, [ExampleFilter] the filtering sample.

    ** How code becomes definitions

    An operation is a function on the record of its component; a call that can
    fail returns a [result] or an option, a panic is [None].  A uint64 or int is
    a [Z] with the wrap-around written out ([u64], [to_int], [+u], [-u]).  A
    method under a mutex, and an atomic update, is one step; where goroutines
    interleave finer than a handler and the order matters (the exactly-once
    reconciliation, the stores of a reset, the reads of a report, the engine), the
    theorems quantify over interleavings of the atomic steps.  A handler, and a
    reset where a single worker's accounting is at stake, is one step of the
    worker.  The engine is a transition system: a run loop is a thread
    with a program counter, and API calls, signals, periodic tasks and worker
    activity interleave with it.  Go's maps are [gmap]s, and where the source
    ranges over one the order is a parameter or proved irrelevant.  What the
    code reads from outside (clock, random draws, deliveries, RPC outcomes,
    whether a context has ended) is an argument, usually one record per round
    of a loop; a loop is a recursion over the list of its rounds.  Prometheus
    calls are recorded as a list in the worker.  A [Start] and a probe are
    written in a small error monad that records the calls that took effect;
    which calls fail is an argument.  Logging is left out but for the
    lines of [Console] and [Process].  A sample program is a free monad over its
    calls, with [os.Exit] as an end that skips the deferred functions; its
    theorems hold of every path through the tree.  Durations of a shutdown are
    computed from when each goroutine unwinds.

    Third-party code is a parameter: the HDR histogram (its quantiles), the
    Pub/Sub client ([PubSubAPI], [SDK]), the connector behind the clean-up
    ([Connector]), the schema registry ([SchemaConform.accepts], with two
    hypotheses on the JSON encoding).  The engine is generic in its workers, [Workers] has the
    table of their constructors.
    CRC32 is in Go's library and computed here from its polynomial.

    ** What the theorems show

    - Tracker: the bitset implementation refines the set-based specification
      on any calls; it is exact on streams that stay within the reorder window;
      late arrivals take back suspected losses; gap reports cover the losses;
      and the two ways it miscounts.
    - Worker base: every operation keeps the fields in their types' ranges and
      the rate windows in shape, warm-up leaves no trace after the reset,
      counters agree with Prometheus, envelopes round-trip.
    - Each worker: its counters equal a count over the history of deliveries and
      publishes, for any interleaving of its goroutines.  The probes of the
      streaming and schema workers: when their gates are silent, wherever the
      warm-up reset falls; JSON bodies round-trip.
    - Starting and stopping: a start that fails has launched nothing and made no
      call before what the call needs; a stop closes what is open, all of it
      when the goroutines end within its wait; the clean-up of the same
      environment removes what starts and probes create, if listings are complete
      and deletes succeed, and nothing of another prefix.
    - Configuration: validation is sound and complete for the documented ranges,
      stated over the exact values of the floats, except that it lets NaN pass;
      overrides, durations, the overlay of a run request.
    - Verdict and report: what a snapshot is of the workers it was taken of, and
      what PASSED says of every single worker; the order of a map does not
      matter; report, verdict and exit code agree; a report read in pieces is
      about one run unless a new one starts meanwhile.
    - Engine: an invariant of all reachable states, the termination of the
      drain, the end of every run on fair schedules, the requests that can
      change it, and the behaviour around signals, failed starts and restarts.
    - Shutdown: a bound on the time a run takes to stop, and that stuck channels
      of one group can outlast the grace period of a signal; a forced
      disconnect reaches every worker and cancels the receives of those that
      watch for it (three of the twelve do not).
    - Process: what is needed to serve, the exit code as the verdict, unless a
      run is started while the process leaves; the
      console shows FAILED exactly with a failed check or the engine's messages.
    - Samples: a run that ends normally has deleted all it created, a run that
      fails has deleted nothing; what the ordering and streaming samples have
      observed when they pass, and the filtering one; the complete history of a
      passing run of the seek, snapshot and schema samples; every push envelope
      is read back, and the push sample passes exactly with the message it
      published; drains take out and acknowledge everything and end; checks that
      promise more than they test.

    ** Bounds and fuel

    [Tracker.advance_loop] has fuel for one more round than the window has bits
    and stops at a hole before it runs out ([TrackerBits.advance_loop_stops]).
    [InflightCap.chunks] has fuel for its list, shown to lose nothing.  The JSON
    parser has fuel for two calls per byte and one more, and any larger fuel
    gives the same ([GoJson.parse_fuel]).  The waiting loops of the samples
    ([ExampleLib.drain_loop], [Examples.ordering_pull],
    [Examples.dead_letter_drive]) take fuel and say [OutOfFuel] when it is used
    up; their theorems hold for any fuel, and with a clock that advances between
    its readings the window divided by the step is enough
    ([ExampleVerify.drain_terminates]).  The other recursions are structural.
    [rw_ok] asks of a reorder window what validation asks (at least 1) and that
    rounding it up to words does not overflow an int, as it must for the window's
    array to be allocated at all.

    ** Not modelled

    The YAML decoder, whose outcome is an argument of [Config.Load]; the clients,
    streams and sockets behind the calls, and [net/http]; the Prometheus registry
    and the HDR histogram; the log lines other than those of [Console] and
    [Process]; contexts and timeouts of the samples, which are part of what a
    call answers; the helpers the samples repeat word for word, which are
    modelled once; the samples in other languages, which repeat the Go ones.
    What is left of the Go code beside these is declarations and one-line
    wrappers of the standard library. *)
From stdpp Require Export base list gmap strings fin_maps sets fin_sets.
From Stdlib Require Export ZArith Lia Bool.

Global Open Scope Z_scope.

(** ** Go's fixed-width integers

    A [uint64] is a [Z] in [0, 2^64); an [int] is a [Z] in [-2^63, 2^63).
    Every arithmetic operation of the source that can leave the range is
    written with the wrap-around made explicit. *)
Definition two64 : Z := 18446744073709551616.
Definition two63 : Z := 9223372036854775808.

(** Reduction of an integer to the [uint64] range. *)
Definition u64 (z : Z) : Z := z mod two64.
(** Conversion to [int] (and [int64]): two's complement. *)
Definition to_int (z : Z) : Z := (z + two63) mod two64 - two63.

Definition is_u64 (z : Z) : Prop := 0 <= z < two64.
Definition is_int (z : Z) : Prop := - two63 <= z < two63.

Global Instance is_u64_dec z : Decision (is_u64 z).
Proof. unfold is_u64. apply _. Defined.
Global Instance is_int_dec z : Decision (is_int z).
Proof. unfold is_int. apply _. Defined.

Definition uadd (a b : Z) : Z := u64 (a + b).
Definition usub (a b : Z) : Z := u64 (a - b).

Declare Scope go_scope.
Delimit Scope go_scope with go.
Infix "+u" := uadd (at level 50, left associativity) : go_scope.
Infix "-u" := usub (at level 50, left associativity) : go_scope.
Global Open Scope go_scope.

(** The development's hint databases: [u64] for range facts, [go] for the
    components' invariants. *)
Create HintDb u64 discriminated.
Create HintDb go.
Create HintDb bits.

Lemma two64_pow : two64 = 2 ^ 64.
Proof. reflexivity. Qed.

Lemma u64_range z : is_u64 (u64 z).
Proof. unfold is_u64, u64. apply Z.mod_pos_bound. done. Qed.

Lemma u64_small z : is_u64 z -> u64 z = z.
Proof. intros H. by apply Z.mod_small. Qed.

Lemma to_int_small z : is_int z -> to_int z = z.
Proof.
  unfold is_int, to_int, two63, two64. intros H.
  rewrite Z.mod_small; lia.
Qed.

Lemma to_int_range z : is_int (to_int z).
Proof.
  unfold is_int, to_int. pose proof (Z.mod_pos_bound (z + two63) two64).
  unfold two64, two63 in *. lia.
Qed.

Lemma uadd_small a b : is_u64 (a + b) -> a +u b = a + b.
Proof. apply u64_small. Qed.

Lemma usub_small a b : is_u64 (a - b) -> a -u b = a - b.
Proof. apply u64_small. Qed.

Lemma uadd_range a b : is_u64 (a +u b).
Proof. apply u64_range. Qed.
Lemma usub_range a b : is_u64 (a -u b).
Proof. apply u64_range. Qed.
#[export] Hint Resolve u64_range uadd_range usub_range to_int_range : u64.

(** Unfold the range predicates everywhere and finish by [lia]. *)
Ltac range := unfold is_u64, is_int, two64, two63 in *; lia.

(** Rewrite the wrapping operations away where their operands stay in range. *)
Ltac unwrap :=
  repeat match goal with
  | |- context [?a +u ?b] => rewrite (uadd_small a b) by range
  | |- context [?a -u ?b] => rewrite (usub_small a b) by range
  | |- context [u64 ?a] => rewrite (u64_small a) by range
  | |- context [to_int ?a] => rewrite (to_int_small a) by range
  end.

(** Equations modulo 2^64 whose left-hand side has one wrapped sum. *)
Lemma uadd_quot a b : exists q, a +u b = a + b + q * two64.
Proof. exists (- ((a + b) / two64)). unfold uadd, u64. rewrite Z.mod_eq by done. lia. Qed.
Lemma u64_shift a b q : a = b + q * two64 -> u64 a = u64 b.
Proof. intros ->. apply Z_mod_plus_full. Qed.
Ltac wrap_eq :=
  match goal with
  | |- context [?a +u ?b] => let q := fresh in destruct (uadd_quot a b) as [q ->]; apply (u64_shift _ _ q); lia
  | |- _ => f_equal; lia
  end.

(** Boolean comparisons of [Z] in hypotheses and goal as propositions. *)
Ltac zbool :=
  repeat match goal with
  | H : (_ <? _) = true |- _ => apply Z.ltb_lt in H
  | H : (_ <? _) = false |- _ => apply Z.ltb_ge in H
  | H : (_ <=? _) = true |- _ => apply Z.leb_le in H
  | H : (_ <=? _) = false |- _ => apply Z.leb_gt in H
  | H : (_ =? _) = true |- _ => apply Z.eqb_eq in H
  | H : (_ =? _) = false |- _ => apply Z.eqb_neq in H
  | H : (_ && _) = true |- _ => apply andb_true_iff in H as [? ?]
  | H : (_ || _) = false |- _ => apply orb_false_iff in H as [? ?]
  | H : negb _ = true |- _ => apply negb_true_iff in H
  | H : negb _ = false |- _ => apply negb_false_iff in H
  end.

(** Case analysis on the first [if] of the goal whose test is a comparison. *)
Ltac case_if :=
  match goal with
  | |- context [if ?b then _ else _] => destruct b eqn:?; zbool
  end.

(** ** Bits *)

Lemma testbit_pow2 n m : 0 <= n -> Z.testbit (Z.shiftl 1 n) m = bool_decide (n = m).
Proof.
  intros Hn. rewrite Z.shiftl_1_l. case_bool_decide; subst.
  - by apply Z.pow2_bits_true.
  - by apply Z.pow2_bits_false.
Qed.

Lemma testbit_high w n : 0 <= w < 2 ^ 64 -> 64 <= n -> Z.testbit w n = false.
Proof.
  intros Hw Hn. rewrite <- (Z.mod_small w (2 ^ 64)) by done.
  by apply Z.mod_pow2_bits_high.
Qed.

(** [w & (1 << n) != 0] is the test of bit [n]. *)
Lemma land_pow2_nonzero w n :
  0 <= n -> negb (Z.land w (Z.shiftl 1 n) =? 0) = Z.testbit w n.
Proof.
  intros Hn. destruct (Z.testbit w n) eqn:E.
  - apply negb_true_iff, Z.eqb_neq. intros H.
    assert (Z.testbit (Z.land w (Z.shiftl 1 n)) n = false) as F
      by (rewrite H; apply Z.bits_0).
    rewrite Z.land_spec, testbit_pow2, bool_decide_true, E in F by done. done.
  - apply negb_false_iff, Z.eqb_eq, Z.bits_inj'. intros m Hm.
    rewrite Z.land_spec, testbit_pow2, Z.bits_0 by done.
    case_bool_decide; subst; [by rewrite E | apply andb_false_r].
Qed.

(** ** Maps used as counters: the total of a field over a map *)
Definition map_total {A} (f : A -> Z) (m : gmap string A) : Z :=
  map_fold (fun _ x acc => acc + f x) 0 m.

Lemma map_total_empty {A} (f : A -> Z) : map_total f ∅ = 0.
Proof. apply map_fold_empty. Qed.

Lemma map_total_insert_new {A} (f : A -> Z) m k x :
  m !! k = None -> map_total f (<[k:=x]> m) = f x + map_total f m.
Proof.
  intros H. unfold map_total. rewrite map_fold_insert_L; [lia | | done].
  intros; lia.
Qed.

Lemma map_total_insert_old {A} (f : A -> Z) m k x y :
  m !! k = Some y -> map_total f (<[k:=x]> m) = map_total f m - f y + f x.
Proof.
  intros H.
  assert (map_total f m = f y + map_total f (delete k m)) as ->.
  { rewrite <- (map_total_insert_new f _ k) by apply lookup_delete_eq.
    by rewrite insert_delete_id. }
  rewrite <- insert_delete_eq, map_total_insert_new by apply lookup_delete_eq. lia.
Qed.

Lemma map_total_nonneg {A} (f : A -> Z) m :
  (forall k x, m !! k = Some x -> 0 <= f x) -> 0 <= map_total f m.
Proof.
  induction m as [|k x m Hk IH] using map_ind; intros H.
  - by rewrite map_total_empty.
  - rewrite map_total_insert_new by done.
    assert (0 <= f x) by (apply (H k); by simplify_map_eq).
    assert (0 <= map_total f m); [apply IH | lia].
    intros k' y Hy. apply (H k'). rewrite lookup_insert_ne; [done | congruence].
Qed.

(** ** Sets *)

Lemma size_remove (s : gset Z) (x : Z) : x ∈ s -> S (size (s ∖ {[ x ]})) = size s.
Proof.
  intros Hx. rewrite size_difference by set_solver. rewrite size_singleton.
  assert (size s <> 0%nat) by (intros ?%size_empty_inv; set_solver). lia.
Qed.

(** ** Sums of lists *)

Fixpoint zsum (l : list Z) : Z := match l with [] => 0 | x :: l' => x + zsum l' end.

Lemma zsum_app l1 l2 : zsum (l1 ++ l2) = zsum l1 + zsum l2.
Proof. induction l1 as [|x l1 IH]; simpl; lia. Qed.

Lemma zsum_nonneg l : Forall (fun x => 0 <= x) l -> 0 <= zsum l.
Proof. induction 1; simpl; lia. Qed.

Lemma zsum_replicate n x : zsum (replicate n x) = Z.of_nat n * x.
Proof. induction n as [|n IH]; simpl; lia. Qed.

Lemma zsum_insert l i x y : l !! i = Some x -> zsum (<[i := y]> l) = zsum l - x + y.
Proof.
  revert i. induction l as [|a l IH]; intros [|i] H; simplify_eq/=; [lia|]. rewrite (IH i H). lia.
Qed.

Lemma zsum_alter f l i x : l !! i = Some x -> zsum (alter f i l) = zsum l - x + f x.
Proof.
  revert i. induction l as [|a l IH]; intros [|i] H; simplify_eq/=; [lia|]. rewrite (IH i H). lia.
Qed.

Lemma to_int_add a b : to_int (to_int a + b) = to_int (a + b).
Proof.
  unfold to_int. replace ((a + two63) mod two64 - two63 + b + two63) with ((a + two63) mod two64 + b) by lia.
  rewrite Zplus_mod_idemp_l. f_equal. f_equal. lia.
Qed.
Lemma to_int_shift a b : to_int (a + to_int b) = to_int (a + b).
Proof. by rewrite Z.add_comm, to_int_add, Z.add_comm. Qed.

(** A sum that wraps at every step has wrapped once. *)
Lemma foldl_wrap_zsum l a : is_int a -> foldl (fun n b => to_int (n + b)) a l = to_int (a + zsum l).
Proof.
  revert a. induction l as [|x l IH]; intros a Ha; cbn [foldl]; [by rewrite Z.add_0_r, to_int_small|].
  rewrite IH, to_int_add by apply to_int_range. f_equal. cbn. lia.
Qed.
Lemma foldl_add_zsum l a : foldl Z.add a l = a + zsum l.
Proof. revert a. induction l as [|x l IH]; intros a; simpl; [lia|]. rewrite IH. lia. Qed.

(** The first [n] entries of a history, as one more is put in front. *)
Lemma zsum_take_cons n l x :
  (0 < n)%nat -> zsum (take n (x :: l)) = x + zsum (take n l) - nth (n - 1) l 0.
Proof.
  intros Hn. destruct n as [|n]; [lia|]. simpl. rewrite Nat.sub_0_r.
  revert l. induction n as [|n IH]; intros [|a l]; simpl; try lia.
  - specialize (IH ltac:(lia) l). lia.
Qed.

(** ** Interleavings

    [interleave ts l]: [l] is a merge of the lists [ts], each kept in order. *)
Inductive interleave {A} : list (list A) -> list A -> Prop :=
| interleave_done ts : Forall (eq []) ts -> interleave ts []
| interleave_step ts i x t l : ts !! i = Some (x :: t) -> interleave (<[i := t]> ts) l -> interleave ts (x :: l).
