(* ===== verification/Tracker.v ===== *)
(** * burnin/tracker: per-producer sequence tracking

    The package [tracker]: a bitset window of [reorderWindow] sequences above
    a contiguous watermark, per producer, with the counters it keeps.  This
    file holds the data and the operations; [TrackerBits] the theory of the
    window, [TrackerSpec] the abstract specification and the theorems. *)
From S2P Require Import Prelude.

(** ** Data (tracker.go, types [Tracker], [producerState], [ProducerStats]) *)

(** [window] is Go's [[]uint64]; [pendingLost] is Go's
    [map[uint64]struct{}], where a nil map and an empty one behave alike. *)
Record producerState := mkPS {
  ps_highContiguous : Z;
  ps_window : list Z;
  ps_received : Z;
  ps_duplicates : Z;
  ps_outOfOrder : Z;
  ps_confirmedLost : Z;
  ps_pendingLost : gset Z;
  ps_lastReportedLost : Z;
  ps_lastSeen : Z
}.

Record Tracker := mkTracker {
  reorderWindow : Z;
  producers : gmap string producerState
}.

Record ProducerStats := mkStats {
  st_Received : Z;
  st_Duplicates : Z;
  st_OutOfOrder : Z;
  st_ConfirmedLost : Z
}.

(** Field updates of [producerState]: the source assigns in place. *)
Definition ps_set_received (ps : producerState) (v : Z) : producerState :=
  mkPS (ps_highContiguous ps) (ps_window ps) v (ps_duplicates ps) (ps_outOfOrder ps)
       (ps_confirmedLost ps) (ps_pendingLost ps) (ps_lastReportedLost ps) (ps_lastSeen ps).
Definition ps_set_duplicates (ps : producerState) (v : Z) : producerState :=
  mkPS (ps_highContiguous ps) (ps_window ps) (ps_received ps) v (ps_outOfOrder ps)
       (ps_confirmedLost ps) (ps_pendingLost ps) (ps_lastReportedLost ps) (ps_lastSeen ps).
Definition ps_set_outOfOrder (ps : producerState) (v : Z) : producerState :=
  mkPS (ps_highContiguous ps) (ps_window ps) (ps_received ps) (ps_duplicates ps) v
       (ps_confirmedLost ps) (ps_pendingLost ps) (ps_lastReportedLost ps) (ps_lastSeen ps).
Definition ps_set_lost (ps : producerState) (pend : gset Z) : producerState :=
  mkPS (ps_highContiguous ps) (ps_window ps) (ps_received ps) (ps_duplicates ps)
       (ps_outOfOrder ps) (u64 (Z.of_nat (size pend))) pend
       (ps_lastReportedLost ps) (ps_lastSeen ps).
Definition ps_set_lastReportedLost (ps : producerState) (v : Z) : producerState :=
  mkPS (ps_highContiguous ps) (ps_window ps) (ps_received ps) (ps_duplicates ps)
       (ps_outOfOrder ps) (ps_confirmedLost ps) (ps_pendingLost ps) v (ps_lastSeen ps).
Definition ps_set_lastSeen (ps : producerState) (v : Z) : producerState :=
  mkPS (ps_highContiguous ps) (ps_window ps) (ps_received ps) (ps_duplicates ps)
       (ps_outOfOrder ps) (ps_confirmedLost ps) (ps_pendingLost ps)
       (ps_lastReportedLost ps) v.
Definition ps_set_window (ps : producerState) (high : Z) (w : list Z) : producerState :=
  mkPS high w (ps_received ps) (ps_duplicates ps) (ps_outOfOrder ps) (ps_confirmedLost ps)
       (ps_pendingLost ps) (ps_lastReportedLost ps) (ps_lastSeen ps).

(** ** The bitset (setBit, getBit, shiftLeft) *)

Definition win_bits (window : list Z) : Z := Z.of_nat (length window) * 64.

Definition setBit (window : list Z) (pos : Z) : list Z :=
  if (pos <? 0) || (win_bits window <=? pos) then window
  else alter (fun w => Z.lor w (Z.shiftl 1 (pos mod 64))) (Z.to_nat (pos / 64)) window.

Definition getBit (window : list Z) (pos : Z) : bool :=
  if (pos <? 0) || (win_bits window <=? pos) then false
  else match window !! Z.to_nat (pos / 64) with
       | Some w => negb (Z.land w (Z.shiftl 1 (pos mod 64)) =? 0)
       | None => false
       end.

(** The loop updates word [i] from the still unshifted word [i+1]. *)
Fixpoint shiftLeft (window : list Z) : list Z :=
  match window with
  | [] => []
  | w :: rest =>
      match rest with
      | [] => Z.shiftr w 1
      | w' :: _ => Z.lor (Z.shiftr w 1) (Z.shiftl (Z.land w' 1) 63)
      end :: shiftLeft rest
  end.

(** ** The watermark *)

(** [for getBit(window, 0) { highContiguous++; shiftLeft(window) }].  Every
    round shifts a bit out of the window, so a fuel of one more than the
    number of bits is never exhausted ([TrackerBits.advance_loop_stops]). *)
Fixpoint advance_loop (fuel : nat) (high : Z) (window : list Z) : Z * list Z :=
  match fuel with
  | O => (high, window)
  | S fuel' =>
      if getBit window 0 then advance_loop fuel' (high +u 1) (shiftLeft window)
      else (high, window)
  end.

Definition advance_fuel (window : list Z) : nat := S (64 * length window).

Definition advanceContiguous (ps : producerState) : producerState :=
  let '(high, w) := advance_loop (advance_fuel (ps_window ps)) (ps_highContiguous ps) (ps_window ps) in
  ps_set_window ps high w.

(** First loop of [slideWindow]: the unseen sequences among the first [n]
    positions from [i] on, added to the pending set. *)
Fixpoint mark_pending (window : list Z) (high : Z) (i : Z) (n : nat) (pend : gset Z) : gset Z :=
  match n with
  | O => pend
  | S n' =>
      mark_pending window high (i + 1) n'
        (if getBit window (to_int i) then pend else {[ high +u 1 +u i ]} ∪ pend)
  end.

Definition slideWindow (rw : Z) (ps : producerState) (newSeq : Z) : producerState :=
  let newHigh := newSeq -u u64 rw -u 1 in
  if newHigh <=? ps_highContiguous ps then
    let offset := newSeq -u ps_highContiguous ps -u 1 in
    if to_int offset <? rw
    then ps_set_window ps (ps_highContiguous ps) (setBit (ps_window ps) (to_int offset))
    else ps
  else
    let slideDist0 := newHigh -u ps_highContiguous ps in
    let slideDist := if u64 rw <? slideDist0 then u64 rw else slideDist0 in
    let pend := mark_pending (ps_window ps) (ps_highContiguous ps) 0 (Z.to_nat slideDist)
                  (ps_pendingLost ps) in
    let ps1 := ps_set_lost ps pend in
    let ps2 := ps_set_window ps1 newHigh (Nat.iter (Z.to_nat slideDist) shiftLeft (ps_window ps1)) in
    let offset := newSeq -u newHigh -u 1 in
    let ps3 := if to_int offset <? rw
               then ps_set_window ps2 newHigh (setBit (ps_window ps2) (to_int offset))
               else ps2 in
    advanceContiguous ps3.

(** ** Operations of [*Tracker]

    The mutex makes every exported method atomic, so each one is a function
    from tracker to tracker. *)

Definition New (rw : Z) : Tracker := mkTracker rw ∅.

(** The state a producer's first sequence creates. *)
Definition record_first (rw seq : Z) : producerState :=
  let ps := mkPS (seq -u 1) (replicate (Z.to_nat (Z.quot (to_int (rw + 63)) 64)) 0)
                 0 0 0 0 ∅ 0 seq in
  let ps := ps_set_window ps (ps_highContiguous ps) (setBit (ps_window ps) 0) in
  let ps := ps_set_received ps (ps_received ps +u 1) in
  advanceContiguous ps.

(** [Record] on a producer already known: the new state and the results
    [(isDuplicate, isOutOfOrder)]. *)
Definition record_known (rw : Z) (ps : producerState) (seq : Z) : producerState * (bool * bool) :=
  let ps := ps_set_received ps (ps_received ps +u 1) in
  let isOutOfOrder := seq <? ps_lastSeen ps in
  let ps := if isOutOfOrder then ps_set_outOfOrder ps (ps_outOfOrder ps +u 1) else ps in
  let ps := ps_set_lastSeen ps seq in
  if seq <=? ps_highContiguous ps then
    if bool_decide (seq ∈ ps_pendingLost ps) then
      (ps_set_lost ps (ps_pendingLost ps ∖ {[ seq ]}), (false, isOutOfOrder))
    else (ps_set_duplicates ps (ps_duplicates ps +u 1), (true, isOutOfOrder))
  else
    let offset := seq -u ps_highContiguous ps -u 1 in
    if u64 rw <=? offset then (slideWindow rw ps seq, (false, isOutOfOrder))
    else if getBit (ps_window ps) (to_int offset) then
      (ps_set_duplicates ps (ps_duplicates ps +u 1), (true, isOutOfOrder))
    else
      let ps := ps_set_window ps (ps_highContiguous ps) (setBit (ps_window ps) (to_int offset)) in
      (advanceContiguous ps, (false, isOutOfOrder)).

Definition Record_ (t : Tracker) (producerID : string) (seq : Z) : Tracker * (bool * bool) :=
  match producers t !! producerID with
  | None =>
      (mkTracker (reorderWindow t)
         (<[producerID := record_first (reorderWindow t) seq]> (producers t)), (false, false))
  | Some ps =>
      let '(ps', res) := record_known (reorderWindow t) ps seq in
      (mkTracker (reorderWindow t) (<[producerID := ps']> (producers t)), res)
  end.

(** The delta of one producer; only positive deltas enter the result map. *)
Definition gap_delta (ps : producerState) : option Z :=
  if ps_lastReportedLost ps <? ps_confirmedLost ps
  then Some (ps_confirmedLost ps -u ps_lastReportedLost ps) else None.

Definition DetectGaps (t : Tracker) : Tracker * gmap string Z :=
  (mkTracker (reorderWindow t)
     ((fun ps => ps_set_lastReportedLost ps (ps_confirmedLost ps)) <$> producers t),
   omap gap_delta (producers t)).

Definition Reset (t : Tracker) : Tracker := mkTracker (reorderWindow t) ∅.

Definition Stats (t : Tracker) : gmap string ProducerStats :=
  (fun ps => mkStats (ps_received ps) (ps_duplicates ps) (ps_outOfOrder ps) (ps_confirmedLost ps))
    <$> producers t.

Definition sum (t : Tracker) (f : producerState -> Z) : Z :=
  map_fold (fun _ ps total => total +u f ps) 0 (producers t).

Definition TotalReceived (t : Tracker) : Z := sum t ps_received.
Definition TotalDuplicates (t : Tracker) : Z := sum t ps_duplicates.
Definition TotalLost (t : Tracker) : Z := sum t ps_confirmedLost.
Definition TotalOutOfOrder (t : Tracker) : Z := sum t ps_outOfOrder.

(** A run of [Record] calls on one producer. *)
Definition record_all (t : Tracker) (p : string) (seqs : list Z) : Tracker :=
  foldl (fun t s => fst (Record_ t p s)) t seqs.

(** The tests of tracker_recovery_test.go. *)
Example suspected_loss_recovered_is_not_lost :
  let t := record_all (New 4) "p1" [1; 2; 3; 9] in
  TotalLost t = 1 /\
  let '(t', (dup, _)) := Record_ t "p1" 4 in dup = false /\ TotalLost t' = 0.
Proof. vm_compute. auto. Qed.

Example genuine_loss_stays_lost : TotalLost (record_all (New 4) "p1" [1; 2; 3; 9]) = 1.
Proof. vm_compute. reflexivity. Qed.

Example true_duplicate_still_counts :
  let t := record_all (New 8) "p1" [1] in
  let '(t', (dup, _)) := Record_ t "p1" 1 in
  dup = true /\ TotalLost t' = 0 /\ TotalDuplicates t' = 1.
Proof. vm_compute. auto. Qed.
