(* ===== verification/TrackerBits.v ===== *)
(** * The bitset window of burnin/tracker

    What [setBit], [getBit], [shiftLeft] and the watermark loop do to the set
    of positions a window holds; the loop's termination. *)
From S2P Require Import Prelude Tracker.

(** Every word of the window is a [uint64]. *)
Definition words_ok (w : list Z) : Prop := Forall is_u64 w.

Section window.
Implicit Types (w : list Z) (p q : Z).

Lemma div64_lt w p : 0 <= p < win_bits w -> (Z.to_nat (p / 64) < length w)%nat.
Proof.
  unfold win_bits. intros H.
  assert (p / 64 < Z.of_nat (length w)) by (apply Z.div_lt_upper_bound; lia).
  assert (0 <= p / 64) by (apply Z.div_pos; lia). lia.
Qed.

Lemma getBit_out w p : p < 0 \/ win_bits w <= p -> getBit w p = false.
Proof.
  intros H. unfold getBit. assert ((p <? 0) || (win_bits w <=? p) = true) as ->; [|done].
  apply orb_true_iff. rewrite Z.ltb_lt, Z.leb_le. lia.
Qed.

Lemma in_window_test w p : 0 <= p < win_bits w -> (p <? 0) || (win_bits w <=? p) = false.
Proof. intros H. apply orb_false_iff. rewrite Z.ltb_ge, Z.leb_gt. lia. Qed.

(** Inside the window a bit of the array is a bit of a word. *)
Lemma getBit_in w p x :
  0 <= p < win_bits w -> w !! Z.to_nat (p / 64) = Some x ->
  getBit w p = Z.testbit x (p mod 64).
Proof.
  intros Hp Hx. unfold getBit. rewrite in_window_test, Hx by done.
  apply land_pow2_nonzero, Z.mod_pos_bound. done.
Qed.

Lemma getBit_true_range w p : getBit w p = true -> 0 <= p < win_bits w.
Proof.
  intros H. destruct (decide (0 <= p < win_bits w)); [done|].
  rewrite getBit_out in H by lia. done.
Qed.

Lemma lookup_word w p : 0 <= p < win_bits w -> exists x, w !! Z.to_nat (p / 64) = Some x.
Proof. intros H. by apply lookup_lt_is_Some_2, div64_lt. Qed.

(** *** setBit *)

Lemma length_setBit w p : length (setBit w p) = length w.
Proof. unfold setBit. case_if; [done | apply length_alter]. Qed.

Lemma win_bits_setBit w p : win_bits (setBit w p) = win_bits w.
Proof. unfold win_bits. by rewrite length_setBit. Qed.

Lemma pow2_u64 n : 0 <= n < 64 -> is_u64 (Z.shiftl 1 n).
Proof.
  intros H. rewrite Z.shiftl_1_l. unfold is_u64. rewrite two64_pow. split.
  - apply Z.pow_nonneg. lia.
  - apply Z.pow_lt_mono_r; lia.
Qed.

Lemma lor_u64 a b : is_u64 a -> is_u64 b -> is_u64 (Z.lor a b).
Proof.
  unfold is_u64. rewrite two64_pow. intros [Ha Ha'] [Hb Hb'].
  assert (0 <= Z.lor a b) by (by apply Z.lor_nonneg). split; [done|].
  destruct (decide (Z.lor a b = 0)) as [->|Hn]; [done|].
  apply Z.log2_lt_pow2; [lia|]. rewrite Z.log2_lor by done.
  assert (forall x, 0 <= x < 2 ^ 64 -> Z.log2 x < 64) as L.
  { intros x Hx. destruct (decide (x = 0)) as [->|]; [done|].
    apply Z.log2_lt_pow2; lia. }
  apply Z.max_lub_lt; apply L; lia.
Qed.

Lemma setBit_words w p : words_ok w -> words_ok (setBit w p).
Proof.
  unfold words_ok, setBit. intros H. case_if; [done|].
  apply Forall_alter; [done|]. intros x _ Hx. apply lor_u64; [done|].
  apply pow2_u64, Z.mod_pos_bound. done.
Qed.

Lemma getBit_setBit w p q :
  0 <= p < win_bits w -> getBit (setBit w p) q = bool_decide (p = q) || getBit w q.
Proof.
  intros Hp. destruct (decide (0 <= q < win_bits w)) as [Hq|Hq].
  2:{ rewrite !getBit_out, bool_decide_false; rewrite ?win_bits_setBit; [done|lia..]. }
  destruct (lookup_word w q Hq) as [x Hx].
  rewrite (getBit_in w q x Hq Hx).
  unfold setBit. rewrite in_window_test by done.
  set (w' := alter _ _ w). assert (0 <= q < win_bits w') as Hq'.
  { unfold win_bits, w'. rewrite length_alter. done. }
  pose proof (Z.div_mod p 64). pose proof (Z.div_mod q 64).
  assert (0 <= p / 64) by (apply Z.div_pos; lia).
  assert (0 <= q / 64) by (apply Z.div_pos; lia).
  destruct (decide (p / 64 = q / 64)) as [E|E].
  - erewrite (getBit_in w' q); [|done|].
    2:{ unfold w'. rewrite E, list_lookup_alter_eq, Hx. done. }
    rewrite Z.lor_spec, testbit_pow2, orb_comm by (apply Z.mod_pos_bound; done).
    f_equal. apply bool_decide_ext. split; [|by intros ->]. intros. lia.
  - erewrite (getBit_in w' q x); [|done|].
    2:{ unfold w'. rewrite list_lookup_alter_ne; [done|]. lia. }
    rewrite bool_decide_false; [done | congruence].
Qed.

(** *** shiftLeft *)

Lemma length_shiftLeft w : length (shiftLeft w) = length w.
Proof. induction w as [|x w IH]; simpl; [done|]. by rewrite IH. Qed.

Lemma win_bits_shiftLeft w : win_bits (shiftLeft w) = win_bits w.
Proof. unfold win_bits. by rewrite length_shiftLeft. Qed.

Definition shift_word (x : Z) (next : option Z) : Z :=
  match next with
  | None => Z.shiftr x 1
  | Some y => Z.lor (Z.shiftr x 1) (Z.shiftl (Z.land y 1) 63)
  end.

Lemma lookup_shiftLeft w i :
  shiftLeft w !! i = (fun x => shift_word x (w !! S i)) <$> w !! i.
Proof.
  revert i. induction w as [|x w IH]; intros [|i]; try done.
  - simpl. by destruct w.
  - simpl. by rewrite IH.
Qed.

Lemma testbit_land_1 y i : 0 <= i -> Z.testbit (Z.land y 1) i = bool_decide (i = 0) && Z.testbit y 0.
Proof.
  intros Hi. rewrite Z.land_spec, (testbit_pow2 0) by done.
  rewrite andb_comm. case_bool_decide; case_bool_decide; subst; done || lia.
Qed.

Lemma shift_word_bit x next r :
  is_u64 x -> 0 <= r < 64 ->
  Z.testbit (shift_word x next) r =
    if r =? 63 then match next with Some y => Z.testbit y 0 | None => false end
    else Z.testbit x (r + 1).
Proof.
  unfold is_u64. rewrite two64_pow. intros Hx Hr.
  assert (Z.testbit (Z.shiftr x 1) r = Z.testbit x (r + 1)) as S1
    by (apply Z.shiftr_spec; lia).
  unfold shift_word. destruct next as [y|].
  - rewrite Z.lor_spec, S1, Z.shiftl_spec by lia. case_if.
    + subst. rewrite (testbit_high x) by lia. by rewrite testbit_land_1 by done.
    + rewrite (Z.testbit_neg_r (Z.land y 1)) by lia. apply orb_false_r.
  - rewrite S1. case_if; [|done]. subst. by rewrite (testbit_high x) by lia.
Qed.

Lemma shift_word_u64 x next :
  is_u64 x -> (forall y, next = Some y -> is_u64 y) -> is_u64 (shift_word x next).
Proof.
  intros Hx Hn. assert (is_u64 (Z.shiftr x 1)) as H1.
  { unfold is_u64 in *. rewrite Z.shiftr_div_pow2 by done.
    split; [apply Z.div_pos; lia|].
    apply Z.div_lt_upper_bound; [done|]. change (2 ^ 1) with 2. lia. }
  destruct next as [y|]; [|done]. apply lor_u64; [done|].
  assert (Z.land y 1 = 0 \/ Z.land y 1 = 1) as [->| ->].
  { pose proof (Z.land_ones y 1 ltac:(lia)) as L. change (Z.ones 1) with 1 in L.
    change (2 ^ 1) with 2 in L. pose proof (Z.mod_pos_bound y 2). lia. }
  - done.
  - by apply pow2_u64.
Qed.

Lemma shiftLeft_words w : words_ok w -> words_ok (shiftLeft w).
Proof.
  unfold words_ok. rewrite !Forall_lookup. intros H i x Hx.
  rewrite lookup_shiftLeft in Hx. apply fmap_Some in Hx as (y & Hy & ->).
  apply shift_word_u64; eauto.
Qed.

(** Shifting the array moves every position down by one. *)
Lemma getBit_shiftLeft w q : words_ok w -> 0 <= q -> getBit (shiftLeft w) q = getBit w (q + 1).
Proof.
  intros Hw Hq0. destruct (decide (q < win_bits w)) as [Hq|Hq].
  2:{ rewrite !getBit_out; rewrite ?win_bits_shiftLeft; [done|lia..]. }
  destruct (lookup_word w q) as [x Hx]; [lia|].
  erewrite (getBit_in (shiftLeft w) q);
    [|by rewrite win_bits_shiftLeft | rewrite lookup_shiftLeft, Hx; done].
  pose proof (Z.mod_pos_bound q 64). pose proof (Z.div_mod q 64).
  rewrite shift_word_bit;
    [| by eapply Forall_lookup_1 in Hx | lia].
  case_if.
  - assert ((q + 1) / 64 = q / 64 + 1 /\ (q + 1) mod 64 = 0) as [Hd Hm]
      by (split; clear Hx; Z.div_mod_to_equations; lia).
    assert (0 <= q / 64) by (apply Z.div_pos; lia).
    assert (S (Z.to_nat (q / 64)) = Z.to_nat ((q + 1) / 64)) as -> by lia.
    destruct (w !! Z.to_nat ((q + 1) / 64)) as [y|] eqn:Ey.
    + rewrite (getBit_in w (q + 1) y); [by rewrite Hm| |done].
      apply lookup_lt_Some in Ey. unfold win_bits. lia.
    + rewrite getBit_out; [done|]. apply lookup_ge_None in Ey. unfold win_bits in *. lia.
  - assert ((q + 1) / 64 = q / 64 /\ (q + 1) mod 64 = q mod 64 + 1) as [Hd Hm]
      by (split; clear Hx; Z.div_mod_to_equations; lia).
    rewrite (getBit_in w (q + 1) x); [by rewrite Hm | |by rewrite Hd].
    apply lookup_lt_Some in Hx. unfold win_bits in *. lia.
Qed.

(** *** Iterated shifts *)

Lemma iter_shift_words n w : words_ok w -> words_ok (Nat.iter n shiftLeft w).
Proof. induction n; simpl; auto using shiftLeft_words. Qed.

Lemma win_bits_iter_shift n w : win_bits (Nat.iter n shiftLeft w) = win_bits w.
Proof. induction n; simpl; [done|]. by rewrite win_bits_shiftLeft. Qed.

Lemma getBit_iter_shift n w q :
  words_ok w -> 0 <= q -> getBit (Nat.iter n shiftLeft w) q = getBit w (q + Z.of_nat n).
Proof.
  intros Hw. revert q. induction n as [|n IH]; intros q Hq; simpl.
  - by rewrite Z.add_0_r.
  - rewrite getBit_shiftLeft by (auto using iter_shift_words).
    rewrite IH by lia. f_equal. lia.
Qed.
End window.

#[export] Hint Resolve setBit_words shiftLeft_words iter_shift_words : go.

(** ** The watermark loop *)

(** A loop of [advanceContiguous] with more fuel than the position of the
    highest bit ends because it found a hole. *)
Lemma advance_loop_hole fuel high w m :
  words_ok w -> (forall q, Z.of_nat m <= q -> getBit w q = false) -> (m < fuel)%nat ->
  getBit (snd (advance_loop fuel high w)) 0 = false.
Proof.
  revert high w m. induction fuel as [|f IH]; intros high w m Hw Hz Hm; [lia|].
  cbn [advance_loop]. destruct (getBit w 0) eqn:E; [|done].
  destruct m as [|m]; [by rewrite Hz in E by lia|].
  apply (IH _ _ m); [by apply shiftLeft_words| |lia].
  intros q Hq. rewrite getBit_shiftLeft by (done || lia). apply Hz. lia.
Qed.

Lemma advance_loop_stops high w : words_ok w -> getBit (snd (advance_loop (advance_fuel w) high w)) 0 = false.
Proof.
  intros Hw. apply (advance_loop_hole _ _ _ (64 * length w)); [done| |unfold advance_fuel; lia].
  intros q Hq. apply getBit_out. unfold win_bits. lia.
Qed.
