(* ===== verification/TrackerSpec.v ===== *)
(** * Specification of burnin/tracker and the refinement

    An abstract producer keeps a watermark, the set of sequences seen above it
    and the set of suspected losses, over unbounded integers.  The bitset code
    of [Tracker] refines it; the theorems about what [Record] reports are
    proved of the abstract producer and carried over. *)
From S2P Require Import Prelude Tracker TrackerBits.

(** ** The abstract producer *)

Record spec := mkSpec {
  sp_high : Z;
  sp_seen : gset Z;
  sp_pending : gset Z
}.

(** Raise the watermark over the seen sequences directly above it. *)
Fixpoint spec_advance (fuel : nat) (high : Z) (seen : gset Z) : Z * gset Z :=
  match fuel with
  | O => (high, seen)
  | S fuel' =>
      if bool_decide (high + 1 ∈ seen)
      then spec_advance fuel' (high + 1) (seen ∖ {[ high + 1 ]})
      else (high, seen)
  end.

Definition spec_settle (high : Z) (seen pending : gset Z) : spec :=
  let '(h, s) := spec_advance (S (size seen)) high seen in mkSpec h s pending.

(** The unseen sequences among the [n] first ones above [high]. *)
Definition unseen (high : Z) (n : Z) (seen : gset Z) : gset Z :=
  list_to_set (seqZ (high + 1) n) ∖ seen.

(** A sequence beyond the window: the watermark moves up to [rw + 1] below
    it, and at most [rw] of the sequences passed over become suspects. *)
Definition spec_slide (rw : Z) (st : spec) (seq : Z) : spec :=
  let newHigh := seq - rw - 1 in
  if newHigh <=? sp_high st then st
  else spec_settle newHigh (filter (fun s => newHigh < s) (sp_seen st))
         (unseen (sp_high st) (Z.min rw (newHigh - sp_high st)) (sp_seen st) ∪ sp_pending st).

(** The state and whether the arrival counts as a duplicate. *)
Definition spec_record (rw : Z) (st : spec) (seq : Z) : spec * bool :=
  if seq <=? sp_high st then
    if bool_decide (seq ∈ sp_pending st)
    then (mkSpec (sp_high st) (sp_seen st) (sp_pending st ∖ {[ seq ]}), false)
    else (st, true)
  else if sp_high st + rw <? seq then (spec_slide rw st seq, false)
  else if bool_decide (seq ∈ sp_seen st) then (st, true)
  else (spec_settle (sp_high st) ({[ seq ]} ∪ sp_seen st) (sp_pending st), false).

(** ** Simulation relation and representation invariant *)

(** The window holds exactly the set [seen], as offsets from [high + 1]. *)
Definition win_rel (high : Z) (w : list Z) (seen : gset Z) : Prop :=
  forall s, s ∈ seen <-> high < s /\ getBit w (s - high - 1) = true.

Record ps_wf (rw : Z) (ps : producerState) : Prop := {
  wf_words : words_ok (ps_window ps);
  wf_bits : rw <= win_bits (ps_window ps);
  wf_high : is_u64 (ps_highContiguous ps);
  wf_bound : forall p, getBit (ps_window ps) p = true ->
               p < rw /\ ps_highContiguous ps + 1 + p < two64;
  wf_zero : getBit (ps_window ps) 0 = false;
  wf_lost : ps_confirmedLost ps = u64 (Z.of_nat (size (ps_pendingLost ps)));
  wf_pending : forall s, s ∈ ps_pendingLost ps -> 0 <= s <= ps_highContiguous ps
}.

Record sim (ps : producerState) (st : spec) : Prop := {
  sim_high : ps_highContiguous ps = sp_high st;
  sim_window : win_rel (sp_high st) (ps_window ps) (sp_seen st);
  sim_pending : ps_pendingLost ps = sp_pending st
}.

(** Positive windows for which the size of the bitset does not leave [int]: for a
    larger one [rw + 63] wraps and [make] panics. *)
Definition rw_ok (rw : Z) : Prop := 0 < rw /\ rw + 63 < two63.
Definition seq_ok (s : Z) : Prop := 0 < s < two64.

Global Instance seq_ok_dec s : Decision (seq_ok s).
Proof. unfold seq_ok. apply _. Defined.

Section advance.

Lemma win_rel_shift high w seen :
  words_ok w -> win_rel high w seen -> getBit w 0 = true ->
  win_rel (high + 1) (shiftLeft w) (seen ∖ {[ high + 1 ]}).
Proof.
  intros Hw Hrel _ s. rewrite elem_of_difference, elem_of_singleton, (Hrel s). split.
  - intros [[Hs Hb] Hne]. split; [lia|]. rewrite getBit_shiftLeft by (done || lia).
    rewrite <- Hb. f_equal. lia.
  - intros [Hs Hb]. rewrite getBit_shiftLeft in Hb by (done || lia).
    split; [|lia]. split; [lia|]. rewrite <- Hb. f_equal. lia.
Qed.

(** The loop on words and the loop on sets go in lock step, and both stop
    because the first position is clear, never because fuel ran out. *)
Lemma advance_sim fuel1 fuel2 high w seen :
  words_ok w -> win_rel high w seen -> is_u64 high ->
  (forall p, getBit w p = true -> high + 1 + p < two64) ->
  (1 <= fuel1)%nat -> (forall q, Z.of_nat fuel1 - 1 <= q -> getBit w q = false) ->
  (size seen < fuel2)%nat ->
  exists h' w' seen',
    advance_loop fuel1 high w = (h', w') /\ spec_advance fuel2 high seen = (h', seen') /\
    words_ok w' /\ win_bits w' = win_bits w /\ win_rel h' w' seen' /\ getBit w' 0 = false /\
    is_u64 h' /\ high <= h' /\
    (forall p, getBit w' p = true -> getBit w (p + (h' - high)) = true /\ 0 <= p).
Proof.
  revert fuel2 high w seen. induction fuel1 as [|f IH]; intros fuel2 high w seen
    Hw Hrel Hh Hb Hf Hz Hsz; [lia|].
  assert (bool_decide (high + 1 ∈ seen) = getBit w 0) as Hhead.
  { destruct (getBit w 0) eqn:E.
    - apply bool_decide_eq_true, Hrel. split; [lia|].
      replace (high + 1 - high - 1) with 0 by lia. done.
    - apply bool_decide_eq_false. rewrite (Hrel (high + 1)). intros [_ H].
      replace (high + 1 - high - 1) with 0 in H by lia. congruence. }
  destruct fuel2 as [|f2]; [lia|]. simpl. rewrite Hhead.
  destruct (getBit w 0) eqn:E.
  - pose proof (Hb 0 E).
    assert (high +u 1 = high + 1) as Hu by (apply uadd_small; range).
    apply bool_decide_eq_true in Hhead.
    destruct (IH f2 (high + 1) (shiftLeft w) (seen ∖ {[ high + 1 ]}))
      as (h' & w' & s' & E1 & E2 & Hw' & Hbits & Hrel' & Hz' & Hh' & Hle & Hback).
    + auto with go.
    + by apply win_rel_shift.
    + range.
    + intros p Hp. pose proof (getBit_true_range _ _ Hp) as Hr.
      rewrite getBit_shiftLeft in Hp by (done || lia). specialize (Hb _ Hp). lia.
    + destruct f as [|f]; [|lia]. rewrite Hz in E by lia. done.
    + intros q Hq. destruct (decide (0 <= q)).
      * rewrite getBit_shiftLeft by done. apply Hz. lia.
      * apply getBit_out. lia.
    + pose proof (size_remove seen (high + 1) Hhead). lia.
    + rewrite win_bits_shiftLeft in Hbits.
      exists h', w', s'. rewrite Hu. split_and!; try done; try lia.
      intros p Hp. destruct (Hback p Hp) as [Hp1 Hp2]. split; [|done].
      rewrite getBit_shiftLeft in Hp1 by (done || lia). rewrite <- Hp1. f_equal. lia.
  - exists high, w, seen. split_and!; try done; try lia.
    intros p Hp. split; [|apply getBit_true_range in Hp; lia].
    replace (p + (high - high)) with p by lia. done.
Qed.
End advance.

(** ** The refinement *)

Section refine.
Context (rw : Z) (Hrw : rw_ok rw).

Lemma fuel_enough w q : Z.of_nat (advance_fuel w) - 1 <= q -> getBit w q = false.
Proof. intros H. apply getBit_out. unfold advance_fuel, win_bits in *. lia. Qed.

(** A state whose window may start with ones settles into a well-formed one. *)
Lemma advanceContiguous_sim ps seen :
  words_ok (ps_window ps) -> rw <= win_bits (ps_window ps) -> is_u64 (ps_highContiguous ps) ->
  (forall p, getBit (ps_window ps) p = true -> p < rw /\ ps_highContiguous ps + 1 + p < two64) ->
  ps_confirmedLost ps = u64 (Z.of_nat (size (ps_pendingLost ps))) ->
  (forall s, s ∈ ps_pendingLost ps -> 0 <= s <= ps_highContiguous ps) ->
  win_rel (ps_highContiguous ps) (ps_window ps) seen ->
  ps_wf rw (advanceContiguous ps) /\
  sim (advanceContiguous ps) (spec_settle (ps_highContiguous ps) seen (ps_pendingLost ps)).
Proof.
  intros Hw Hbits Hh Hb Hlost Hpend Hrel. unfold advanceContiguous, spec_settle.
  destruct (advance_sim (advance_fuel (ps_window ps)) (S (size seen)) (ps_highContiguous ps)
              (ps_window ps) seen)
    as (h' & w' & s' & -> & -> & Hw' & Hbits' & Hrel' & Hz' & Hh' & Hle & Hback);
    try done; try (unfold advance_fuel; lia).
  { intros p Hp. by apply Hb. }
  { apply fuel_enough. }
  split; [|by split]. split; simpl; try done; try lia.
  - intros p Hp. destruct (Hback p Hp) as [H1 H2]. specialize (Hb _ H1). lia.
  - intros s Hs. specialize (Hpend s Hs). lia.
Qed.

Lemma win_rel_set high w seen s :
  win_rel high w seen -> high < s -> s - high - 1 < win_bits w ->
  win_rel high (setBit w (s - high - 1)) ({[ s ]} ∪ seen).
Proof.
  intros Hrel Hs Hlt x. rewrite elem_of_union, elem_of_singleton, (Hrel x).
  rewrite getBit_setBit, orb_true_iff, bool_decide_eq_true by lia. split.
  - intros [->|[? ?]]; (split; [done|]); [by left | by right].
  - intros [Hx [E|E]]; [left; lia | by right].
Qed.

Lemma mark_pending_spec w high i n pend s :
  0 <= i -> 0 <= high -> high + 1 + i + Z.of_nat n <= two64 -> i + Z.of_nat n <= two63 ->
  s ∈ mark_pending w high i n pend <->
  s ∈ pend \/ exists j, i <= j < i + Z.of_nat n /\ getBit w j = false /\ s = high + 1 + j.
Proof.
  revert i pend. induction n as [|n IH]; intros i pend Hi Hh Hb Hj.
  - simpl. split; [by left|]. intros [?|(j & ? & _)]; [done|lia].
  - simpl mark_pending. rewrite IH by lia.
    assert (to_int i = i) as -> by (apply to_int_small; range).
    assert (high +u 1 +u i = high + 1 + i) as -> by (unwrap; range).
    split.
    + intros [H|(j & ? & ? & ?)]; [|right; exists j; lia || (split; [lia|done])].
      destruct (getBit w i) eqn:E; [by left|].
      apply elem_of_union in H as [->%elem_of_singleton|H]; [|by left].
      right. exists i. split; [lia|done].
    + intros [H|(j & Hj1 & Hj2 & ->)].
      * left. destruct (getBit w i); set_solver.
      * destruct (decide (j = i)) as [->|Hne].
        -- left. rewrite Hj2. set_solver.
        -- right. exists j. split; [lia|done].
Qed.

Lemma elem_of_unseen high n seen s :
  s ∈ unseen high n seen <-> high < s <= high + n /\ s ∉ seen.
Proof.
  unfold unseen. rewrite elem_of_difference, elem_of_list_to_set, elem_of_seqZ.
  split; intros [? ?]; split; (done || lia).
Qed.

(** [slideWindow] on a sequence at least [rw] above the watermark. *)
Lemma slideWindow_sim ps st seq :
  ps_wf rw ps -> sim ps st -> seq_ok seq -> sp_high st + rw < seq ->
  ps_wf rw (slideWindow rw ps seq) /\ sim (slideWindow rw ps seq) (spec_slide rw st seq).
Proof.
  intros Hwf Hsim Hseq Hfar. pose proof Hwf as [Hw Hbits Hh Hb Hz Hlost Hpend].
  pose proof Hsim as [Eh Erel Epend]. unfold rw_ok, seq_ok in *.
  rewrite <- Eh in *. set (high := ps_highContiguous ps) in *.
  unfold slideWindow, spec_slide. rewrite <- Eh. fold high.
  assert (u64 rw = rw) as -> by (apply u64_small; range).
  assert (seq -u rw -u 1 = seq - rw - 1) as -> by (unwrap; range).
  case_if.
  { assert (seq -u high -u 1 = rw) as ->.
    { rewrite (usub_small seq) by range. rewrite usub_small by range. lia. }
    rewrite to_int_small by range. by rewrite Z.ltb_irrefl. }
  assert (seq - rw - 1 -u high = seq - rw - 1 - high) as -> by (apply usub_small; range).
  assert (seq -u (seq - rw - 1) -u 1 = rw) as ->.
  { rewrite (usub_small seq) by range. rewrite usub_small by range. lia. }
  rewrite to_int_small, Z.ltb_irrefl by range.
  set (newHigh := seq - rw - 1) in *.
  replace (if rw <? newHigh - high then rw else newHigh - high)
    with (Z.min rw (newHigh - high)) by (case_if; lia).
  set (d := Z.min rw (newHigh - high)). fold high in Hpend.
  assert (mark_pending (ps_window ps) high 0 (Z.to_nat d) (ps_pendingLost ps)
          = unseen high d (sp_seen st) ∪ sp_pending st) as ->.
  { apply set_eq. intros s. rewrite mark_pending_spec by range.
    rewrite elem_of_union, elem_of_unseen, Epend, (Erel s). split.
    - intros [?|(j & Hj & Hg & ->)]; [by right|]. left. split; [lia|].
      intros [_ F]. replace (high + 1 + j - high - 1) with j in F by lia. congruence.
    - intros [[Hs Hn]|?]; [|by left]. right. exists (s - high - 1). split; [lia|].
      split; [|lia]. apply not_true_is_false. intros F. apply Hn. split; [lia|done]. }
  set (pend := unseen high d (sp_seen st) ∪ sp_pending st).
  apply (advanceContiguous_sim (ps_set_window (ps_set_lost ps pend) newHigh _)); simpl.
  - auto with go.
  - by rewrite win_bits_iter_shift.
  - range.
  - intros p Hp. pose proof (getBit_true_range _ _ Hp).
    rewrite getBit_iter_shift in Hp by (done || lia).
    specialize (Hb _ Hp). unfold d in Hb. lia.
  - done.
  - intros s Hs. apply elem_of_union in Hs as [Hs|Hs].
    + apply elem_of_unseen in Hs. unfold d in Hs. range.
    + rewrite <- Epend in Hs. specialize (Hpend s Hs). lia.
  - intros s. rewrite elem_of_filter, (Erel s). split.
    + intros [Hs [_ Hg]]. split; [done|]. rewrite getBit_iter_shift by (done || lia).
      rewrite <- Hg. f_equal. destruct (Hb _ Hg). unfold d. lia.
    + intros [Hs Hg]. pose proof (getBit_true_range _ _ Hg).
      rewrite getBit_iter_shift in Hg by (done || lia). split; [done|]. split; [lia|].
      destruct (Hb _ Hg) as [Hlt _]. rewrite <- Hg. f_equal. unfold d in *. lia.
Qed.
End refine.

Section refine_record.
Context (rw : Z) (Hrw : rw_ok rw).

(** The bookkeeping fields do not matter to the window and the loss set. *)
Lemma wf_frame ps ps' :
  ps_window ps' = ps_window ps -> ps_highContiguous ps' = ps_highContiguous ps ->
  ps_pendingLost ps' = ps_pendingLost ps -> ps_confirmedLost ps' = ps_confirmedLost ps ->
  ps_wf rw ps -> ps_wf rw ps'.
Proof. intros E1 E2 E3 E4 []. split; rewrite ?E1, ?E2, ?E3, ?E4; done. Qed.

Lemma sim_frame ps ps' st :
  ps_window ps' = ps_window ps -> ps_highContiguous ps' = ps_highContiguous ps ->
  ps_pendingLost ps' = ps_pendingLost ps -> sim ps st -> sim ps' st.
Proof. intros E1 E2 E3 []. split; rewrite ?E1, ?E2, ?E3; done. Qed.

(** The state after the common prologue of [Record] on a known producer. *)
Definition prologue (ps : producerState) (seq : Z) : producerState :=
  let ps := ps_set_received ps (ps_received ps +u 1) in
  let ps := if seq <? ps_lastSeen ps then ps_set_outOfOrder ps (ps_outOfOrder ps +u 1) else ps in
  ps_set_lastSeen ps seq.

Lemma prologue_wf ps seq : ps_wf rw ps -> ps_wf rw (prologue ps seq).
Proof. apply wf_frame; unfold prologue; simpl; case_if; done. Qed.
Lemma prologue_sim ps st seq : sim ps st -> sim (prologue ps seq) st.
Proof. apply sim_frame; unfold prologue; simpl; case_if; done. Qed.

Lemma record_known_unfold ps seq :
  record_known rw ps seq =
  (let ps1 := prologue ps seq in
   let ooo := seq <? ps_lastSeen ps in
   if seq <=? ps_highContiguous ps1 then
     if bool_decide (seq ∈ ps_pendingLost ps1)
     then (ps_set_lost ps1 (ps_pendingLost ps1 ∖ {[ seq ]}), (false, ooo))
     else (ps_set_duplicates ps1 (ps_duplicates ps1 +u 1), (true, ooo))
   else
     let offset := seq -u ps_highContiguous ps1 -u 1 in
     if u64 rw <=? offset then (slideWindow rw ps1 seq, (false, ooo))
     else if getBit (ps_window ps1) (to_int offset)
     then (ps_set_duplicates ps1 (ps_duplicates ps1 +u 1), (true, ooo))
     else (advanceContiguous (ps_set_window ps1 (ps_highContiguous ps1)
             (setBit (ps_window ps1) (to_int offset))), (false, ooo))).
Proof. reflexivity. Qed.

(** [Record] on a known producer refines [spec_record] and keeps the
    representation invariant. *)
Lemma record_known_sim ps st seq ps' dup ooo :
  ps_wf rw ps -> sim ps st -> is_u64 seq ->
  record_known rw ps seq = (ps', (dup, ooo)) ->
  ps_wf rw ps' /\ sim ps' (fst (spec_record rw st seq)) /\ dup = snd (spec_record rw st seq).
Proof.
  intros Hwf Hsim Hseq. rewrite record_known_unfold.
  apply (prologue_wf _ seq) in Hwf. apply (prologue_sim _ _ seq) in Hsim.
  set (ps1 := prologue ps seq) in *. clearbody ps1. simpl.
  pose proof Hwf as [Hw Hbits Hh Hb Hz Hlost Hpend]. pose proof Hsim as [Eh Erel Epend].
  unfold spec_record. rewrite <- Eh, <- Epend. unfold rw_ok in Hrw.
  destruct (seq <=? ps_highContiguous ps1) eqn:E1; zbool.
  { destruct (bool_decide _) eqn:E2; intros [= <- <- <-]; simpl.
    - split_and!; [|by split; simpl; rewrite ?Eh|done]. split; simpl; try done.
      intros s Hs. apply Hpend. set_solver.
    - split_and!; [by eapply wf_frame | by eapply sim_frame | done]. }
  assert (seq -u ps_highContiguous ps1 -u 1 = seq - ps_highContiguous ps1 - 1) as ->
    by (unwrap; range).
  assert (u64 rw = rw) as -> by (apply u64_small; range).
  replace (ps_highContiguous ps1 + rw <? seq)
    with (rw <=? seq - ps_highContiguous ps1 - 1)
    by (apply eq_iff_eq_true; rewrite Z.leb_le, Z.ltb_lt; lia).
  destruct (rw <=? _) eqn:E2; zbool.
  { intros [= <- <- <-]. simpl.
    destruct (slideWindow_sim rw Hrw ps1 st seq) as [? ?]; try done.
    - unfold seq_ok. range.
    - rewrite <- Eh. lia. }
  rewrite to_int_small by range.
  replace (bool_decide (seq ∈ sp_seen st)) with (getBit (ps_window ps1) (seq - ps_highContiguous ps1 - 1)).
  2:{ apply eq_iff_eq_true. rewrite bool_decide_eq_true, (Erel seq), Eh. intuition lia. }
  destruct (getBit (ps_window ps1) (seq - ps_highContiguous ps1 - 1)) eqn:E3;
    intros [= <- <- <-]; simpl.
  { split_and!; [by eapply wf_frame | by eapply sim_frame | done]. }
  assert (0 <= seq - ps_highContiguous ps1 - 1 < win_bits (ps_window ps1)) by lia.
  assert (forall P Q : Prop, P /\ Q -> P /\ Q /\ false = false) as Hc by tauto. apply Hc.
  apply (advanceContiguous_sim rw (ps_set_window ps1 _ _) ({[ seq ]} ∪ sp_seen st)); simpl;
    try done.
  - auto with go.
  - by rewrite win_bits_setBit.
  - intros p. rewrite getBit_setBit, orb_true_iff, bool_decide_eq_true by done.
    intros [<-|Hp]; [range|by apply Hb].
  - apply win_rel_set; [by rewrite Eh | lia | lia].
Qed.

(** A producer's first sequence becomes the watermark, whatever it is
    (sequence 0 goes through the wrap-around of [seq - 1] and back). *)
Lemma replicate_window_bits :
  let w := replicate (Z.to_nat (Z.quot (to_int (rw + 63)) 64)) 0 in
  words_ok w /\ rw <= win_bits w /\ (forall q, getBit w q = false).
Proof.
  unfold rw_ok in Hrw. rewrite to_int_small by range. simpl. split_and!.
  - apply Forall_replicate. range.
  - unfold win_bits. rewrite length_replicate, Z.quot_div_nonneg by lia.
    Z.div_mod_to_equations. lia.
  - intros q. set (w := replicate _ _).
    destruct (decide (0 <= q < win_bits w)) as [Hq|Hq]; [|apply getBit_out; lia].
    destruct (lookup_word _ _ Hq) as [x Hx]. rewrite (getBit_in _ _ _ Hq Hx).
    apply lookup_replicate in Hx as [-> _]. apply Z.bits_0.
Qed.

Lemma advance_loop_one high w :
  words_ok w -> 0 < win_bits w -> (forall q, getBit w q = false) ->
  exists w', advance_loop (advance_fuel (setBit w 0)) high (setBit w 0) = (high +u 1, w') /\
    words_ok w' /\ win_bits w' = win_bits w /\ (forall q, getBit w' q = false).
Proof.
  intros Hw Hb Hz. exists (shiftLeft (setBit w 0)).
  assert (forall q, getBit (shiftLeft (setBit w 0)) q = false) as Hz'.
  { intros q. destruct (decide (0 <= q)); [|apply getBit_out; lia].
    rewrite getBit_shiftLeft, getBit_setBit, Hz, bool_decide_false by (auto with go lia). done. }
  split_and!; [|auto with go|by rewrite win_bits_shiftLeft, win_bits_setBit|done].
  unfold advance_fuel. rewrite length_setBit.
  destruct (length w) as [|n] eqn:E; [unfold win_bits in Hb; rewrite E in Hb; lia|].
  replace (64 * S n)%nat with (S (63 + 64 * n)) by lia. cbn [advance_loop].
  rewrite getBit_setBit, bool_decide_true, Hz' by (done || lia). done.
Qed.

Lemma record_first_sim seq :
  is_u64 seq -> ps_wf rw (record_first rw seq) /\ sim (record_first rw seq) (mkSpec seq ∅ ∅).
Proof.
  intros Hseq. destruct replicate_window_bits as (Hw & Hb & Hz). unfold rw_ok in Hrw.
  set (w := replicate _ _) in *.
  destruct (advance_loop_one (seq -u 1) w) as (w' & E & Hw' & Hb' & Hz'); [done|lia|done|].
  assert (seq -u 1 +u 1 = seq) as Hs.
  { unfold uadd, usub, u64. rewrite Zplus_mod_idemp_l.
    replace (seq - 1 + 1) with seq by lia. by apply Z.mod_small. }
  unfold record_first, advanceContiguous. fold w.
  cbn [ps_window ps_highContiguous ps_set_window ps_set_received]. rewrite E, Hs.
  split; split; simpl; try done; try lia.
  - intros p. by rewrite Hz'.
  - intros s. rewrite Hz'. set_solver.
Qed.
End refine_record.
