(* ===== verification/TrackerProps.v ===== *)
(** * What burnin/tracker guarantees

    Trace-level refinement of the abstract producers, exactness for streams
    whose reordering fits the window, recovery of suspected losses, the
    accounting of [DetectGaps], and the two places where a slide of the window
    departs from what the package promises. *)
From S2P Require Import Prelude Tracker TrackerBits TrackerSpec.

(** ** Trackers and maps of abstract producers *)

Definition spec_Record (rw : Z) (m : gmap string spec) (p : string) (seq : Z)
  : gmap string spec * bool :=
  match m !! p with
  | None => (<[p := mkSpec seq ∅ ∅]> m, false)
  | Some st => let '(st', d) := spec_record rw st seq in (<[p := st']> m, d)
  end.

Definition rel_entry (rw : Z) (o : option producerState) (s : option spec) : Prop :=
  match o, s with
  | Some ps, Some st => ps_wf rw ps /\ sim ps st
  | None, None => True
  | _, _ => False
  end.

Record tracker_rel (t : Tracker) (m : gmap string spec) : Prop := {
  rel_rw : rw_ok (reorderWindow t);
  rel_producers : forall p, rel_entry (reorderWindow t) (producers t !! p) (m !! p)
}.

(** A run of [Record] calls on any producers, with the duplicate flags. *)
Fixpoint run (t : Tracker) (evs : list (string * Z)) : Tracker * list bool :=
  match evs with
  | [] => (t, [])
  | (p, s) :: evs =>
      let '(t1, (dup, _)) := Record_ t p s in
      let '(t2, ds) := run t1 evs in (t2, dup :: ds)
  end.

Fixpoint spec_run (rw : Z) (m : gmap string spec) (evs : list (string * Z))
  : gmap string spec * list bool :=
  match evs with
  | [] => (m, [])
  | (p, s) :: evs =>
      let '(m1, d) := spec_Record rw m p s in
      let '(m2, ds) := spec_run rw m1 evs in (m2, d :: ds)
  end.

(** The number of suspected losses of all abstract producers. *)
Definition spec_lost (m : gmap string spec) : Z :=
  map_total (fun st => Z.of_nat (size (sp_pending st))) m.

Section tracker.
Implicit Types (t : Tracker) (p : string) (s : Z) (m : gmap string spec).

Lemma New_rel rw : rw_ok rw -> tracker_rel (New rw) ∅.
Proof. intros H. split; [done|]. intros p. by rewrite !lookup_empty. Qed.

Lemma rel_insert t m p ps st :
  tracker_rel t m -> ps_wf (reorderWindow t) ps -> sim ps st ->
  tracker_rel (mkTracker (reorderWindow t) (<[p := ps]> (producers t))) (<[p := st]> m).
Proof.
  intros [Hrw Hp] Hwf Hsim. split; [done|]. intros q. simpl.
  destruct (decide (p = q)) as [->|Hne].
  - by rewrite !lookup_insert_eq.
  - by rewrite !lookup_insert_ne.
Qed.

Lemma Record_sim t m p s :
  tracker_rel t m -> is_u64 s ->
  tracker_rel (fst (Record_ t p s)) (fst (spec_Record (reorderWindow t) m p s)) /\
  fst (snd (Record_ t p s)) = snd (spec_Record (reorderWindow t) m p s).
Proof.
  intros Hrel Hs. pose proof (rel_producers t m Hrel p) as Hp. pose proof (rel_rw t m Hrel).
  unfold Record_, spec_Record, rel_entry in *.
  destruct (producers t !! p) as [ps|], (m !! p) as [st|]; try done.
  - destruct Hp as [Hwf Hsim].
    destruct (record_known (reorderWindow t) ps s) as [ps' [dup ooo]] eqn:E.
    destruct (record_known_sim _ ltac:(done) _ _ _ _ _ _ Hwf Hsim Hs E) as (Hwf' & Hsim' & ->).
    destruct (spec_record _ st s) as [st' d]. simpl in *. split; [|done].
    by apply rel_insert.
  - simpl. split; [|done]. destruct (record_first_sim (reorderWindow t) ltac:(done) s Hs).
    by apply rel_insert.
Qed.

Lemma Record_rw t p s : reorderWindow (fst (Record_ t p s)) = reorderWindow t.
Proof.
  unfold Record_. destruct (_ !! _); [|done]. by destruct (record_known _ _ _) as [? []].
Qed.

Lemma run_sim t m evs :
  tracker_rel t m -> Forall (fun e => is_u64 (snd e)) evs ->
  tracker_rel (fst (run t evs)) (fst (spec_run (reorderWindow t) m evs)) /\
  snd (run t evs) = snd (spec_run (reorderWindow t) m evs).
Proof.
  revert t m. induction evs as [|[p s] evs IH]; intros t m Hrel Hall; [done|].
  apply Forall_cons in Hall as [Hs Hall]. simpl in Hs.
  destruct (Record_sim t m p s Hrel Hs) as [Hrel' Hd]. pose proof (Record_rw t p s) as Hrw.
  simpl. destruct (Record_ t p s) as [t1 [dup ooo]].
  destruct (spec_Record _ m p s) as [m1 d]. simpl in *. subst d.
  destruct (IH t1 m1 Hrel' Hall) as [H1 H2]. rewrite Hrw in H1, H2.
  destruct (run t1 evs), (spec_run _ m1 evs). simpl in *. by subst.
Qed.

(** *** Sums over producers *)

Lemma sum_total t f : sum t f = u64 (map_total f (producers t)).
Proof.
  unfold sum. generalize (producers t) as m. intros m.
  induction m as [|k x m Hk Hfirst IH] using map_first_key_ind.
  - rewrite map_fold_empty, map_total_empty. done.
  - unfold map_total. rewrite !map_fold_insert_first_key by done.
    fold (map_total f m). rewrite IH. unfold uadd, u64. rewrite Zplus_mod_idemp_l. done.
Qed.

Lemma map_total_ext {A B} (f : A -> Z) (g : B -> Z) (m1 : gmap string A) (m2 : gmap string B) :
  (forall k, match m1 !! k, m2 !! k with
        | Some x, Some y => f x mod two64 = g y mod two64 | None, None => True | _, _ => False end) ->
  map_total f m1 mod two64 = map_total g m2 mod two64.
Proof.
  revert m2. induction m1 as [|k x m1 Hk IH] using map_ind; intros m2 H.
  - replace m2 with (∅ : gmap string B); [done|]. symmetry. apply map_empty. intros k.
    specialize (H k). rewrite lookup_empty in H. by destruct (m2 !! k).
  - pose proof (H k) as Hkk. rewrite lookup_insert_eq in Hkk.
    destruct (m2 !! k) as [y|] eqn:E; [|done].
    rewrite <- (insert_delete_id m2 k y E).
    rewrite !map_total_insert_new by (done || apply lookup_delete_eq).
    assert (map_total f m1 mod two64 = map_total g (delete k m2) mod two64) as E'.
    { apply IH. intros j. destruct (decide (j = k)) as [->|Hne].
      + rewrite lookup_delete_eq. by rewrite Hk.
      + specialize (H j). rewrite lookup_insert_ne in H by done. by rewrite lookup_delete_ne. }
    rewrite Z.add_mod, Hkk, E' by done. symmetry. by apply Z.add_mod.
Qed.

Lemma rel_lost t m : tracker_rel t m -> TotalLost t = u64 (spec_lost m).
Proof.
  intros [_ Hp]. unfold TotalLost. rewrite sum_total. unfold u64, spec_lost.
  apply map_total_ext. intros k. specialize (Hp k). unfold rel_entry in Hp.
  destruct (producers t !! k), (m !! k); try done. destruct Hp as [Hwf Hsim].
  rewrite (wf_lost _ _ Hwf), (sim_pending _ _ Hsim). unfold u64. apply Z.mod_mod. done.
Qed.
End tracker.

(** C1 (refinement).  Over any sequence of [Record] calls on any producers,
    starting from [New], the bitset tracker reports the same duplicate flags
    as the abstract producers over unbounded sets, and its [TotalLost] is the
    number of their suspected losses (as a [uint64]). *)
Theorem tracker_refines_spec rw evs :
  rw_ok rw -> Forall (fun e => is_u64 (snd e)) evs ->
  snd (run (New rw) evs) = snd (spec_run rw ∅ evs) /\
  TotalLost (fst (run (New rw) evs)) = u64 (spec_lost (fst (spec_run rw ∅ evs))).
Proof.
  intros Hrw Hevs. destruct (run_sim (New rw) ∅ evs (New_rel rw Hrw) Hevs) as [Hrel Hd].
  split; [done|]. by apply rel_lost.
Qed.

Lemma tracker_refines_spec_witness :
  snd (run (New 4) [("a", 1); ("b", 7); ("a", 9); ("a", 2); ("a", 9)])
    = snd (spec_run 4 ∅ [("a", 1); ("b", 7); ("a", 9); ("a", 2); ("a", 9)]) /\
  TotalLost (fst (run (New 4) [("a", 1); ("b", 7); ("a", 9); ("a", 2); ("a", 9)]))
    = u64 (spec_lost (fst (spec_run 4 ∅ [("a", 1); ("b", 7); ("a", 9); ("a", 2); ("a", 9)]))).
Proof.
  apply tracker_refines_spec; [unfold rw_ok; range|].
  repeat constructor; simpl; range.
Defined.

(** ** Facts about the abstract producer *)

Record spec_ok (st : spec) : Prop := {
  ok_seen : forall x, x ∈ sp_seen st -> sp_high st < x;
  ok_head : sp_high st + 1 ∉ sp_seen st;
  ok_pend : forall x, x ∈ sp_pending st -> x <= sp_high st
}.

Section spec_facts.
Implicit Types (st : spec) (s x : Z) (seen pend : gset Z).

Lemma spec_advance_spec fuel high seen :
  (size seen < fuel)%nat -> (forall x, x ∈ seen -> high < x) ->
  let '(h, seen') := spec_advance fuel high seen in
  high <= h /\ h + 1 ∉ seen' /\ seen' ⊆ seen /\ (forall x, x ∈ seen' -> h < x) /\
  (forall x, x <= h \/ x ∈ seen' <-> x <= high \/ x ∈ seen).
Proof.
  revert high seen. induction fuel as [|f IH]; intros high seen Hsz Hgt; [lia|]. simpl.
  case_bool_decide as E.
  - pose proof (size_remove seen _ E). specialize (IH (high + 1) (seen ∖ {[ high + 1 ]})).
    destruct (spec_advance f _ _) as [h seen']. destruct IH as (H1 & H2 & H3 & H4 & H5).
    + lia.
    + intros x [Hx Hne]%elem_of_difference. specialize (Hgt x Hx). set_solver by lia.
    + split_and!; [lia|done|set_solver|done|]. intros x. rewrite H5.
      destruct (decide (x = high + 1)) as [->|Hne]; [intuition lia|].
      rewrite elem_of_difference, elem_of_singleton. split; [|intuition lia].
      intros [?|[? _]]; [|by right]. left. lia.
  - split_and!; done || lia.
Qed.

Lemma spec_settle_spec high seen pend :
  (forall x, x ∈ seen -> high < x) ->
  let st := spec_settle high seen pend in
  high <= sp_high st /\ sp_pending st = pend /\ sp_seen st ⊆ seen /\
  sp_high st + 1 ∉ sp_seen st /\ (forall x, x ∈ sp_seen st -> sp_high st < x) /\
  (forall x, x <= sp_high st \/ x ∈ sp_seen st <-> x <= high \/ x ∈ seen).
Proof.
  intros H. unfold spec_settle. pose proof (spec_advance_spec (S (size seen)) high seen) as Ha.
  destruct (spec_advance _ _ _) as [h s']. simpl. destruct Ha as (?&?&?&?&?); [lia|done|].
  split_and!; done.
Qed.

Lemma spec_slide_cases rw st s :
  spec_ok st -> sp_high st + rw < s -> 0 < rw ->
  let st' := spec_slide rw st s in
  spec_ok st' /\ sp_high st <= sp_high st' /\ sp_seen st' ⊆ sp_seen st /\
  sp_pending st' = (if s - rw - 1 <=? sp_high st then ∅
                    else unseen (sp_high st) (Z.min rw (s - rw - 1 - sp_high st)) (sp_seen st))
                   ∪ sp_pending st /\
  (forall x, x <= sp_high st' \/ x ∈ sp_seen st' <->
             x <= Z.max (sp_high st) (s - rw - 1) \/ x ∈ sp_seen st).
Proof.
  intros [Hgt Hhd Hpd] Hfar Hrw. unfold spec_slide. case_if; simpl.
  { split_and!; try done; [set_solver|]. intros x.
    replace (Z.max (sp_high st) (s - rw - 1)) with (sp_high st) by lia. done. }
  destruct (spec_settle_spec (s - rw - 1) (filter (fun x => s - rw - 1 < x) (sp_seen st))
    (unseen (sp_high st) (Z.min rw (s - rw - 1 - sp_high st)) (sp_seen st) ∪ sp_pending st))
    as (H1 & H2 & H3 & H4 & H5 & H6).
  { intros x Hx. apply elem_of_filter in Hx. tauto. }
  set (st' := spec_settle _ _ _) in *. split_and!; try done; [|lia|set_solver|].
  - split; try done. rewrite H2. intros x [Hx|Hx]%elem_of_union.
    + apply elem_of_unseen in Hx. lia.
    + specialize (Hpd x Hx). lia.
  - intros x. rewrite H6, elem_of_filter. replace (Z.max _ _) with (s - rw - 1) by lia.
    destruct (decide (x <= s - rw - 1)); intuition lia.
Qed.

Lemma spec_record_ok rw st s :
  0 < rw -> spec_ok st -> spec_ok (fst (spec_record rw st s)).
Proof.
  intros Hrw Hok. pose proof Hok as [Hgt Hhd Hpd]. unfold spec_record.
  case_if; [case_bool_decide; [|done]|].
  { split; simpl; [done|done|]. intros x Hx. apply Hpd. set_solver. }
  case_if; [by apply spec_slide_cases; [|lia|]|]. case_bool_decide; [done|]. simpl.
  destruct (spec_settle_spec (sp_high st) ({[ s ]} ∪ sp_seen st) (sp_pending st))
    as (H1 & H2 & H3 & H4 & H5 & H6).
  { intros x [->%elem_of_singleton|Hx]%elem_of_union; [lia|by apply Hgt]. }
  split; [done|done|]. rewrite H2. intros x Hx. specialize (Hpd x Hx). lia.
Qed.

(** A sequence beyond the window is reported new, and neither the watermark
    nor the seen set remembers it. *)
Lemma spec_slide_forgets rw st s :
  spec_ok st -> (forall x, x ∈ sp_seen st -> x <= sp_high st + rw) -> 0 < rw ->
  sp_high st + rw < s ->
  let st' := spec_slide rw st s in sp_high st' < s /\ s ∉ sp_seen st'.
Proof.
  intros Hok Hmax Hrw Hfar. destruct (spec_slide_cases rw st s Hok Hfar Hrw)
    as (Hok' & _ & Hsub & _ & Hiff). simpl.
  set (st' := spec_slide rw st s) in *.
  assert (s ∉ sp_seen st) as Hn by (intros Hin; specialize (Hmax s Hin); lia).
  assert (s ∉ sp_seen st') by set_solver. split; [|done].
  destruct (decide (s <= sp_high st')) as [Hle|]; [|lia].
  destruct (proj1 (Hiff s)) as [|]; [by left|lia|done].
Qed.
End spec_facts.
#[export] Hint Resolve spec_record_ok : go.

(** ** Streams whose reordering fits the window *)

(** [s] may follow [pre]: it is not older than the stream's first sequence,
    and no sequence [rw] or more below it is still missing. *)
Definition in_window (rw s0 : Z) (pre : list Z) (s : Z) : Prop :=
  s0 <= s /\ forall x, s0 <= x <= s - rw -> x ∈ pre.

Fixpoint windowed (rw s0 : Z) (pre post : list Z) : Prop :=
  match post with
  | [] => True
  | s :: post => in_window rw s0 pre s /\ windowed rw s0 (pre ++ [s]) post
  end.

(** The reference classification: a duplicate is a sequence that occurred
    before. *)
Fixpoint dup_flags (pre post : list Z) : list bool :=
  match post with
  | [] => []
  | s :: post => bool_decide (s ∈ pre) :: dup_flags (pre ++ [s]) post
  end.

Definition stream (p : string) (l : list Z) : list (string * Z) := (fun s => (p, s)) <$> l.

Section windowed.
Context (rw s0 : Z) (Hrw : 0 < rw).

Record tracks (l : list Z) (st : spec) : Prop := {
  tr_ok : spec_ok st;
  tr_pending : sp_pending st = ∅;
  tr_low : s0 <= sp_high st;
  tr_iff : forall x, s0 <= x -> x ∈ l <-> x <= sp_high st \/ x ∈ sp_seen st
}.

Lemma tracks_first : tracks [s0] (mkSpec s0 ∅ ∅).
Proof.
  split; simpl; [split; set_solver|done|lia|]. intros x Hx.
  rewrite list_elem_of_singleton. split; [set_solver by lia|]. intros [?|?]; [lia|set_solver].
Qed.

Lemma tracks_step l st s :
  tracks l st -> in_window rw s0 l s ->
  tracks (l ++ [s]) (fst (spec_record rw st s)) /\ snd (spec_record rw st s) = bool_decide (s ∈ l).
Proof.
  intros [Hok Hp Hlow Hiff] [Hs Hin]. pose proof (spec_record_ok rw st s Hrw Hok) as Hok'.
  assert (s <= sp_high st + rw) as Hnear.
  { destruct (decide (sp_high st + 1 <= s - rw)) as [F|]; [|lia].
    destruct (ok_head st Hok). specialize (Hin (sp_high st + 1) ltac:(lia)).
    apply Hiff in Hin; [|lia]. destruct Hin; [lia|done]. }
  assert (forall x, x ∈ l ++ [s] <-> x ∈ l \/ x = s) as Happ.
  { intros x. by rewrite elem_of_app, list_elem_of_singleton. }
  unfold spec_record in *. rewrite Hp in *. case_if.
  { rewrite bool_decide_false in * by set_solver. simpl in *.
    rewrite bool_decide_true by (apply Hiff; [done|by left]). split; [|done].
    split; try done. intros x Hx. rewrite Happ, <- Hiff by done. split; [|tauto].
    intros [?| ->]; [done|]. apply Hiff; [done|by left]. }
  assert ((sp_high st + rw <? s) = false) as Hf by (apply Z.ltb_ge; lia). rewrite Hf in *.
  destruct (decide (s ∈ sp_seen st)) as [Hseen|Hseen].
  { rewrite bool_decide_true in * by done. simpl.
    rewrite bool_decide_true by (apply Hiff; [done|by right]). split; [|done].
    split; try done. intros x Hx. rewrite Happ, <- Hiff by done. split; [|tauto].
    intros [?| ->]; [done|]. apply Hiff; [done|by right]. }
  rewrite bool_decide_false in * by done. simpl in *.
  rewrite bool_decide_false by (rewrite Hiff by done; intros [?|?]; [lia|done]).
  split; [|done].
  destruct (spec_settle_spec (sp_high st) ({[ s ]} ∪ sp_seen st) ∅) as (H1 & H2 & H3 & H4 & H5 & H6).
  { intros x [->%elem_of_singleton|Hx]%elem_of_union; [lia|by apply (ok_seen st Hok)]. }
  split; [done|done|lia|]. intros x Hx. rewrite Happ, Hiff, H6 by done. set_solver.
Qed.

Lemma tracks_run p l post st m :
  m !! p = Some st -> tracks l st -> windowed rw s0 l post ->
  snd (spec_run rw m (stream p post)) = dup_flags l post /\
  exists st', fst (spec_run rw m (stream p post)) = <[p := st']> m /\ tracks (l ++ post) st'.
Proof.
  revert l st m. induction post as [|s post IH]; intros l st m Hm Htr Hw.
  - split; [done|]. exists st. rewrite app_nil_r. by rewrite insert_id.
  - destruct Hw as [Hs Hw]. destruct (tracks_step l st s Htr Hs) as [Htr' Hd].
    simpl. unfold spec_Record. rewrite Hm.
    destruct (spec_record rw st s) as [st1 d]. simpl in *. subst d.
    destruct (IH (l ++ [s]) st1 (<[p := st1]> m)) as (E1 & st' & E2 & Htr2).
    { apply lookup_insert_eq. } { done. } { done. }
    fold (stream p post). destruct (spec_run rw _ (stream p post)) as [m' ds]. simpl in *.
    split; [by f_equal|]. exists st'. rewrite <- app_assoc in Htr2. split; [|done].
    by rewrite E2, insert_insert_eq.
Qed.
End windowed.

(** C2 (functional).  A stream of one producer in which no arrival is older
    than the first and none overtakes a missing sequence by the reorder window
    or more is classified exactly: the flags [Record] returns are those of a
    reference that remembers every sequence, and no loss is reported. *)
Theorem windowed_stream_exact rw p s0 l :
  rw_ok rw -> Forall is_u64 (s0 :: l) -> windowed rw s0 [s0] l ->
  snd (run (New rw) (stream p (s0 :: l))) = dup_flags [] (s0 :: l) /\
  TotalLost (fst (run (New rw) (stream p (s0 :: l)))) = 0.
Proof.
  intros Hrw Hall Hw.
  destruct (run_sim (New rw) ∅ (stream p (s0 :: l)) (New_rel rw Hrw)) as [Hrel Hd].
  { apply Forall_fmap. eapply Forall_impl; [exact Hall|done]. }
  rewrite (rel_lost _ _ Hrel), Hd. simpl. unfold spec_Record. rewrite lookup_empty.
  fold (stream p l). unfold rw_ok in Hrw.
  destruct (tracks_run rw s0 ltac:(lia) p [s0] l (mkSpec s0 ∅ ∅) (<[p := mkSpec s0 ∅ ∅]> ∅))
    as (E & st' & E' & Htr).
  { apply lookup_insert_eq. } { apply (tracks_first rw). lia. } { done. }
  destruct (spec_run rw _ (stream p l)) as [m ds]. simpl in *. subst.
  split; [done|].
  unfold spec_lost. rewrite insert_insert_eq, map_total_insert_new by apply lookup_empty.
  rewrite map_total_empty, (tr_pending _ _ _ Htr), size_empty. done.
Qed.

Lemma windowed_stream_exact_witness :
  snd (run (New 4) (stream "p" [5; 8; 6; 5; 7; 10])) = dup_flags [] [5; 8; 6; 5; 7; 10] /\
  TotalLost (fst (run (New 4) (stream "p" [5; 8; 6; 5; 7; 10]))) = 0.
Proof.
  apply windowed_stream_exact.
  - unfold rw_ok. range.
  - repeat constructor; range.
  - cbn. unfold in_window. repeat split; try lia; intros x Hx;
      assert (x = 5 \/ x = 6) as [->| ->] by lia; set_solver.
Defined.

(** ** Reachable trackers *)

Section reachable.
Context (rw : Z) (Hrw : rw_ok rw) (evs : list (string * Z)).
Context (Hevs : Forall (fun e => is_u64 (snd e)) evs).

Lemma spec_run_ok m es :
  (forall k st, m !! k = Some st -> spec_ok st) ->
  forall k st, fst (spec_run rw m es) !! k = Some st -> spec_ok st.
Proof.
  unfold rw_ok in Hrw. revert m. induction es as [|[p s] es IH]; intros m Hm k st; simpl.
  - apply Hm.
  - destruct (spec_Record rw m p s) as [m1 d] eqn:E.
    specialize (IH m1). destruct (spec_run rw m1 es) as [m2 ds]. simpl in *. apply IH.
    intros j st'. unfold spec_Record in E. destruct (m !! p) as [st0|] eqn:Ep.
    + destruct (spec_record rw st0 s) as [st1 d1] eqn:E1. injection E as <- <-.
      intros [[<- <-]|[_ Hj]]%lookup_insert_Some; [|by eapply Hm].
      replace st1 with (fst (spec_record rw st0 s)) by (by rewrite E1).
      apply spec_record_ok; [lia|by eapply Hm].
    + injection E as <- <-. intros [[<- <-]|[_ Hj]]%lookup_insert_Some; [|by eapply Hm].
      split; set_solver.
Qed.

Lemma run_window : reorderWindow (fst (run (New rw) evs)) = rw.
Proof.
  clear. change rw with (reorderWindow (New rw)) at 2. generalize (New rw) as t.
  induction evs as [|[q s] es IH]; intros t; [done|]. simpl.
  pose proof (Record_rw t q s) as Hr. destruct (Record_ t q s) as [t1 [? ?]]. simpl in Hr.
  specialize (IH t1). destruct (run t1 es). simpl in *. congruence.
Qed.

(** A producer of a reachable tracker, its abstraction and their invariants. *)
Lemma reachable_producer p ps :
  producers (fst (run (New rw) evs)) !! p = Some ps ->
  exists m st, tracker_rel (fst (run (New rw) evs)) m /\ m !! p = Some st /\
    ps_wf rw ps /\ sim ps st /\ spec_ok st /\
    (forall x, x ∈ sp_seen st -> x <= sp_high st + rw).
Proof.
  intros Hp. destruct (run_sim (New rw) ∅ evs (New_rel rw Hrw) Hevs) as [Hrel _].
  simpl in Hrel. exists (fst (spec_run rw ∅ evs)).
  pose proof (rel_producers _ _ Hrel p) as He. unfold rel_entry in He. rewrite Hp in He.
  destruct (fst (spec_run rw ∅ evs) !! p) as [st|] eqn:E; [|done].
  rewrite run_window in He. destruct He as [Hwf Hsim].
  exists st. split_and!; try done.
  - eapply (spec_run_ok ∅ evs); [|done]. intros k st' H. by rewrite lookup_empty in H.
  - intros x Hx. apply (sim_window _ _ Hsim) in Hx as [? Hg].
    destruct (wf_bound _ _ Hwf _ Hg). lia.
Qed.

End reachable.

(** [Record] on a known producer, as the abstract step. *)
Lemma Record_known t p s ps :
  producers t !! p = Some ps ->
  Record_ t p s =
    (mkTracker (reorderWindow t)
       (<[p := fst (record_known (reorderWindow t) ps s)]> (producers t)),
     snd (record_known (reorderWindow t) ps s)).
Proof.
  intros H. unfold Record_. rewrite H. by destruct (record_known _ ps s).
Qed.

Lemma record_known_fst_snd rw ps st s :
  rw_ok rw -> ps_wf rw ps -> sim ps st -> is_u64 s ->
  ps_wf rw (fst (record_known rw ps s)) /\
  sim (fst (record_known rw ps s)) (fst (spec_record rw st s)) /\
  fst (snd (record_known rw ps s)) = snd (spec_record rw st s).
Proof.
  intros Hrw Hwf Hsim Hs. destruct (record_known rw ps s) as [ps' [dup ooo]] eqn:E.
  by apply (record_known_sim rw Hrw ps st s ps' dup ooo).
Qed.

(** A sequence that arrives more than [rw] above the watermark
    moves the window without being marked in it: in every reachable tracker
    its immediate redelivery is again reported as not a duplicate. *)
Theorem slide_forgets_sequence rw evs p ps s :
  rw_ok rw -> Forall (fun e => is_u64 (snd e)) evs ->
  producers (fst (run (New rw) evs)) !! p = Some ps ->
  is_u64 s -> ps_highContiguous ps + rw < s ->
  let t1 := fst (Record_ (fst (run (New rw) evs)) p s) in
  fst (snd (Record_ t1 p s)) = false.
Proof.
  intros Hrw Hevs Hp Hs Hfar. simpl.
  destruct (reachable_producer rw Hrw evs Hevs p ps Hp) as (m & st & _ & _ & Hwf & Hsim & Hok & Hmax).
  rewrite (Record_known _ p s ps Hp). simpl. rewrite (run_window rw evs).
  destruct (record_known_fst_snd rw ps st s Hrw Hwf Hsim Hs) as (Hwf1 & Hsim1 & _).
  set (ps1 := fst (record_known rw ps s)) in *. rewrite (sim_high _ _ Hsim) in Hfar.
  erewrite Record_known by (simpl; apply lookup_insert_eq). simpl.
  destruct (record_known_fst_snd rw ps1 _ s Hrw Hwf1 Hsim1 Hs) as (_ & _ & ->).
  assert (0 < rw) by (unfold rw_ok in Hrw; lia).
  destruct (spec_slide_forgets rw st s Hok Hmax ltac:(done) Hfar) as [Hh Hn].
  assert (fst (spec_record rw st s) = spec_slide rw st s) as ->.
  { unfold spec_record. assert ((s <=? sp_high st) = false) as -> by (apply Z.leb_gt; lia).
    by assert ((sp_high st + rw <? s) = true) as -> by (by apply Z.ltb_lt). }
  unfold spec_record. assert ((s <=? _) = false) as -> by (apply Z.leb_gt; lia).
  case_if; [done|]. by rewrite bool_decide_false.
Qed.

Lemma slide_forgets_sequence_witness :
  let t1 := fst (Record_ (fst (run (New 4) (stream "p" [1; 2; 3]))) "p" 9) in
  fst (snd (Record_ t1 "p" 9)) = false.
Proof.
  eapply (slide_forgets_sequence 4 (stream "p" [1; 2; 3]) "p").
  - unfold rw_ok. range.
  - repeat constructor; simpl; range.
  - vm_compute. reflexivity.
  - range.
  - vm_compute. reflexivity.
Defined.

(** With a reorder window of 4 every one of the sequences 1 to 14
    is delivered exactly once, and the tracker still ends with a loss of 1:
    sequence 9, whose early arrival slid the window. *)
Theorem complete_delivery_reported_lost :
  let seqs := [1; 2; 3; 9; 4; 5; 6; 7; 8; 10; 11; 12; 13; 14] in
  seqs ≡ₚ seqZ 1 14 /\ TotalLost (fst (run (New 4) (stream "p" seqs))) = 1.
Proof.
  split; [|vm_compute; reflexivity]. vm_compute (seqZ 1 14).
  do 3 apply Permutation_skip.
  apply (Permutation_middle [4; 5; 6; 7; 8] [10; 11; 12; 13; 14] 9).
Qed.

(** A jump past twice the window loses track of what it passed
    over: after 1, 2, 3 and 100 with a window of 4, the 96 sequences from 4 to
    99 are missing and 4 are reported, and the late arrival of one of the
    others counts as a duplicate. *)
Theorem far_jump_undercounts :
  let t := fst (run (New 4) (stream "p" [1; 2; 3; 100])) in
  TotalLost t = 4 /\ fst (snd (Record_ t "p" 50)) = true.
Proof. by vm_compute. Qed.

(** C12 (functional).  Eviction loses nothing: when a sequence
    within [2 * rw + 1] of the watermark slides the window, every sequence up
    to the new watermark was below the old one, had been seen, or is now a
    suspected loss. *)
Theorem slide_accounts_for_gaps rw evs p ps s x :
  rw_ok rw -> Forall (fun e => is_u64 (snd e)) evs ->
  producers (fst (run (New rw) evs)) !! p = Some ps ->
  is_u64 s -> ps_highContiguous ps + rw < s <= ps_highContiguous ps + 2 * rw + 1 ->
  let ps' := fst (record_known rw ps s) in
  x <= ps_highContiguous ps' ->
  x <= ps_highContiguous ps \/
  getBit (ps_window ps) (x - ps_highContiguous ps - 1) = true \/
  x ∈ ps_pendingLost ps'.
Proof.
  intros Hrw Hevs Hp Hs Hfar. simpl.
  destruct (reachable_producer rw Hrw evs Hevs p ps Hp) as (m & st & _ & _ & Hwf & Hsim & Hok & _).
  destruct (record_known_fst_snd rw ps st s Hrw Hwf Hsim Hs) as (_ & Hsim1 & _).
  rewrite (sim_high _ _ Hsim1), (sim_pending _ _ Hsim1).
  pose proof (sim_high _ _ Hsim) as Eh. rewrite Eh in Hfar |- *.
  unfold spec_record, rw_ok in *. rewrite (proj2 (Z.leb_gt _ _)) by lia.
  rewrite (proj2 (Z.ltb_lt _ _)) by lia. simpl. intros Hx.
  destruct (spec_slide_cases rw st s Hok) as (_ & _ & _ & Hpend & Hiff); [lia..|].
  destruct (proj1 (Hiff x)) as [Hle|Hseen]; [by left| |].
  - destruct (decide (x <= sp_high st)); [by left|].
    destruct (decide (x ∈ sp_seen st)) as [Hin|Hn].
    + right. left. by apply (sim_window _ _ Hsim) in Hin as [_ ?].
    + right. right. rewrite Hpend. rewrite (proj2 (Z.leb_gt _ _)) by lia.
      apply elem_of_union_l, elem_of_unseen. split; [lia|done].
  - right. left. by apply (sim_window _ _ Hsim) in Hseen as [_ ?].
Qed.

Lemma slide_accounts_for_gaps_witness :
  let ps := default (record_first 4 0) (producers (fst (run (New 4) (stream "p" [1; 2; 3]))) !! "p") in
  let ps' := fst (record_known 4 ps 9) in
  4 <= ps_highContiguous ps \/ getBit (ps_window ps) (4 - ps_highContiguous ps - 1) = true \/
  4 ∈ ps_pendingLost ps'.
Proof.
  refine (slide_accounts_for_gaps 4 (stream "p" [1; 2; 3]) "p" _ 9 4 _ _ _ _ _ _).
  - unfold rw_ok. range.
  - repeat constructor; simpl; range.
  - vm_compute. reflexivity.
  - range.
  - split; vm_compute; [reflexivity | intros H; discriminate H].
  - vm_compute. intros H; discriminate H.
Defined.

(** ** Recovery of suspected losses *)

Lemma spec_record_recovers rw st s :
  s ∈ sp_pending st -> spec_ok st ->
  spec_record rw st s = (mkSpec (sp_high st) (sp_seen st) (sp_pending st ∖ {[ s ]}), false) /\
  snd (spec_record rw (mkSpec (sp_high st) (sp_seen st) (sp_pending st ∖ {[ s ]})) s) = true.
Proof.
  intros Hin [_ _ Hpd]. specialize (Hpd s Hin). unfold spec_record. simpl.
  rewrite (proj2 (Z.leb_le _ _)) by done. rewrite bool_decide_true by done.
  by rewrite bool_decide_false by set_solver.
Qed.

(** C11 (functional).  In every reachable tracker, a sequence suspected lost
    that arrives after all is not a duplicate, lowers the producer's confirmed
    loss by one and leaves the watermark and the window alone; delivering it
    once more is a duplicate. *)
Theorem recovered_loss rw evs p ps s :
  rw_ok rw -> Forall (fun e => is_u64 (snd e)) evs ->
  producers (fst (run (New rw) evs)) !! p = Some ps ->
  is_u64 s -> s ∈ ps_pendingLost ps ->
  let '(ps1, (dup1, _)) := record_known rw ps s in
  dup1 = false /\
  ps_confirmedLost ps1 = ps_confirmedLost ps -u 1 /\
  ps_highContiguous ps1 = ps_highContiguous ps /\ ps_window ps1 = ps_window ps /\
  fst (snd (record_known rw ps1 s)) = true.
Proof.
  intros Hrw Hevs Hp Hs Hin.
  destruct (reachable_producer rw Hrw evs Hevs p ps Hp) as (m & st & _ & _ & Hwf & Hsim & Hok & _).
  destruct (record_known rw ps s) as [ps1 [d o]] eqn:E.
  destruct (record_known_sim rw Hrw _ _ _ _ _ _ Hwf Hsim Hs E) as (Hwf1 & Hsim1 & Hd).
  assert (s ∈ sp_pending st) as Hin' by (by rewrite <- (sim_pending _ _ Hsim)).
  destruct (spec_record_recovers rw st s Hin' Hok) as [Hr Hr2].
  rewrite Hr in Hsim1, Hd. simpl in *. subst d.
  destruct (record_known_fst_snd rw ps1 _ s Hrw Hwf1 Hsim1 Hs) as (_ & _ & Hsnd).
  pose proof (ok_pend st Hok s Hin') as Hle. rewrite <- (sim_high _ _ Hsim) in Hle.
  unfold record_known in E. simpl in E.
  assert (ps1 = ps_set_lost
    (ps_set_lastSeen
       (if s <? ps_lastSeen ps
        then ps_set_outOfOrder (ps_set_received ps (ps_received ps +u 1)) (ps_outOfOrder ps +u 1)
        else ps_set_received ps (ps_received ps +u 1)) s)
    (ps_pendingLost ps ∖ {[ s ]})) as ->.
  { destruct (s <? ps_lastSeen ps); simpl in E;
      rewrite (proj2 (Z.leb_le _ _)), bool_decide_true in E by done; simplify_eq; done. }
  split_and!; [done| | | |by rewrite Hsnd].
  - simpl. rewrite (wf_lost _ _ Hwf).
    pose proof (size_remove _ _ Hin). unfold usub, u64.
    rewrite Zminus_mod_idemp_l. f_equal. lia.
  - by destruct (_ <? _).
  - by destruct (_ <? _).
Qed.

Lemma recovered_loss_witness :
  let '(ps1, (dup1, _)) := record_known 4 (default (record_first 4 0)
       (producers (fst (run (New 4) (stream "p" [1; 2; 3; 9]))) !! "p")) 4 in
  dup1 = false /\ ps_confirmedLost ps1 = 0.
Proof.
  pose proof (recovered_loss 4 (stream "p" [1; 2; 3; 9]) "p"
    (default (record_first 4 0) (producers (fst (run (New 4) (stream "p" [1; 2; 3; 9]))) !! "p")) 4) as H.
  destruct (record_known 4 _ 4) as [ps1 [d o]].
  destruct H as (H1 & H2 & _).
  - unfold rw_ok. range.
  - repeat constructor; simpl; range.
  - vm_compute. reflexivity.
  - range.
  - refine (bool_decide_eq_true_1 _ _). vm_compute. reflexivity.
  - split; [exact H1|]. rewrite H2. vm_compute. reflexivity.
Defined.

(** ** Counters *)

Lemma advanceContiguous_counters ps :
  let ps' := advanceContiguous ps in
  ps_received ps' = ps_received ps /\ ps_duplicates ps' = ps_duplicates ps /\
  ps_confirmedLost ps' = ps_confirmedLost ps /\
  ps_lastReportedLost ps' = ps_lastReportedLost ps.
Proof. unfold advanceContiguous. by destruct (advance_loop _ _ _). Qed.

Lemma slideWindow_counters rw ps s :
  ps_received (slideWindow rw ps s) = ps_received ps /\
  ps_duplicates (slideWindow rw ps s) = ps_duplicates ps /\
  ps_lastReportedLost (slideWindow rw ps s) = ps_lastReportedLost ps.
Proof.
  unfold slideWindow. destruct (_ <=? _); [by destruct (_ <? _)|].
  match goal with |- context [advanceContiguous ?q] =>
    destruct (advanceContiguous_counters q) as (-> & -> & _ & ->) end.
  by destruct (to_int _ <? rw).
Qed.

Lemma record_known_counters rw ps s :
  let '(ps', (dup, _)) := record_known rw ps s in
  ps_received ps' = ps_received ps +u 1 /\
  ps_duplicates ps' = (if dup then ps_duplicates ps +u 1 else ps_duplicates ps) /\
  ps_lastReportedLost ps' = ps_lastReportedLost ps.
Proof.
  unfold record_known. simpl.
  destruct (s <? ps_lastSeen ps); simpl;
    (destruct (_ <=? _); [by destruct (bool_decide _)|]);
    (destruct (_ <=? _);
      [match goal with |- context [slideWindow _ ?q s] =>
         destruct (slideWindow_counters rw q s) as (-> & -> & ->) end; done|]);
    (destruct (getBit _ _); [done|]);
    (match goal with |- context [advanceContiguous ?q] =>
       destruct (advanceContiguous_counters q) as (-> & -> & _ & ->) end; done).
Qed.

Lemma record_first_counters rw s :
  let ps := record_first rw s in
  ps_received ps = 1 /\ ps_duplicates ps = 0 /\ ps_lastReportedLost ps = 0.
Proof.
  simpl. unfold record_first.
  match goal with |- context [advanceContiguous ?q] =>
    destruct (advanceContiguous_counters q) as (-> & -> & _ & ->) end. done.
Qed.

Definition count_true (l : list bool) : Z := Z.of_nat (length (filter (fun b => b = true) l)).

Lemma Record_counters t p s :
  let '(t', (dup, _)) := Record_ t p s in
  TotalReceived t' = TotalReceived t +u 1 /\
  TotalDuplicates t' = TotalDuplicates t +u (if dup then 1 else 0).
Proof.
  unfold Record_, TotalReceived, TotalDuplicates. destruct (producers t !! p) as [ps|] eqn:E.
  - pose proof (record_known_counters (reorderWindow t) ps s) as H.
    destruct (record_known _ ps s) as [ps' [d o]]. destruct H as (H1 & H2 & _).
    rewrite !sum_total. simpl. rewrite !(map_total_insert_old _ _ _ _ ps) by done.
    rewrite H1, H2. unfold uadd, u64. destruct d; rewrite ?Zplus_mod_idemp_l, ?Zplus_mod_idemp_r;
      split; f_equal; lia.
  - rewrite !sum_total. simpl. rewrite !map_total_insert_new by done.
    destruct (record_first_counters (reorderWindow t) s) as (-> & -> & _).
    unfold uadd, u64. rewrite ?Zplus_mod_idemp_l. split; f_equal; lia.
Qed.

Lemma run_counters t evs :
  TotalReceived (fst (run t evs)) = TotalReceived t +u Z.of_nat (length evs) /\
  TotalDuplicates (fst (run t evs)) = TotalDuplicates t +u count_true (snd (run t evs)).
Proof.
  revert t. induction evs as [|[p s] evs IH]; intros t; simpl.
  - unfold TotalReceived, TotalDuplicates, count_true. rewrite !sum_total. unfold uadd, u64. simpl.
    by rewrite !Z.add_0_r, !Z.mod_mod.
  - pose proof (Record_counters t p s) as H. destruct (Record_ t p s) as [t1 [d o]].
    destruct H as [H1 H2], (IH t1) as [I1 I2]. destruct (run t1 evs) as [t2 ds]. simpl in *.
    rewrite I1, I2, H1, H2. unfold uadd, u64, count_true.
    rewrite !Zplus_mod_idemp_l, filter_cons.
    destruct d; simpl; split; f_equal; lia.
Qed.

(** [TotalReceived] counts every call of [Record] and
    [TotalDuplicates] counts exactly the calls that returned a duplicate, over
    any run from [New], as [uint64] counters. *)
Theorem totals_count_calls rw evs :
  TotalReceived (fst (run (New rw) evs)) = u64 (Z.of_nat (length evs)) /\
  TotalDuplicates (fst (run (New rw) evs)) = u64 (count_true (snd (run (New rw) evs))).
Proof. destruct (run_counters (New rw) evs) as [-> ->]. done. Qed.

(** ** The periodic gap report *)

(** What the engine does with a tracker between two resets: records and
    periodic [DetectGaps] scans, whose deltas a metric adds up. *)
Inductive tracker_op := OpRecord (p : string) (s : Z) | OpDetectGaps.

Definition tracker_step (acc : gmap string Z * Tracker) (op : tracker_op) : gmap string Z * Tracker :=
  let '(reported, t) := acc in
  match op with
  | OpRecord p s => (reported, fst (Record_ t p s))
  | OpDetectGaps =>
      let '(t', gaps) := DetectGaps t in
      (union_with (fun a b => Some (a + b)) reported gaps, t')
  end.

(** The metric is never below what the last scan of each producer saw. *)
Definition reports_cover (acc : gmap string Z * Tracker) : Prop :=
  (forall p, 0 <= default 0 (fst acc !! p)) /\
  forall p ps, producers (snd acc) !! p = Some ps ->
    is_u64 (ps_lastReportedLost ps) /\ is_u64 (ps_confirmedLost ps) /\
    ps_lastReportedLost ps <= default 0 (fst acc !! p).

Lemma advance_lost_range rw ps s :
  is_u64 (ps_confirmedLost ps) -> is_u64 (ps_confirmedLost (fst (record_known rw ps s))).
Proof.
  intros H. unfold record_known. simpl.
  assert (forall q, is_u64 (ps_confirmedLost q) -> is_u64 (ps_confirmedLost (advanceContiguous q))) as Ha.
  { intros q. destruct (advanceContiguous_counters q) as (_ & _ & -> & _). done. }
  destruct (s <? ps_lastSeen ps); simpl;
    (destruct (_ <=? _); [destruct (bool_decide _); simpl; auto with u64|]);
    (destruct (_ <=? _); simpl;
      [unfold slideWindow; destruct (_ <=? _); [by destruct (_ <? _)|];
         apply Ha; destruct (to_int _ <? rw); simpl; auto with u64|]);
    (destruct (getBit _ _); [done|]); simpl; by apply Ha.
Qed.

Lemma default_union_with (m1 m2 : gmap string Z) p :
  default 0 (union_with (fun a b => Some (a + b)) m1 m2 !! p)
    = default 0 (m1 !! p) + default 0 (m2 !! p).
Proof. rewrite lookup_union_with. destruct (m1 !! p), (m2 !! p); simpl; lia. Qed.


Lemma gap_delta_bounds ps :
  is_u64 (ps_lastReportedLost ps) -> is_u64 (ps_confirmedLost ps) ->
  0 <= default 0 (gap_delta ps) /\
  ps_confirmedLost ps <= ps_lastReportedLost ps + default 0 (gap_delta ps).
Proof. intros H1 H2. unfold gap_delta. case_if; simpl; [unwrap|]; lia. Qed.

Lemma DetectGaps_covers rep t : reports_cover (rep, t) -> reports_cover (tracker_step (rep, t) OpDetectGaps).
Proof.
  intros [Hpos H]. simpl in *.
  assert (forall q ps, producers t !! q = Some ps -> omap gap_delta (producers t) !! q = gap_delta ps) as Hg.
  { intros q ps Hq. by rewrite lookup_omap, Hq. }
  split; simpl.
  - intros q. rewrite default_union_with. specialize (Hpos q). simpl in Hpos.
    destruct (producers t !! q) as [ps|] eqn:E.
    + destruct (H q ps E) as (? & ? & _). rewrite (Hg q ps E).
      destruct (gap_delta_bounds ps); [done..|]. lia.
    + rewrite lookup_omap, E. simpl. lia.
  - intros q ps Hq. rewrite lookup_fmap in Hq.
    destruct (producers t !! q) as [ps0|] eqn:E; [|done]. simplify_eq/=.
    destruct (H q ps0 E) as (H1 & H2 & H3). split_and!; [done|done|].
    rewrite default_union_with, (Hg q ps0 E). destruct (gap_delta_bounds ps0 H1 H2). lia.
Qed.

Lemma Record_covers rep t p s : reports_cover (rep, t) -> reports_cover (rep, fst (Record_ t p s)).
Proof.
  intros [Hpos H]. split; [done|]. intros q ps Hq. simpl in *. unfold Record_ in Hq.
  destruct (producers t !! p) as [ps0|] eqn:E.
  - pose proof (record_known_counters (reorderWindow t) ps0 s) as Hc.
    pose proof (advance_lost_range (reorderWindow t) ps0 s) as Hr.
    destruct (record_known _ ps0 s) as [ps' [d o]]. destruct Hc as (_ & _ & Hc). simpl in *.
    apply lookup_insert_Some in Hq as [[<- <-]|[_ Hq]]; [|by apply H].
    destruct (H p ps0 E) as (? & ? & ?). rewrite Hc. auto.
  - simpl in Hq. apply lookup_insert_Some in Hq as [[<- <-]|[_ Hq]]; [|by apply H].
    destruct (record_first_counters (reorderWindow t) s) as (_ & _ & ->).
    split_and!; [range| |apply Hpos].
    unfold record_first. match goal with |- context [advanceContiguous ?q] =>
      destruct (advanceContiguous_counters q) as (_ & _ & -> & _) end. simpl. range.
Qed.

Lemma ops_cover ops acc : reports_cover acc -> reports_cover (foldl tracker_step acc ops).
Proof.
  revert acc. induction ops as [|[p s|] ops IH]; intros [rep t] H; simpl; [done| |];
    apply IH; [by apply Record_covers | by apply DetectGaps_covers].
Qed.

(** Whatever the interleaving of records and gap scans, after
    a scan the deltas reported so far for a producer add up to at least its
    confirmed loss, and scanning again at once reports nothing. *)
Theorem gap_reports_cover_losses rw ops p ps :
  let acc := foldl tracker_step (∅, New rw) (ops ++ [OpDetectGaps]) in
  producers (snd acc) !! p = Some ps ->
  ps_confirmedLost ps <= default 0 (fst acc !! p) /\ snd (DetectGaps (snd acc)) !! p = None.
Proof.
  pose proof (ops_cover (ops ++ [OpDetectGaps]) (∅, New rw)) as Hc.
  rewrite foldl_app in *. destruct (foldl tracker_step (∅, New rw) ops) as [rep t]. simpl in *.
  intros Hp. destruct Hc as [_ Hc].
  { split; [intros q; simpl; by rewrite (lookup_empty (M := gmap string))|].
    intros q x Hq. simpl in Hq. by rewrite lookup_empty in Hq. }
  destruct (Hc p ps Hp) as (_ & _ & Hle). simpl in Hle.
  rewrite lookup_fmap in Hp. destruct (producers t !! p) as [ps0|] eqn:E; [|done].
  simplify_eq/=. split; [done|]. rewrite lookup_omap, lookup_fmap, E. simpl.
  unfold gap_delta. simpl. by rewrite Z.ltb_irrefl.
Qed.

Lemma gap_reports_cover_losses_witness :
  exists ps, let acc := foldl tracker_step (∅, New 4)
       ([OpRecord "p" 1; OpRecord "p" 9; OpDetectGaps; OpRecord "p" 3] ++ [OpDetectGaps]) in
  producers (snd acc) !! "p" = Some ps /\
  ps_confirmedLost ps <= default 0 (fst acc !! "p") /\ snd (DetectGaps (snd acc)) !! "p" = None.
Proof.
  eexists. split; [vm_compute; reflexivity|].
  apply (gap_reports_cover_losses 4 [OpRecord "p" 1; OpRecord "p" 9; OpDetectGaps; OpRecord "p" 3] "p").
  vm_compute. reflexivity.
Defined.
