(* ===== verification/Streams.v ===== *)
(** * Complete in-order deliveries of several producers

    What the tracker reports when every producer's sequences arrive complete
    and in order, whatever the interleaving of the producers: the end-to-end
    theorems of the workers rest on it. *)
From S2P Require Import Prelude Tracker TrackerBits TrackerSpec TrackerProps.

(** The sequences a list of events carries for one producer. *)
Definition of_producer (p : string) (evs : list (string * Z)) : list Z :=
  omap (fun e => if decide (e.1 = p) then Some e.2 else None) evs.

(** Per producer, [evs] continues from the last sequence in [last]. *)
Definition continues (last : gmap string Z) (evs : list (string * Z)) : Prop :=
  forall p, match last !! p with
            | Some h => exists n, of_producer p evs = seqZ (h + 1) n
            | None => exists s n, of_producer p evs = seqZ s n
            end.

(** The abstract tracker that has seen everything up to [last]. *)
Definition complete (last : gmap string Z) : gmap string spec := (fun h => mkSpec h ∅ ∅) <$> last.

Lemma of_producer_cons p q s evs :
  of_producer p ((q, s) :: evs) = if decide (q = p) then s :: of_producer p evs else of_producer p evs.
Proof. unfold of_producer. cbn. by destruct (decide (q = p)). Qed.

Lemma of_producer_app p evs evs' : of_producer p (evs ++ evs') = of_producer p evs ++ of_producer p evs'.
Proof. apply omap_app. Qed.
(** The stream of a single producer. *)
Lemma of_single p s n q : exists a k, of_producer q (pair p <$> seqZ s n) = seqZ a k.
Proof.
  destruct (decide (p = q)) as [<-|Hne].
  - exists s, n. generalize (seqZ s n). intros l.
    induction l as [|x l IH]; [done|]. cbn [fmap list_fmap]. rewrite of_producer_cons, decide_True by done. by rewrite IH.
  - exists 0, 0. change (seqZ 0 0) with ([] : list Z). generalize (seqZ s n). intros l.
    induction l as [|x l IH]; [done|]. cbn [fmap list_fmap]. rewrite of_producer_cons, decide_False by done. done.
Qed.

Lemma seqZ_cons_inv s l a n : s :: l = seqZ a n -> s = a /\ l = seqZ (a + 1) (n - 1).
Proof.
  intros H. destruct (decide (0 < n)) as [Hn|Hn].
  - rewrite seqZ_cons in H by done. simplify_eq. split; [done|]. f_equal; lia.
  - rewrite seqZ_nil in H by lia. done.
Qed.

Lemma spec_record_next rw h : 0 < rw -> spec_record rw (mkSpec h ∅ ∅) (h + 1) = (mkSpec (h + 1) ∅ ∅, false).
Proof.
  intros Hrw. unfold spec_record. cbn [sp_high sp_seen sp_pending].
  destruct (h + 1 <=? h) eqn:E1; zbool; [lia|]. destruct (h + rw <? h + 1) eqn:E2; zbool; [lia|].
  rewrite bool_decide_false by set_solver. f_equal. unfold spec_settle.
  rewrite union_empty_r_L, size_singleton. cbn [spec_advance].
  rewrite bool_decide_true by set_solver. rewrite difference_diag_L.
  by rewrite bool_decide_false by set_solver.
Qed.

Lemma complete_insert p h last : complete (<[p := h]> last) = <[p := mkSpec h ∅ ∅]> (complete last).
Proof. unfold complete. by rewrite fmap_insert. Qed.

Lemma continues_step last p s evs :
  continues last ((p, s) :: evs) ->
  match last !! p with Some h => s = h + 1 | None => True end /\ continues (<[p := s]> last) evs.
Proof.
  intros H. split.
  - specialize (H p). rewrite of_producer_cons in H. destruct (decide (p = p)); [|done].
    destruct (last !! p) as [h|]; [|done]. destruct H as [n Hn]. by apply seqZ_cons_inv in Hn as [-> _].
  - intros q. specialize (H q). rewrite of_producer_cons in H. destruct (decide (p = q)) as [->|Hne].
    + rewrite lookup_insert_eq. destruct (last !! q) as [h|].
      * destruct H as [n Hn]. apply seqZ_cons_inv in Hn as [-> ->]. eauto.
      * destruct H as (a & n & Hn). apply seqZ_cons_inv in Hn as [-> ->]. eauto.
    + by rewrite lookup_insert_ne.
Qed.

Lemma spec_run_complete rw last evs :
  0 < rw -> continues last evs ->
  exists last', fst (spec_run rw (complete last) evs) = complete last' /\
  snd (spec_run rw (complete last) evs) = replicate (length evs) false.
Proof.
  intros Hrw. revert last. induction evs as [|[p s] evs IH]; intros last H; [by exists last|].
  apply continues_step in H as [Hs H]. destruct (IH _ H) as (last' & E1 & E2). rewrite complete_insert in E1, E2.
  cbn. unfold spec_Record. rewrite (lookup_fmap _ last p : complete last !! p = _).
  destruct (last !! p) as [h|]; cbn [fmap option_fmap option_map].
  - subst s. rewrite spec_record_next by done.
    destruct (spec_run rw _ evs) as [m ds]. cbn in *. exists last'. subst. done.
  - destruct (spec_run rw _ evs) as [m ds]. cbn in *. exists last'. subst. done.
Qed.

Lemma spec_lost_complete last : spec_lost (complete last) = 0.
Proof.
  unfold spec_lost, complete. induction last as [|p h last Hp IH] using map_ind; [done|].
  rewrite fmap_insert, map_total_insert_new by (by rewrite lookup_fmap, Hp).
  rewrite IH. cbn [sp_pending]. by rewrite size_empty.
Qed.

(** A fresh tracker reports no loss and no duplicate on such a stream. *)
Lemma in_order_clean t evs :
  rw_ok (reorderWindow t) -> producers t = ∅ ->
  Forall (fun e => is_u64 e.2) evs -> (forall p, exists s n, of_producer p evs = seqZ s n) ->
  TotalLost (fst (run t evs)) = 0 /\ snd (run t evs) = replicate (length evs) false.
Proof.
  intros Hrw Ht Hu H.
  assert (tracker_rel t ∅) as Hrel by (split; [done|]; intros p; by rewrite Ht, !lookup_empty).
  destruct (run_sim t ∅ evs Hrel Hu) as [H1 H2].
  destruct (spec_run_complete (reorderWindow t) ∅ evs) as (last & E1 & E2).
  { unfold rw_ok in Hrw. lia. }
  { intros p. by rewrite lookup_empty. }
  change (complete ∅) with (∅ : gmap string spec) in *.
  rewrite (rel_lost _ _ H1), E1, H2, spec_lost_complete. done.
Qed.

(** ** Producers are independent *)

Definition events_of (p : string) (evs : list (string * Z)) : list (string * Z) :=
  List.filter (fun e => bool_decide (e.1 = p)) evs.

Lemma Record_other t p q s : q <> p -> producers (fst (Record_ t q s)) !! p = producers t !! p.
Proof.
  intros H. unfold Record_. destruct (producers t !! q); [|by apply lookup_insert_ne].
  destruct (record_known _ _ _) as [ps res]. by apply lookup_insert_ne.
Qed.

Lemma Record_own t t' p s :
  reorderWindow t = reorderWindow t' -> producers t !! p = producers t' !! p ->
  producers (fst (Record_ t p s)) !! p = producers (fst (Record_ t' p s)) !! p.
Proof.
  intros Er Ep. unfold Record_. rewrite Ep, Er. destruct (producers t' !! p).
  - destruct (record_known _ _ _) as [ps res]. cbn. by rewrite !lookup_insert_eq.
  - cbn. by rewrite !lookup_insert_eq.
Qed.

Lemma run_cons_fst t p s evs : fst (run t ((p, s) :: evs)) = fst (run (fst (Record_ t p s)) evs).
Proof. cbn [run]. destruct (Record_ t p s) as [t1 [dup oo]]. cbn [fst]. by destruct (run t1 evs). Qed.

(** A producer's state is what its own events alone would make it. *)
Lemma run_local t t' p evs :
  reorderWindow t = reorderWindow t' -> producers t !! p = producers t' !! p ->
  producers (fst (run t evs)) !! p = producers (fst (run t' (events_of p evs))) !! p.
Proof.
  revert t t'. induction evs as [|[q s] evs IH]; intros t t' Er Ep; [done|]. rewrite run_cons_fst.
  unfold events_of. cbn [List.filter fst]. case_bool_decide as E.
  - subst q. rewrite run_cons_fst. apply IH; [by rewrite !Record_rw|by apply Record_own].
  - apply IH; [by rewrite Record_rw|by rewrite Record_other].
Qed.

(** ** Runs, concatenated *)

Lemma run_app t evs evs' :
  run t (evs ++ evs') =
  (fst (run (fst (run t evs)) evs'), snd (run t evs) ++ snd (run (fst (run t evs)) evs')).
Proof.
  revert t. induction evs as [|[p s] evs IH]; intros t; cbn [run app fst snd]; [by destruct (run t evs')|].
  destruct (Record_ t p s) as [t1 [dup oo]]. rewrite IH. destruct (run t1 evs) as [t2 ds]. done.
Qed.

(** ** Replays below the watermark *)

Lemma stream_cons p s l : stream p (s :: l) = (p, s) :: stream p l.
Proof. done. Qed.

(** Sequences at or below the watermark of a complete producer are duplicates,
    and change nothing else. *)
Lemma spec_run_replays rw m p h l :
  m !! p = Some (mkSpec h ∅ ∅) -> Forall (fun s => s <= h) l ->
  spec_run rw m (stream p l) = (m, replicate (length l) true).
Proof.
  intros Hm. induction 1 as [|s l Hs Hl IH]; [done|]. cbn. unfold spec_Record. rewrite Hm.
  assert (spec_record rw (mkSpec h ∅ ∅) s = (mkSpec h ∅ ∅, true)) as ->.
  { unfold spec_record. cbn [sp_high sp_pending]. rewrite (proj2 (Z.leb_le _ _)) by done.
    by rewrite bool_decide_false by set_solver. }
  rewrite insert_id by done. fold (stream p l). by rewrite IH.
Qed.

(** A complete stream of one producer, then replays of parts of it. *)
Lemma complete_then_replayed t p n l :
  rw_ok (reorderWindow t) -> producers t = ∅ -> 0 < n < two64 -> Forall (fun s => 1 <= s <= n) l ->
  TotalLost (fst (run t (stream p (seqZ 1 n) ++ stream p l))) = 0 /\
  snd (run t (stream p (seqZ 1 n) ++ stream p l)) = replicate (Z.to_nat n) false ++ replicate (length l) true.
Proof.
  intros Hrw Ht Hn Hl.
  assert (tracker_rel t ∅) as Hrel by (split; [done|]; intros q; by rewrite Ht, !lookup_empty).
  destruct (run_sim t ∅ (stream p (seqZ 1 n) ++ stream p l) Hrel) as [H1 H2].
  { apply Forall_app. split; apply Forall_fmap; [apply Forall_forall; intros s Hs%elem_of_seqZ|eapply Forall_impl; [exact Hl|intros s Hs]];
      unfold compose; cbn in *; range. }
  rewrite (rel_lost _ _ H1), H2. clear H1 H2.
  assert (forall k h m, m !! p = Some (mkSpec h ∅ ∅) ->
    spec_run (reorderWindow t) m (stream p (seqZ (h + 1) (Z.of_nat k)) ++ stream p l) =
    let m' := <[p := mkSpec (h + Z.of_nat k) ∅ ∅]> m in
    (fst (spec_run (reorderWindow t) m' (stream p l)),
     replicate k false ++ snd (spec_run (reorderWindow t) m' (stream p l)))) as Hs.
  { intros k. induction k as [|k IH]; intros h m Hm.
    - cbn [Z.of_nat]. rewrite Z.add_0_r, insert_id by done. cbn. by destruct (spec_run _ m _).
    - rewrite (seqZ_cons (h + 1)) by lia. rewrite stream_cons, <- app_comm_cons. cbn [spec_run].
      unfold spec_Record. rewrite Hm, spec_record_next by (unfold rw_ok in Hrw; lia).
      replace (Z.pred (Z.of_nat (S k))) with (Z.of_nat k) by lia.
      replace (Z.succ (h + 1)) with (h + 1 + 1) by lia.
      rewrite IH by apply lookup_insert_eq. rewrite insert_insert_eq.
      replace (h + Z.of_nat (S k)) with (h + 1 + Z.of_nat k) by lia. done. }
  rewrite (seqZ_cons 1) by lia. rewrite stream_cons, <- app_comm_cons. cbn [spec_run].
  unfold spec_Record. rewrite lookup_empty.
  replace (Z.pred n) with (Z.of_nat (Z.to_nat (n - 1))) by lia. change (Z.succ 1) with (1 + 1).
  rewrite Hs by apply lookup_insert_eq. cbv zeta. rewrite insert_insert_eq.
  replace (1 + Z.of_nat (Z.to_nat (n - 1))) with n by lia.
  rewrite (spec_run_replays _ _ p n) by (apply lookup_insert_eq || (eapply Forall_impl; [exact Hl|]; intros s ?; cbn in *; lia)).
  cbn [fst snd]. split.
  - unfold spec_lost. rewrite map_total_insert_new by apply lookup_empty. rewrite map_total_empty. cbn [sp_pending].
    by rewrite size_empty.
  - replace (Z.to_nat n) with (S (Z.to_nat (n - 1))) by lia. done.
Qed.
