(* ===== verification/GoFloat.v ===== *)
(** * Go's float64

    Binary64 arithmetic as the harness uses it, on the executable
    specification floats of the Standard Library ([SpecFloat]): conversions
    from and to integers, the four operations with round-to-nearest-even, the
    comparisons (false on NaN) and the [%.Nf] rendering.  The order theory at
    the end is what the threshold comparisons need. *)
From S2P Require Import Prelude.
From Stdlib Require Import SpecFloat.

Definition float64 : Set := spec_float.

Definition f_of_Z (z : Z) : float64 := binary_normalize 53 1024 z 0 false.
Definition fadd : float64 -> float64 -> float64 := SFadd 53 1024.
Definition fsub : float64 -> float64 -> float64 := SFsub 53 1024.
Definition fmul : float64 -> float64 -> float64 := SFmul 53 1024.
Definition fdiv : float64 -> float64 -> float64 := SFdiv 53 1024.
Definition fltb : float64 -> float64 -> bool := SFltb.
Definition fleb : float64 -> float64 -> bool := SFleb.
Definition feqb : float64 -> float64 -> bool := SFeqb.

(** A decimal constant [n/d]: for integers below 2^53 the quotient is the
    nearest double, which is what the compiler stores. *)
Definition f_lit (n d : Z) : float64 := fdiv (f_of_Z n) (f_of_Z d).

Definition f0 : float64 := f_of_Z 0.
Definition f100 : float64 := f_of_Z 100.

(** Conversion to an integer: truncation towards zero (defined for values in
    range, which are the only ones the source converts). *)
Definition f_trunc (x : float64) : Z :=
  match x with
  | S754_finite s m e =>
      let a := if 0 <=? e then Z.pos m * 2 ^ e else Z.pos m / 2 ^ (- e) in
      if s then - a else a
  | _ => 0
  end.

(** [time.Duration] is an int64 of nanoseconds; [Seconds()] splits it. *)
Definition Nanosecond : Z := 1.
Definition Microsecond : Z := 1000.
Definition Millisecond : Z := 1000000.
Definition Second : Z := 1000000000.
Definition Minute : Z := 60 * Second.
Definition Hour : Z := 60 * Minute.

Definition Seconds (d : Z) : float64 :=
  fadd (f_of_Z (Z.quot d Second)) (fdiv (f_of_Z (Z.rem d Second)) (f_of_Z 1000000000)).

(** [part / whole * 100], the percentage of the gates. *)
Definition pct (part whole : Z) : float64 := fmul (fdiv (f_of_Z part) (f_of_Z whole)) f100.

Global Instance float64_eq_dec : EqDecision float64.
Proof. solve_decision. Defined.

Definition is_nan (x : float64) : bool := match x with S754_nan => true | _ => false end.

(** ** The order

    [rank] embeds the non-NaN values, by sign, exponent and mantissa, into a
    lexicographic order on integer triples. *)
Definition rank (x : float64) : Z * Z * Z :=
  match x with
  | S754_zero _ => (0, 0, 0)
  | S754_infinity s => (if s then -2 else 2, 0, 0)
  | S754_nan => (3, 0, 0)
  | S754_finite false m e => (1, e, Z.pos m)
  | S754_finite true m e => (-1, - e, - Z.pos m)
  end.

Definition lex_lt (a b : Z * Z * Z) : Prop :=
  let '(a1, a2, a3) := a in let '(b1, b2, b3) := b in
  a1 < b1 \/ a1 = b1 /\ (a2 < b2 \/ a2 = b2 /\ a3 < b3).

Lemma fltb_rank x y :
  is_nan x = false -> is_nan y = false -> fltb x y = true <-> lex_lt (rank x) (rank y).
Proof.
  destruct x as [s1|s1| |s1 m1 e1], y as [s2|s2| |s2 m2 e2]; try done; intros _ _;
    unfold fltb, SFltb, SFcompare, lex_lt; simpl;
    try destruct s1; try destruct s2; simpl;
    try (change (Pos.compare_cont Eq m1 m2) with (Pos.compare m1 m2);
         destruct (Z.compare_spec e1 e2); [subst; destruct (Pos.compare_spec m1 m2)|..]; simpl);
    (split; [intros Hl; first [discriminate Hl | lia] | intros Hl; first [reflexivity | exfalso; lia]]).
Qed.

Lemma lex_lt_trans a b c : lex_lt a b -> lex_lt b c -> lex_lt a c.
Proof. destruct a as [[??]?], b as [[??]?], c as [[??]?]. unfold lex_lt. lia. Qed.

Lemma lex_lt_irrefl a : ~ lex_lt a a.
Proof. destruct a as [[??]?]. unfold lex_lt. lia. Qed.

Lemma fleb_fltb x y : is_nan x = false -> is_nan y = false -> fleb x y = negb (fltb y x).
Proof.
  destruct x as [s1|s1| |s1 m1 e1], y as [s2|s2| |s2 m2 e2]; try done; intros _ _;
    unfold fleb, fltb, SFleb, SFltb, SFcompare;
    try destruct s1; try destruct s2; try done;
    change (Pos.compare_cont Eq m1 m2) with (Pos.compare m1 m2);
    change (Pos.compare_cont Eq m2 m1) with (Pos.compare m2 m1);
    destruct (Z.compare_spec e1 e2), (Z.compare_spec e2 e1); try lia; try done;
    destruct (Pos.compare_spec m1 m2), (Pos.compare_spec m2 m1); try lia; done.
Qed.

Lemma fltb_nan_l x y : is_nan x = true -> fltb x y = false.
Proof. destruct x; done. Qed.
Lemma fltb_nan_r x y : is_nan y = true -> fltb x y = false.
Proof. by destruct x as [[]|[]| |[]], y. Qed.
Lemma fleb_nan_r x y : is_nan y = true -> fleb x y = false.
Proof. by destruct x as [[]|[]| |[]], y. Qed.

Lemma fltb_irrefl x : fltb x x = false.
Proof.
  destruct (is_nan x) eqn:Hx; [by apply fltb_nan_l|].
  apply not_true_is_false. rewrite fltb_rank by done. apply lex_lt_irrefl.
Qed.

Lemma fltb_not_nan x y : fltb x y = true -> is_nan x = false /\ is_nan y = false.
Proof.
  intros H. split; apply not_true_is_false; intros E.
  - by rewrite fltb_nan_l in H.
  - by rewrite fltb_nan_r in H.
Qed.

Lemma fltb_trans x y z : fltb x y = true -> fltb y z = true -> fltb x z = true.
Proof.
  intros H1 H2. destruct (fltb_not_nan _ _ H1), (fltb_not_nan _ _ H2).
  rewrite fltb_rank in * by done. by eapply lex_lt_trans.
Qed.

(** [x] at most [y] and [y] below [z]. *)
Lemma fleb_fltb_trans x y z : fleb x y = true -> fltb y z = true -> fltb x z = true.
Proof.
  intros H1 H2. destruct (fltb_not_nan _ _ H2) as [Hy Hz].
  assert (is_nan x = false) as Hx by (destruct x; done).
  rewrite fleb_fltb in H1 by done. apply negb_true_iff in H1.
  rewrite fltb_rank in H2 |- * by done.
  assert (~ lex_lt (rank y) (rank x)) as H3.
  { rewrite <- fltb_rank by done. by rewrite H1. }
  revert H2 H3. destruct (rank x) as [[??]?], (rank y) as [[??]?], (rank z) as [[??]?].
  unfold lex_lt. lia.
Qed.

(** ** Conversions of counters are finite, and percentages are numbers *)

Lemma shr_1_m r : 0 <= shr_m r -> shr_m (shr_1 r) = shr_m r / 2.
Proof.
  destruct r as [m rr s]. simpl. intros H. destruct m as [|[p|p|]|p]; try done; simpl.
  - rewrite (Pos2Z.inj_xI p). apply (Z.div_unique _ 2 (Z.pos p) 1); lia.
  - rewrite (Pos2Z.inj_xO p), Z.mul_comm, Z.div_mul; lia.
Qed.

Lemma iter_shr_m p r : 0 <= shr_m r -> shr_m (iter_pos shr_1 p r) = shr_m r / 2 ^ Z.pos p.
Proof.
  revert r. induction p as [p IH|p IH|]; intros r H; simpl iter_pos.
  - assert (0 <= shr_m (shr_1 r)) by (rewrite shr_1_m by done; apply Z.div_pos; lia).
    assert (0 <= shr_m (iter_pos shr_1 p (shr_1 r))) by (rewrite IH by done; apply Z.div_pos; lia).
    rewrite IH, IH, shr_1_m by done. rewrite !Z.div_div by lia. f_equal.
    rewrite (Pos2Z.inj_xI p), Z.add_comm, Z.pow_add_r by lia.
    replace (2 * Z.pos p) with (Z.pos p + Z.pos p) by lia. rewrite Z.pow_add_r by lia. lia.
  - assert (0 <= shr_m (iter_pos shr_1 p r)) by (rewrite IH by done; apply Z.div_pos; lia).
    rewrite IH, IH, Z.div_div by (done || lia). f_equal.
    rewrite (Pos2Z.inj_xO p). replace (2 * Z.pos p) with (Z.pos p + Z.pos p) by lia.
    by rewrite Z.pow_add_r by lia.
  - by apply shr_1_m.
Qed.

Lemma shr_spec r e n :
  0 <= shr_m r -> shr_m (fst (shr r e n)) = shr_m r / 2 ^ Z.max 0 n /\ snd (shr r e n) = e + Z.max 0 n.
Proof.
  intros H. destruct n as [|p|p]; simpl.
  - rewrite Z.div_1_r. split; [done|lia].
  - by rewrite iter_shr_m.
  - rewrite Z.div_1_r. split; [done|lia].
Qed.

Lemma rne_range m l : m <= round_nearest_even m l <= m + 1.
Proof. destruct l as [|[]]; simpl; try lia. destruct (Z.even m); lia. Qed.

Lemma shr_record_of_loc_m m l : shr_m (shr_record_of_loc m l) = m.
Proof. by destruct l as [|[]]. Qed.

(** The two shifts of the final rounding, as divisions. *)
Lemma round_aux_shape sx mx ex lx :
  0 <= mx ->
  exists m2 m3 e3,
    (let n1 := Z.max 0 (fexp 53 1024 (Zdigits2 mx + ex) - ex) in
     mx / 2 ^ n1 <= m2 <= mx / 2 ^ n1 + 1 /\
     let n2 := Z.max 0 (fexp 53 1024 (Zdigits2 m2 + (ex + n1)) - (ex + n1)) in
     m3 = m2 / 2 ^ n2 /\ e3 = ex + n1 + n2) /\
    binary_round_aux 53 1024 sx mx ex lx =
      match m3 with
      | Z0 => S754_zero sx
      | Zpos m => if e3 <=? 971 then S754_finite sx m e3 else S754_infinity sx
      | Zneg _ => S754_nan
      end.
Proof.
  intros Hm. unfold binary_round_aux, shr_fexp.
  pose proof (shr_spec (shr_record_of_loc mx lx) ex (fexp 53 1024 (Zdigits2 mx + ex) - ex)) as H1.
  rewrite shr_record_of_loc_m in H1. destruct (H1 Hm) as [M1 E1].
  destruct (shr (shr_record_of_loc mx lx) ex _) as [r1 e1]. simpl in M1, E1.
  set (m2 := round_nearest_even (shr_m r1) (loc_of_shr_record r1)).
  pose proof (rne_range (shr_m r1) (loc_of_shr_record r1)) as Hr. fold m2 in Hr.
  assert (0 <= shr_m r1) by (rewrite M1; apply Z.div_pos; lia).
  pose proof (shr_spec (shr_record_of_loc m2 loc_Exact) e1 (fexp 53 1024 (Zdigits2 m2 + e1) - e1)) as H2.
  rewrite shr_record_of_loc_m in H2. destruct H2 as [M2 E2]; [lia|].
  destruct (shr (shr_record_of_loc m2 loc_Exact) e1 _) as [r2 e2]. simpl in M2, E2.
  exists m2, (shr_m r2), e2. split; [|done]. rewrite M1 in Hr. split; [done|]. rewrite M2, E2, E1. done.
Qed.

Lemma round_aux_not_nan sx mx ex lx : 0 <= mx -> is_nan (binary_round_aux 53 1024 sx mx ex lx) = false.
Proof.
  intros Hm. destruct (round_aux_shape sx mx ex lx Hm) as (m2 & m3 & e3 & (Hr & -> & ->) & ->).
  assert (0 <= mx / 2 ^ Z.max 0 (fexp 53 1024 (Zdigits2 mx + ex) - ex)) by (apply Z.div_pos; lia).
  match goal with |- is_nan match ?q with _ => _ end = false =>
    assert (0 <= q) by (apply Z.div_pos; lia); destruct q; [done|by destruct (_ <=? _)|lia] end.
Qed.

Lemma digits2_bounds p : 2 ^ (Z.pos (digits2_pos p) - 1) <= Z.pos p < 2 ^ Z.pos (digits2_pos p).
Proof.
  assert (forall d, 2 ^ Z.pos (Pos.succ d) = 2 * 2 ^ Z.pos d) as Hs.
  { intros d. rewrite Pos2Z.inj_succ, Z.pow_succ_r by lia. lia. }
  assert (forall d, 2 ^ (Z.pos (Pos.succ d) - 1) = 2 * 2 ^ (Z.pos d - 1)) as Hs'.
  { intros d. rewrite Pos2Z.inj_succ. replace (Z.succ (Z.pos d) - 1) with (Z.succ (Z.pos d - 1)) by lia.
    rewrite Z.pow_succ_r by lia. lia. }
  induction p as [p IH|p IH|]; simpl digits2_pos; [..|done]; rewrite Hs, Hs'.
  - rewrite (Pos2Z.inj_xI p). lia.
  - rewrite (Pos2Z.inj_xO p). lia.
Qed.

(** A mantissa keeps a leading digit when it is shifted to 53 digits. *)
Lemma shift_pos m n : 0 < m -> n <= Z.max 0 (Zdigits2 m - 53) -> 0 <= n -> 1 <= m / 2 ^ n.
Proof.
  intros Hm Hn H0. destruct m as [|p|p]; try lia. simpl in Hn. pose proof (digits2_bounds p).
  apply Z.div_le_lower_bound; [apply Z.pow_pos_nonneg; lia|]. rewrite Z.mul_1_r.
  transitivity (2 ^ (Z.pos (digits2_pos p) - 1)); [|lia]. apply Z.pow_le_mono_r; lia.
Qed.

Lemma digits_le m k : 0 < m < 2 ^ k -> Zdigits2 m <= k.
Proof.
  intros H. destruct m as [|p|p]; try lia. simpl. pose proof (digits2_bounds p).
  destruct (decide (Z.pos (digits2_pos p) <= k)); [done|]. exfalso.
  assert (2 ^ k <= 2 ^ (Z.pos (digits2_pos p) - 1)) by (apply Z.pow_le_mono_r; lia). lia.
Qed.

Lemma round_aux_finite sx mx ex lx :
  0 < mx < 2 ^ 100 -> -100 <= ex <= 100 ->
  exists m e, binary_round_aux 53 1024 sx mx ex lx = S754_finite sx m e.
Proof.
  intros Hm He. destruct (round_aux_shape sx mx ex lx ltac:(lia)) as (m2 & m3 & e3 & (Hr & -> & ->) & ->).
  pose proof (digits_le mx 100 Hm). assert (1 <= Zdigits2 mx) by (destruct mx; simpl; lia).
  assert (forall d x, 1 <= d <= 200 -> -100 <= x <= 400 -> fexp 53 1024 (d + x) - x = d - 53) as Hf.
  { intros d x Hd Hx. unfold fexp, emin. lia. }
  rewrite (Hf (Zdigits2 mx) ex) in Hr |- * by lia. set (n1 := Z.max 0 (Zdigits2 mx - 53)) in *.
  pose proof (shift_pos mx n1 ltac:(lia) ltac:(lia) ltac:(lia)).
  assert (mx / 2 ^ n1 <= mx) by (apply Z.div_le_upper_bound; [lia|]; assert (0 < 2 ^ n1) by lia; nia).
  assert (0 < m2 < 2 ^ 101) as Hm2 by lia. pose proof (digits_le m2 101 Hm2).
  assert (1 <= Zdigits2 m2) by (destruct m2; simpl; lia).
  rewrite (Hf (Zdigits2 m2) (ex + n1)) by lia. set (n2 := Z.max 0 (Zdigits2 m2 - 53)) in *.
  pose proof (shift_pos m2 n2 ltac:(lia) ltac:(lia) ltac:(lia)).
  destruct (m2 / 2 ^ n2) as [|m|m]; [lia| |lia].
  rewrite (proj2 (Z.leb_le _ 971)) by lia. by eexists _, _.
Qed.

Lemma iter_xO p q : Z.pos (Pos.iter xO p q) = Z.pos p * 2 ^ Z.pos q.
Proof.
  induction q as [|q IH] using Pos.peano_ind; [simpl; lia|].
  rewrite Pos.iter_succ, Pos2Z.inj_xO, IH, Pos2Z.inj_succ, Z.pow_succ_r by lia. lia.
Qed.

Lemma f_of_Z_finite z : 0 < z < 2 ^ 64 -> exists m e, f_of_Z z = S754_finite false m e.
Proof.
  intros Hz. destruct z as [|p|p]; try lia. unfold f_of_Z. cbn [binary_normalize]. unfold binary_round.
  pose proof (digits_le (Z.pos p) 64 Hz) as Hd. cbn [Zdigits2] in Hd. rewrite Z.add_0_r.
  assert (fexp 53 1024 (Z.pos (digits2_pos p)) = Z.pos (digits2_pos p) - 53) as ->
    by (unfold fexp, emin; lia).
  unfold shl_align. rewrite Z.sub_0_r.
  destruct (Z.pos (digits2_pos p) - 53) as [|q|q] eqn:E; [apply round_aux_finite; lia..|].
  apply round_aux_finite; [|lia]. split; [lia|]. rewrite iter_xO.
  pose proof (digits2_bounds p).
  assert (2 ^ Z.pos (digits2_pos p) * 2 ^ Z.pos q = 2 ^ 53) by (rewrite <- Z.pow_add_r by lia; f_equal; lia).
  assert (0 < 2 ^ Z.pos q) by (apply Z.pow_pos_nonneg; lia). nia.
Qed.

Lemma fdiv_not_nan x y :
  is_nan x = false -> (forall s, x <> S754_infinity s) ->
  (exists m e, y = S754_finite false m e) -> is_nan (fdiv x y) = false.
Proof.
  intros Hx Hi (m & e & ->). destruct x as [s|s| |s mx ex]; try done.
  unfold fdiv, SFdiv, SFdiv_core_binary.
  match goal with |- context [Z.div_eucl ?a ?b] => assert (0 <= fst (Z.div_eucl a b)) as Hq end.
  { match goal with |- 0 <= fst (Z.div_eucl ?a ?b) => change (0 <= a / b) end. apply Z.div_pos; [|lia].
    match goal with |- 0 <= match ?k with _ => _ end => destruct k; try lia end.
    apply Z.shiftl_nonneg. lia. }
  destruct (Z.div_eucl _ _) as [q r]. by apply round_aux_not_nan.
Qed.

Lemma fmul_not_nan x m e : is_nan x = false -> is_nan (fmul x (S754_finite false m e)) = false.
Proof.
  intros Hx. destruct x as [s|s| |s mx ex]; try done. unfold fmul, SFmul. apply round_aux_not_nan. lia.
Qed.

Lemma f_of_Z_nonneg z : 0 <= z < 2 ^ 64 -> is_nan (f_of_Z z) = false /\ (forall s, f_of_Z z <> S754_infinity s).
Proof.
  intros Hz. destruct (decide (z = 0)) as [->|]; [by split|].
  destruct (f_of_Z_finite z) as (m & e & ->); [lia|]. by split.
Qed.

(** A percentage of counters is a number whenever the whole is not zero. *)
Lemma pct_not_nan a b : is_u64 a -> is_u64 b -> b <> 0 -> is_nan (pct a b) = false.
Proof.
  intros Ha Hb Hn. unfold pct. destruct (f_of_Z_finite 100) as (m & e & E); [lia|].
  unfold f100. rewrite E. apply fmul_not_nan.
  destruct (f_of_Z_nonneg a) as [H1 H2]; [range|]. apply fdiv_not_nan; [done..|].
  apply f_of_Z_finite. range.
Qed.

(** ** Exact values

    A finite double is an integer multiple of 2^-1074: [scaled] is that
    integer, so that ranges of real numbers are ranges of integers. *)
Definition binary64 (x : float64) : Prop := valid_binary 53 1024 x = true.

Definition scaled (x : float64) : Z :=
  match x with
  | S754_finite s m e => let a := Z.pos m * 2 ^ (e + 1074) in if s then - a else a
  | _ => 0
  end.

(** [x] is a number, at least [z] and at most [z], as a real. *)
Definition at_least (z : Z) (x : float64) : Prop :=
  match x with
  | S754_nan => False
  | S754_infinity s => s = false
  | _ => z * 2 ^ 1074 <= scaled x
  end.
Definition at_most (z : Z) (x : float64) : Prop :=
  match x with
  | S754_nan => False
  | S754_infinity s => s = true
  | _ => scaled x <= z * 2 ^ 1074
  end.

(** The mantissa and exponent of a double: 53 digits, unless subnormal. *)
Lemma bounded_spec m e :
  bounded 53 1024 m e = true -> Z.pos m < 2 ^ 53 /\ -1074 <= e /\ (2 ^ 52 <= Z.pos m \/ e = -1074).
Proof.
  unfold bounded, canonical_mantissa. intros [H1 _]%andb_true_iff. apply Z.eqb_eq in H1.
  unfold fexp, emin in H1. pose proof (digits2_bounds m) as [D1 D2].
  assert (Z.pos (digits2_pos m) <= 53) by lia. split; [|split; [lia|]].
  - eapply Z.lt_le_trans; [exact D2|]. apply Z.pow_le_mono_r; lia.
  - destruct (decide (e = -1074)); [by right|]. left. by replace (Z.pos (digits2_pos m) - 1) with 52 in D1 by lia.
Qed.

(** On doubles the order of exponents and mantissas is the order of values. *)
Lemma bounded_lt m e m' e' :
  bounded 53 1024 m e = true -> bounded 53 1024 m' e' = true ->
  (e < e' \/ e = e' /\ Z.pos m < Z.pos m') -> Z.pos m * 2 ^ (e + 1074) < Z.pos m' * 2 ^ (e' + 1074).
Proof.
  intros (A1 & A2 & A3)%bounded_spec (B1 & B2 & B3)%bounded_spec [H|[-> H]].
  - assert (2 ^ 52 <= Z.pos m') by (destruct B3; [done|lia]).
    assert (2 ^ (e + 1074 + 1) <= 2 ^ (e' + 1074)) as Hp by (apply Z.pow_le_mono_r; lia).
    rewrite (Z.pow_add_r 2 (e + 1074) 1) in Hp by lia.
    assert (0 < 2 ^ (e + 1074)) by (apply Z.pow_pos_nonneg; lia). nia.
  - apply Z.mul_lt_mono_pos_r; [apply Z.pow_pos_nonneg; lia|done].
Qed.

Lemma lex_cases (e e' m m' : Z) : (e < e' \/ e = e' /\ m < m') \/ (e' < e \/ e' = e /\ m' < m) \/ e = e' /\ m = m'.
Proof. lia. Qed.

Lemma fltb_scaled x y :
  binary64 x -> binary64 y -> is_nan x = false -> is_nan y = false ->
  (forall s, x <> S754_infinity s) -> (forall s, y <> S754_infinity s) ->
  fltb x y = true <-> scaled x < scaled y.
Proof.
  intros Bx By Nx Ny Ix Iy. rewrite fltb_rank by done.
  destruct x as [s1|s1| |s1 m1 e1]; [|by destruct (Ix s1)|done|];
    destruct y as [s2|s2| |s2 m2 e2]; try done; try (by destruct (Iy s2)); unfold binary64 in *; cbn [valid_binary] in *;
    try destruct s1; try destruct s2; unfold lex_lt; cbn [rank scaled];
    try (pose proof (bounded_spec _ _ Bx) as (?&?&_); assert (0 < 2 ^ (e1 + 1074)) by (apply Z.pow_pos_nonneg; lia));
    try (pose proof (bounded_spec _ _ By) as (?&?&_); assert (0 < 2 ^ (e2 + 1074)) by (apply Z.pow_pos_nonneg; lia));
    try (assert (0 < Z.pos m1 * 2 ^ (e1 + 1074)) by nia); try (assert (0 < Z.pos m2 * 2 ^ (e2 + 1074)) by nia); try lia;
    destruct (lex_cases e1 e2 (Z.pos m1) (Z.pos m2)) as [H'|[H'|[-> H']]];
    try (pose proof (bounded_lt _ _ _ _ Bx By H'); lia); try (pose proof (bounded_lt _ _ _ _ By Bx H'); lia); rewrite H'; lia.
Qed.

(** The integer constants the source compares with are exact. *)
Definition exact (z : Z) : Prop :=
  binary64 (f_of_Z z) /\ is_nan (f_of_Z z) = false /\ (forall s, f_of_Z z <> S754_infinity s) /\
  scaled (f_of_Z z) = z * 2 ^ 1074.

Lemma exact_consts : exact 0 /\ exact 1 /\ exact 100.
Proof. unfold exact, binary64. split_and!; try (vm_compute; reflexivity); intros []; vm_compute; discriminate. Qed.

Section exact.
Context (z : Z) (x : float64) (Hz : exact z) (Hx : binary64 x) (Hn : is_nan x = false).

Lemma infinite_or_not (y : float64) : (exists s, y = S754_infinity s) \/ forall s, y <> S754_infinity s.
Proof. destruct y; [right|left|right|right]; naive_solver. Qed.

Lemma not_below : fltb x (f_of_Z z) = false <-> at_least z x.
Proof using All.
  destruct Hz as (B & N & I & E). destruct (infinite_or_not x) as [[s ->]|Ix].
  - destruct (f_of_Z z) as [s'|s'| |s' m e] eqn:Ef; [|by destruct (I s')|done|]; by destruct s, s'.
  - rewrite <- not_true_iff_false, fltb_scaled, E by done.
    destruct x as [s|s| |]; [..|]; cbn [at_least]; try done; [lia|by destruct (Ix s)|lia].
Qed.

Lemma not_above : fltb (f_of_Z z) x = false <-> at_most z x.
Proof using All.
  destruct Hz as (B & N & I & E). destruct (infinite_or_not x) as [[s ->]|Ix].
  - destruct (f_of_Z z) as [s'|s'| |s' m e] eqn:Ef; [|by destruct (I s')|done|]; by destruct s, s'.
  - rewrite <- not_true_iff_false, fltb_scaled, E by done.
    destruct x as [s|s| |]; [..|]; cbn [at_most]; try done; [lia|by destruct (Ix s)|lia].
Qed.

Lemma not_at_most : fleb x (f_of_Z z) = false <-> ~ at_most z x.
Proof using All.
  destruct Hz as (B & N & I & E). rewrite fleb_fltb, negb_false_iff, <- not_above by done. by rewrite not_false_iff_true.
Qed.
End exact.
