(* ===== verification/GoFmt.v ===== *)
(** * Go's strings, strconv and fmt

    The pieces of the standard library the harness calls on strings: number
    formatting and parsing ([strconv.Itoa], [FormatUint], [Atoi],
    [ParseUint]), [strings.HasPrefix/HasSuffix/TrimSuffix/Split/TrimSpace/
    ReplaceAll], hexadecimal encoding, and a [Sprintf] for the verbs the code
    uses.  Strings are byte strings. *)
From S2P Require Import Prelude GoFloat.
From Stdlib Require Import Ascii SpecFloat.

Global Open Scope string_scope.
Global Open Scope list_scope.
Global Open Scope Z_scope.

(** ** Concatenation *)

#[global] Arguments String.append !_ _ /.

Lemma sapp_assoc (a b c : string) : (a +:+ b) +:+ c = a +:+ (b +:+ c).
Proof. induction a as [|x a IH]; [done|]. simpl. by rewrite IH. Qed.

Lemma sapp_nil_r (a : string) : a +:+ "" = a.
Proof. induction a as [|x a IH]; [done|]. simpl. by rewrite IH. Qed.

Lemma slen_app (a b : string) : String.length (a +:+ b) = (String.length a + String.length b)%nat.
Proof. induction a as [|x a IH]; [done|]. simpl. by rewrite IH. Qed.

Lemma sapp_inj_tail (a b c : string) : a +:+ c = b +:+ c -> a = b.
Proof.
  revert b. induction a as [|x a IH]; intros [|y b] E; simpl in *; simplify_eq; try done.
  - apply (f_equal String.length) in E. simpl in E. rewrite slen_app in E. lia.
  - apply (f_equal String.length) in E. simpl in E. rewrite slen_app in E. lia.
  - f_equal. by apply IH.
Qed.

(** ** Characters *)

Definition char_code (c : ascii) : Z := Z.of_N (N_of_ascii c).
Definition char_of (n : Z) : ascii := ascii_of_N (Z.to_N n).
Definition str1 (c : ascii) : string := String c "".
(** The double quote. *)
Definition dquote : string := str1 (char_of 34).

Definition is_digit (c : ascii) : bool := (48 <=? char_code c) && (char_code c <=? 57).
Definition digit_val (c : ascii) : Z := char_code c - 48.
Definition digit_char (d : Z) : ascii := char_of (48 + d).

Lemma char_code_of n : 0 <= n < 256 -> char_code (char_of n) = n.
Proof.
  intros H. unfold char_code, char_of. rewrite N_ascii_embedding by lia. lia.
Qed.

Lemma digit_char_ok d : 0 <= d < 10 -> is_digit (digit_char d) = true /\ digit_val (digit_char d) = d.
Proof.
  intros H. unfold is_digit, digit_val, digit_char. rewrite char_code_of by lia.
  split; [|lia]. apply andb_true_iff. rewrite !Z.leb_le. lia.
Qed.

(** ** Decimal *)

(** The digits of [n], most significant first; 20 digits cover a [uint64]. *)
Fixpoint digits_of (fuel : nat) (n : Z) (acc : string) : string :=
  match fuel with
  | O => acc
  | S fuel' =>
      let acc' := String (digit_char (n mod 10)) acc in
      if n / 10 =? 0 then acc' else digits_of fuel' (n / 10) acc'
  end.

Definition FormatUint (n : Z) : string := digits_of 20 n "".
Definition Itoa (z : Z) : string :=
  if z <? 0 then "-" +:+ FormatUint (- z) else FormatUint z.

(** The digits of [s] appended to the value [acc]; [None] on another
    character or when the value leaves the [uint64] range. *)
Fixpoint parse_digits (s : string) (acc : Z) : option Z :=
  match s with
  | EmptyString => Some acc
  | String c s' =>
      if is_digit c then
        let n := acc * 10 + digit_val c in
        if two64 <=? n then None else parse_digits s' n
      else None
  end.

(** [strconv.ParseUint(s, 10, 64)]: the error's identity is never inspected. *)
Definition ParseUint (s : string) : option Z :=
  if String.eqb s "" then None else parse_digits s 0.

(** [strconv.Atoi] and [strconv.ParseInt(s, 10, 64)]. *)
Definition ParseInt (s : string) : option Z :=
  let '(neg, digits) :=
    match s with
    | String "-" s' => (true, s')
    | String "+" s' => (false, s')
    | _ => (false, s)
    end in
  n ← ParseUint digits;
  if neg : bool then (if n <=? two63 then Some (- n) else None)
  else (if n <? two63 then Some n else None).
Definition Atoi (s : string) : option Z := ParseInt s.

Lemma digits_of_acc fuel n acc : digits_of fuel n acc = digits_of fuel n "" +:+ acc.
Proof.
  revert n acc. induction fuel as [|f IH]; intros n acc; [done|]. simpl.
  destruct (n / 10 =? 0); [done|]. rewrite IH, (IH _ (String _ "")).
  by rewrite sapp_assoc.
Qed.

Lemma parse_digits_app s1 s2 a :
  parse_digits (s1 +:+ s2) a = parse_digits s1 a ≫= parse_digits s2.
Proof.
  revert a. induction s1 as [|c s1 IH]; intros a; [done|]. simpl.
  destruct (is_digit c); [|done]. by destruct (two64 <=? _).
Qed.

Lemma parse_digits_of fuel n :
  0 <= n < 10 ^ Z.of_nat fuel -> is_u64 n -> parse_digits (digits_of fuel n "") 0 = Some n.
Proof.
  revert n. induction fuel as [|f IH]; intros n Hn Hu; [simpl in *; f_equal; lia|].
  rewrite Nat2Z.inj_succ, Z.pow_succ_r in Hn by lia.
  pose proof (Z.mod_pos_bound n 10). pose proof (Z.div_mod n 10).
  destruct (digit_char_ok (n mod 10)) as [Hd Hv]; [lia|]. simpl.
  destruct (n / 10 =? 0) eqn:E; zbool.
  - simpl. rewrite Hd, Hv. replace (0 * 10 + n mod 10) with n by lia.
    rewrite (proj2 (Z.leb_gt _ _)) by range. done.
  - rewrite digits_of_acc, parse_digits_app, IH.
    + simpl. rewrite Hd, Hv. replace (n / 10 * 10 + n mod 10) with n by lia.
      rewrite (proj2 (Z.leb_gt _ _)) by range. done.
    + split; [apply Z.div_pos; lia|]. apply Z.div_lt_upper_bound; lia.
    + split; [apply Z.div_pos; range|]. range.
Qed.

Lemma digits_of_cons fuel n acc : exists d s, 0 <= d < 10 /\ digits_of (S fuel) n acc = String (digit_char d) s.
Proof.
  revert n acc. induction fuel as [|f IH]; intros n acc; simpl.
  - destruct (n / 10 =? 0); eexists (n mod 10), _; (split; [apply Z.mod_pos_bound; lia|done]).
  - destruct (n / 10 =? 0); [|apply IH].
    eexists (n mod 10), _; split; [apply Z.mod_pos_bound; lia|done].
Qed.

(** Printing and reading an unsigned number. *)
Lemma ParseUint_FormatUint n : is_u64 n -> ParseUint (FormatUint n) = Some n.
Proof.
  intros H. unfold ParseUint, FormatUint.
  destruct (digits_of_cons 19 n "") as (d & s & _ & E).
  assert (String.eqb (digits_of 20 n "") "" = false) as -> by (by rewrite E).
  apply parse_digits_of; [range|done].
Qed.

Lemma digit_not_sign d : 0 <= d < 10 -> digit_char d <> "-"%char /\ digit_char d <> "+"%char.
Proof.
  intros H. destruct (digit_char_ok d H) as [Hd _].
  split; intros E; rewrite E in Hd; discriminate Hd.
Qed.

Lemma ParseInt_digits n : 0 <= n < two63 -> ParseInt (FormatUint n) = Some n.
Proof.
  intros H. pose proof (ParseUint_FormatUint n ltac:(range)) as Hp.
  unfold ParseInt. destruct (FormatUint n) as [|c s] eqn:E; [done|].
  destruct (digits_of_cons 19 n "") as (d & s' & Hd & E'). unfold FormatUint in E.
  rewrite E in E'. simplify_eq. destruct (digit_not_sign d Hd) as [H1 H2].
  assert ((match String (digit_char d) s' with
          | String "-" s'' => (true, s'')
          | String "+" s'' => (false, s'')
          | _ => (false, String (digit_char d) s') end) = (false, String (digit_char d) s')) as ->.
  { destruct (digit_char d) as [[] [] [] [] [] [] [] []]; done. }
  rewrite Hp. simpl. by rewrite (proj2 (Z.ltb_lt _ _)) by lia.
Qed.

Lemma Atoi_Itoa z : is_int z -> Atoi (Itoa z) = Some z.
Proof.
  intros H. unfold Atoi, Itoa. case_if.
  - unfold ParseInt. simpl. rewrite ParseUint_FormatUint by range. simpl.
    rewrite (proj2 (Z.leb_le _ _)) by range. f_equal. lia.
  - apply ParseInt_digits. range.
Qed.

Lemma FormatUint_inj n m : is_u64 n -> is_u64 m -> FormatUint n = FormatUint m -> n = m.
Proof.
  intros Hn Hm E. pose proof (ParseUint_FormatUint n Hn) as H1.
  rewrite E, ParseUint_FormatUint in H1 by done. congruence.
Qed.
Lemma Itoa_inj n m : is_int n -> is_int m -> Itoa n = Itoa m -> n = m.
Proof.
  intros Hn Hm E. pose proof (Atoi_Itoa n Hn) as H1.
  rewrite E, Atoi_Itoa in H1 by done. congruence.
Qed.

(** ** strings *)

Fixpoint HasPrefix (s prefix : string) : bool :=
  match prefix, s with
  | EmptyString, _ => true
  | String c p, String d s' => Ascii.eqb c d && HasPrefix s' p
  | String _ _, EmptyString => false
  end.

(** [TrimSuffix] and [HasSuffix] for a one-character suffix: the only use. *)
Fixpoint TrimSuffix1 (s : string) (c : ascii) : option string :=
  match s with
  | EmptyString => None
  | String d EmptyString => if Ascii.eqb c d then Some "" else None
  | String d s' => String d <$> TrimSuffix1 s' c
  end.

Definition is_space (c : ascii) : bool :=
  let n := char_code c in (n =? 32) || ((9 <=? n) && (n <=? 13)).

Fixpoint TrimLeft (s : string) : string :=
  match s with
  | String c s' => if is_space c then TrimLeft s' else s
  | EmptyString => ""
  end.
Definition TrimSpace (s : string) : string := String.rev (TrimLeft (String.rev (TrimLeft s))).

(** [strings.Split(s, sep)] for a one-character separator. *)
Fixpoint Split (s : string) (sep : ascii) : list string :=
  match s with
  | EmptyString => [""]
  | String c s' =>
      if Ascii.eqb c sep then "" :: Split s' sep
      else match Split s' sep with
           | [] => [str1 c]
           | w :: ws => String c w :: ws
           end
  end.

(** [strings.SplitN(s, sep, 2)]. *)
Fixpoint SplitN2 (s : string) (sep : ascii) : string * option string :=
  match s with
  | EmptyString => ("", None)
  | String c s' =>
      if Ascii.eqb c sep then ("", Some s')
      else let '(w, r) := SplitN2 s' sep in (String c w, r)
  end.

Fixpoint Contains (s sub : string) : bool :=
  HasPrefix s sub ||
  match s with String _ s' => Contains s' sub | EmptyString => false end.

Fixpoint Repeat (s : string) (n : nat) : string :=
  match n with O => "" | S n' => s +:+ Repeat s n' end.

(** ** Hexadecimal: [%x] of bytes, [%08x] of an integer *)

Definition hex_char (d : Z) : ascii :=
  if d <? 10 then char_of (48 + d) else char_of (87 + d).

Definition hex_byte (b : Z) : string := String (hex_char (b / 16)) (str1 (hex_char (b mod 16))).

Fixpoint hex_bytes (bs : list Z) : string :=
  match bs with [] => "" | b :: bs' => hex_byte b +:+ hex_bytes bs' end.

(** [n] in exactly [w] hexadecimal digits (a 32-bit value needs no more than
    the 8 the source pads to). *)
Fixpoint hex_pad (w : nat) (n : Z) (acc : string) : string :=
  match w with
  | O => acc
  | S w' => hex_pad w' (n / 16) (String (hex_char (n mod 16)) acc)
  end.

(** ** Verbs of [fmt.Sprintf] *)

Definition pad_left (w : nat) (c : ascii) (s : string) : string :=
  Repeat (str1 c) (w - String.length s) +:+ s.

(** [%0wd]: zero padding goes after the sign and counts it. *)
Definition fmt_0d (w : nat) (z : Z) : string :=
  if z <? 0 then "-" +:+ pad_left (w - 1) "0" (FormatUint (- z))
  else pad_left w "0" (FormatUint z).

(** [%.Nf]: the exact decimal value rounded half to even. *)
Definition round_scaled (m e p : Z) : Z :=
  let n := m * 10 ^ p in
  if 0 <=? e then n * 2 ^ e
  else
    let d := 2 ^ (- e) in
    let q := n / d in
    let r := n mod d in
    if (d <? 2 * r) || ((2 * r =? d) && Z.odd q) then q + 1 else q.

Definition fmt_f (p : nat) (x : float64) : string :=
  let render (s : bool) (q : Z) :=
    let ten := 10 ^ Z.of_nat p in
    (if s then "-" else "") +:+ digits_of 400 (q / ten) "" +:+
    match p with
    | O => ""
    | _ => "." +:+ pad_left p "0" (digits_of 400 (q mod ten) "")
    end in
  match x with
  | S754_nan => "NaN"
  | S754_infinity s => if s then "-Inf" else "+Inf"
  | S754_zero s => render s 0
  | S754_finite s m e => render s (round_scaled (Z.pos m) e (Z.of_nat p))
  end.

(** [%q]: Go's quoting.  Bytes from 0x80 up are kept as they are, which is
    what [strconv.Quote] does with printable text. *)
Definition quote_char (c : ascii) : string :=
  let n := char_code c in
  if n =? 34 then "\" +:+ dquote
  else if n =? 92 then "\\"
  else if n =? 7 then "\a" else if n =? 8 then "\b" else if n =? 12 then "\f"
  else if n =? 10 then "\n" else if n =? 13 then "\r" else if n =? 9 then "\t"
  else if n =? 11 then "\v"
  else if (n <? 32) || (n =? 127) then "\x" +:+ hex_byte n
  else str1 c.
Fixpoint quote_body (s : string) : string :=
  match s with EmptyString => "" | String c s' => quote_char c +:+ quote_body s' end.
Definition quote (s : string) : string := dquote +:+ quote_body s +:+ dquote.

Inductive arg :=
| AStr (s : string)
| AInt (z : Z)
| AFloat (x : float64).

Definition fmt_s (a : arg) : string :=
  match a with AStr s => s | AInt z => Itoa z | AFloat x => fmt_f 6 x end.
Definition fmt_d (a : arg) : string :=
  match a with AInt z => Itoa z | _ => "%!d" end.
Definition fmt_fn (p : nat) (a : arg) : string :=
  match a with AFloat x => fmt_f p x | _ => "%!f" end.
Definition fmt_q (a : arg) : string :=
  match a with AStr s => quote s | _ => "%!q" end.
Definition fmt_0w (w : nat) (a : arg) : string :=
  match a with AInt z => fmt_0d w z | _ => "%!d" end.
Definition fmt_08x (a : arg) : string :=
  match a with AInt z => hex_pad 8 z "" | _ => "%!x" end.

(** The verbs the code base uses; any other sequence is kept verbatim. *)
Fixpoint Sprintf (f : string) (args : list arg) : string :=
  let next (k : arg -> string) (rest : string) :=
    match args with
    | [] => "%!(MISSING)" +:+ Sprintf rest []
    | a :: args' => k a +:+ Sprintf rest args'
    end in
  match f with
  | EmptyString => ""
  | String "%" (String "%" r) => String "%" (Sprintf r args)
  | String "%" (String "s" r) => next fmt_s r
  | String "%" (String "v" r) => next fmt_s r
  | String "%" (String "w" r) => next fmt_s r
  | String "%" (String "d" r) => next fmt_d r
  | String "%" (String "q" r) => next fmt_q r
  | String "%" (String "f" r) => next (fmt_fn 6) r
  | String "%" (String "." (String "1" (String "f" r))) => next (fmt_fn 1) r
  | String "%" (String "." (String "2" (String "f" r))) => next (fmt_fn 2) r
  | String "%" (String "." (String "4" (String "f" r))) => next (fmt_fn 4) r
  | String "%" (String "0" (String "4" (String "d" r))) => next (fmt_0w 4) r
  | String "%" (String "0" (String "2" (String "d" r))) => next (fmt_0w 2) r
  | String "%" (String "0" (String "8" (String "x" r))) => next fmt_08x r
  | String c r => String c (Sprintf r args)
  end.

Example Sprintf_ex :
  Sprintf "%s: loss %.4f%% exceeds threshold %.4f%% (%04d, %d)"
    [AStr "x"; AFloat (pct 1 3); AFloat (f_lit 1 2); AInt 7; AInt (-3)]
  = "x: loss 33.3333% exceeds threshold 0.5000% (0007, -3)".
Proof. vm_compute. reflexivity. Qed.

(** A format that starts with literal text renders to text that starts with
    it: what the [WARNING:] tests rely on. *)
Lemma HasPrefix_app p s : HasPrefix (p +:+ s) p = true.
Proof. induction p as [|c p IH]; [by destruct s|]. simpl. by rewrite Ascii.eqb_refl. Qed.

Fixpoint no_percent (s : string) : bool :=
  match s with
  | EmptyString => true
  | String c s' => negb (Ascii.eqb c "%") && no_percent s'
  end.

Lemma Sprintf_literal p f args :
  no_percent p = true -> Sprintf (p +:+ f) args = p +:+ Sprintf f args.
Proof.
  induction p as [|c p IH]; intros H; [done|]. simpl in H. zbool.
  assert (c <> "%"%char) as Hc by (intros ->; done).
  change (String c p +:+ f) with (String c (p +:+ f)).
  change (String c p +:+ Sprintf f args) with (String c (p +:+ Sprintf f args)).
  rewrite <- IH by done. clear IH. generalize (p +:+ f) as r. intros r.
  destruct c as [[] [] [] [] [] [] [] []]; try reflexivity. done.
Qed.

(** ** Errors as values *)

(** A Go pair [(T, error)]; the error is its message. *)
Inductive result (A : Type) :=
| Ok (a : A)
| Err (msg : string).
Arguments Ok {A} a.
Arguments Err {A} msg.

Global Instance result_ret : MRet result := fun A a => Ok a.
Global Instance result_bind : MBind result := fun A B k r =>
  match r with Ok a => k a | Err e => Err e end.
Global Instance result_fmap : FMap result := fun A B k r =>
  match r with Ok a => Ok (k a) | Err e => Err e end.

Definition is_ok {A} (r : result A) : bool := match r with Ok _ => true | Err _ => false end.

(** [fmt.Errorf("...: %w", err)]: wrapping keeps the value of a success. *)
Definition wrap_err {A} (k : string -> string) (r : result A) : result A :=
  match r with Ok a => Ok a | Err e => Err (k e) end.
