(* ===== verification/GoTime.v ===== *)
(** * time.ParseDuration

    The parser of the Go standard library that the configuration's durations
    go through: an optional sign, then numbers with an optional fraction and a
    unit each, added up in nanoseconds with the overflow checks of the
    original. *)
From S2P Require Import Prelude GoFloat GoFmt.
From Stdlib Require Import Ascii.

(** The leading digits of [s]: value, rest; [None] when the value passes 2^63. *)
Fixpoint leadingInt (s : string) (x : Z) : option (Z * string) :=
  match s with
  | String c s' =>
      if is_digit c then
        if two63 / 10 <? x then None
        else let x' := x * 10 + digit_val c in
             if two63 <? x' then None else leadingInt s' x'
      else Some (x, s)
  | EmptyString => Some (x, s)
  end.

(** The digits after the point: value, scale, rest; digits past the precision
    of an int64 are dropped. *)
Fixpoint leadingFraction (s : string) (x : Z) (scale : float64) (overflow : bool)
  : Z * float64 * string :=
  match s with
  | String c s' =>
      if is_digit c then
        if overflow then leadingFraction s' x scale true
        else if (two63 - 1) / 10 <? x then leadingFraction s' x scale true
        else let y := x * 10 + digit_val c in
             if two63 <? y then leadingFraction s' x scale true
             else leadingFraction s' y (fmul scale (f_of_Z 10)) false
      else (x, scale, s)
  | EmptyString => (x, scale, s)
  end.

(** The unit: everything up to the next digit or point. *)
Fixpoint leadingUnit (s : string) : string * string :=
  match s with
  | String c s' =>
      if Ascii.eqb c "." || is_digit c then ("", s)
      else let '(u, r) := leadingUnit s' in (String c u, r)
  | EmptyString => ("", "")
  end.

(** [unitMap]; the two spellings of the micro sign are their UTF-8 bytes. *)
Definition unitMap : list (string * Z) :=
  [("ns", Nanosecond); ("us", Microsecond);
   (String (char_of 194) (String (char_of 181) "s"), Microsecond);
   (String (char_of 206) (String (char_of 188) "s"), Microsecond);
   ("ms", Millisecond); ("s", Second); ("m", Minute); ("h", Hour)].

Definition lookup_unit (u : string) : option Z :=
  snd <$> List.find (fun e => String.eqb u (fst e)) unitMap.

(** One round of the loop: the component's value and what is left of [s]. *)
Definition duration_component (orig s : string) : result (Z * string) :=
  let invalid := Err ("time: invalid duration " +:+ quote orig) in
  match s with
  | EmptyString => invalid
  | String c _ =>
      if negb (Ascii.eqb c "." || is_digit c) then invalid else
      match leadingInt s 0 with
      | None => invalid
      | Some (v, s1) =>
          let pre := negb (String.length s1 =? String.length s)%nat in
          let '(f, scale, s2, post) :=
            match s1 with
            | String "." s1' =>
                let '(f, scale, s2) := leadingFraction s1' 0 (f_of_Z 1) false in
                (f, scale, s2, negb (String.length s2 =? String.length s1')%nat)
            | _ => (0, f_of_Z 1, s1, false)
            end in
          if negb pre && negb post then invalid else
          let '(u, s3) := leadingUnit s2 in
          if String.eqb u "" then Err ("time: missing unit in duration " +:+ quote orig) else
          match lookup_unit u with
          | None => Err ("time: unknown unit " +:+ quote u +:+ " in duration " +:+ quote orig)
          | Some unit =>
              if two63 / unit <? v then invalid else
              let v := v * unit in
              if 0 <? f then
                let v := v +u f_trunc (fmul (f_of_Z f) (fdiv (f_of_Z unit) scale)) in
                if two63 <? v then invalid else Ok (v, s3)
              else Ok (v, s3)
          end
      end
  end.

(** Each component consumes a unit, so the length of the text is fuel enough. *)
Fixpoint duration_loop (fuel : nat) (orig s : string) (d : Z) : result Z :=
  match s, fuel with
  | EmptyString, _ => Ok d
  | _, O => Ok d
  | _, S fuel' =>
      '(v, s') ← duration_component orig s;
      let d := d +u v in
      if two63 <? d then Err ("time: invalid duration " +:+ quote orig)
      else duration_loop fuel' orig s' d
  end.

Definition ParseDuration (orig : string) : result Z :=
  let invalid := Err ("time: invalid duration " +:+ quote orig) in
  let '(neg, s) :=
    match orig with
    | String "-" s => (true, s)
    | String "+" s => (false, s)
    | _ => (false, orig)
    end in
  if String.eqb s "0" then Ok 0
  else if String.eqb s "" then invalid
  else
    d ← duration_loop (String.length s) orig s 0;
    if neg : bool then Ok (to_int (- d))
    else if two63 - 1 <? d then invalid else Ok d.

Example ParseDuration_ex :
  ParseDuration "1h30m" = Ok (90 * Minute) /\ ParseDuration "-1.5s" = Ok (-1500 * Millisecond) /\
  ParseDuration ".5ms" = Ok (500 * Microsecond) /\ ParseDuration "" = Err ("time: invalid duration " +:+ quote "") /\
  is_ok (ParseDuration "5") = false /\ is_ok (ParseDuration "9223372036854775808ns") = false.
Proof. vm_compute. auto 6. Qed.

(** ** A whole number of a unit parses to that many of it *)

Fixpoint all_digits (s : string) : bool :=
  match s with EmptyString => true | String c s' => is_digit c && all_digits s' end.

Lemma all_digits_app s1 s2 : all_digits (s1 +:+ s2) = all_digits s1 && all_digits s2.
Proof. induction s1 as [|c s1 IH]; [done|]. simpl. by rewrite IH, andb_assoc. Qed.

Lemma digits_of_all fuel n acc : all_digits acc = true -> all_digits (digits_of fuel n acc) = true.
Proof.
  revert n acc. induction fuel as [|f IH]; intros n acc H; [done|]. simpl.
  assert (is_digit (digit_char (n mod 10)) = true).
  { apply digit_char_ok. apply Z.mod_pos_bound. lia. }
  destruct (n / 10 =? 0); [|apply IH]; simpl; by rewrite andb_true_iff.
Qed.

(** On digits followed by a unit, [leadingInt] agrees with [parse_digits]. *)
Lemma parse_digits_ge s x n :
  all_digits s = true -> 0 <= x -> parse_digits s x = Some n -> x <= n.
Proof.
  revert x. induction s as [|c s IH]; intros x Hs Hx H; simpl in *; [simplify_eq; lia|].
  zbool. rewrite H0 in H. case_match; [done|]. unfold is_digit in H0. zbool.
  apply IH in H; [|done|unfold digit_val; lia]. unfold digit_val in *. lia.
Qed.

Lemma leadingInt_digits s c u x n :
  all_digits s = true -> is_digit c = false -> 0 <= x ->
  parse_digits s x = Some n -> n <= two63 ->
  leadingInt (s +:+ String c u) x = Some (n, String c u).
Proof.
  intros Hs Hc. revert x. induction s as [|a s IH]; intros x Hx Hp Hn; simpl in *.
  - simplify_eq. by rewrite Hc.
  - zbool. rewrite H in Hp |- *. destruct (two64 <=? x * 10 + digit_val a) eqn:?; [done|].
    assert (x * 10 + digit_val a <= n) as Hle.
    { apply parse_digits_ge in Hp; [done|done|]. unfold is_digit in H. zbool. unfold digit_val. lia. }
    unfold is_digit in H. zbool. unfold digit_val in *.
    rewrite (proj2 (Z.ltb_ge _ _)) by (apply Z.div_le_lower_bound; lia). rewrite (proj2 (Z.ltb_ge _ _)) by lia.
    apply IH; done || lia.
Qed.

(** What the units have in common. *)
Definition unit_ok (e : string * Z) : bool :=
  match e with
  | (String c u, unit) =>
      negb (is_digit c) && negb (Ascii.eqb c ".") && (0 <? unit) &&
      bool_decide (leadingUnit (String c u) = (String c u, "")) &&
      bool_decide (lookup_unit (String c u) = Some unit)
  | _ => false
  end.

Lemma unitMap_ok : forallb unit_ok unitMap = true.
Proof. vm_compute. reflexivity. Qed.

Lemma duration_component_whole orig n c u unit :
  unit_ok (String c u, unit) = true -> 0 <= n -> n * unit < two63 ->
  duration_component orig (FormatUint n +:+ String c u) = Ok (n * unit, "").
Proof.
  intros Hu Hn Hb. unfold unit_ok in Hu. zbool.
  rewrite bool_decide_eq_true in *.
  assert (n <= two63) by nia.
  destruct (digits_of_cons 19 n "") as (d & s & Hd & E).
  destruct (digit_char_ok d Hd) as [Hdig _].
  pose proof (parse_digits_of 20 n ltac:(range) ltac:(range)) as Hp.
  assert (all_digits (digits_of 20 n "") = true) as Hall by (by apply digits_of_all).
  pose proof (leadingInt_digits _ c u 0 n Hall ltac:(done) ltac:(done) Hp ltac:(done)) as Hli.
  unfold FormatUint. rewrite E in *. unfold duration_component.
  change (String (digit_char d) s +:+ String c u) with (String (digit_char d) (s +:+ String c u)) in *.
  cbv beta iota. rewrite Hdig, orb_true_r. cbn [negb]. rewrite Hli.
  assert ((match String c u with
    | String "." s1' => let '(f, scale, s2) := leadingFraction s1' 0 (f_of_Z 1) false in
        (f, scale, s2, negb (String.length s2 =? String.length s1')%nat)
    | _ => (0, f_of_Z 1, String c u, false) end) = (0, f_of_Z 1, String c u, false)) as ->.
  { destruct c as [[] [] [] [] [] [] [] []]; done. }
  assert ((String.length (String c u) =? String.length (String (digit_char d) (s +:+ String c u)))%nat = false) as ->.
  { apply Nat.eqb_neq. cbn [String.length]. rewrite slen_app. cbn [String.length]. lia. }
  cbn [negb andb].
  match goal with H : leadingUnit _ = _ |- _ => rewrite H end. cbn [String.eqb].
  match goal with H : lookup_unit _ = _ |- _ => rewrite H end.
  rewrite (proj2 (Z.ltb_ge (two63 / unit) n)) by (apply Z.div_le_lower_bound; lia). done.
Qed.

Lemma ParseDuration_unit n u unit :
  In (u, unit) unitMap -> 0 <= n -> n * unit < two63 ->
  ParseDuration (FormatUint n +:+ u) = Ok (n * unit).
Proof.
  intros Hin Hn Hb. pose proof (proj1 (forallb_forall _ _) unitMap_ok _ Hin) as Hu.
  destruct u as [|c u]; [done|].
  assert (0 < unit) by (unfold unit_ok in Hu; zbool; done).
  pose proof (duration_component_whole (FormatUint n +:+ String c u) n c u unit Hu Hn Hb) as Hc.
  unfold ParseDuration. destruct (digits_of_cons 19 n "") as (d & s & Hd & E).
  unfold FormatUint in *. rewrite E in *.
  change (String (digit_char d) s +:+ String c u) with (String (digit_char d) (s +:+ String c u)) in *.
  destruct (digit_not_sign d Hd) as [Hm Hpl].
  assert ((match String (digit_char d) (s +:+ String c u) with
    | String "-" s => (true, s) | String "+" s => (false, s)
    | _ => (false, String (digit_char d) (s +:+ String c u)) end)
    = (false, String (digit_char d) (s +:+ String c u))) as ->.
  { destruct (digit_char d) as [[] [] [] [] [] [] [] []]; done. }
  set (orig := String (digit_char d) (s +:+ String c u)) in *.
  assert (String.eqb orig "0" = false) as ->.
  { apply String.eqb_neq. intros F. unfold orig in F. apply (f_equal String.length) in F.
    cbn [String.length] in F. rewrite slen_app in F. cbn [String.length] in F. lia. }
  assert (String.eqb orig "" = false) as -> by done.
  assert (duration_loop (String.length orig) orig orig 0 = Ok (n * unit)) as ->.
  { unfold orig at 1 3. cbn [String.length duration_loop]. fold orig. rewrite Hc. cbn.
    assert (0 <= n * unit) by nia. rewrite uadd_small by range. rewrite Z.add_0_l.
    rewrite (proj2 (Z.ltb_ge _ _)) by lia. by destruct (String.length _). }
  cbn. by rewrite (proj2 (Z.ltb_ge _ _)) by lia.
Qed.
