(* ===== verification/GoJson.v ===== *)
(** * encoding/json

    What the harness uses of Go's JSON package: strings as [json.Marshal] quotes
    them, and the values [json.Unmarshal] reads.  A string is its bytes; a byte
    sequence that is not UTF-8 is replaced by U+FFFD both ways.  A decoding error
    of any kind is [None]: its callers do not look at it. *)
From S2P Require Import Prelude GoFloat GoFmt GoTime.
From Stdlib Require Import Ascii.

(** ** Bytes *)

Fixpoint string_of (bs : list Z) : string :=
  match bs with [] => "" | b :: bs' => String (char_of b) (string_of bs') end.
Fixpoint bytes_of (s : string) : list Z :=
  match s with EmptyString => [] | String c s' => char_code c :: bytes_of s' end.

Definition quote_c : ascii := "034".
Definition back_c : ascii := "092".

(** ** UTF-8 *)

(** A byte in a range. *)
Definition within (lo hi : Z) (c : ascii) : bool := (lo <=? char_code c) && (char_code c <=? hi).

(** The rune at the head of a string, as its bytes, and the rest; [None] when
    the bytes there are not the encoding of a rune. *)
Definition take_rune (s : string) : option (string * string) :=
  match s with
  | EmptyString => None
  | String a r =>
      let n := char_code a in
      if n <? 128 then Some (str1 a, r)
      else if (194 <=? n) && (n <=? 223) then
        match r with
        | String b r' => if within 128 191 b then Some (String a (str1 b), r') else None
        | _ => None
        end
      else if (224 <=? n) && (n <=? 239) then
        match r with
        | String b (String c r') =>
            if within (if n =? 224 then 160 else 128) (if n =? 237 then 159 else 191) b && within 128 191 c
            then Some (String a (String b (str1 c)), r') else None
        | _ => None
        end
      else if (240 <=? n) && (n <=? 244) then
        match r with
        | String b (String c (String d r')) =>
            if within (if n =? 240 then 144 else 128) (if n =? 244 then 143 else 191) b && within 128 191 c && within 128 191 d
            then Some (String a (String b (String c (str1 d))), r') else None
        | _ => None
        end
      else None
  end.

(** [utf8.EncodeRune] of a code point that is not a surrogate. *)
Definition encode_rune (r : Z) : string :=
  if r <? 128 then str1 (char_of r)
  else if r <? 2048 then String (char_of (192 + r / 64)) (str1 (char_of (128 + r mod 64)))
  else if r <? 65536 then
    String (char_of (224 + r / 4096)) (String (char_of (128 + (r / 64) mod 64)) (str1 (char_of (128 + r mod 64))))
  else String (char_of (240 + r / 262144)) (String (char_of (128 + (r / 4096) mod 64))
         (String (char_of (128 + (r / 64) mod 64)) (str1 (char_of (128 + r mod 64))))).
Definition replacement : string := String "239" (String "191" (str1 "189")).

(** A string as runes: each with its bytes, or [None] for a stray byte. *)
Fixpoint runes (fuel : nat) (s : string) : list (option string) :=
  match fuel, s with
  | S fuel', String _ r =>
      match take_rune s with
      | Some (t, rest) => Some t :: runes fuel' rest
      | None => None :: runes fuel' r
      end
  | _, _ => []
  end.
Definition runes_of (s : string) : list (option string) := runes (String.length s) s.

Fixpoint concat_strings (l : list string) : string :=
  match l with [] => "" | s :: l' => s +:+ concat_strings l' end.

(** [strings.ToValidUTF8] with the replacement character, stray byte by stray
    byte. *)
Definition valid_utf8 (s : string) : string := concat_strings (default replacement <$> runes_of s).

(** ** Encoding *)

(** A byte below 128 in a quoted string; [<], [>] and [&] are escaped too. *)
Definition quote_byte (c : ascii) : string :=
  let n := char_code c in
  if Ascii.eqb c quote_c || Ascii.eqb c back_c then String back_c (str1 c)
  else if n =? 8 then String back_c "b"
  else if n =? 12 then String back_c "f"
  else if n =? 10 then String back_c "n"
  else if n =? 13 then String back_c "r"
  else if n =? 9 then String back_c "t"
  else if (n <? 32) || Ascii.eqb c "<" || Ascii.eqb c ">" || Ascii.eqb c "&"
  then String back_c ("u00" +:+ hex_byte n)
  else str1 c.

(** U+2028 and U+2029, which are escaped. *)
Definition line_separator : string := String "226" (String "128" (str1 "168")).
Definition paragraph_separator : string := String "226" (String "128" (str1 "169")).

Definition quote_rune (r : option string) : string :=
  match r with
  | None => String back_c "ufffd"
  | Some t =>
      if String.eqb t line_separator then String back_c "u2028"
      else if String.eqb t paragraph_separator then String back_c "u2029"
      else match t with
           | String c EmptyString => quote_byte c
           | _ => t
           end
  end.
Definition quote_body_of (s : string) : string := concat_strings (quote_rune <$> runes_of s).
(** A string, quoted. *)
Definition json_string (s : string) : string := String quote_c (quote_body_of s +:+ str1 quote_c).

(** ** Decoding *)

Inductive json :=
| JNull
| JBool (b : bool)
| JNum (literal : string)
| JStr (s : string)
| JArr (l : list json)
| JObj (l : list (string * json)).

Definition is_ws (c : ascii) : bool :=
  let n := char_code c in (n =? 32) || (n =? 9) || (n =? 13) || (n =? 10).
Fixpoint skip_ws (s : string) : string :=
  match s with String c r => if is_ws c then skip_ws r else s | EmptyString => "" end.

Definition hex_val (c : ascii) : option Z :=
  let n := char_code c in
  if is_digit c then Some (n - 48)
  else if (97 <=? n) && (n <=? 102) then Some (n - 87)
  else if (65 <=? n) && (n <=? 70) then Some (n - 55)
  else None.
(** Four hexadecimal digits. *)
Definition hex4 (s : string) : option (Z * string) :=
  match s with
  | String a (String b (String c (String d r))) =>
      x ← hex_val a; y ← hex_val b; z ← hex_val c; t ← hex_val d;
      Some (x * 4096 + y * 256 + z * 16 + t, r)
  | _ => None
  end.

(** The [\u] escape of a surrogate: the pair, when the other half follows. *)
Definition surrogate (v : Z) (r : string) : string * string :=
  let lone := (replacement, r) in
  match r with
  | String a (String b r1) =>
      if Ascii.eqb a back_c && Ascii.eqb b "u" then
        match hex4 r1 with
        | Some (v2, r2) =>
            if (v <? 56320) && (56320 <=? v2) && (v2 <? 57344)
            then (encode_rune ((v - 55296) * 1024 + (v2 - 56320) + 65536), r2) else lone
        | None => lone
        end
      else lone
  | _ => lone
  end.

(** What follows a backslash: what it stands for and the rest. *)
Definition escape (s : string) : option (string * string) :=
  match s with
  | EmptyString => None
  | String e r =>
      if Ascii.eqb e quote_c || Ascii.eqb e back_c || Ascii.eqb e "/" then Some (str1 e, r)
      else if Ascii.eqb e "b" then Some (str1 "008", r)
      else if Ascii.eqb e "f" then Some (str1 "012", r)
      else if Ascii.eqb e "n" then Some (str1 "010", r)
      else if Ascii.eqb e "r" then Some (str1 "013", r)
      else if Ascii.eqb e "t" then Some (str1 "009", r)
      else if Ascii.eqb e "u" then
        '(v, r1) ← hex4 r;
        Some (if (55296 <=? v) && (v <? 57344) then surrogate v r1 else (encode_rune v, r1))
      else None
  end.

(** The rest of a string after its opening quote: its value and what follows the
    closing quote. *)
Fixpoint parse_str (fuel : nat) (s : string) : option (string * string) :=
  match fuel with
  | O => None
  | S fuel' =>
      match s with
      | EmptyString => None
      | String a r =>
          if Ascii.eqb a quote_c then Some ("", r)
          else if char_code a <? 32 then None
          else
            '(t, rest) ← (if Ascii.eqb a back_c then escape r
                          else Some (match take_rune s with Some tr => tr | None => (replacement, r) end));
            '(u, rest') ← parse_str fuel' rest;
            Some (t +:+ u, rest')
      end
  end.

(** The digits at the head, and the rest. *)
Fixpoint span_digits (s : string) : string * string :=
  match s with
  | String c r => if is_digit c then let '(d, r') := span_digits r in (String c d, r') else ("", s)
  | EmptyString => ("", "")
  end.
(** One or more digits. *)
Definition some_digits (s : string) : option (string * string) :=
  let '(d, r) := span_digits s in if String.eqb d "" then None else Some (d, r).

Definition fraction (s : string) : option (string * string) :=
  match s with
  | String c r => if Ascii.eqb c "." then '(d, r') ← some_digits r; Some (String c d, r') else Some ("", s)
  | EmptyString => Some ("", "")
  end.
Definition exponent (s : string) : option (string * string) :=
  match s with
  | String c r =>
      if Ascii.eqb c "e" || Ascii.eqb c "E" then
        let '(sign, r) := match r with
          | String d r' => if Ascii.eqb d "+" || Ascii.eqb d "-" then (str1 d, r') else ("", r)
          | EmptyString => ("", "")
          end in
        '(d, r') ← some_digits r; Some (String c (sign +:+ d), r')
      else Some ("", s)
  | EmptyString => Some ("", "")
  end.
(** A number, as its literal. *)
Definition parse_num (s : string) : option (string * string) :=
  let '(sign, s) := match s with
    | String c r => if Ascii.eqb c "-" then ("-", r) else ("", s)
    | EmptyString => ("", "")
    end in
  '(int, s) ← match s with
    | String c r => if Ascii.eqb c "0" then Some ("0", r) else some_digits s
    | EmptyString => None
    end;
  '(frac, s) ← fraction s;
  '(exp, s) ← exponent s;
  Some (sign +:+ int +:+ frac +:+ exp, s).

Fixpoint strip (prefix s : string) : option string :=
  match prefix, s with
  | EmptyString, _ => Some s
  | String a p, String b r => if Ascii.eqb a b then strip p r else None
  | _, _ => None
  end.

Definition maxNestingDepth : Z := 10000.

(** A value after white space, the elements of an array after its bracket or a
    comma, the members of an object after its brace or a comma. *)
Fixpoint parse_value (fuel : nat) (depth : Z) (s : string) {struct fuel} : option (json * string) :=
  match fuel with
  | O => None
  | S fuel' =>
      match skip_ws s with
      | EmptyString => None
      | String c r as s =>
          if Ascii.eqb c "{" then
            if maxNestingDepth <? depth + 1 then None
            else match skip_ws r with
            | String d r' => if Ascii.eqb d "}" then Some (JObj [], r')
                             else '(l, r) ← parse_members fuel' (depth + 1) r; Some (JObj l, r)
            | EmptyString => None
            end
          else if Ascii.eqb c "[" then
            if maxNestingDepth <? depth + 1 then None
            else match skip_ws r with
            | String d r' => if Ascii.eqb d "]" then Some (JArr [], r')
                             else '(l, r) ← parse_elems fuel' (depth + 1) r; Some (JArr l, r)
            | EmptyString => None
            end
          else if Ascii.eqb c quote_c then '(t, r) ← parse_str fuel' r; Some (JStr t, r)
          else if Ascii.eqb c "-" || is_digit c then '(t, r) ← parse_num s; Some (JNum t, r)
          else if Ascii.eqb c "t" then r ← strip "true" s; Some (JBool true, r)
          else if Ascii.eqb c "f" then r ← strip "false" s; Some (JBool false, r)
          else if Ascii.eqb c "n" then r ← strip "null" s; Some (JNull, r)
          else None
      end
  end
with parse_members (fuel : nat) (depth : Z) (s : string) {struct fuel} : option (list (string * json) * string) :=
  match fuel with
  | O => None
  | S fuel' =>
      match skip_ws s with
      | String q r =>
          if negb (Ascii.eqb q quote_c) then None
          else
            '(k, r) ← parse_str fuel' r;
            match skip_ws r with
            | String c r =>
                if negb (Ascii.eqb c ":") then None
                else
                  '(v, r) ← parse_value fuel' depth r;
                  match skip_ws r with
                  | String d r =>
                      if Ascii.eqb d "}" then Some ([(k, v)], r)
                      else if Ascii.eqb d "," then '(l, r) ← parse_members fuel' depth r; Some ((k, v) :: l, r)
                      else None
                  | EmptyString => None
                  end
            | EmptyString => None
            end
      | EmptyString => None
      end
  end
with parse_elems (fuel : nat) (depth : Z) (s : string) {struct fuel} : option (list json * string) :=
  match fuel with
  | O => None
  | S fuel' =>
      '(v, r) ← parse_value fuel' depth s;
      match skip_ws r with
      | String d r =>
          if Ascii.eqb d "]" then Some ([v], r)
          else if Ascii.eqb d "," then '(l, r) ← parse_elems fuel' depth r; Some (v :: l, r)
          else None
      | EmptyString => None
      end
  end.

(** A text that is one value and nothing else. *)
Definition parse_json (s : string) : option json :=
  '(v, r) ← parse_value (S (2 * String.length s)) 0 s;
  if String.eqb (skip_ws r) "" then Some v else None.

(** ** Fields *)

(** [foldName]: letter case is ignored, and so are the two characters outside
    ASCII that fold to a letter of it, the Kelvin sign and the long s. *)
Definition upper_char (c : ascii) : ascii :=
  let n := char_code c in if (97 <=? n) && (n <=? 122) then char_of (n - 32) else c.
Definition fold_rune (t : string) : string :=
  if String.eqb t (String "226" (String "132" (str1 "170"))) then "K"
  else if String.eqb t (String "197" (str1 "191")) then "S"
  else match t with String c EmptyString => str1 (upper_char c) | _ => t end.
Definition fold_name (s : string) : string := concat_strings ((fun r => fold_rune (default replacement r)) <$> runes_of s).

(** Values assigned to Go fields: [null] leaves the field alone. *)
Definition to_string_field (v : json) (old : string) : option string :=
  match v with JStr s => Some s | JNull => Some old | _ => None end.
Definition to_uint64_field (v : json) (old : Z) : option Z :=
  match v with JNum t => ParseUint t | JNull => Some old | _ => None end.
Definition to_int64_field (v : json) (old : Z) : option Z :=
  match v with JNum t => ParseInt t | JNull => Some old | _ => None end.

(** ** Runes *)

Section runes.
Implicit Types (s t r : string).

(** A rune's bytes are a rune in front of anything. *)
Definition rune_ok (o : option string) : Prop :=
  match o with Some t => t <> "" /\ forall rest, take_rune (t +:+ rest) = Some (t, rest) | None => True end.

Ltac split_tests :=
  repeat match goal with
  | H : context [if ?b then _ else _] |- _ => let E := fresh "E" in destruct b eqn:E
  | H : context [match ?r with EmptyString => _ | String _ _ => _ end] |- _ => destruct r; [done|]
  end.

Lemma take_rune_spec s t rest : take_rune s = Some (t, rest) -> s = t +:+ rest /\ rune_ok (Some t).
Proof.
  destruct s as [|a r]; [done|]. unfold rune_ok. cbn [take_rune]. intros H.
  split_tests; try done; injection H as <- <-; (split; [done|]); (split; [done|]); intros rest';
    cbn [String.append str1 take_rune]; repeat match goal with E : _ = _ |- _ => rewrite E; clear E end; done.
Qed.

Lemma runes_spec fuel s : (String.length s <= fuel)%nat -> runes fuel s = runes (String.length s) s /\ Forall rune_ok (runes fuel s).
Proof.
  revert s. induction fuel as [fuel IH] using lt_wf_ind. intros s Hs.
  destruct s as [|a r]; [by destruct fuel|]. destruct fuel as [|f]; [cbn in Hs; lia|].
  cbn [String.length runes]. cbn [String.length] in Hs.
  destruct (take_rune (String a r)) as [[t rest]|] eqn:E.
  - destruct (take_rune_spec _ _ _ E) as [Es Ht]. pose proof Ht as [Hn _].
    assert (String.length rest <= String.length r)%nat as Hl.
    { apply (f_equal String.length) in Es. rewrite slen_app in Es. cbn [String.length] in Es. destruct t; [done|]. cbn in Es. lia. }
    destruct (IH f ltac:(lia) rest ltac:(lia)) as [E1 Hf]. destruct (IH (String.length r) ltac:(lia) rest Hl) as [E2 _].
    split; [by rewrite E1, E2|by constructor].
  - destruct (IH f ltac:(lia) r ltac:(lia)) as [E' Hf]. split; [by rewrite E'|]. by constructor.
Qed.

Lemma runes_of_ok s : Forall rune_ok (runes_of s).
Proof. apply runes_spec. lia. Qed.

(** ** Quoted strings *)

Lemma quote_byte_parses n c rest :
  char_code c < 128 ->
  parse_str (S n) (quote_byte c +:+ rest) = ('(u, rest') ← parse_str n rest; Some (String c u, rest')).
Proof.
  destruct c as [[] [] [] [] [] [] [] []]; intros H; (discriminate H || reflexivity).
Qed.

Lemma quote_rune_parses n o rest :
  rune_ok o ->
  parse_str (S n) (quote_rune o +:+ rest) = ('(u, rest') ← parse_str n rest; Some (default replacement o +:+ u, rest')).
Proof.
  destruct o as [t|]; [|intros _; reflexivity]. intros [Ht Hr]. cbn [quote_rune default].
  destruct (String.eqb_spec t line_separator) as [->|]; [reflexivity|].
  destruct (String.eqb_spec t paragraph_separator) as [->|]; [reflexivity|].
  destruct t as [|a [|b t]]; [done| |].
  - apply (quote_byte_parses n a rest). specialize (Hr ""). cbn [String.append take_rune] in Hr.
    destruct (char_code a <? 128) eqn:E; [by zbool|]. revert Hr. repeat case_if; discriminate.
  - assert (128 <= char_code a) as Ha.
    { specialize (Hr ""). cbn [String.append take_rune] in Hr. destruct (char_code a <? 128) eqn:E; [done|]. by apply Z.ltb_ge in E. }
    specialize (Hr rest). cbn [String.append] in Hr |- *. cbn [parse_str].
    assert (Ascii.eqb a quote_c = false) as -> by (apply Ascii.eqb_neq; intros ->; by apply Ha).
    assert (Ascii.eqb a back_c = false) as -> by (apply Ascii.eqb_neq; intros ->; by apply Ha).
    rewrite (proj2 (Z.ltb_ge (char_code a) 32)), Hr by lia. done.
Qed.

Lemma quoted_runes_parse n l rest :
  Forall rune_ok l -> (length l < n)%nat ->
  parse_str n (concat_strings (quote_rune <$> l) +:+ String quote_c rest) = Some (concat_strings (default replacement <$> l), rest).
Proof.
  intros Hl. revert n. induction Hl as [|o l Ho Hl IH]; intros n Hn; (destruct n as [|n]; [cbn in Hn; lia|]).
  { reflexivity. }
  cbn [fmap list_fmap concat_strings]. rewrite sapp_assoc, quote_rune_parses by done.
  cbn [length] in Hn. by rewrite IH by lia.
Qed.

Lemma quote_rune_length o : rune_ok o -> (1 <= String.length (quote_rune o))%nat.
Proof.
  destruct o as [t|]; cbn [rune_ok quote_rune]; [|cbn; lia]. intros [Ht _].
  repeat case_if; [cbn; lia..|]. destruct t as [|a [|b t]]; [done| |cbn; lia].
  unfold quote_byte. repeat case_if; cbn; lia.
Qed.

Lemma runes_length l : Forall rune_ok l -> (length l <= String.length (concat_strings (quote_rune <$> l)))%nat.
Proof.
  induction 1 as [|o l Ho Hl IH]; [done|]. cbn [length fmap list_fmap concat_strings]. rewrite slen_app.
  pose proof (quote_rune_length o Ho). lia.
Qed.

(** Reading a quoted string. *)
Lemma json_string_parses n s rest :
  (String.length (quote_body_of s) < n)%nat -> parse_str n (quote_body_of s +:+ String quote_c rest) = Some (valid_utf8 s, rest).
Proof.
  intros Hn. apply quoted_runes_parse; [apply runes_of_ok|]. pose proof (runes_length _ (runes_of_ok s)).
  unfold quote_body_of in Hn. lia.
Qed.

(** Text that is UTF-8 is kept, in particular ASCII. *)
Fixpoint is_ascii (s : string) : bool :=
  match s with EmptyString => true | String c s' => (char_code c <? 128) && is_ascii s' end.

Lemma valid_ascii s : is_ascii s = true -> valid_utf8 s = s.
Proof.
  unfold valid_utf8, runes_of. induction s as [|c s IH]; [done|]. cbn [is_ascii String.length runes take_rune].
  intros [Hc Hs]%andb_true_iff. rewrite Hc. cbn [fmap list_fmap default concat_strings str1 String.append]. by rewrite IH.
Qed.
End runes.

(** ** Numbers *)

Lemma span_digits_all s c rest :
  all_digits s = true -> is_digit c = false -> span_digits (s +:+ String c rest) = (s, String c rest).
Proof.
  induction s as [|d s IH]; cbn [all_digits String.append span_digits]; [by intros _ ->|].
  intros [Hd Hs]%andb_true_iff Hc. by rewrite Hd, IH.
Qed.

(** A number that is not zero is printed without a leading zero. *)
Lemma digits_lead fuel n acc :
  0 < n < 10 ^ Z.of_nat fuel -> exists d s, 1 <= d < 10 /\ digits_of fuel n acc = String (digit_char d) s.
Proof.
  revert n acc. induction fuel as [|f IH]; intros n acc Hn; [cbn in Hn; lia|].
  rewrite Nat2Z.inj_succ, Z.pow_succ_r in Hn by lia. cbn [digits_of].
  pose proof (Z.mod_pos_bound n 10). pose proof (Z.div_mod n 10).
  destruct (n / 10 =? 0) eqn:E; zbool; [exists (n mod 10); eexists; split; [lia|done]|].
  apply IH. split; [|apply Z.div_lt_upper_bound; lia]. pose proof (Z.div_pos n 10). lia.
Qed.

(** The character after a number. *)
Definition ends_number (c : ascii) : bool :=
  negb (is_digit c) && negb (Ascii.eqb c ".") && negb (Ascii.eqb c "e") && negb (Ascii.eqb c "E").

Lemma parse_num_uint n c rest :
  is_u64 n -> ends_number c = true -> parse_num (FormatUint n +:+ String c rest) = Some (FormatUint n, String c rest).
Proof.
  intros Hn Hc. unfold ends_number in Hc.
  apply andb_true_iff in Hc as [[[H1 H2]%andb_true_iff H3]%andb_true_iff H4].
  apply negb_true_iff in H1, H2, H3, H4.
  assert (all_digits (FormatUint n) = true) as Hd by (by apply digits_of_all).
  unfold parse_num. destruct (decide (n = 0)) as [->|Hz].
  { change (FormatUint 0 +:+ String c rest) with (String "0" (String c rest)).
    cbn beta iota. change (Ascii.eqb "0" "-") with false. cbn beta iota. change (Ascii.eqb "0" "0") with true.
    cbn [mbind option_bind fraction]. rewrite H2. cbn [mbind option_bind exponent]. by rewrite H3, H4. }
  destruct (digits_lead 20 n "") as (d & s & Hd1 & E); [range|].
  fold (FormatUint n) in E. rewrite E. cbn [String.append].
  destruct (digit_not_sign d ltac:(lia)) as [Hm _]. apply Ascii.eqb_neq in Hm. rewrite Hm.
  assert (Ascii.eqb (digit_char d) "0" = false) as ->.
  { apply Ascii.eqb_neq. intros F. apply (f_equal char_code) in F. unfold digit_char in F. rewrite char_code_of in F by lia.
    change (char_code "0") with 48 in F. lia. }
  unfold some_digits. change (String (digit_char d) (s +:+ String c rest)) with (String (digit_char d) s +:+ String c rest).
  rewrite E in Hd. rewrite (span_digits_all _ c rest Hd H1). cbn [String.eqb mbind option_bind fraction].
  rewrite H2. cbn [mbind option_bind exponent]. rewrite H3, H4. cbn [orb mbind option_bind String.append].
  by rewrite !sapp_nil_r.
Qed.

Lemma parse_num_int z c rest :
  is_int z -> ends_number c = true -> parse_num (Itoa z +:+ String c rest) = Some (Itoa z, String c rest).
Proof.
  intros Hz Hc. unfold Itoa. destruct (z <? 0) eqn:E; zbool.
  - pose proof (parse_num_uint (- z) c rest) as H. unfold parse_num in *. cbn [String.append].
    change (Ascii.eqb "-" "-") with true. cbn iota.
    destruct (digits_of_cons 19 (- z) "") as (d & s & Hd & Es). fold (FormatUint (- z)) in *.
    change (digits_of 20 (- z) "") with (FormatUint (- z)) in Es. rewrite Es in H |- *. cbn [String.append] in H |- *.
    destruct (digit_not_sign d Hd) as [Hm _]. apply Ascii.eqb_neq in Hm. rewrite Hm in H.
    specialize (H ltac:(range) Hc).
    destruct (if Ascii.eqb (digit_char d) "0" then _ else _) as [[int s1]|]; cbn [mbind option_bind] in *; [|done].
    destruct (fraction s1) as [[fr s2]|]; cbn [mbind option_bind] in *; [|done].
    destruct (exponent s2) as [[ex s3]|]; cbn [mbind option_bind String.append] in *; [|done].
    injection H as H <-. by rewrite H.
  - apply parse_num_uint; [range|done].
Qed.

(** ** Values and members *)

Lemma value_string n d s rest :
  (String.length (quote_body_of s) < n)%nat ->
  parse_value (S n) d (json_string s +:+ rest) = Some (JStr (valid_utf8 s), rest).
Proof.
  intros Hn. unfold json_string. cbn [String.append]. rewrite sapp_assoc.
  change (str1 quote_c +:+ rest) with (String quote_c rest).
  change (parse_value (S n) d (String quote_c ?x)) with ('(t, r) ← parse_str n x; Some (JStr t, r)).
  by rewrite json_string_parses.
Qed.

(** A literal that starts with a digit or a minus sign. *)
Lemma value_num n d t c rest a s :
  t = String a s -> Ascii.eqb a "-" || is_digit a = true -> parse_num (t +:+ String c rest) = Some (t, String c rest) ->
  parse_value (S n) d (t +:+ String c rest) = Some (JNum t, String c rest).
Proof.
  intros -> Ha Hp. cbn [parse_value].
  assert (is_ws a = false /\ Ascii.eqb a "{" = false /\ Ascii.eqb a "[" = false /\ Ascii.eqb a quote_c = false) as (E1 & E2 & E3 & E4).
  { clear -Ha. destruct a as [[] [] [] [] [] [] [] []]; try discriminate Ha; auto. }
  cbn [String.append skip_ws]. rewrite E1, E2, E3, E4, Ha.
  cbn [String.append] in Hp. by rewrite Hp.
Qed.

Lemma value_uint n d m c rest :
  is_u64 m -> ends_number c = true ->
  parse_value (S n) d (FormatUint m +:+ String c rest) = Some (JNum (FormatUint m), String c rest).
Proof.
  intros Hm Hc. destruct (digits_of_cons 19 m "") as (x & s & Hx & E). destruct (digit_char_ok x Hx) as [Hd _].
  apply (value_num n d _ c rest (digit_char x) s); [exact E|by rewrite Hd, orb_true_r|by apply parse_num_uint].
Qed.

Lemma value_int n d z c rest :
  is_int z -> ends_number c = true ->
  parse_value (S n) d (Itoa z +:+ String c rest) = Some (JNum (Itoa z), String c rest).
Proof.
  intros Hz Hc. pose proof (parse_num_int z c rest Hz Hc) as Hp. unfold Itoa in *.
  destruct (z <? 0) eqn:E; zbool; [|apply value_uint; [range|done]].
  by apply (value_num n d _ c rest "-" (FormatUint (- z))).
Qed.

(** A member whose value is followed by a comma or the closing brace. *)
Lemma member_more n d k t v rest :
  (String.length (quote_body_of k) < n)%nat ->
  parse_value n d (t +:+ String "," rest) = Some (v, String "," rest) ->
  parse_members (S n) d (json_string k +:+ String ":" (t +:+ String "," rest)) =
    ('(l, r) ← parse_members n d rest; Some ((valid_utf8 k, v) :: l, r)).
Proof.
  intros Hk Hv. unfold json_string. cbn [String.append]. rewrite sapp_assoc.
  change (str1 quote_c +:+ ?r) with (String quote_c r). cbn [parse_members].
  change (skip_ws (String quote_c ?r)) with (String quote_c r). cbn iota. change (negb (Ascii.eqb quote_c quote_c)) with false. cbn iota.
  rewrite json_string_parses by done. cbn [mbind option_bind].
  change (skip_ws (String ":" ?r)) with (String ":" r). cbn iota. change (negb (Ascii.eqb ":" ":")) with false. cbn iota.
  rewrite Hv. cbn [mbind option_bind]. change (skip_ws (String "," ?r)) with (String "," r). cbn iota. reflexivity.
Qed.

Lemma member_last n d k t v rest :
  (String.length (quote_body_of k) < n)%nat ->
  parse_value n d (t +:+ String "}" rest) = Some (v, String "}" rest) ->
  parse_members (S n) d (json_string k +:+ String ":" (t +:+ String "}" rest)) = Some ([(valid_utf8 k, v)], rest).
Proof.
  intros Hk Hv. unfold json_string. cbn [String.append]. rewrite sapp_assoc.
  change (str1 quote_c +:+ ?r) with (String quote_c r). cbn [parse_members].
  change (skip_ws (String quote_c ?r)) with (String quote_c r). cbn iota. change (negb (Ascii.eqb quote_c quote_c)) with false. cbn iota.
  rewrite json_string_parses by done. cbn [mbind option_bind].
  change (skip_ws (String ":" ?r)) with (String ":" r). cbn iota. change (negb (Ascii.eqb ":" ":")) with false. cbn iota.
  rewrite Hv. cbn [mbind option_bind]. change (skip_ws (String "}" ?r)) with (String "}" r). cbn iota. reflexivity.
Qed.

(** ** Objects *)

(** [t] is read as [v] where an object's member ends, with enough fuel for its
    length; inside of [d] brackets, or of any number of them. *)
Definition written_at (d : Z) (t : string) (v : json) : Prop :=
  forall n c rest, (String.length t < n)%nat -> ends_number c = true ->
    parse_value n d (t +:+ String c rest) = Some (v, String c rest).
Definition written (t : string) (v : json) : Prop := forall d, written_at d t v.

Lemma written_string s : written (json_string s) (JStr (valid_utf8 s)).
Proof.
  intros d [|n] c rest Hn _; [lia|]. apply value_string. unfold json_string in Hn. cbn [String.length] in Hn.
  rewrite slen_app in Hn. cbn in Hn. lia.
Qed.
Lemma written_uint m : is_u64 m -> written (FormatUint m) (JNum (FormatUint m)).
Proof. intros Hm d [|n] c rest Hn Hc; [lia|]. by apply value_uint. Qed.
Lemma written_int z : is_int z -> written (Itoa z) (JNum (Itoa z)).
Proof. intros Hz d [|n] c rest Hn Hc; [lia|]. by apply value_int. Qed.

(** The text of an object's members. *)
Fixpoint members_text (l : list (string * string)) : string :=
  match l with
  | [] => ""
  | [(k, t)] => json_string k +:+ String ":" (t +:+ "}")
  | (k, t) :: l' => json_string k +:+ String ":" (t +:+ String "," (members_text l'))
  end.

Lemma members_parse n d (l : list (string * string)) (vs : list json) rest :
  l <> [] -> Forall2 (fun m v => written_at d m.2 v) l vs -> (String.length (members_text l) <= n)%nat ->
  parse_members n d (members_text l +:+ rest) = Some (zip (valid_utf8 <$> l.*1) vs, rest).
Proof.
  intros Hl H. revert n Hl. induction H as [|[k t] v l vs Hv H IH]; intros n Hl Hn; [done|]. clear Hl. cbn [snd] in Hv.
  destruct l as [|[k' t'] l].
  - apply Forall2_nil_inv_l in H as ->. cbn [members_text] in *. unfold json_string in Hn.
    repeat (cbn [String.length String.append str1] in Hn; rewrite ?slen_app in Hn).
    destruct n as [|n]; [lia|]. cbn [fmap list_fmap fst zip zip_with]. rewrite sapp_assoc. cbn [String.append]. rewrite sapp_assoc.
    change ("}" +:+ rest) with (String "}" rest). apply member_last; [lia|]. apply Hv; [lia|done].
  - change (members_text ((k, t) :: (k', t') :: l))
      with (json_string k +:+ String ":" (t +:+ String "," (members_text ((k', t') :: l)))) in *.
    set (r := members_text ((k', t') :: l)) in *. unfold json_string in Hn.
    repeat (cbn [String.length String.append str1] in Hn; rewrite ?slen_app in Hn).
    rewrite sapp_assoc. cbn [String.append]. rewrite sapp_assoc. cbn [String.append].
    destruct n as [|n]; [lia|]. rewrite (member_more n d k t v); [|lia|apply Hv; [lia|done]].
    rewrite IH by (done || lia). done.
Qed.

Lemma members_text_quote l : l <> [] -> exists r, members_text l = String quote_c r.
Proof. destruct l as [|[k t] [|p l]]; [done|..]; intros _; eexists; reflexivity. Qed.

(** An object, inside of brackets or on its own, is read back member by member. *)
Lemma object_value n d l vs rest :
  l <> [] -> d < maxNestingDepth -> Forall2 (fun m v => written_at (d + 1) m.2 v) l vs -> (String.length (members_text l) <= n)%nat ->
  parse_value (S n) d (String "{" (members_text l +:+ rest)) = Some (JObj (zip (valid_utf8 <$> l.*1) vs), rest).
Proof.
  intros Hl Hd H Hn.
  assert (parse_value (S n) d (String "{" (members_text l +:+ rest)) =
    ('(m, r) ← parse_members n (d + 1) (members_text l +:+ rest); Some (JObj m, r))) as ->.
  { destruct (members_text_quote l Hl) as (r & Er). rewrite Er. cbn [String.append]. cbn [parse_value].
    change (skip_ws (String "{" ?r)) with (String "{" r). cbn iota. change (Ascii.eqb "{" "{") with true. cbn iota.
    rewrite (proj2 (Z.ltb_ge _ _)) by lia. reflexivity. }
  by rewrite (members_parse _ _ l vs) by done.
Qed.
Lemma written_object d l vs :
  l <> [] -> d < maxNestingDepth -> Forall2 (fun m v => written_at (d + 1) m.2 v) l vs ->
  written_at d (String "{" (members_text l)) (JObj (zip (valid_utf8 <$> l.*1) vs)).
Proof. intros Hl Hd H [|n] c rest Hn _; [lia|]. cbn [String.append String.length] in *. apply object_value; [done..|lia]. Qed.
Lemma object_parses l vs :
  l <> [] -> Forall2 (fun m v => written_at 1 m.2 v) l vs ->
  parse_json (String "{" (members_text l)) = Some (JObj (zip (valid_utf8 <$> l.*1) vs)).
Proof.
  intros Hl H. unfold parse_json. pose proof (object_value (2 * String.length (String "{" (members_text l))) 0 l vs "" Hl) as E.
  rewrite sapp_nil_r in E. rewrite E; [done|done|done|]. cbn [String.length]. lia.
Qed.

(** ** Fuel *)

Ltac case_if_in H := match type of H with context [if ?b then _ else _] => destruct b end.

(** What a parser leaves is shorter than what it got. *)
Definition shrinks {A} (p : option (A * string)) (s : string) : Prop :=
  forall a r, p = Some (a, r) -> (String.length r < String.length s)%nat.

Lemma skip_ws_length s : (String.length (skip_ws s) <= String.length s)%nat.
Proof. induction s as [|c s IH]; [done|]. cbn [skip_ws]. case_if; cbn [String.length]; lia. Qed.

Lemma hex4_length s v r : hex4 s = Some (v, r) -> (String.length r < String.length s)%nat.
Proof.
  destruct s as [|a [|b [|c [|d s]]]]; try done. cbn [hex4].
  destruct (hex_val a), (hex_val b), (hex_val c), (hex_val d); cbn [mbind option_bind]; try done.
  intros [= _ <-]. cbn [String.length]. lia.
Qed.

Lemma escape_length s t r : escape s = Some (t, r) -> (String.length r < String.length s)%nat.
Proof.
  destruct s as [|e s]; [done|]. cbn [escape String.length].
  repeat (case_if; [intros [= _ <-]; lia|]). case_if; [|done].
  destruct (hex4 s) as [[v r1]|] eqn:E; cbn [mbind option_bind]; [|done].
  apply hex4_length in E. intros F. apply (inj Some) in F. case_if_in F; [|injection F as _ <-; lia].
  unfold surrogate in F. destruct r1 as [|a [|b r2]]; [injection F as _ <-; lia..|].
  case_if_in F; [|injection F as _ <-; lia]. destruct (hex4 r2) as [[v2 r3]|] eqn:E2; [|injection F as _ <-; lia].
  apply hex4_length in E2. cbn [String.length] in E. case_if_in F; injection F as _ <-; cbn [String.length]; lia.
Qed.

(** One step of a string. *)
Lemma str_step_length a r t rest :
  (if Ascii.eqb a back_c then escape r else Some (match take_rune (String a r) with Some tr => tr | None => (replacement, r) end))
    = Some (t, rest) -> (String.length rest <= String.length r)%nat.
Proof.
  case_if; [intros E; apply escape_length in E; lia|]. intros F. apply (inj Some) in F.
  destruct (take_rune (String a r)) as [[t' r']|] eqn:E; injection F as <- <-; [|lia].
  destruct (take_rune_spec _ _ _ E) as [Es [Hn _]]. apply (f_equal String.length) in Es. rewrite slen_app in Es.
  cbn [String.length] in Es. destruct t'; [done|]. cbn [String.length] in Es. lia.
Qed.

Lemma parse_str_shrinks n s : shrinks (parse_str n s) s.
Proof.
  revert s. induction n as [|n IH]; intros s t r; [done|]. destruct s as [|a s]; [done|]. cbn [parse_str String.length].
  case_if; [intros [= _ <-]; lia|]. case_if; [done|].
  destruct (if Ascii.eqb a back_c then _ else _) as [[t1 r1]|] eqn:E; cbn [mbind option_bind]; [|done].
  apply str_step_length in E. destruct (parse_str n r1) as [[u r2]|] eqn:E2; cbn [mbind option_bind]; [|done].
  apply IH in E2. intros [= _ <-]. lia.
Qed.

Lemma parse_str_fuel n n' s :
  (String.length s < n)%nat -> (String.length s < n')%nat -> parse_str n s = parse_str n' s.
Proof.
  revert n' s. induction n as [|n IH]; intros n' s Hn Hn'; [lia|]. destruct n' as [|n']; [lia|].
  destruct s as [|a s]; [done|]. cbn [parse_str String.length] in *. case_if; [done|]. case_if; [done|].
  destruct (if Ascii.eqb a back_c then _ else _) as [[t1 r1]|] eqn:E; cbn [mbind option_bind]; [|done].
  apply str_step_length in E. by rewrite (IH n') by lia.
Qed.

Lemma span_digits_length s : (String.length (snd (span_digits s)) <= String.length s)%nat.
Proof.
  induction s as [|c s IH]; [done|]. cbn [span_digits]. case_if; [|done]. destruct (span_digits s). cbn [snd String.length] in *. lia.
Qed.

Lemma some_digits_length s d r : some_digits s = Some (d, r) -> (String.length r < String.length s)%nat.
Proof.
  unfold some_digits. destruct s as [|c s]; [done|]. cbn [span_digits]. pose proof (span_digits_length s) as H.
  destruct (is_digit c); [|done]. destruct (span_digits s) as [d' r']. cbn [snd] in H. case_if; [done|].
  intros [= _ <-]. cbn [String.length]. lia.
Qed.

Lemma fraction_length s t r : fraction s = Some (t, r) -> (String.length r <= String.length s)%nat.
Proof.
  destruct s as [|c s]; [by intros [= _ <-]|]. cbn [fraction]. case_if; [|by intros [= _ <-]].
  destruct (some_digits s) as [[d r']|] eqn:E; cbn [mbind option_bind]; [|done]. apply some_digits_length in E.
  intros [= _ <-]. cbn [String.length]. lia.
Qed.

Lemma exponent_length s t r : exponent s = Some (t, r) -> (String.length r <= String.length s)%nat.
Proof.
  destruct s as [|c s]; [by intros [= _ <-]|]. cbn [exponent]. case_if; [|by intros [= _ <-]].
  set (p := match s with EmptyString => _ | String _ _ => _ end).
  assert (String.length p.2 <= String.length s)%nat as Hp.
  { unfold p. destruct s as [|d s]; [done|]. case_if; cbn [snd String.length]; lia. }
  destruct p as [sign r0]. cbn [snd] in Hp.
  destruct (some_digits r0) as [[d r']|] eqn:E; cbn [mbind option_bind]; [|done]. apply some_digits_length in E.
  intros [= _ <-]. cbn [String.length]. lia.
Qed.

Lemma parse_num_shrinks s : shrinks (parse_num s) s.
Proof.
  intros t r. unfold parse_num.
  set (p := match s with EmptyString => _ | String _ _ => _ end).
  assert (String.length p.2 <= String.length s)%nat as Hp.
  { unfold p. destruct s as [|d s]; [done|]. case_if; cbn [snd String.length]; lia. }
  destruct p as [sign s1]. cbn [snd] in Hp.
  set (q := match s1 with EmptyString => _ | String _ _ => _ end).
  assert (forall i x, q = Some (i, x) -> (String.length x < String.length s1)%nat) as Hq.
  { unfold q. destruct s1 as [|d s1]; [done|]. intros i x. case_if; [intros [= _ <-]; cbn; lia|]. apply some_digits_length. }
  destruct q as [[int s2]|]; cbn [mbind option_bind]; [|done]. specialize (Hq _ _ eq_refl).
  destruct (fraction s2) as [[fr s3]|] eqn:E3; cbn [mbind option_bind]; [|done]. apply fraction_length in E3.
  destruct (exponent s3) as [[ex s4]|] eqn:E4; cbn [mbind option_bind]; [|done]. apply exponent_length in E4.
  intros [= _ <-]. lia.
Qed.

Lemma strip_shrinks p s r : p <> "" -> strip p s = Some r -> (String.length r < String.length s)%nat.
Proof.
  assert (forall p s r, strip p s = Some r -> (String.length r + String.length p = String.length s)%nat) as H.
  { clear. intros p. induction p as [|a p IH]; intros s r; cbn [strip]; [intros [= <-]; cbn; lia|].
    destruct s as [|b s]; [done|]. case_if; [|done]. intros E. apply IH in E. cbn [String.length]. lia. }
  intros Hp E. apply H in E. destruct p; [done|]. cbn [String.length] in E. lia.
Qed.

(** Every parser leaves less than it got, ... *)
Lemma parsers_shrink n :
  (forall d s, shrinks (parse_value n d s) s) /\ (forall d s, shrinks (parse_members n d s) s) /\
  (forall d s, shrinks (parse_elems n d s) s).
Proof.
  induction n as [|n (IHv & IHm & IHe)]; [done|]. split_and!; intros d s x rest.
  - cbn [parse_value]. pose proof (skip_ws_length s) as Hs. destruct (skip_ws s) as [|c r]; [done|]. cbn [String.length] in Hs.
    pose proof (skip_ws_length r) as Hr.
    case_if; [case_if; [done|]; destruct (skip_ws r) as [|e r']; [done|]; cbn [String.length] in Hr;
              case_if; [intros [= _ <-]; lia|];
              destruct (parse_members n (d + 1) r) as [[l r2]|] eqn:E; cbn [mbind option_bind]; [|done];
              apply IHm in E; intros [= _ <-]; lia|].
    case_if; [case_if; [done|]; destruct (skip_ws r) as [|e r']; [done|]; cbn [String.length] in Hr;
              case_if; [intros [= _ <-]; lia|];
              destruct (parse_elems n (d + 1) r) as [[l r2]|] eqn:E; cbn [mbind option_bind]; [|done];
              apply IHe in E; intros [= _ <-]; lia|].
    case_if; [destruct (parse_str n r) as [[t r2]|] eqn:E; cbn [mbind option_bind]; [|done];
              apply parse_str_shrinks in E; intros [= _ <-]; lia|].
    case_if; [destruct (parse_num (String c r)) as [[t r2]|] eqn:E; cbn [mbind option_bind]; [|done];
              apply parse_num_shrinks in E; cbn [String.length] in E; intros [= _ <-]; lia|].
    repeat (case_if; [match goal with |- context [strip ?p ?s] => destruct (strip p s) as [r2|] eqn:E end;
      cbn [mbind option_bind]; [|done]; apply strip_shrinks in E; [|done]; cbn [String.length] in E; intros [= _ <-]; lia|]). done.
  - cbn [parse_members]. pose proof (skip_ws_length s) as Hs. destruct (skip_ws s) as [|q r]; [done|]. cbn [String.length] in Hs.
    case_if; [done|]. destruct (parse_str n r) as [[k r1]|] eqn:E1; cbn [mbind option_bind]; [|done]. apply parse_str_shrinks in E1.
    pose proof (skip_ws_length r1) as H1. destruct (skip_ws r1) as [|c r2]; [done|]. cbn [String.length] in H1. case_if; [done|].
    destruct (parse_value n d r2) as [[v r3]|] eqn:E2; cbn [mbind option_bind]; [|done]. apply IHv in E2.
    pose proof (skip_ws_length r3) as H3. destruct (skip_ws r3) as [|e r4]; [done|]. cbn [String.length] in H3.
    case_if; [intros [= _ <-]; lia|]. case_if; [|done].
    destruct (parse_members n d r4) as [[l r5]|] eqn:E3; cbn [mbind option_bind]; [|done]. apply IHm in E3. intros [= _ <-]. lia.
  - cbn [parse_elems]. destruct (parse_value n d s) as [[v r3]|] eqn:E2; cbn [mbind option_bind]; [|done]. apply IHv in E2.
    pose proof (skip_ws_length r3) as H3. destruct (skip_ws r3) as [|e r4]; [done|]. cbn [String.length] in H3.
    case_if; [intros [= _ <-]; lia|]. case_if; [|done].
    destruct (parse_elems n d r4) as [[l r5]|] eqn:E3; cbn [mbind option_bind]; [|done]. apply IHe in E3. intros [= _ <-]. lia.
Qed.

(** ... so a fuel above twice the length of the text is enough: more of it
    changes nothing, and [parse_json] fails on errors only. *)
Lemma parse_fuel n n' d s :
  let enough k := (2 * String.length s + k < n)%nat /\ (2 * String.length s + k < n')%nat in
  (enough 0%nat -> parse_value n d s = parse_value n' d s) /\
  (enough 0%nat -> parse_members n d s = parse_members n' d s) /\
  (enough 1%nat -> parse_elems n d s = parse_elems n' d s).
Proof.
  revert n' d s. induction n as [|n IH]; intros n' d s; cbv zeta in *; [split_and!; intros [? ?]; lia|].
  destruct n' as [|n']; [split_and!; intros [? ?]; lia|].
  assert (forall d s, (2 * String.length s < n)%nat -> (2 * String.length s < n')%nat -> parse_value n d s = parse_value n' d s) as IHv
    by (intros d0 s0 ? ?; apply IH; lia).
  assert (forall d s, (2 * String.length s < n)%nat -> (2 * String.length s < n')%nat -> parse_members n d s = parse_members n' d s) as IHm
    by (intros d0 s0 ? ?; apply IH; lia).
  assert (forall d s, (2 * String.length s + 1 < n)%nat -> (2 * String.length s + 1 < n')%nat -> parse_elems n d s = parse_elems n' d s) as IHe
    by (intros d0 s0 ? ?; apply IH; lia).
  clear IH. split_and!; intros [H1 H2].
  - cbn [parse_value]. pose proof (skip_ws_length s) as Hs. destruct (skip_ws s) as [|c r]; [done|]. cbn [String.length] in Hs.
    by rewrite (IHm (d + 1) r), (IHe (d + 1) r), (parse_str_fuel n n' r) by lia.
  - cbn [parse_members]. pose proof (skip_ws_length s) as Hs. destruct (skip_ws s) as [|q r]; [done|]. cbn [String.length] in Hs.
    case_if; [done|]. rewrite (parse_str_fuel n n' r) by lia.
    destruct (parse_str n' r) as [[k r1]|] eqn:E1; cbn [mbind option_bind]; [|done]. apply parse_str_shrinks in E1.
    pose proof (skip_ws_length r1) as Hr1. destruct (skip_ws r1) as [|c r2]; [done|]. cbn [String.length] in Hr1. case_if; [done|].
    rewrite (IHv d r2) by lia. destruct (parse_value n' d r2) as [[v r3]|] eqn:E2; cbn [mbind option_bind]; [|done].
    apply (proj1 (parsers_shrink n')) in E2. pose proof (skip_ws_length r3) as Hr3. destruct (skip_ws r3) as [|e r4]; [done|].
    cbn [String.length] in Hr3. by rewrite (IHm d r4) by lia.
  - cbn [parse_elems]. rewrite (IHv d s) by lia. destruct (parse_value n' d s) as [[v r3]|] eqn:E2; cbn [mbind option_bind]; [|done].
    apply (proj1 (parsers_shrink n')) in E2. pose proof (skip_ws_length r3) as Hr3. destruct (skip_ws r3) as [|e r4]; [done|].
    cbn [String.length] in Hr3. by rewrite (IHe d r4) by lia.
Qed.
