(* ===== verification/Config.v ===== *)
(** * burnin/config: the configuration model

    The records of config.go, the defaults, the worker table, environment
    overrides, duration parsing, [Load] and [Validate].  YAML decoding, the
    file system, the process environment and the random source are parameters
    of the operations that use them. *)
From S2P Require Import Prelude GoFloat GoFmt GoTime.
From Stdlib Require Import Ascii.

Definition ConfigVersion : string := "2".

(** ** Worker names and predicates *)

Definition WorkerPublishPullRoundTrip : string := "publish_pull_round_trip".
Definition WorkerStreamingPull : string := "streaming_pull".
Definition WorkerOrderingKeys : string := "ordering_keys".
Definition WorkerExactlyOnce : string := "exactly_once".
Definition WorkerDeadLetter : string := "dead_letter".
Definition WorkerFanOut : string := "fan_out".
Definition WorkerCrossProtocol : string := "cross_protocol_interop".
Definition WorkerNackRedelivery : string := "nack_redelivery".
Definition WorkerFiltering : string := "filtering".
Definition WorkerSchemaEnforce : string := "schema_enforce".
Definition WorkerSeekSnapshot : string := "seek_snapshot".
Definition WorkerInflightCap : string := "inflight_cap".

Definition AllWorkerNames : list string :=
  [WorkerPublishPullRoundTrip; WorkerStreamingPull; WorkerOrderingKeys; WorkerExactlyOnce;
   WorkerDeadLetter; WorkerFanOut; WorkerCrossProtocol; WorkerNackRedelivery; WorkerFiltering;
   WorkerSchemaEnforce; WorkerSeekSnapshot; WorkerInflightCap].

Definition IsOrderingWorker (name : string) : bool := String.eqb name WorkerOrderingKeys.
Definition IsStreamingPullWorker (name : string) : bool := String.eqb name WorkerStreamingPull.
Definition IsExactlyOnceWorker (name : string) : bool := String.eqb name WorkerExactlyOnce.
Definition IsDeadLetterWorker (name : string) : bool := String.eqb name WorkerDeadLetter.
Definition IsFanoutWorker (name : string) : bool := String.eqb name WorkerFanOut.
Definition IsInteropWorker (name : string) : bool := String.eqb name WorkerCrossProtocol.
Definition IsFilteringWorker (name : string) : bool := String.eqb name WorkerFiltering.
Definition IsSchemaEnforceWorker (name : string) : bool := String.eqb name WorkerSchemaEnforce.
Definition IsSeekSnapshotWorker (name : string) : bool := String.eqb name WorkerSeekSnapshot.
Definition IsInflightCapWorker (name : string) : bool := String.eqb name WorkerInflightCap.
Definition IsNackRedeliveryWorker (name : string) : bool := String.eqb name WorkerNackRedelivery.
Definition IsUnaryPullWorker (name : string) : bool := String.eqb name WorkerPublishPullRoundTrip.

Definition IsLatencyGateExempt (name : string) : bool :=
  String.eqb name WorkerDeadLetter || String.eqb name WorkerInflightCap ||
  String.eqb name WorkerSeekSnapshot || String.eqb name WorkerPublishPullRoundTrip.

Definition IsDuplicationGateExempt (name : string) : bool :=
  String.eqb name WorkerDeadLetter || String.eqb name WorkerNackRedelivery ||
  String.eqb name WorkerInflightCap || String.eqb name WorkerSeekSnapshot ||
  String.eqb name WorkerPublishPullRoundTrip.

(** ** The configuration records; [time.Duration] fields are nanoseconds *)

Record BrokerConfig := mkBroker {
  br_Address : string;
  br_GRPCAddress : string;
  br_ClientIDPrefix : string
}.

Record GCPConfig := mkGCP {
  gcp_ProjectID : string;
  gcp_EmulatorHost : string;
  gcp_AckDeadlineSeconds : Z;
  gcp_EnableMessageOrdering : bool;
  gcp_EnableExactlyOnce : bool;
  gcp_Filter : string;
  gcp_DeadLetterTopic : string;
  gcp_MaxDeliveryAttempts : Z;
  gcp_FanoutSubscriptions : Z;
  gcp_BatchSize : Z;
  gcp_SchemaType : string;
  gcp_SchemaEncoding : string;
  gcp_NackFraction : float64;
  gcp_MaxOutstandingBytes : Z;
  gcp_InflightBacklogTarget : Z;
  gcp_SeekReplayCount : Z;
  gcp_ExactlyOnceProbe : bool;
  gcp_LeaseExtendProbe : bool;
  gcp_CrossStreamProbe : bool;
  gcp_FlowControlProbe : bool;
  gcp_RetryBackoffProbe : bool;
  gcp_BatchAtomicityProbe : bool
}.

Record WorkerConfig := mkWorker {
  wc_Enabled : bool;
  wc_Channels : Z;
  wc_ProducersPerChannel : Z;
  wc_ConsumersPerChannel : Z;
  wc_Subscriptions : Z;
  wc_Rate : Z
}.

Record WorkersConfig := mkWorkers {
  ws_PublishPullRoundTrip : WorkerConfig;
  ws_StreamingPull : WorkerConfig;
  ws_OrderingKeys : WorkerConfig;
  ws_ExactlyOnce : WorkerConfig;
  ws_DeadLetter : WorkerConfig;
  ws_FanOut : WorkerConfig;
  ws_CrossProtocol : WorkerConfig;
  ws_NackRedelivery : WorkerConfig;
  ws_Filtering : WorkerConfig;
  ws_SchemaEnforce : WorkerConfig;
  ws_SeekSnapshot : WorkerConfig;
  ws_InflightCap : WorkerConfig
}.

Record MessageConfig := mkMessage {
  msg_SizeMode : string;
  msg_SizeBytes : Z;
  msg_SizeDistribution : string;
  msg_ReorderWindow : Z
}.

Record MetricsConfig := mkMetrics {
  mt_Port : Z;
  mt_ReportInterval : string
}.

Record LoggingConfig := mkLogging {
  lg_Format : string;
  lg_Level : string
}.

Record ForcedDisconnConfig := mkForcedDisconn {
  fd_Interval : string;
  fd_Duration : string
}.

Record RecoveryConfig := mkRecovery {
  rc_ReconnectInterval : string;
  rc_ReconnectMaxInterval : string;
  rc_ReconnectMultiplier : float64
}.

Record ShutdownConfig := mkShutdown {
  sd_DrainTimeoutSeconds : Z
}.

Record OutputConfig := mkOutput {
  out_ReportFile : string;
  out_SDKVersion : string
}.

Record ThresholdsConfig := mkThresholds {
  th_MaxLossPct : float64;
  th_MaxDuplicationPct : float64;
  th_MaxP50LatencyMS : float64;
  th_MaxP95LatencyMS : float64;
  th_MaxP99LatencyMS : float64;
  th_MaxP999LatencyMS : float64;
  th_MinThroughputPct : float64;
  th_MaxErrorRatePct : float64;
  th_MaxMemoryGrowthFactor : float64;
  th_MaxDowntimePct : float64;
  th_MaxDuration : string
}.

Record WarmupConfig := mkWarmup {
  wu_MaxParallelChannels : Z;
  wu_TimeoutPerChannelMs : Z
}.

Record CORSConfig := mkCORS {
  cors_Origins : string
}.

Record Config := mkConfig {
  c_Version : string;
  c_Broker : BrokerConfig;
  c_Mode : string;
  c_Duration : string;
  c_RunID : string;
  c_WarmupDuration : string;
  c_GCP : GCPConfig;
  c_Workers : WorkersConfig;
  c_Message : MessageConfig;
  c_Metrics : MetricsConfig;
  c_Logging : LoggingConfig;
  c_ForcedDisconnect : ForcedDisconnConfig;
  c_Recovery : RecoveryConfig;
  c_Shutdown : ShutdownConfig;
  c_Output : OutputConfig;
  c_Thresholds : ThresholdsConfig;
  c_Warmup : WarmupConfig;
  c_CORS : CORSConfig;
  c_DurationParsed : Z;
  c_WarmupDurationParsed : Z;
  c_ReportIntervalParsed : Z;
  c_ForcedDisconnInterval : Z;
  c_ForcedDisconnDuration : Z;
  c_ReconnectInterval : Z;
  c_ReconnectMaxInterval : Z;
  c_MaxDurationParsed : Z;
  c_Warnings : list string
}.

(** Assignments to fields, one function per assigned field. *)

Definition set_br_Address (c : BrokerConfig) (v : string) : BrokerConfig :=
  mkBroker v (br_GRPCAddress c) (br_ClientIDPrefix c).

Definition set_br_GRPCAddress (c : BrokerConfig) (v : string) : BrokerConfig :=
  mkBroker (br_Address c) v (br_ClientIDPrefix c).

Definition set_wc_Rate (c : WorkerConfig) (v : Z) : WorkerConfig :=
  mkWorker (wc_Enabled c) (wc_Channels c) (wc_ProducersPerChannel c) (wc_ConsumersPerChannel c)
    (wc_Subscriptions c) v.

Definition set_wc_Channels (c : WorkerConfig) (v : Z) : WorkerConfig :=
  mkWorker (wc_Enabled c) v (wc_ProducersPerChannel c) (wc_ConsumersPerChannel c)
    (wc_Subscriptions c) (wc_Rate c).

Definition set_wc_Enabled (c : WorkerConfig) (v : bool) : WorkerConfig :=
  mkWorker v (wc_Channels c) (wc_ProducersPerChannel c) (wc_ConsumersPerChannel c)
    (wc_Subscriptions c) (wc_Rate c).

Definition set_ws_PublishPullRoundTrip (c : WorkersConfig) (v : WorkerConfig) : WorkersConfig :=
  mkWorkers v (ws_StreamingPull c) (ws_OrderingKeys c) (ws_ExactlyOnce c) (ws_DeadLetter c)
    (ws_FanOut c) (ws_CrossProtocol c) (ws_NackRedelivery c) (ws_Filtering c) (ws_SchemaEnforce c)
    (ws_SeekSnapshot c) (ws_InflightCap c).

Definition set_ws_StreamingPull (c : WorkersConfig) (v : WorkerConfig) : WorkersConfig :=
  mkWorkers (ws_PublishPullRoundTrip c) v (ws_OrderingKeys c) (ws_ExactlyOnce c) (ws_DeadLetter c)
    (ws_FanOut c) (ws_CrossProtocol c) (ws_NackRedelivery c) (ws_Filtering c) (ws_SchemaEnforce c)
    (ws_SeekSnapshot c) (ws_InflightCap c).

Definition set_ws_OrderingKeys (c : WorkersConfig) (v : WorkerConfig) : WorkersConfig :=
  mkWorkers (ws_PublishPullRoundTrip c) (ws_StreamingPull c) v (ws_ExactlyOnce c) (ws_DeadLetter c)
    (ws_FanOut c) (ws_CrossProtocol c) (ws_NackRedelivery c) (ws_Filtering c) (ws_SchemaEnforce c)
    (ws_SeekSnapshot c) (ws_InflightCap c).

Definition set_ws_ExactlyOnce (c : WorkersConfig) (v : WorkerConfig) : WorkersConfig :=
  mkWorkers (ws_PublishPullRoundTrip c) (ws_StreamingPull c) (ws_OrderingKeys c) v (ws_DeadLetter c)
    (ws_FanOut c) (ws_CrossProtocol c) (ws_NackRedelivery c) (ws_Filtering c) (ws_SchemaEnforce c)
    (ws_SeekSnapshot c) (ws_InflightCap c).

Definition set_ws_DeadLetter (c : WorkersConfig) (v : WorkerConfig) : WorkersConfig :=
  mkWorkers (ws_PublishPullRoundTrip c) (ws_StreamingPull c) (ws_OrderingKeys c) (ws_ExactlyOnce c)
    v (ws_FanOut c) (ws_CrossProtocol c) (ws_NackRedelivery c) (ws_Filtering c) (ws_SchemaEnforce c)
    (ws_SeekSnapshot c) (ws_InflightCap c).

Definition set_ws_FanOut (c : WorkersConfig) (v : WorkerConfig) : WorkersConfig :=
  mkWorkers (ws_PublishPullRoundTrip c) (ws_StreamingPull c) (ws_OrderingKeys c) (ws_ExactlyOnce c)
    (ws_DeadLetter c) v (ws_CrossProtocol c) (ws_NackRedelivery c) (ws_Filtering c)
    (ws_SchemaEnforce c) (ws_SeekSnapshot c) (ws_InflightCap c).

Definition set_ws_CrossProtocol (c : WorkersConfig) (v : WorkerConfig) : WorkersConfig :=
  mkWorkers (ws_PublishPullRoundTrip c) (ws_StreamingPull c) (ws_OrderingKeys c) (ws_ExactlyOnce c)
    (ws_DeadLetter c) (ws_FanOut c) v (ws_NackRedelivery c) (ws_Filtering c) (ws_SchemaEnforce c)
    (ws_SeekSnapshot c) (ws_InflightCap c).

Definition set_ws_NackRedelivery (c : WorkersConfig) (v : WorkerConfig) : WorkersConfig :=
  mkWorkers (ws_PublishPullRoundTrip c) (ws_StreamingPull c) (ws_OrderingKeys c) (ws_ExactlyOnce c)
    (ws_DeadLetter c) (ws_FanOut c) (ws_CrossProtocol c) v (ws_Filtering c) (ws_SchemaEnforce c)
    (ws_SeekSnapshot c) (ws_InflightCap c).

Definition set_ws_Filtering (c : WorkersConfig) (v : WorkerConfig) : WorkersConfig :=
  mkWorkers (ws_PublishPullRoundTrip c) (ws_StreamingPull c) (ws_OrderingKeys c) (ws_ExactlyOnce c)
    (ws_DeadLetter c) (ws_FanOut c) (ws_CrossProtocol c) (ws_NackRedelivery c) v
    (ws_SchemaEnforce c) (ws_SeekSnapshot c) (ws_InflightCap c).

Definition set_ws_SchemaEnforce (c : WorkersConfig) (v : WorkerConfig) : WorkersConfig :=
  mkWorkers (ws_PublishPullRoundTrip c) (ws_StreamingPull c) (ws_OrderingKeys c) (ws_ExactlyOnce c)
    (ws_DeadLetter c) (ws_FanOut c) (ws_CrossProtocol c) (ws_NackRedelivery c) (ws_Filtering c) v
    (ws_SeekSnapshot c) (ws_InflightCap c).

Definition set_ws_SeekSnapshot (c : WorkersConfig) (v : WorkerConfig) : WorkersConfig :=
  mkWorkers (ws_PublishPullRoundTrip c) (ws_StreamingPull c) (ws_OrderingKeys c) (ws_ExactlyOnce c)
    (ws_DeadLetter c) (ws_FanOut c) (ws_CrossProtocol c) (ws_NackRedelivery c) (ws_Filtering c)
    (ws_SchemaEnforce c) v (ws_InflightCap c).

Definition set_ws_InflightCap (c : WorkersConfig) (v : WorkerConfig) : WorkersConfig :=
  mkWorkers (ws_PublishPullRoundTrip c) (ws_StreamingPull c) (ws_OrderingKeys c) (ws_ExactlyOnce c)
    (ws_DeadLetter c) (ws_FanOut c) (ws_CrossProtocol c) (ws_NackRedelivery c) (ws_Filtering c)
    (ws_SchemaEnforce c) (ws_SeekSnapshot c) v.

Definition set_c_Broker (c : Config) (v : BrokerConfig) : Config :=
  mkConfig (c_Version c) v (c_Mode c) (c_Duration c) (c_RunID c) (c_WarmupDuration c) (c_GCP c)
    (c_Workers c) (c_Message c) (c_Metrics c) (c_Logging c) (c_ForcedDisconnect c) (c_Recovery c)
    (c_Shutdown c) (c_Output c) (c_Thresholds c) (c_Warmup c) (c_CORS c) (c_DurationParsed c)
    (c_WarmupDurationParsed c) (c_ReportIntervalParsed c) (c_ForcedDisconnInterval c)
    (c_ForcedDisconnDuration c) (c_ReconnectInterval c) (c_ReconnectMaxInterval c)
    (c_MaxDurationParsed c) (c_Warnings c).

Definition set_c_RunID (c : Config) (v : string) : Config :=
  mkConfig (c_Version c) (c_Broker c) (c_Mode c) (c_Duration c) v (c_WarmupDuration c) (c_GCP c)
    (c_Workers c) (c_Message c) (c_Metrics c) (c_Logging c) (c_ForcedDisconnect c) (c_Recovery c)
    (c_Shutdown c) (c_Output c) (c_Thresholds c) (c_Warmup c) (c_CORS c) (c_DurationParsed c)
    (c_WarmupDurationParsed c) (c_ReportIntervalParsed c) (c_ForcedDisconnInterval c)
    (c_ForcedDisconnDuration c) (c_ReconnectInterval c) (c_ReconnectMaxInterval c)
    (c_MaxDurationParsed c) (c_Warnings c).

Definition set_c_Workers (c : Config) (v : WorkersConfig) : Config :=
  mkConfig (c_Version c) (c_Broker c) (c_Mode c) (c_Duration c) (c_RunID c) (c_WarmupDuration c)
    (c_GCP c) v (c_Message c) (c_Metrics c) (c_Logging c) (c_ForcedDisconnect c) (c_Recovery c)
    (c_Shutdown c) (c_Output c) (c_Thresholds c) (c_Warmup c) (c_CORS c) (c_DurationParsed c)
    (c_WarmupDurationParsed c) (c_ReportIntervalParsed c) (c_ForcedDisconnInterval c)
    (c_ForcedDisconnDuration c) (c_ReconnectInterval c) (c_ReconnectMaxInterval c)
    (c_MaxDurationParsed c) (c_Warnings c).

Definition set_c_DurationParsed (c : Config) (v : Z) : Config :=
  mkConfig (c_Version c) (c_Broker c) (c_Mode c) (c_Duration c) (c_RunID c) (c_WarmupDuration c)
    (c_GCP c) (c_Workers c) (c_Message c) (c_Metrics c) (c_Logging c) (c_ForcedDisconnect c)
    (c_Recovery c) (c_Shutdown c) (c_Output c) (c_Thresholds c) (c_Warmup c) (c_CORS c) v
    (c_WarmupDurationParsed c) (c_ReportIntervalParsed c) (c_ForcedDisconnInterval c)
    (c_ForcedDisconnDuration c) (c_ReconnectInterval c) (c_ReconnectMaxInterval c)
    (c_MaxDurationParsed c) (c_Warnings c).

Definition set_c_WarmupDurationParsed (c : Config) (v : Z) : Config :=
  mkConfig (c_Version c) (c_Broker c) (c_Mode c) (c_Duration c) (c_RunID c) (c_WarmupDuration c)
    (c_GCP c) (c_Workers c) (c_Message c) (c_Metrics c) (c_Logging c) (c_ForcedDisconnect c)
    (c_Recovery c) (c_Shutdown c) (c_Output c) (c_Thresholds c) (c_Warmup c) (c_CORS c)
    (c_DurationParsed c) v (c_ReportIntervalParsed c) (c_ForcedDisconnInterval c)
    (c_ForcedDisconnDuration c) (c_ReconnectInterval c) (c_ReconnectMaxInterval c)
    (c_MaxDurationParsed c) (c_Warnings c).

Definition set_c_ReportIntervalParsed (c : Config) (v : Z) : Config :=
  mkConfig (c_Version c) (c_Broker c) (c_Mode c) (c_Duration c) (c_RunID c) (c_WarmupDuration c)
    (c_GCP c) (c_Workers c) (c_Message c) (c_Metrics c) (c_Logging c) (c_ForcedDisconnect c)
    (c_Recovery c) (c_Shutdown c) (c_Output c) (c_Thresholds c) (c_Warmup c) (c_CORS c)
    (c_DurationParsed c) (c_WarmupDurationParsed c) v (c_ForcedDisconnInterval c)
    (c_ForcedDisconnDuration c) (c_ReconnectInterval c) (c_ReconnectMaxInterval c)
    (c_MaxDurationParsed c) (c_Warnings c).

Definition set_c_ForcedDisconnInterval (c : Config) (v : Z) : Config :=
  mkConfig (c_Version c) (c_Broker c) (c_Mode c) (c_Duration c) (c_RunID c) (c_WarmupDuration c)
    (c_GCP c) (c_Workers c) (c_Message c) (c_Metrics c) (c_Logging c) (c_ForcedDisconnect c)
    (c_Recovery c) (c_Shutdown c) (c_Output c) (c_Thresholds c) (c_Warmup c) (c_CORS c)
    (c_DurationParsed c) (c_WarmupDurationParsed c) (c_ReportIntervalParsed c) v
    (c_ForcedDisconnDuration c) (c_ReconnectInterval c) (c_ReconnectMaxInterval c)
    (c_MaxDurationParsed c) (c_Warnings c).

Definition set_c_ForcedDisconnDuration (c : Config) (v : Z) : Config :=
  mkConfig (c_Version c) (c_Broker c) (c_Mode c) (c_Duration c) (c_RunID c) (c_WarmupDuration c)
    (c_GCP c) (c_Workers c) (c_Message c) (c_Metrics c) (c_Logging c) (c_ForcedDisconnect c)
    (c_Recovery c) (c_Shutdown c) (c_Output c) (c_Thresholds c) (c_Warmup c) (c_CORS c)
    (c_DurationParsed c) (c_WarmupDurationParsed c) (c_ReportIntervalParsed c)
    (c_ForcedDisconnInterval c) v (c_ReconnectInterval c) (c_ReconnectMaxInterval c)
    (c_MaxDurationParsed c) (c_Warnings c).

Definition set_c_ReconnectInterval (c : Config) (v : Z) : Config :=
  mkConfig (c_Version c) (c_Broker c) (c_Mode c) (c_Duration c) (c_RunID c) (c_WarmupDuration c)
    (c_GCP c) (c_Workers c) (c_Message c) (c_Metrics c) (c_Logging c) (c_ForcedDisconnect c)
    (c_Recovery c) (c_Shutdown c) (c_Output c) (c_Thresholds c) (c_Warmup c) (c_CORS c)
    (c_DurationParsed c) (c_WarmupDurationParsed c) (c_ReportIntervalParsed c)
    (c_ForcedDisconnInterval c) (c_ForcedDisconnDuration c) v (c_ReconnectMaxInterval c)
    (c_MaxDurationParsed c) (c_Warnings c).

Definition set_c_ReconnectMaxInterval (c : Config) (v : Z) : Config :=
  mkConfig (c_Version c) (c_Broker c) (c_Mode c) (c_Duration c) (c_RunID c) (c_WarmupDuration c)
    (c_GCP c) (c_Workers c) (c_Message c) (c_Metrics c) (c_Logging c) (c_ForcedDisconnect c)
    (c_Recovery c) (c_Shutdown c) (c_Output c) (c_Thresholds c) (c_Warmup c) (c_CORS c)
    (c_DurationParsed c) (c_WarmupDurationParsed c) (c_ReportIntervalParsed c)
    (c_ForcedDisconnInterval c) (c_ForcedDisconnDuration c) (c_ReconnectInterval c) v
    (c_MaxDurationParsed c) (c_Warnings c).

Definition set_c_MaxDurationParsed (c : Config) (v : Z) : Config :=
  mkConfig (c_Version c) (c_Broker c) (c_Mode c) (c_Duration c) (c_RunID c) (c_WarmupDuration c)
    (c_GCP c) (c_Workers c) (c_Message c) (c_Metrics c) (c_Logging c) (c_ForcedDisconnect c)
    (c_Recovery c) (c_Shutdown c) (c_Output c) (c_Thresholds c) (c_Warmup c) (c_CORS c)
    (c_DurationParsed c) (c_WarmupDurationParsed c) (c_ReportIntervalParsed c)
    (c_ForcedDisconnInterval c) (c_ForcedDisconnDuration c) (c_ReconnectInterval c)
    (c_ReconnectMaxInterval c) v (c_Warnings c).

Definition set_c_Warnings (c : Config) (v : list string) : Config :=
  mkConfig (c_Version c) (c_Broker c) (c_Mode c) (c_Duration c) (c_RunID c) (c_WarmupDuration c)
    (c_GCP c) (c_Workers c) (c_Message c) (c_Metrics c) (c_Logging c) (c_ForcedDisconnect c)
    (c_Recovery c) (c_Shutdown c) (c_Output c) (c_Thresholds c) (c_Warmup c) (c_CORS c)
    (c_DurationParsed c) (c_WarmupDurationParsed c) (c_ReportIntervalParsed c)
    (c_ForcedDisconnInterval c) (c_ForcedDisconnDuration c) (c_ReconnectInterval c)
    (c_ReconnectMaxInterval c) (c_MaxDurationParsed c) v.

(** ** Defaults *)

(** A worker block with the fields the defaults set; the others are zero. *)
Definition worker_block (enabled : bool) (consumers subs rate : Z) : WorkerConfig :=
  mkWorker enabled 1 1 consumers subs rate.

Definition DefaultConfig : Config :=
  mkConfig ConfigVersion
    (mkBroker "localhost:8085" "localhost:50000" "burnin-gcp")
    "soak" "1h" "" ""
    (mkGCP "burnin" "" 10 false false "" "" 5 3 1
       "avro" "json" (f_lit 1 4) 0 25000 500 true true true true false true)
    (mkWorkers
       (worker_block true 2 0 100)   (* PublishPullRoundTrip *)
       (worker_block true 1 0 100)   (* StreamingPull *)
       (worker_block true 1 0 50)    (* OrderingKeys *)
       (worker_block true 1 0 50)    (* ExactlyOnce *)
       (worker_block true 1 0 30)    (* DeadLetter *)
       (worker_block true 0 3 30)    (* FanOut *)
       (worker_block true 1 0 50)    (* CrossProtocol *)
       (worker_block true 1 0 50)    (* NackRedelivery *)
       (worker_block true 1 0 50)    (* Filtering *)
       (worker_block false 1 0 25)   (* SchemaEnforce *)
       (worker_block false 1 0 25)   (* SeekSnapshot *)
       (worker_block false 1 0 100)) (* InflightCap *)
    (mkMessage "fixed" 1024 "256:80,4096:15,65536:5" 10000)
    (mkMetrics 8899 "30s")
    (mkLogging "text" "info")
    (mkForcedDisconn "0" "5s")
    (mkRecovery "1s" "30s" (f_of_Z 2))
    (mkShutdown 10)
    (mkOutput "" "")
    (mkThresholds (f_of_Z 0) (f_of_Z 1) (f_of_Z 2000) (f_of_Z 5000) (f_of_Z 8000) (f_of_Z 15000)
       (f_of_Z 80) (f_of_Z 1) (f_of_Z 2) (f_of_Z 10) "168h")
    (mkWarmup 10 5000)
    (mkCORS "*")
    0 0 0 0 0 0 0 0 [].

(** ** The worker table *)

(** [GetWorkerConfig] returns a pointer into the configuration: reading it is
    a lookup, writing through it an update. *)
Definition GetWorkerConfig (c : Config) (name : string) : option WorkerConfig :=
  let w := c_Workers c in
  if String.eqb name WorkerPublishPullRoundTrip then Some (ws_PublishPullRoundTrip w)
  else if String.eqb name WorkerStreamingPull then Some (ws_StreamingPull w)
  else if String.eqb name WorkerOrderingKeys then Some (ws_OrderingKeys w)
  else if String.eqb name WorkerExactlyOnce then Some (ws_ExactlyOnce w)
  else if String.eqb name WorkerDeadLetter then Some (ws_DeadLetter w)
  else if String.eqb name WorkerFanOut then Some (ws_FanOut w)
  else if String.eqb name WorkerCrossProtocol then Some (ws_CrossProtocol w)
  else if String.eqb name WorkerNackRedelivery then Some (ws_NackRedelivery w)
  else if String.eqb name WorkerFiltering then Some (ws_Filtering w)
  else if String.eqb name WorkerSchemaEnforce then Some (ws_SchemaEnforce w)
  else if String.eqb name WorkerSeekSnapshot then Some (ws_SeekSnapshot w)
  else if String.eqb name WorkerInflightCap then Some (ws_InflightCap w)
  else None.

Definition set_worker (c : Config) (name : string) (v : WorkerConfig) : Config :=
  let w := c_Workers c in
  let put w' := set_c_Workers c w' in
  if String.eqb name WorkerPublishPullRoundTrip then put (set_ws_PublishPullRoundTrip w v)
  else if String.eqb name WorkerStreamingPull then put (set_ws_StreamingPull w v)
  else if String.eqb name WorkerOrderingKeys then put (set_ws_OrderingKeys w v)
  else if String.eqb name WorkerExactlyOnce then put (set_ws_ExactlyOnce w v)
  else if String.eqb name WorkerDeadLetter then put (set_ws_DeadLetter w v)
  else if String.eqb name WorkerFanOut then put (set_ws_FanOut w v)
  else if String.eqb name WorkerCrossProtocol then put (set_ws_CrossProtocol w v)
  else if String.eqb name WorkerNackRedelivery then put (set_ws_NackRedelivery w v)
  else if String.eqb name WorkerFiltering then put (set_ws_Filtering w v)
  else if String.eqb name WorkerSchemaEnforce then put (set_ws_SchemaEnforce w v)
  else if String.eqb name WorkerSeekSnapshot then put (set_ws_SeekSnapshot w v)
  else if String.eqb name WorkerInflightCap then put (set_ws_InflightCap w v)
  else c.

Definition GetWorkerRate (c : Config) (name : string) : Z :=
  match GetWorkerConfig c name with Some wc => wc_Rate wc | None => 100 end.

Definition GetWorkerChannels (c : Config) (name : string) : Z :=
  match GetWorkerConfig c name with
  | Some wc => if 0 <? wc_Channels wc then wc_Channels wc else 1
  | None => 1
  end.

Definition FanoutSubscriptionCount (c : Config) : Z :=
  if 0 <? wc_Subscriptions (ws_FanOut (c_Workers c)) then wc_Subscriptions (ws_FanOut (c_Workers c))
  else if 0 <? gcp_FanoutSubscriptions (c_GCP c) then gcp_FanoutSubscriptions (c_GCP c)
  else 2.

Definition TotalChannelCount (c : Config) : Z :=
  foldl (fun total name =>
    match GetWorkerConfig c name with
    | Some wc => if wc_Enabled wc then to_int (total + wc_Channels wc) else total
    | None => total
    end) 0 AllWorkerNames.

(** ** Validation *)

(** [if cond { errs = append(errs, fmt.Errorf(...)) }]. *)
Definition chk (cond : bool) (f : string) (args : list arg) : list string :=
  if cond then [Sprintf f args] else [].

(** The checks before the worker loop. *)
Definition validate_head (c : Config) : list string :=
  let g := c_GCP c in
  chk (negb (String.eqb (c_Version c) ConfigVersion)) "version must be %q, got %q"
    [AStr ConfigVersion; AStr (c_Version c)] ++
  chk (String.eqb (br_Address (c_Broker c)) "")
    "broker.address is required (Pub/Sub emulator host:port)" [] ++
  chk (String.eqb (gcp_ProjectID g) "")
    "gcp.project_id is required (segment is parsed but ignored by the connector; the SDK still needs a non-empty id)" [] ++
  chk ((gcp_AckDeadlineSeconds g <? 10) || (600 <? gcp_AckDeadlineSeconds g))
    "gcp.ack_deadline_seconds: must be 10-600, got %d" [AInt (gcp_AckDeadlineSeconds g)] ++
  chk (negb (gcp_MaxDeliveryAttempts g =? 0) &&
       ((gcp_MaxDeliveryAttempts g <? 5) || (100 <? gcp_MaxDeliveryAttempts g)))
    "gcp.max_delivery_attempts: must be 0 (disabled) or 5-100, got %d" [AInt (gcp_MaxDeliveryAttempts g)] ++
  chk ((gcp_BatchSize g <? 1) || (1000 <? gcp_BatchSize g))
    "gcp.batch_size: must be 1-1000, got %d" [AInt (gcp_BatchSize g)] ++
  chk (fltb (gcp_NackFraction g) f0 || fltb (f_of_Z 1) (gcp_NackFraction g))
    "gcp.nack_fraction: must be 0-1, got %f" [AFloat (gcp_NackFraction g)] ++
  chk (negb (String.eqb (gcp_SchemaType g) "avro") && negb (String.eqb (gcp_SchemaType g) "protobuf"))
    "gcp.schema_type: must be 'avro' or 'protobuf', got %q" [AStr (gcp_SchemaType g)] ++
  chk (negb (String.eqb (gcp_SchemaEncoding g) "json") && negb (String.eqb (gcp_SchemaEncoding g) "binary"))
    "gcp.schema_encoding: must be 'json' or 'binary', got %q" [AStr (gcp_SchemaEncoding g)] ++
  chk (gcp_InflightBacklogTarget g <? 1)
    "gcp.inflight_backlog_target: must be >= 1, got %d" [AInt (gcp_InflightBacklogTarget g)] ++
  chk (gcp_SeekReplayCount g <? 1)
    "gcp.seek_replay_count: must be >= 1, got %d" [AInt (gcp_SeekReplayCount g)] ++
  chk (gcp_MaxOutstandingBytes g <? 0)
    "gcp.max_outstanding_bytes: must be >= 0, got %d" [AInt (gcp_MaxOutstandingBytes g)] ++
  chk (wc_Enabled (ws_InflightCap (c_Workers c)) &&
       (msg_ReorderWindow (c_Message c) <? gcp_InflightBacklogTarget g))
    "WARNING: message.reorder_window (%d) < gcp.inflight_backlog_target (%d) while inflight_cap is enabled -- held seqs may be prematurely evicted (spec S5.6)"
    [AInt (msg_ReorderWindow (c_Message c)); AInt (gcp_InflightBacklogTarget g)].

(** One round of the worker loop: the errors of an enabled worker and its
    number of goroutines. *)
Definition validate_worker (c : Config) (name : string) (wc : WorkerConfig) : list string * Z :=
  let errs :=
    chk ((wc_Channels wc <? 1) || (1000 <? wc_Channels wc))
      "%s.channels: must be 1-1000, got %d" [AStr name; AInt (wc_Channels wc)] ++
    chk (wc_Rate wc <=? 0) "%s.rate: must be > 0, got %d" [AStr name; AInt (wc_Rate wc)] ++
    chk (wc_ProducersPerChannel wc <? 1)
      "%s.producers_per_channel: must be >= 1, got %d" [AStr name; AInt (wc_ProducersPerChannel wc)] in
  let '(more, consumers) :=
    if String.eqb name WorkerFanOut then
      (chk ((wc_Subscriptions wc <? 1) && (gcp_FanoutSubscriptions (c_GCP c) <? 1))
         "%s.subscriptions (or gcp.fanout_subscriptions): must be >= 1" [AStr name],
       if wc_Subscriptions wc <? 1 then gcp_FanoutSubscriptions (c_GCP c) else wc_Subscriptions wc)
    else
      (chk (wc_ConsumersPerChannel wc <? 1)
         "%s.consumers_per_channel: must be >= 1, got %d" [AStr name; AInt (wc_ConsumersPerChannel wc)],
       wc_ConsumersPerChannel wc) in
  (errs ++ more, to_int (wc_Channels wc * to_int (wc_ProducersPerChannel wc + consumers))).

(** The loop's state: errors so far, [enabledCount], [totalWorkers]. *)
Definition validate_workers (c : Config) (names : list string) : list string * Z * Z :=
  foldl (fun acc name =>
    let '(errs, enabled, total) := acc in
    match GetWorkerConfig c name with
    | Some wc =>
        if wc_Enabled wc then
          let '(e, n) := validate_worker c name wc in
          (errs ++ e, enabled + 1, to_int (total + n))
        else acc
    | None => acc
    end) ([], 0, 0) names.

Definition validate_tail (c : Config) (latencies : list (string * float64)) : list string :=
  let m := c_Message c in
  let th := c_Thresholds c in
  chk (negb (String.eqb (msg_SizeMode m) "fixed") && negb (String.eqb (msg_SizeMode m) "distribution"))
    "message.size_mode must be 'fixed' or 'distribution', got %q" [AStr (msg_SizeMode m)] ++
  chk (String.eqb (msg_SizeMode m) "fixed" && (msg_SizeBytes m <? 64))
    "message.size_bytes: must be >= 64, got %d" [AInt (msg_SizeBytes m)] ++
  chk (String.eqb (msg_SizeMode m) "fixed" && (10485760 <? msg_SizeBytes m))
    "message.size_bytes: must be <= 10485760 (connector 10 MiB limit), got %d" [AInt (msg_SizeBytes m)] ++
  chk (msg_ReorderWindow m <? 100)
    "message.reorder_window: must be >= 100, got %d" [AInt (msg_ReorderWindow m)] ++
  chk (sd_DrainTimeoutSeconds (c_Shutdown c) <=? 0)
    "shutdown.drain_timeout_seconds: must be > 0, got %d" [AInt (sd_DrainTimeoutSeconds (c_Shutdown c))] ++
  chk ((mt_Port (c_Metrics c) <? 1) || (65535 <? mt_Port (c_Metrics c)))
    "metrics.port: must be 1-65535, got %d" [AInt (mt_Port (c_Metrics c))] ++
  chk (fltb (th_MaxLossPct th) f0 || fltb f100 (th_MaxLossPct th))
    "thresholds.max_loss_pct: must be 0-100" [] ++
  chk (fltb (th_MaxDuplicationPct th) f0 || fltb f100 (th_MaxDuplicationPct th))
    "thresholds.max_duplication_pct: must be 0-100" [] ++
  concat (map (fun '(label, v) =>
    chk (fleb v f0) "thresholds.%s: must be > 0" [AStr label]) latencies) ++
  chk (fleb (th_MinThroughputPct th) f0 || fltb f100 (th_MinThroughputPct th))
    "thresholds.min_throughput_pct: must be > 0 and <= 100" [] ++
  chk (fltb (th_MaxErrorRatePct th) f0 || fltb f100 (th_MaxErrorRatePct th))
    "thresholds.max_error_rate_pct: must be 0-100" [] ++
  chk (fltb (th_MaxMemoryGrowthFactor th) (f_of_Z 1))
    "thresholds.max_memory_growth_factor: must be >= 1.0" [] ++
  chk (fltb (th_MaxDowntimePct th) f0 || fltb f100 (th_MaxDowntimePct th))
    "thresholds.max_downtime_pct: must be 0-100" [] ++
  chk (fltb (rc_ReconnectMultiplier (c_Recovery c)) (f_of_Z 1))
    "recovery.reconnect_multiplier: must be >= 1.0, got %f" [AFloat (rc_ReconnectMultiplier (c_Recovery c))].

(** The map literal of latency thresholds, in the order of the source; Go may
    range over it in any order. *)
Definition latency_thresholds (c : Config) : list (string * float64) :=
  let th := c_Thresholds c in
  [("max_p50_latency_ms", th_MaxP50LatencyMS th); ("max_p95_latency_ms", th_MaxP95LatencyMS th);
   ("max_p99_latency_ms", th_MaxP99LatencyMS th); ("max_p999_latency_ms", th_MaxP999LatencyMS th)].

Definition Validate_order (c : Config) (latencies : list (string * float64)) : list string :=
  let '(errs, enabled, total) := validate_workers c AllWorkerNames in
  validate_head c ++ errs ++
  chk (enabled =? 0) "at least one worker must be enabled" [] ++
  validate_tail c latencies ++
  chk (1000 <? total) "WARNING: high worker count: %d -- may impact system resources" [AInt total].

Definition Validate (c : Config) : list string := Validate_order c (latency_thresholds c).

(** The test main.go, models.go and [LogResourceWarnings] apply to an entry. *)
Definition is_warning (e : string) : bool := HasPrefix e "WARNING:".
Definition hard_errors (c : Config) : list string := List.filter (fun e => negb (is_warning e)) (Validate c).

Definition LogResourceWarnings (c : Config) : list string := List.filter is_warning (Validate c).

(** ** Environment overrides *)

Definition envNames : list (string * string) :=
  [(WorkerPublishPullRoundTrip, "PUBLISH_PULL_ROUND_TRIP"); (WorkerStreamingPull, "STREAMING_PULL");
   (WorkerOrderingKeys, "ORDERING_KEYS"); (WorkerExactlyOnce, "EXACTLY_ONCE");
   (WorkerDeadLetter, "DEAD_LETTER"); (WorkerFanOut, "FAN_OUT");
   (WorkerCrossProtocol, "CROSS_PROTOCOL_INTEROP"); (WorkerNackRedelivery, "NACK_REDELIVERY");
   (WorkerFiltering, "FILTERING"); (WorkerSchemaEnforce, "SCHEMA_ENFORCE");
   (WorkerSeekSnapshot, "SEEK_SNAPSHOT"); (WorkerInflightCap, "INFLIGHT_CAP")].

Section environment.
Context (Getenv : string -> string).

Definition override_worker (env : string) (wc : WorkerConfig) : WorkerConfig :=
  let v := Getenv ("BURNIN_" +:+ env +:+ "_RATE") in
  let wc := if String.eqb v "" then wc
            else match Atoi v with Some n => set_wc_Rate wc n | None => wc end in
  let v := Getenv ("BURNIN_" +:+ env +:+ "_CHANNELS") in
  let wc := if String.eqb v "" then wc
            else match Atoi v with Some n => set_wc_Channels wc n | None => wc end in
  let v := Getenv ("BURNIN_" +:+ env +:+ "_ENABLED") in
  if String.eqb v "" then wc
  else set_wc_Enabled wc (String.eqb v "true" || String.eqb v "1").

Definition override_step (c : Config) (e : string * string) : Config :=
  let '(name, env) := e in
  match GetWorkerConfig c name with
  | None => c
  | Some wc => set_worker c name (override_worker env wc)
  end.

Definition set_address (c : Config) (v : string) : Config :=
  if String.eqb v "" then c else set_c_Broker c (set_br_Address (c_Broker c) v).

(** [order] is the order in which Go ranges over the map [envNames]. *)
Definition applyEnvOverrides_order (order : list (string * string)) (c : Config) : Config :=
  let c := set_address c (Getenv "KUBEMQ_BROKER_ADDRESS") in
  let v := Getenv "KUBEMQ_GRPC_ADDRESS" in
  let c := if String.eqb v "" then c else set_c_Broker c (set_br_GRPCAddress (c_Broker c) v) in
  let c := set_address c (Getenv "PUBSUB_EMULATOR_HOST") in
  foldl override_step c order.

Definition applyEnvOverrides (c : Config) : Config := applyEnvOverrides_order envNames c.
End environment.

(** ** Durations *)

Definition parseDuration (s : string) : result Z :=
  match TrimSuffix1 s "d" with
  | Some s' =>
      match Atoi s' with
      | None => Err (Sprintf "invalid day duration: %s" [AStr s'])
      | Some days => Ok (to_int (to_int (days * 24) * Hour))
      end
  | None => ParseDuration s
  end.

(** [if skip { } else { field, err = parseDuration(text); ... }]. *)
Definition parse_field (skip : bool) (text label : string) (set : Config -> Z -> Config) (c : Config)
  : result Config :=
  if skip then Ok c
  else d ← wrap_err (fun e => Sprintf ("invalid " +:+ label +:+ " %q: %w") [AStr text; AStr e])
             (parseDuration text);
       Ok (set c d).

Definition parseDurations (c : Config) : result Config :=
  let empty s := String.eqb s "" in
  c ← parse_field (empty (c_Duration c) || String.eqb (c_Duration c) "0") (c_Duration c)
        "duration" set_c_DurationParsed c;
  c ← parse_field (empty (c_WarmupDuration c)) (c_WarmupDuration c)
        "warmup_duration" set_c_WarmupDurationParsed c;
  c ← parse_field (empty (mt_ReportInterval (c_Metrics c))) (mt_ReportInterval (c_Metrics c))
        "metrics.report_interval" set_c_ReportIntervalParsed c;
  c ← parse_field (empty (fd_Interval (c_ForcedDisconnect c)) || String.eqb (fd_Interval (c_ForcedDisconnect c)) "0")
        (fd_Interval (c_ForcedDisconnect c)) "forced_disconnect.interval" set_c_ForcedDisconnInterval c;
  c ← parse_field (empty (fd_Duration (c_ForcedDisconnect c))) (fd_Duration (c_ForcedDisconnect c))
        "forced_disconnect.duration" set_c_ForcedDisconnDuration c;
  c ← parse_field (empty (rc_ReconnectInterval (c_Recovery c))) (rc_ReconnectInterval (c_Recovery c))
        "recovery.reconnect_interval" set_c_ReconnectInterval c;
  c ← parse_field (empty (rc_ReconnectMaxInterval (c_Recovery c))) (rc_ReconnectMaxInterval (c_Recovery c))
        "recovery.reconnect_max_interval" set_c_ReconnectMaxInterval c;
  parse_field (empty (th_MaxDuration (c_Thresholds c))) (th_MaxDuration (c_Thresholds c))
        "thresholds.max_duration" set_c_MaxDurationParsed c.

(** [RandomRunID], from the four bytes the random source gives. *)
Definition RandomRunID (b : list Z) : string := pad_left 8 "0" (hex_bytes b).

(** ** Loading *)

Section load.
Context (ReadFile : string -> result string).
(** yaml.v3: the strict decoder and the tolerant [Unmarshal], each decoding
    into an existing configuration. *)
Context (DecodeStrict : string -> Config -> result Config).
Context (Unmarshal : string -> Config -> result Config).
Context (Getenv : string -> string).
Context (random4 : list Z).

Definition load_file (path : string) : result Config :=
  if String.eqb path "" then Ok DefaultConfig
  else
    data ← wrap_err (fun e => Sprintf "read config file %s: %w" [AStr path; AStr e]) (ReadFile path);
    match DecodeStrict data DefaultConfig with
    | Ok c => Ok c
    | Err e =>
        c2 ← wrap_err (fun e => Sprintf "parse config file %s: %w" [AStr path; AStr e])
               (Unmarshal data DefaultConfig);
        Ok (set_c_Warnings c2 (c_Warnings c2 ++ [Sprintf "config has unknown fields: %v" [AStr e]]))
    end.

Definition Load (path : string) : result Config :=
  c ← load_file path;
  let c := applyEnvOverrides Getenv c in
  c ← parseDurations c;
  Ok (if String.eqb (c_RunID c) "" then set_c_RunID c (RandomRunID random4) else c).

(** [exists_] stands for [os.Stat(path)] succeeding. *)
Definition FindConfigFile (exists_ : string -> bool) (cliPath : string) : string :=
  if negb (String.eqb cliPath "") then cliPath
  else if exists_ "./burnin-config.yaml" then "./burnin-config.yaml"
  else if exists_ "/etc/burnin/config.yaml" then "/etc/burnin/config.yaml"
  else "".
End load.
