(* ===== verification/ConfigProps.v ===== *)
(** * What burnin/config guarantees

    [Validate] against a declarative description of a usable configuration,
    the effect and the order-independence of the environment overrides, and
    the duration syntax. *)
From S2P Require Import Prelude GoFloat GoFmt GoTime Config.
From Stdlib Require Import Ascii.

(** ** Hard errors *)

Definition hard (l : list string) : list string := List.filter (fun e => negb (is_warning e)) l.

Lemma hard_app l1 l2 : hard (l1 ++ l2) = hard l1 ++ hard l2.
Proof. unfold hard. apply List.filter_app. Qed.

(** An entry whose format starts with a literal other than [W] is hard. *)
Lemma hard_literal c f args :
  c <> "%"%char -> c <> "W"%char -> is_warning (Sprintf (String c f) args) = false.
Proof.
  intros H1 H2. change (String c f) with (str1 c +:+ f). rewrite Sprintf_literal.
  - unfold is_warning, str1. cbn [HasPrefix String.append].
    apply andb_false_iff. left. apply Ascii.eqb_neq. congruence.
  - unfold str1. cbn [no_percent]. by rewrite (proj2 (Ascii.eqb_neq _ _)).
Qed.

Lemma hard_chk b c f args :
  c <> "%"%char -> c <> "W"%char -> hard (chk b (String c f) args) = [] <-> b = false.
Proof.
  intros H1 H2. destruct b; [|done].
  unfold hard, chk, List.filter. by rewrite hard_literal.
Qed.

(** An entry that starts with a worker's name is hard. *)
Lemma hard_chk_name b name f args :
  name ∈ AllWorkerNames -> hard (chk b (String "%" (String "s" f)) (AStr name :: args)) = [] <-> b = false.
Proof.
  intros Hin. destruct b; [|done]. split; [|done]. intros H. exfalso. revert H.
  unfold hard, chk, List.filter. change (Sprintf _ _) with (name +:+ Sprintf f args).
  assert (is_warning (name +:+ Sprintf f args) = false) as ->; [|done].
  unfold AllWorkerNames in Hin. 
  repeat (apply elem_of_cons in Hin as [->|Hin]; [reflexivity|]). by apply elem_of_nil in Hin.
Qed.

(** The advisory entries. *)
Lemma hard_chk_warning b f args : hard (chk b ("WARNING:" +:+ f) args) = [].
Proof.
  destruct b; [|done]. unfold hard, chk, List.filter. rewrite Sprintf_literal by done.
  unfold is_warning. by rewrite HasPrefix_app.
Qed.

(** ** The declarative description *)

(** The ranges the error messages document for the floating-point settings. *)
Inductive float_range :=
| Between (lo hi : Z)
| MoreThan (lo : Z)
| MoreThanUpTo (lo hi : Z)
| AtLeast (lo : Z).

(** Membership as real numbers; NaN is in no range. *)
Definition within (r : float_range) (x : float64) : Prop :=
  is_nan x = false /\
  match r with
  | Between lo hi => at_least lo x /\ at_most hi x
  | MoreThan lo => ~ at_most lo x
  | MoreThanUpTo lo hi => ~ at_most lo x /\ at_most hi x
  | AtLeast lo => at_least lo x
  end.

(** What the comparisons of the source let through. *)
Definition passes (r : float_range) (x : float64) : Prop :=
  match r with
  | Between lo hi => fltb x (f_of_Z lo) = false /\ fltb (f_of_Z hi) x = false
  | MoreThan lo => fleb x (f_of_Z lo) = false
  | MoreThanUpTo lo hi => fleb x (f_of_Z lo) = false /\ fltb (f_of_Z hi) x = false
  | AtLeast lo => fltb x (f_of_Z lo) = false
  end.

Definition exact_range (r : float_range) : Prop :=
  match r with
  | Between lo hi | MoreThanUpTo lo hi => exact lo /\ exact hi
  | MoreThan lo | AtLeast lo => exact lo
  end.

Lemma passes_within r x : exact_range r -> binary64 x -> passes r x <-> is_nan x = true \/ within r x.
Proof.
  intros Hr Hx. unfold within. destruct (is_nan x) eqn:Hn.
  - destruct x; try done. split; [by left|]. intros _.
    destruct r; cbn [passes]; split_and?; first [reflexivity | by apply fltb_nan_r].
  - destruct r; cbn [passes exact_range] in *; try destruct Hr;
      rewrite ?not_below, ?not_above, ?not_at_most by done; naive_solver.
Qed.

(** The floating-point settings with their documented ranges. *)
Definition float_settings (c : Config) : list (float_range * float64) :=
  let th := c_Thresholds c in
  [(Between 0 1, gcp_NackFraction (c_GCP c));
   (Between 0 100, th_MaxLossPct th); (Between 0 100, th_MaxDuplicationPct th);
   (MoreThan 0, th_MaxP50LatencyMS th); (MoreThan 0, th_MaxP95LatencyMS th);
   (MoreThan 0, th_MaxP99LatencyMS th); (MoreThan 0, th_MaxP999LatencyMS th);
   (MoreThanUpTo 0 100, th_MinThroughputPct th); (Between 0 100, th_MaxErrorRatePct th);
   (AtLeast 1, th_MaxMemoryGrowthFactor th); (Between 0 100, th_MaxDowntimePct th);
   (AtLeast 1, rc_ReconnectMultiplier (c_Recovery c))].

Lemma float_settings_exact c : Forall (fun e => exact_range (fst e)) (float_settings c).
Proof. destruct exact_consts as (? & ? & ?). repeat constructor; done. Qed.

Definition worker_ok (c : Config) (name : string) (wc : WorkerConfig) : Prop :=
  1 <= wc_Channels wc <= 1000 /\ 0 < wc_Rate wc /\ 1 <= wc_ProducersPerChannel wc /\
  (if String.eqb name WorkerFanOut
   then 1 <= wc_Subscriptions wc \/ 1 <= gcp_FanoutSubscriptions (c_GCP c)
   else 1 <= wc_ConsumersPerChannel wc).

Record gcp_ok (g : GCPConfig) : Prop := {
  ok_project : gcp_ProjectID g <> "";
  ok_ack : 10 <= gcp_AckDeadlineSeconds g <= 600;
  ok_attempts : gcp_MaxDeliveryAttempts g = 0 \/ 5 <= gcp_MaxDeliveryAttempts g <= 100;
  ok_batch : 1 <= gcp_BatchSize g <= 1000;
  ok_schema : gcp_SchemaType g = "avro" \/ gcp_SchemaType g = "protobuf";
  ok_encoding : gcp_SchemaEncoding g = "json" \/ gcp_SchemaEncoding g = "binary";
  ok_backlog : 1 <= gcp_InflightBacklogTarget g;
  ok_replay : 1 <= gcp_SeekReplayCount g;
  ok_outstanding : 0 <= gcp_MaxOutstandingBytes g
}.

Definition message_ok (m : MessageConfig) : Prop :=
  (msg_SizeMode m = "fixed" /\ 64 <= msg_SizeBytes m <= 10485760 \/ msg_SizeMode m = "distribution") /\
  100 <= msg_ReorderWindow m.

Record settings_ok (c : Config) : Prop := {
  ok_version : c_Version c = ConfigVersion;
  ok_address : br_Address (c_Broker c) <> "";
  ok_gcp : gcp_ok (c_GCP c);
  ok_workers : forall name wc, name ∈ AllWorkerNames -> GetWorkerConfig c name = Some wc ->
    wc_Enabled wc = true -> worker_ok c name wc;
  ok_some : exists name wc, name ∈ AllWorkerNames /\ GetWorkerConfig c name = Some wc /\ wc_Enabled wc = true;
  ok_message : message_ok (c_Message c);
  ok_drain : 0 < sd_DrainTimeoutSeconds (c_Shutdown c);
  ok_port : 1 <= mt_Port (c_Metrics c) <= 65535
}.

(** A configuration within its documented limits. *)
Definition config_ok (c : Config) : Prop :=
  settings_ok c /\ Forall (fun e => within (fst e) (snd e)) (float_settings c).
(** What [Validate] lets through. *)
Definition config_passes (c : Config) : Prop :=
  settings_ok c /\ Forall (fun e => passes (fst e) (snd e)) (float_settings c).

Lemma app_nil_iff {A} (l1 l2 : list A) : l1 ++ l2 = [] <-> l1 = [] /\ l2 = [].
Proof. destruct l1, l2; simpl; naive_solver. Qed.

(** Turn the emptiness of the hard part of a list of checks into the
    conjunction of their conditions. *)
Ltac hard_simpl :=
  rewrite ?hard_app, ?app_nil_iff, ?hard_chk_name by done;
  rewrite ?hard_chk by done.

Lemma hard_worker c name wc :
  name ∈ AllWorkerNames -> hard (fst (validate_worker c name wc)) = [] <-> worker_ok c name wc.
Proof.
  intros Hin. unfold validate_worker, worker_ok.
  destruct (String.eqb name WorkerFanOut); cbn [fst]; hard_simpl;
    rewrite ?orb_false_iff, ?andb_false_iff, ?Z.ltb_ge, ?Z.leb_gt; intuition lia.
Qed.

Lemma eqb_empty s : String.eqb s "" = false <-> s <> "".
Proof. apply String.eqb_neq. Qed.

Lemma neq_two s a b :
  negb (String.eqb s a) && negb (String.eqb s b) = false <-> s = a \/ s = b.
Proof. by rewrite andb_false_iff, !negb_false_iff, !String.eqb_eq. Qed.

Lemma hard_head c :
  hard (validate_head c) = [] <->
  c_Version c = ConfigVersion /\ br_Address (c_Broker c) <> "" /\ gcp_ok (c_GCP c) /\
  passes (Between 0 1) (gcp_NackFraction (c_GCP c)).
Proof.
  unfold validate_head. cbv zeta.
  change "WARNING: message.reorder_window (%d) < gcp.inflight_backlog_target (%d) while inflight_cap is enabled -- held seqs may be prematurely evicted (spec S5.6)"
    with ("WARNING:" +:+ " message.reorder_window (%d) < gcp.inflight_backlog_target (%d) while inflight_cap is enabled -- held seqs may be prematurely evicted (spec S5.6)").
  rewrite !hard_app, hard_chk_warning, !app_nil_iff, !hard_chk by done.
  rewrite negb_false_iff, String.eqb_eq, !eqb_empty, !neq_two, !orb_false_iff, !andb_false_iff,
    negb_false_iff, !orb_false_iff, !Z.ltb_ge, Z.eqb_eq.
  split.
  - intros (?&?&?&?&?&?&?&?&?&?&?&?&_). split_and!; [done|done| |done]. split; intuition lia.
  - intros (?&?&[]&?). cbn [passes] in *. split_and!; try done; intuition lia.
Qed.

Lemma hard_tail c :
  hard (validate_tail c (latency_thresholds c)) = [] <->
  message_ok (c_Message c) /\ 0 < sd_DrainTimeoutSeconds (c_Shutdown c) /\
  1 <= mt_Port (c_Metrics c) <= 65535 /\
  Forall (fun e => passes (fst e) (snd e)) (tail (float_settings c)).
Proof.
  unfold validate_tail, latency_thresholds, float_settings. cbv zeta. cbn [map concat tail]. rewrite app_nil_r.
  rewrite !hard_app, !app_nil_iff, !hard_chk by done. rewrite !Forall_cons. cbn [fst snd passes].
  rewrite neq_two, !orb_false_iff, !andb_false_iff, !Z.ltb_ge, Z.leb_gt, String.eqb_neq.
  unfold message_ok. change (f_of_Z 0) with f0. change (f_of_Z 100) with f100. split.
  - intros (?&?&?&?&?&?&?&?&(?&?&?&?)&?&?&?&?&?).
    split; [intuition (done || lia)|]. split; [lia|]. split; [lia|]. split_and!; first [apply Forall_nil_2 | tauto].
  - intros (([[Hm ?]|Hm] & ?)&?&?&?&?&?&?&?&?&?&?&?&?&?&_); rewrite Hm;
      split_and!; first [done | lia | left; congruence | right; lia | right; done | tauto].
Qed.

(** The worker loop. *)
Lemma validate_workers_app c n1 n2 :
  validate_workers c (n1 ++ n2) =
  foldl (fun acc name =>
    let '(errs, enabled, total) := acc in
    match GetWorkerConfig c name with
    | Some wc =>
        if wc_Enabled wc then
          let '(e, n) := validate_worker c name wc in
          (errs ++ e, enabled + 1, to_int (total + n))
        else acc
    | None => acc
    end) (validate_workers c n1) n2.
Proof. unfold validate_workers. apply foldl_app. Qed.

Lemma hard_workers c names :
  (forall n, n ∈ names -> n ∈ AllWorkerNames) ->
  let '(errs, enabled, _) := validate_workers c names in
  0 <= enabled /\
  (hard errs = [] <-> forall name wc, name ∈ names -> GetWorkerConfig c name = Some wc ->
                       wc_Enabled wc = true -> worker_ok c name wc) /\
  (enabled = 0 <-> ~ exists name wc, name ∈ names /\ GetWorkerConfig c name = Some wc /\ wc_Enabled wc = true).
Proof.
  induction names as [|n names IH] using rev_ind; intros Hsub.
  { simpl. split_and!; [done| |].
    - split; [|done]. intros _ ?? H. by apply elem_of_nil in H.
    - split; [|done]. intros _ (?&?&H&_). by apply elem_of_nil in H. }
  rewrite validate_workers_app. destruct (validate_workers c names) as [[errs en] tot].
  destruct IH as (Hen & IH1 & IH2). { intros m Hm. apply Hsub. set_solver. }
  assert (n ∈ AllWorkerNames) as Hn by (apply Hsub; set_solver). simpl.
  destruct (GetWorkerConfig c n) as [wc|] eqn:E; [destruct (wc_Enabled wc) eqn:Ee|].
  - pose proof (hard_worker c n wc Hn) as Hw. destruct (validate_worker c n wc) as [e k]. simpl in Hw.
    split_and!; [lia| |].
    + rewrite hard_app, app_nil_iff, IH1, Hw. split.
      * intros [H1 H2] m wc' [Hm| ->%list_elem_of_singleton]%elem_of_app Hg He; [by apply H1|].
        congruence.
      * intros H. split; [intros m wc' Hm; apply H; set_solver|]. apply H; [set_solver|done..].
    + split; [lia|]. intros H. exfalso. apply H. exists n, wc. set_solver.
  - split_and!; [done| |]; [rewrite IH1|rewrite IH2]; split.
    + intros H m wc' [Hm| ->%list_elem_of_singleton]%elem_of_app Hg He; [by apply H|congruence].
    + intros H m wc' Hm. apply H. set_solver.
    + intros H (m & wc' & [Hm| ->%list_elem_of_singleton]%elem_of_app & Hg & He); [|congruence].
      apply H. by exists m, wc'.
    + intros H (m & wc' & Hm & ?). apply H. exists m, wc'. set_solver.
  - split_and!; [done| |]; [rewrite IH1|rewrite IH2]; split.
    + intros H m wc' [Hm| ->%list_elem_of_singleton]%elem_of_app Hg He; [by apply H|congruence].
    + intros H m wc' Hm. apply H. set_solver.
    + intros H (m & wc' & [Hm| ->%list_elem_of_singleton]%elem_of_app & Hg & He); [|congruence].
      apply H. by exists m, wc'.
    + intros H (m & wc' & Hm & ?). apply H. exists m, wc'. set_solver.
Qed.

(** Some worker is enabled: decidable by looking at each. *)
Lemma enabled_em c :
  (exists name wc, name ∈ AllWorkerNames /\ GetWorkerConfig c name = Some wc /\ wc_Enabled wc = true) \/
  ~ (exists name wc, name ∈ AllWorkerNames /\ GetWorkerConfig c name = Some wc /\ wc_Enabled wc = true).
Proof.
  set (on name := match GetWorkerConfig c name with Some wc => wc_Enabled wc | None => false end).
  destruct (existsb on AllWorkerNames) eqn:E.
  - left. apply existsb_exists in E as (name & Hin & Ho). unfold on in Ho.
    destruct (GetWorkerConfig c name) as [wc|] eqn:Eg; [|done].
    exists name, wc. split_and!; [by apply list_elem_of_In|done..].
  - right. intros (name & wc & Hin & Hg & He). rewrite <- not_true_iff_false, existsb_exists in E.
    apply E. exists name. split; [by apply list_elem_of_In|]. unfold on. by rewrite Hg.
Qed.

(** The hard errors are exactly the requirements whose test fails. *)
Lemma hard_errors_passes c : hard_errors c = [] <-> config_passes c.
Proof.
  unfold hard_errors, Validate, Validate_order. pose proof (hard_workers c AllWorkerNames) as Hw.
  destruct (validate_workers c AllWorkerNames) as [[errs en] tot].
  destruct Hw as (Hen & H1 & H2); [done|].
  change "WARNING: high worker count: %d -- may impact system resources"
    with ("WARNING:" +:+ " high worker count: %d -- may impact system resources").
  change (List.filter (fun e => negb (is_warning e)) ?l) with (hard l).
  rewrite !hard_app, hard_chk_warning, !app_nil_iff, hard_chk by done.
  rewrite hard_head, hard_tail, H1, Z.eqb_neq, H2. unfold config_passes.
  change (float_settings c) with ((Between 0 1, gcp_NackFraction (c_GCP c)) :: tail (float_settings c)) at 2.
  rewrite Forall_cons. cbn [fst snd]. split.
  - intros ((?&?&?&?)&?&Hne&(?&?&?&?)&_). split; [|done]. split; try done.
    destruct (enabled_em c); [done|]. by exfalso.
  - intros ([]&?&?). unfold message_ok in *.
    split_and!; tauto.
Qed.

(** Every number of the configuration is a double. *)
Definition representable (c : Config) : Prop := Forall (fun e => binary64 (snd e)) (float_settings c).

(** The number of goroutines [Validate] expects. *)
Definition worker_load (c : Config) (name : string) : Z :=
  match GetWorkerConfig c name with
  | Some wc =>
      if wc_Enabled wc then
        wc_Channels wc * (wc_ProducersPerChannel wc +
          (if decide (name = WorkerFanOut) then
             if decide (wc_Subscriptions wc < 1) then gcp_FanoutSubscriptions (c_GCP c) else wc_Subscriptions wc
           else wc_ConsumersPerChannel wc))
      else 0
  | None => 0
  end.

(** The advisory conditions: a backlog that outgrows the reorder window of an
    enabled inflight_cap worker, and a load above 1000. *)
Definition advice_free (c : Config) : Prop :=
  (wc_Enabled (ws_InflightCap (c_Workers c)) = true ->
     gcp_InflightBacklogTarget (c_GCP c) <= msg_ReorderWindow (c_Message c)) /\
  to_int (zsum (map (worker_load c) AllWorkerNames)) <= 1000.

(** *** Advisory entries *)

Lemma to_int_mul a b : to_int (to_int a * b) = to_int (a * b).
Proof.
  unfold to_int.
  set (x := a + two63). replace (a * b + two63) with (x * b - two63 * b + two63) by (unfold x; lia).
  replace ((x mod two64 - two63) * b + two63) with (x mod two64 * b - two63 * b + two63) by lia.
  f_equal. unfold Z.sub. rewrite <- !Z.add_assoc.
  rewrite Z.add_mod, Z.mul_mod_idemp_l by done. symmetry. by apply Z.add_mod.
Qed.

Definition soft (l : list string) : list string := List.filter is_warning l.

Lemma soft_app l1 l2 : soft (l1 ++ l2) = soft l1 ++ soft l2.
Proof. unfold soft. apply List.filter_app. Qed.
Lemma soft_chk b c f args : c <> "%"%char -> c <> "W"%char -> soft (chk b (String c f) args) = [].
Proof. intros H1 H2. destruct b; [|done]. unfold soft, chk, List.filter. by rewrite hard_literal. Qed.
Lemma soft_chk_name b name f args :
  name ∈ AllWorkerNames -> soft (chk b (String "%" (String "s" f)) (AStr name :: args)) = [].
Proof.
  intros Hin. destruct b; [|done]. unfold soft, chk, List.filter. change (Sprintf _ _) with (name +:+ Sprintf f args).
  unfold AllWorkerNames in Hin.
  repeat (apply elem_of_cons in Hin as [->|Hin]; [reflexivity|]). by apply elem_of_nil in Hin.
Qed.
Lemma soft_chk_warning b f args : soft (chk b ("WARNING:" +:+ f) args) = [] <-> b = false.
Proof.
  destruct b; [|done]. unfold soft, chk, List.filter. rewrite Sprintf_literal by done.
  unfold is_warning. by rewrite HasPrefix_app.
Qed.

Lemma worker_soft c name wc : name ∈ AllWorkerNames -> soft (fst (validate_worker c name wc)) = [].
Proof.
  intros Hin. unfold validate_worker. destruct (String.eqb name WorkerFanOut); cbn [fst];
    by rewrite !soft_app, !soft_chk_name.
Qed.

Lemma worker_goroutines c name wc :
  GetWorkerConfig c name = Some wc -> wc_Enabled wc = true ->
  snd (validate_worker c name wc) = to_int (worker_load c name).
Proof.
  intros Hg He. unfold validate_worker, worker_load. rewrite Hg, He.
  destruct (String.eqb_spec name WorkerFanOut) as [->|Hne]; cbn [snd].
  - rewrite decide_True by done. rewrite Z.mul_comm, to_int_mul, Z.mul_comm. do 3 f_equal.
    case_if; zbool; [by rewrite decide_True|rewrite decide_False by lia; done].
  - rewrite decide_False by done. by rewrite Z.mul_comm, to_int_mul, Z.mul_comm.
Qed.

Lemma soft_workers c names :
  (forall n, n ∈ names -> n ∈ AllWorkerNames) ->
  let '(errs, _, total) := validate_workers c names in
  soft errs = [] /\ total = to_int (zsum (map (worker_load c) names)).
Proof.
  induction names as [|n names IH] using rev_ind; intros Hsub; [done|].
  rewrite validate_workers_app. destruct (validate_workers c names) as [[errs en] tot].
  destruct IH as (IH1 & IH2). { intros m Hm. apply Hsub. set_solver. }
  assert (n ∈ AllWorkerNames) as Hn by (apply Hsub; set_solver). cbn [foldl].
  rewrite map_app, zsum_app. cbn [map zsum foldr]. rewrite Z.add_0_r.
  destruct (GetWorkerConfig c n) as [wc|] eqn:E; [destruct (wc_Enabled wc) eqn:Ee|].
  - pose proof (worker_soft c n wc Hn) as Hs. pose proof (worker_goroutines c n wc E Ee) as Hg.
    destruct (validate_worker c n wc) as [e k]. cbn [fst snd] in *. rewrite soft_app, IH1, Hs. split; [done|].
    by rewrite Hg, IH2, to_int_add, to_int_shift.
  - split; [done|]. unfold worker_load at 2. by rewrite E, Ee, Z.add_0_r.
  - split; [done|]. unfold worker_load at 2. by rewrite E, Z.add_0_r.
Qed.

Lemma warnings_free c : LogResourceWarnings c = [] <-> advice_free c.
Proof.
  unfold LogResourceWarnings, Validate, Validate_order. pose proof (soft_workers c AllWorkerNames) as Hw.
  destruct (validate_workers c AllWorkerNames) as [[errs en] tot]. destruct Hw as (H1 & H2); [done|].
  change (List.filter is_warning ?l) with (soft l).
  change "WARNING: high worker count: %d -- may impact system resources"
    with ("WARNING:" +:+ " high worker count: %d -- may impact system resources").
  unfold validate_head, validate_tail, latency_thresholds. cbv zeta. cbn [map concat].
  change "WARNING: message.reorder_window (%d) < gcp.inflight_backlog_target (%d) while inflight_cap is enabled -- held seqs may be prematurely evicted (spec S5.6)"
    with ("WARNING:" +:+ " message.reorder_window (%d) < gcp.inflight_backlog_target (%d) while inflight_cap is enabled -- held seqs may be prematurely evicted (spec S5.6)").
  rewrite !soft_app, H1. rewrite !soft_chk by done. rewrite !app_nil_iff, !soft_chk_warning, andb_false_iff, !Z.ltb_ge, H2.
  unfold advice_free. destruct (wc_Enabled _); naive_solver lia.
Qed.

(** C7 (functional).  [Validate] reports no hard error (no entry without the
    prefix WARNING) exactly when every setting is within its documented limits,
    the floating-point ones as real numbers, except that a setting that is NaN
    passes every range test; so a configuration without NaN is accepted exactly
    when it is within its limits, and one within its limits always is.  The
    advisory entries, which never make it invalid, are absent exactly when the
    backlog fits the reorder window and at most 1000 goroutines are expected. *)
Theorem validate_sound_complete c :
  representable c ->
  (hard_errors c = [] <->
   settings_ok c /\ Forall (fun e => is_nan (snd e) = true \/ within (fst e) (snd e)) (float_settings c)) /\
  (config_ok c -> hard_errors c = []) /\
  (Forall (fun e => is_nan (snd e) = false) (float_settings c) -> hard_errors c = [] <-> config_ok c) /\
  (LogResourceWarnings c = [] <-> advice_free c).
Proof.
  intros Hr. assert (forall l, Forall (fun e => exact_range (fst e)) l -> Forall (fun e => binary64 (snd e)) l ->
    Forall (fun e => passes (fst e) (snd e)) l <-> Forall (fun e => is_nan (snd e) = true \/ within (fst e) (snd e)) l) as Hl.
  { intros l H1 H2. rewrite !Forall_forall in *. split; intros H e He; apply (passes_within (fst e) (snd e)); auto. }
  specialize (Hl _ (float_settings_exact c) Hr). rewrite hard_errors_passes. unfold config_passes, config_ok. rewrite Hl.
  split_and!; [done| | |apply warnings_free].
  - intros [H1 H2]. split; [done|]. eapply Forall_impl; [exact H2|]. intros e He. by right.
  - intros Hn. rewrite !Forall_forall in *. split; intros [H1 H2]; (split; [done|]); intros e He; [|right; auto].
    destruct (H2 e He) as [H|H]; [|done]. rewrite (Hn e He) in H. done.
Qed.

Lemma validate_sound_complete_witness :
  representable DefaultConfig /\ (hard_errors DefaultConfig = [] <-> config_ok DefaultConfig).
Proof.
  assert (representable DefaultConfig) as H by (repeat constructor; vm_compute; reflexivity). split; [exact H|].
  apply (validate_sound_complete DefaultConfig H). repeat constructor; vm_compute; reflexivity.
Defined.

(** The defaults are usable as they are. *)
Lemma default_config_clean : Validate DefaultConfig = [] /\ is_ok (parseDurations DefaultConfig) = true.
Proof. vm_compute. auto. Qed.

(** ** Environment overrides *)

(** Case analysis on a name of the table. *)
Ltac each_name H :=
  unfold AllWorkerNames in H;
  repeat (apply elem_of_cons in H as [->|H]; [|]); [..|by apply elem_of_nil in H].

Lemma get_set_worker c n m v :
  n ∈ AllWorkerNames ->
  GetWorkerConfig (set_worker c n v) m = if String.eqb m n then Some v else GetWorkerConfig c m.
Proof.
  intros Hn. destruct (String.eqb_spec m n) as [->|Hne].
  - each_name Hn; reflexivity.
  - unfold GetWorkerConfig.
    each_name Hn; cbv [set_worker]; cbn [String.eqb Ascii.eqb Bool.eqb];
      repeat match goal with
      | |- context [if String.eqb m ?x then _ else _] =>
          destruct (String.eqb_spec m x); [first [congruence | reflexivity]|]
      end; reflexivity.
Qed.

Lemma set_worker_comm c n m v w :
  n ∈ AllWorkerNames -> m ∈ AllWorkerNames -> n <> m ->
  set_worker (set_worker c n v) m w = set_worker (set_worker c m w) n v.
Proof.
  intros Hn Hm Hne. each_name Hn; each_name Hm; first [by destruct Hne | reflexivity].
Qed.

Lemma set_worker_workers c n v :
  c_Broker (set_worker c n v) = c_Broker c.
Proof.
  unfold set_worker. cbv zeta.
  repeat match goal with |- context [if ?b then _ else _] => destruct b; [reflexivity|] end.
  reflexivity.
Qed.

Section env.
Context (Getenv : string -> string).
Implicit Types (c : Config) (order : list (string * string)).

Lemma step_get c name env m :
  name ∈ AllWorkerNames ->
  GetWorkerConfig (override_step Getenv c (name, env)) m =
    if String.eqb m name then override_worker Getenv env <$> GetWorkerConfig c m else GetWorkerConfig c m.
Proof.
  intros Hn. unfold override_step. destruct (GetWorkerConfig c name) as [wc|] eqn:E.
  - rewrite get_set_worker by done. destruct (String.eqb_spec m name) as [->|]; [|done]. by rewrite E.
  - destruct (String.eqb_spec m name) as [->|]; [|done]. by rewrite E.
Qed.

Lemma step_comm c e1 e2 :
  fst e1 ∈ AllWorkerNames -> fst e2 ∈ AllWorkerNames -> fst e1 <> fst e2 ->
  override_step Getenv (override_step Getenv c e1) e2 = override_step Getenv (override_step Getenv c e2) e1.
Proof.
  destruct e1 as [n1 v1], e2 as [n2 v2]. simpl. intros H1 H2 Hne.
  unfold override_step.
  destruct (GetWorkerConfig c n1) as [w1|] eqn:E1, (GetWorkerConfig c n2) as [w2|] eqn:E2;
    rewrite ?get_set_worker by done;
    rewrite ?(proj2 (String.eqb_neq n2 n1)), ?(proj2 (String.eqb_neq n1 n2)) by done;
    rewrite ?E1, ?E2; [by apply set_worker_comm|done..].
Qed.

Lemma foldl_step_perm l1 l2 c :
  l1 ≡ₚ l2 -> NoDup (fst <$> l1) -> (forall e, e ∈ l1 -> fst e ∈ AllWorkerNames) ->
  foldl (override_step Getenv) c l1 = foldl (override_step Getenv) c l2.
Proof.
  intros Hp. revert c. induction Hp as [|e l1 l2 Hp IH|e1 e2 l|l1 l2 l3 Hp1 IH1 Hp2 IH2];
    intros c Hnd Hin; simpl.
  - done.
  - apply IH; [by apply NoDup_cons in Hnd as [_ ?]|]. intros x Hx. apply Hin. by right.
  - rewrite step_comm; [done|apply Hin..|]; [by left|by right; left|].
    intros E. apply NoDup_cons in Hnd as [Hnot _]. apply Hnot. simpl. rewrite E. by left.
  - rewrite IH1 by done. apply IH2.
    + by rewrite <- Hp1.
    + intros x Hx. apply Hin. by rewrite Hp1.
Qed.

Lemma foldl_step_get order c name env :
  NoDup (fst <$> order) -> (forall e, e ∈ order -> fst e ∈ AllWorkerNames) -> (name, env) ∈ order ->
  GetWorkerConfig (foldl (override_step Getenv) c order) name
    = override_worker Getenv env <$> GetWorkerConfig c name.
Proof.
  assert (forall l c, (forall e, e ∈ l -> fst e ∈ AllWorkerNames) -> name ∉ fst <$> l ->
    GetWorkerConfig (foldl (override_step Getenv) c l) name = GetWorkerConfig c name) as Hout.
  { induction l as [|[n v] l IH]; intros c' Hall Hn; [done|]. cbn [foldl].
    rewrite IH; [|intros x Hx; apply Hall; by right|set_solver].
    rewrite step_get by (apply (Hall (n, v)); by left).
    by rewrite (proj2 (String.eqb_neq _ _)) by set_solver. }
  revert c. induction order as [|[n v] l IH]; intros c Hnd Hall Hin; [by apply elem_of_nil in Hin|].
  apply NoDup_cons in Hnd as [Hn Hnd]. simpl in Hn. cbn [foldl].
  assert (n ∈ AllWorkerNames) as Hname by (apply (Hall (n, v)); by left).
  apply elem_of_cons in Hin as [E|Hin].
  - simplify_eq. rewrite Hout; [|intros x Hx; apply Hall; by right|done].
    rewrite step_get by done. by rewrite String.eqb_refl.
  - rewrite IH; [|done|intros x Hx; apply Hall; by right|done].
    rewrite step_get by done. rewrite (proj2 (String.eqb_neq name n)); [done|].
    intros ->. apply Hn. apply (list_elem_of_fmap_2 fst) in Hin. done.
Qed.

Lemma foldl_step_broker order c :
  c_Broker (foldl (override_step Getenv) c order) = c_Broker c.
Proof.
  revert c. induction order as [|[n v] l IH]; intros c; [done|]. simpl. rewrite IH.
  unfold override_step. destruct (GetWorkerConfig c n); [apply set_worker_workers|done].
Qed.
End env.

Lemma envNames_nodup : NoDup (fst <$> envNames).
Proof. refine (bool_decide_eq_true_1 _ _). vm_compute. reflexivity. Qed.

Lemma envNames_known e : e ∈ envNames -> fst e ∈ AllWorkerNames.
Proof.
  intros H. assert (Forall (fun e => fst e ∈ AllWorkerNames) envNames) as Hf.
  { refine (bool_decide_eq_true_1 _ _). vm_compute. reflexivity. }
  by apply (proj1 (Forall_forall _ _) Hf).
Qed.

(** The environment overrides every worker's block by its
    own variables and nothing else, PUBSUB_EMULATOR_HOST wins over
    KUBEMQ_BROKER_ADDRESS which wins over the file, and the order in which Go
    ranges over the variable map does not matter. *)
Theorem env_overrides_spec Getenv order c name env :
  order ≡ₚ envNames -> (name, env) ∈ envNames ->
  let c' := applyEnvOverrides_order Getenv order c in
  c' = applyEnvOverrides Getenv c /\
  GetWorkerConfig c' name = override_worker Getenv env <$> GetWorkerConfig c name /\
  br_Address (c_Broker c') =
    (if String.eqb (Getenv "PUBSUB_EMULATOR_HOST") ""
     then if String.eqb (Getenv "KUBEMQ_BROKER_ADDRESS") "" then br_Address (c_Broker c)
          else Getenv "KUBEMQ_BROKER_ADDRESS"
     else Getenv "PUBSUB_EMULATOR_HOST").
Proof.
  intros Hp Hin. simpl. pose proof envNames_nodup as Hnd. pose proof envNames_known as Hkn.
  split; [|split].
  - unfold applyEnvOverrides, applyEnvOverrides_order. apply foldl_step_perm; [done| |].
    + by rewrite Hp.
    + intros e He. apply Hkn. by rewrite <- Hp.
  - unfold applyEnvOverrides_order. rewrite (foldl_step_get Getenv order _ name env).
    + f_equal. unfold set_address.
      by destruct (String.eqb _ _), (String.eqb _ _), (String.eqb _ _).
    + by rewrite Hp.
    + intros e He. apply Hkn. by rewrite <- Hp.
    + by rewrite Hp.
  - unfold applyEnvOverrides_order. rewrite foldl_step_broker. unfold set_address.
    destruct (String.eqb (Getenv "KUBEMQ_BROKER_ADDRESS") ""),
      (String.eqb (Getenv "KUBEMQ_GRPC_ADDRESS") ""),
      (String.eqb (Getenv "PUBSUB_EMULATOR_HOST") ""); done.
Qed.

Lemma env_overrides_spec_witness :
  let g v := if String.eqb v "BURNIN_FAN_OUT_RATE" then "7" else "" in
  wc_Rate <$> GetWorkerConfig (applyEnvOverrides_order g (rev envNames) DefaultConfig) WorkerFanOut = Some 7.
Proof.
  intros g.
  destruct (env_overrides_spec g (rev envNames) DefaultConfig WorkerFanOut "FAN_OUT") as (_ & -> & _).
  - symmetry. apply Permutation_rev.
  - do 5 right. left.
  - vm_compute. reflexivity.
Defined.

(** ** Durations *)

Lemma TrimSuffix1_app s c : TrimSuffix1 (s +:+ str1 c) c = Some s.
Proof.
  induction s as [|d s IH].
  - simpl. by rewrite Ascii.eqb_refl.
  - change (String d s +:+ str1 c) with (String d (s +:+ str1 c)).
    destruct s as [|e s]; simpl in *; [by rewrite Ascii.eqb_refl|].
    simpl in IH. rewrite IH. done.
Qed.

Lemma TrimSuffix1_none s u c : u <> "" -> TrimSuffix1 u c = None -> TrimSuffix1 (s +:+ u) c = None.
Proof.
  intros Hu Hn. induction s as [|d s IH]; [done|].
  change (String d s +:+ u) with (String d (s +:+ u)).
  destruct (s +:+ u) as [|e r] eqn:E.
  - destruct s; [by subst|done].
  - cbn [TrimSuffix1] in *. rewrite IH. done.
Qed.

Lemma parseDuration_days n :
  is_int n -> parseDuration (Itoa n +:+ "d") = Ok (to_int (n * (24 * Hour))).
Proof.
  intros H. unfold parseDuration. change "d" with (str1 "d") at 1. rewrite TrimSuffix1_app.
  rewrite Atoi_Itoa by done. f_equal. rewrite to_int_mul. f_equal. lia.
Qed.

Lemma units_no_days u unit : In (u, unit) unitMap -> u <> "" /\ TrimSuffix1 u "d" = None.
Proof. intros H. simpl in H. repeat destruct H as [[= <- <-]|H]; done. Qed.

(** A whole number of any of Go's units parses to that many of
    it as long as the product fits an int64; a number of days is multiplied
    with wrap-around instead: exact up to 106751 days, negative from 106752. *)
Theorem duration_syntax n u unit :
  In (u, unit) unitMap ->
  (0 <= n /\ n * unit < two63 -> parseDuration (FormatUint n +:+ u) = Ok (n * unit)) /\
  (-106751 <= n <= 106751 -> parseDuration (Itoa n +:+ "d") = Ok (n * 24 * Hour)) /\
  (exists d, parseDuration "106752d" = Ok d /\ d < 0).
Proof.
  intros Hu. split_and!.
  - intros [Hn Hb]. destruct (units_no_days u unit Hu). unfold parseDuration.
    rewrite TrimSuffix1_none by done. by apply ParseDuration_unit.
  - intros Hn. rewrite parseDuration_days by range. f_equal.
    unfold Hour, Minute, Second in *. rewrite to_int_small by range. lia.
  - eexists. split; [vm_compute; reflexivity|]. done.
Qed.

Lemma duration_syntax_witness :
  parseDuration (FormatUint 168 +:+ "h") = Ok (168 * Hour) /\
  parseDuration (Itoa 7 +:+ "d") = Ok (7 * 24 * Hour).
Proof.
  split.
  - apply (duration_syntax 168 "h" Hour).
    + simpl. do 7 right. left. reflexivity.
    + split; [lia|]. vm_compute. reflexivity.
  - apply (duration_syntax 7 "h" Hour).
    + simpl. do 7 right. left. reflexivity.
    + lia.
Defined.
