(* ===== verification/Payload.v ===== *)
(** * burnin/payload: message bodies

    Random bodies with their CRC32, the verification a consumer performs, and
    the weighted size distribution.  Bytes are integers in [0, 256); the random
    source is a parameter.  The CRC is the bitwise definition of the reflected
    IEEE polynomial that [hash/crc32] tabulates. *)
From S2P Require Import Prelude GoFloat GoFmt.
From Stdlib Require Import Ascii.

Definition AttrWorkerID : string := "workerId".
Definition AttrSequence : string := "sequence".
Definition AttrContentHash : string := "contentHash".
Definition AttrTimestampNS : string := "timestampNs".
Definition AttrOrderingSeq : string := "orderingSeq".

(** ** crc32.ChecksumIEEE *)

Definition crc_poly : Z := 3988292384. (* 0xedb88320 *)
Definition crc_ones : Z := 4294967295.

Definition crc_bit (c : Z) : Z :=
  if Z.odd c then Z.lxor (Z.shiftr c 1) crc_poly else Z.shiftr c 1.

Definition crc_byte (c b : Z) : Z := Nat.iter 8 crc_bit (Z.lxor c b).

Definition ChecksumIEEE (body : list Z) : Z := Z.lxor (foldl crc_byte crc_ones body) crc_ones.

(** [fmt.Sprintf] of a crc with verb [%08x]. *)
Definition crc_hex (body : list Z) : string := Sprintf "%08x" [AInt (ChecksumIEEE body)].

(** The check value of CRC-32/ISO-HDLC. *)
Example crc_check_value : crc_hex (map (fun d => 48 + d) [1; 2; 3; 4; 5; 6; 7; 8; 9]) = "cbf43926".
Proof. vm_compute. reflexivity. Qed.

(** ** Bodies *)

(** Up to [k] hexadecimal characters of [v], least significant nibble first. *)
Fixpoint hex_nibbles (k : nat) (v : Z) : list Z :=
  match k with
  | O => []
  | S k' => char_code (hex_char (Z.land v 15)) :: hex_nibbles k' (Z.shiftr v 4)
  end.

(** [rand i] is the [i]-th value [rand.Uint64] returns. Each round of the outer
    loop writes 16 characters or what is left, so [n] rounds are enough. *)
Fixpoint randomHex_loop (fuel : nat) (rand : nat -> Z) (i : nat) (n : nat) : list Z :=
  match fuel with
  | O => []
  | S fuel' =>
      if (n =? 0)%nat then []
      else hex_nibbles (Nat.min 16 n) (rand i) ++ randomHex_loop fuel' rand (S i) (n - Nat.min 16 n)
  end.
Definition randomHex (rand : nat -> Z) (n : Z) : list Z :=
  randomHex_loop (Z.to_nat n) rand 0 (Z.to_nat n).

Definition Build (rand : nat -> Z) (targetSize : Z) : list Z * string :=
  let targetSize := if targetSize <? 1 then 1 else targetSize in
  let body := randomHex rand targetSize in
  (body, crc_hex body).

Definition VerifyCRC (body : list Z) (crcHex : string) : bool := String.eqb (crc_hex body) crcHex.

(** ** Size distributions *)

Record SizeDistribution := mkDist { sizes : list Z; weights : list Z; dist_total : Z }.

Definition dist_entry (d : SizeDistribution) (p : string) : result SizeDistribution :=
  match SplitN2 (TrimSpace p) ":" with
  | (_, None) => Err (Sprintf "invalid distribution entry: %q" [AStr p])
  | (k, Some v) =>
      match Atoi (TrimSpace k) with
      | None => Err (Sprintf "invalid size in distribution: %q" [AStr k])
      | Some size =>
          match Atoi (TrimSpace v) with
          | None => Err (Sprintf "invalid weight in distribution: %q" [AStr v])
          | Some weight =>
              Ok (mkDist (sizes d ++ [size]) (weights d ++ [weight]) (to_int (dist_total d + weight)))
          end
      end
  end.

Fixpoint dist_entries (d : SizeDistribution) (ps : list string) : result SizeDistribution :=
  match ps with
  | [] => Ok d
  | p :: ps' => d' ← dist_entry d p; dist_entries d' ps'
  end.

Definition ParseDistribution (s : string) : result SizeDistribution :=
  d ← dist_entries (mkDist [] [] 0) (Split s ",");
  if dist_total d =? 0 then Err "distribution total weight must be > 0" else Ok d.

(** The loop of [SelectSize]; [cumulative] is an int. *)
Fixpoint select_loop (r cumulative : Z) (szs ws : list Z) : option Z :=
  match szs, ws with
  | s :: szs', w :: ws' =>
      let cumulative := to_int (cumulative + w) in
      if r <? cumulative then Some s else select_loop r cumulative szs' ws'
  | _, _ => None
  end.

(** [SelectSize]: [rand.IntN] panics ([None]) unless the total is positive;
    otherwise it returns [r], some value in [0, total). *)
Definition SelectSize (d : SizeDistribution) (r : Z) : option Z :=
  if dist_total d <=? 0 then None
  else match select_loop r 0 (sizes d) (weights d) with
       | Some s => Some s
       | None => last (sizes d)
       end.

Example ParseDistribution_default :
  ParseDistribution "256:80,4096:15,65536:5" = Ok (mkDist [256; 4096; 65536] [80; 15; 5] 100).
Proof. vm_compute. reflexivity. Qed.

(** ** Facts about the CRC *)

Definition is_u32 (z : Z) : Prop := 0 <= z < 2 ^ 32.
Definition is_byte (b : Z) : Prop := 0 <= b < 256.

Lemma u32_bits z n : is_u32 z -> 32 <= n -> Z.testbit z n = false.
Proof.
  intros Hz Hn. rewrite <- (Z.mod_small z (2 ^ 32)) by done. by apply Z.mod_pow2_bits_high.
Qed.

Lemma bits_u32 z : 0 <= z -> (forall n, 32 <= n -> Z.testbit z n = false) -> is_u32 z.
Proof.
  intros Hz H. assert (z mod 2 ^ 32 = z) as <-.
  { apply Z.bits_inj'. intros n Hn. destruct (decide (n < 32)).
    - by rewrite Z.mod_pow2_bits_low.
    - rewrite Z.mod_pow2_bits_high, H; [done|lia..]. }
  apply Z.mod_pos_bound. done.
Qed.

Lemma lxor_u32 a b : is_u32 a -> is_u32 b -> is_u32 (Z.lxor a b).
Proof.
  intros Ha Hb. apply bits_u32.
  - apply Z.lxor_nonneg. unfold is_u32 in *. lia.
  - intros n Hn. rewrite Z.lxor_spec, !u32_bits by done. done.
Qed.

Lemma crc_bit_u32 c : is_u32 c -> is_u32 (crc_bit c).
Proof.
  intros H. assert (is_u32 (Z.shiftr c 1)).
  { unfold is_u32 in *. rewrite Z.shiftr_div_pow2 by lia. change (2 ^ 1) with 2.
    split; [apply Z.div_pos; lia|]. apply Z.div_lt_upper_bound; lia. }
  unfold crc_bit. destruct (Z.odd c); [|done]. apply lxor_u32; [done|].
  unfold is_u32, crc_poly. lia.
Qed.

(** The polynomial has bit 31, a shifted 32-bit value has not: the step can be
    undone. *)
Lemma crc_bit_inj a b : is_u32 a -> is_u32 b -> crc_bit a = crc_bit b -> a = b.
Proof.
  intros Ha Hb E.
  assert (forall c, is_u32 c -> Z.testbit (crc_bit c) 31 = Z.odd c) as H31.
  { intros c Hc. unfold crc_bit.
    assert (Z.testbit (Z.shiftr c 1) 31 = false) as Hs.
    { rewrite Z.shiftr_spec by lia. by apply u32_bits. }
    destruct (Z.odd c); [rewrite Z.lxor_spec, Hs; done|done]. }
  pose proof (H31 a Ha) as H1. rewrite E, (H31 b Hb) in H1.
  assert (Z.shiftr a 1 = Z.shiftr b 1) as Hs.
  { unfold crc_bit in E. rewrite <- H1 in E. destruct (Z.odd b); [|done].
    apply (f_equal (fun x => Z.lxor x crc_poly)) in E.
    by rewrite !Z.lxor_assoc, Z.lxor_nilpotent, !Z.lxor_0_r in E. }
  rewrite !Z.shiftr_div_pow2 in Hs by lia. change (2 ^ 1) with 2 in Hs.
  rewrite (Z.div_mod a 2), (Z.div_mod b 2), Hs, !Zmod_odd, H1 by lia. done.
Qed.

Lemma iter_crc_bit_u32 k c : is_u32 c -> is_u32 (Nat.iter k crc_bit c).
Proof. intros Hc. induction k as [|k IH]; [done|]. simpl. by apply crc_bit_u32. Qed.

Lemma iter_crc_bit_inj k a b :
  is_u32 a -> is_u32 b -> Nat.iter k crc_bit a = Nat.iter k crc_bit b -> a = b.
Proof.
  pose proof iter_crc_bit_u32.
  induction k as [|k IH]; intros Ha Hb E; [done|]. simpl in E.
  apply crc_bit_inj in E; auto.
Qed.

Lemma crc_byte_u32 c b : is_u32 c -> is_byte b -> is_u32 (crc_byte c b).
Proof.
  intros Hc Hb. unfold crc_byte. assert (is_u32 (Z.lxor c b)) as H.
  { apply lxor_u32; [done|]. unfold is_byte, is_u32 in *. lia. }
  by apply iter_crc_bit_u32.
Qed.

Lemma lxor_cancel_l a b c : Z.lxor a b = Z.lxor a c -> b = c.
Proof.
  intros E. apply (f_equal (Z.lxor a)) in E.
  by rewrite <- !Z.lxor_assoc, Z.lxor_nilpotent, !Z.lxor_0_l in E.
Qed.

Lemma crc_byte_inj c c' b b' :
  is_u32 c -> is_u32 c' -> is_byte b -> is_byte b' ->
  crc_byte c b = crc_byte c' b' -> Z.lxor c b = Z.lxor c' b'.
Proof.
  intros Hc Hc' Hb Hb' E. unfold crc_byte in E.
  apply iter_crc_bit_inj in E; [done|apply lxor_u32; [done|]..]; unfold is_byte, is_u32 in *; lia.
Qed.

Lemma crc_fold_u32 l c : is_u32 c -> Forall is_byte l -> is_u32 (foldl crc_byte c l).
Proof.
  revert c. induction l as [|b l IH]; intros c Hc Hl; [done|].
  apply Forall_cons in Hl as [? ?]. apply IH; [|done]. by apply crc_byte_u32.
Qed.

(** With equal suffixes the state is recoverable. *)
Lemma crc_fold_inj l c c' :
  is_u32 c -> is_u32 c' -> Forall is_byte l -> foldl crc_byte c l = foldl crc_byte c' l -> c = c'.
Proof.
  revert c c'. induction l as [|b l IH]; intros c c' Hc Hc' Hl E; [done|].
  apply Forall_cons in Hl as [Hb Hl]. apply IH in E; [|by apply crc_byte_u32..|done].
  apply crc_byte_inj in E; [|done..]. rewrite !(Z.lxor_comm _ b) in E. by apply lxor_cancel_l in E.
Qed.

Lemma ChecksumIEEE_u32 l : Forall is_byte l -> is_u32 (ChecksumIEEE l).
Proof.
  intros H. apply lxor_u32; [apply crc_fold_u32; [|done]|]; unfold is_u32, crc_ones; lia.
Qed.

(** [%08x] is injective on 32-bit values. *)
Definition hex_val (c : ascii) : Z :=
  if is_digit c then char_code c - 48 else char_code c - 87.

Lemma hex_char_val d : 0 <= d < 16 -> hex_val (hex_char d) = d.
Proof.
  intros H. unfold hex_char, hex_val, is_digit.
  destruct (d <? 10) eqn:E; zbool; rewrite char_code_of by lia.
  - rewrite (proj2 (Z.leb_le _ _)), (proj2 (Z.leb_le _ _)) by lia. simpl. lia.
  - rewrite (proj2 (Z.leb_gt (87 + d) 57)), andb_false_r by lia. lia.
Qed.

Lemma hex_pad_acc w n acc : hex_pad w n acc = hex_pad w n "" +:+ acc.
Proof.
  revert n acc. induction w as [|w IH]; intros n acc; [done|]. simpl.
  rewrite IH, (IH _ (String _ "")). by rewrite sapp_assoc.
Qed.

Lemma slast_inj a b x y : a +:+ str1 x = b +:+ str1 y -> a = b /\ x = y.
Proof.
  revert b. induction a as [|c a IH]; intros [|d b] E; simpl in E; unfold str1 in *.
  - by injection E as ->.
  - injection E as -> E. by destruct b.
  - injection E as -> E. by destruct a.
  - injection E as -> E. destruct (IH b E) as [-> ->]. done.
Qed.

Lemma hex_pad_inj w n m :
  0 <= n < 16 ^ Z.of_nat w -> 0 <= m < 16 ^ Z.of_nat w -> hex_pad w n "" = hex_pad w m "" -> n = m.
Proof.
  revert n m. induction w as [|w IH]; intros n m Hn Hm E; [simpl in *; lia|].
  rewrite Nat2Z.inj_succ, Z.pow_succ_r in Hn, Hm by lia. simpl in E.
  rewrite hex_pad_acc, (hex_pad_acc w (m / 16)) in E. apply slast_inj in E as [E1 E2].
  apply IH in E1; [|split; [apply Z.div_pos; lia|apply Z.div_lt_upper_bound; lia]..].
  apply (f_equal hex_val) in E2. pose proof (Z.mod_pos_bound n 16). pose proof (Z.mod_pos_bound m 16).
  rewrite !hex_char_val in E2 by lia. rewrite (Z.div_mod n 16), (Z.div_mod m 16) by lia. lia.
Qed.

Lemma crc_hex_inj l l' :
  Forall is_byte l -> Forall is_byte l' -> crc_hex l = crc_hex l' -> ChecksumIEEE l = ChecksumIEEE l'.
Proof.
  intros Hl Hl' E. unfold crc_hex in E.
  change (hex_pad 8 (ChecksumIEEE l) "" +:+ "" = hex_pad 8 (ChecksumIEEE l') "" +:+ "") in E.
  rewrite !sapp_nil_r in E.
  pose proof (ChecksumIEEE_u32 l Hl). pose proof (ChecksumIEEE_u32 l' Hl').
  by apply (hex_pad_inj 8) in E.
Qed.

Lemma checksum_single_byte pre b b' post :
  Forall is_byte pre -> is_byte b -> is_byte b' -> Forall is_byte post -> b <> b' ->
  ChecksumIEEE (pre ++ b :: post) <> ChecksumIEEE (pre ++ b' :: post).
Proof.
  intros Hpre Hb Hb' Hpost Hne E. unfold ChecksumIEEE in E.
  rewrite !(Z.lxor_comm _ crc_ones) in E. apply lxor_cancel_l in E. rewrite !foldl_app in E.
  assert (is_u32 (foldl crc_byte crc_ones pre)) as Hc.
  { apply crc_fold_u32; [unfold is_u32, crc_ones; lia|done]. }
  simpl in E. apply crc_fold_inj in E; [|by apply crc_byte_u32..|done].
  apply crc_byte_inj in E; [|done..]. by apply lxor_cancel_l in E.
Qed.

(** ** Bodies *)

Lemma hex_nibbles_spec k v : length (hex_nibbles k v) = k /\ Forall is_byte (hex_nibbles k v).
Proof.
  revert v. induction k as [|k IH]; intros v; [split; [done|constructor]|].
  destruct (IH (Z.shiftr v 4)) as [Hl Hf]. simpl. split; [by rewrite Hl|].
  constructor; [|done]. unfold is_byte, char_code.
  pose proof (N_ascii_bounded (hex_char (Z.land v 15))). lia.
Qed.

Lemma randomHex_loop_spec fuel rand i n :
  (n <= fuel)%nat ->
  length (randomHex_loop fuel rand i n) = n /\ Forall is_byte (randomHex_loop fuel rand i n).
Proof.
  revert i n. induction fuel as [|f IH]; intros i n Hn.
  - simpl. split; [lia|constructor].
  - cbn [randomHex_loop]. destruct (Nat.eqb_spec n 0); [split; [simpl; lia|constructor]|].
    destruct (IH (S i) (n - Nat.min 16 n)%nat) as [Hl Hf]; [lia|].
    destruct (hex_nibbles_spec (Nat.min 16 n) (rand i)) as [Hl' Hf'].
    rewrite length_app, Hl, Hl'. split; [lia|]. by apply Forall_app.
Qed.

(** C39 (roundtrip).  A body built for any requested size has that many bytes
    (at least one) and verifies against its own hash; changing any single byte
    of any body makes the verification fail. *)
Theorem build_verify_roundtrip rand n pre b b' post :
  (let '(body, crc) := Build rand n in
   Z.of_nat (length body) = Z.max 1 n /\ VerifyCRC body crc = true) /\
  (Forall is_byte (pre ++ b :: post) -> is_byte b' -> b <> b' ->
   VerifyCRC (pre ++ b' :: post) (crc_hex (pre ++ b :: post)) = false).
Proof.
  split.
  - unfold Build, VerifyCRC, randomHex. cbv zeta. split; [|apply String.eqb_refl].
    destruct (randomHex_loop_spec (Z.to_nat (if n <? 1 then 1 else n)) rand 0
      (Z.to_nat (if n <? 1 then 1 else n))) as [-> _]; [done|]. case_if; lia.
  - intros Hf Hb' Hne. unfold VerifyCRC. apply String.eqb_neq. intros E.
    apply Forall_app in Hf as [Hpre [Hb Hpost]%Forall_cons].
    assert (Forall is_byte (pre ++ b' :: post)) by (apply Forall_app; split; [|constructor]; done).
    apply crc_hex_inj in E; [|done|apply Forall_app; split; [done|by constructor]].
    by eapply (checksum_single_byte pre b b' post).
Qed.

Lemma build_verify_roundtrip_witness :
  VerifyCRC [104; 105; 33] (crc_hex [104; 106; 33]) = false.
Proof.
  refine (proj2 (build_verify_roundtrip (fun _ => 0) 3 [104] 106 105 [33]) _ _ _).
  - repeat constructor; lia.
  - split; lia.
  - lia.
Defined.

(** ** Weighted sizes *)

Lemma select_loop_spec szs ws r cum :
  length szs = length ws -> Forall (fun w => 0 <= w) ws -> 0 <= cum -> cum + zsum ws < two63 ->
  cum <= r < cum + zsum ws ->
  exists i s w, szs !! i = Some s /\ ws !! i = Some w /\ select_loop r cum szs ws = Some s /\
    cum + zsum (take i ws) <= r < cum + zsum (take i ws) + w.
Proof.
  revert szs cum. induction ws as [|w ws IH]; intros [|s szs] cum Hl Hw Hc Hb Hr; simpl in *; try lia.
  apply Forall_cons in Hw as [Hw Hws]. pose proof (zsum_nonneg ws Hws).
  rewrite to_int_small by range. case_if.
  - exists 0%nat, s, w. simpl. split_and!; try done; lia.
  - destruct (IH szs (cum + w)) as (i & s' & w' & H1 & H2 & H3 & H4); [lia|done|lia..|].
    exists (S i), s', w'. simpl. split_and!; try done; lia.
Qed.

(** The state the parser keeps: sizes and weights in step, the total their
    wrapped sum. *)
Definition dist_inv (d : SizeDistribution) : Prop :=
  length (sizes d) = length (weights d) /\ dist_total d = to_int (zsum (weights d)).

Lemma dist_entries_inv ps d d' : dist_inv d -> dist_entries d ps = Ok d' -> dist_inv d'.
Proof.
  revert d. induction ps as [|p ps IH]; intros d Hd E; simpl in E; [by simplify_eq|].
  destruct (dist_entry d p) as [d1|] eqn:E1; [|done]. apply (IH d1); [|done].
  unfold dist_entry in E1. destruct (SplitN2 _ _) as [k [v|]]; [|done].
  destruct (Atoi _) as [sz|]; [|done]. destruct (Atoi (TrimSpace v)) as [w|]; [|done]. simplify_eq.
  destruct Hd as [Hl Ht]. split; simpl; [rewrite !length_app; simpl; lia|].
  rewrite Ht, to_int_add, zsum_app. simpl. f_equal. lia.
Qed.

Lemma ParseDistribution_inv s d : ParseDistribution s = Ok d -> dist_inv d /\ dist_total d <> 0.
Proof.
  unfold ParseDistribution. destruct (dist_entries _ _) as [d0|] eqn:E; [|done]. cbn. case_if; [done|].
  intros [= <-]. split; [|done]. refine (dist_entries_inv _ _ _ _ E). by split.
Qed.

(** For a parsed distribution without negative weights
    whose total fits an int, the random value [r] selects the size whose
    cumulative weight interval contains it, so each size is chosen for exactly
    its weight many values of [r]. *)
Theorem select_size_weighted s d r :
  ParseDistribution s = Ok d -> Forall (fun w => 0 <= w) (weights d) -> zsum (weights d) < two63 ->
  0 <= r < dist_total d ->
  exists i sz w, sizes d !! i = Some sz /\ weights d !! i = Some w /\ SelectSize d r = Some sz /\
    zsum (take i (weights d)) <= r < zsum (take i (weights d)) + w.
Proof.
  intros Hp Hw Hb Hr. destruct (ParseDistribution_inv s d Hp) as [[Hl Ht] _].
  pose proof (zsum_nonneg _ Hw). rewrite to_int_small in Ht by range.
  destruct (select_loop_spec (sizes d) (weights d) r 0) as (i & sz & w & H1 & H2 & H3 & H4); [done|done|lia..|].
  exists i, sz, w. unfold SelectSize. rewrite (proj2 (Z.leb_gt _ _)), H3 by lia. done.
Qed.

Lemma select_size_weighted_witness :
  exists i sz w, [256; 4096; 65536] !! i = Some sz /\ [80; 15; 5] !! i = Some w /\
    SelectSize (mkDist [256; 4096; 65536] [80; 15; 5] 100) 90 = Some sz /\
    zsum (take i [80; 15; 5]) <= 90 < zsum (take i [80; 15; 5]) + w.
Proof.
  apply (select_size_weighted "256:80,4096:15,65536:5" (mkDist [256; 4096; 65536] [80; 15; 5] 100) 90).
  - vm_compute. reflexivity.
  - repeat constructor; simpl; lia.
  - vm_compute. reflexivity.
  - simpl. lia.
Defined.

(** The parser only rejects a total of zero: a distribution with
    a negative total is accepted although the message says it must be positive,
    and every draw from it panics. *)
Theorem negative_total_panics r :
  exists d, ParseDistribution "256:-5" = Ok d /\ dist_total d < 0 /\ SelectSize d r = None.
Proof. eexists. split; [vm_compute; reflexivity|]. split; [done|]. reflexivity. Qed.
