(* ===== verification/Metrics.v ===== *)
(** * burnin/metrics: the metric surface and the rate accumulators

    The Prometheus vectors with their names and labels, the helpers as the
    calls they make on the registry (a call is a value of [metric_op]; the
    client library itself is not modelled), the latency accumulator over an
    HdrHistogram given as a parameter, and the two ring buffers that compute
    rates. *)
From S2P Require Import Prelude GoFloat GoFmt.

Definition sdkLabel : string := "gcp".
Definition SDK : string := sdkLabel.

(** ** The metric vectors *)

Inductive metric :=
| M_MessagesSentTotal
| M_MessagesReceivedTotal
| M_MessagesLostTotal
| M_MessagesDuplicatedTotal
| M_MessagesCorruptedTotal
| M_MessagesOutOfOrderTotal
| M_ErrorsTotal
| M_ReconnectionsTotal
| M_BytesSentTotal
| M_BytesReceivedTotal
| M_AcksTotal
| M_DowntimeSecondsTotal
| M_ForcedDisconnectsTotal
| M_OrderingViolationsTotal
| M_FanoutDeliveriesTotal
| M_FanoutDroppedTotal
| M_ExactlyOnceConfirmedTotal
| M_ExactlyOnceUnreconciledTotal
| M_DeadLetterRepublishedTotal
| M_DeadLetterLostTotal
| M_InteropConvergedTotal
| M_InteropDivergedTotal
| M_NackRedeliveredTotal
| M_BatchAtomicityViolationsTotal
| M_FilterMismatchTotal
| M_FilterMatchedDeliveredTotal
| M_SchemaRejectViolationsTotal
| M_SchemaEnforceConfirmedTotal
| M_SeekReplayExpectedTotal
| M_SeekReplayObservedTotal
| M_SeekReplayMismatchTotal
| M_InflightCapTailRedeliveredTotal
| M_InflightCapLostTotal
| M_ExactlyOnceInvalidAckConfirmedTotal
| M_FlowControlViolationsTotal
| M_RetryBackoffObservedTotal
| M_LeaseExtendConfirmedTotal
| M_LeaseExtendRejectConfirmedTotal
| M_CrossStreamAckConfirmedTotal
| M_PeriodicCloseObservedTotal
| M_MessageLatencySeconds
| M_SendDurationSeconds
| M_ActiveConnections
| M_UptimeSeconds
| M_TargetRate
| M_ActualRate
| M_ConsumerLag
| M_WarmupActive
| M_OutstandingMessages
| M_DeliveryAttemptMax.

Inductive metric_kind := KCounter | KGauge | KHistogram.

Definition metric_kind_of (m : metric) : metric_kind :=
  match m with
  | M_MessageLatencySeconds | M_SendDurationSeconds => KHistogram
  | M_ActiveConnections | M_UptimeSeconds | M_TargetRate | M_ActualRate
  | M_ConsumerLag | M_WarmupActive | M_OutstandingMessages | M_DeliveryAttemptMax => KGauge
  | _ => KCounter
  end.

Definition metric_name (m : metric) : string :=
  match m with
  | M_MessagesSentTotal => "burnin_messages_sent_total"
  | M_MessagesReceivedTotal => "burnin_messages_received_total"
  | M_MessagesLostTotal => "burnin_messages_lost_total"
  | M_MessagesDuplicatedTotal => "burnin_messages_duplicated_total"
  | M_MessagesCorruptedTotal => "burnin_messages_corrupted_total"
  | M_MessagesOutOfOrderTotal => "burnin_messages_out_of_order_total"
  | M_ErrorsTotal => "burnin_errors_total"
  | M_ReconnectionsTotal => "burnin_reconnections_total"
  | M_BytesSentTotal => "burnin_bytes_sent_total"
  | M_BytesReceivedTotal => "burnin_bytes_received_total"
  | M_AcksTotal => "burnin_pubsub_acks_total"
  | M_DowntimeSecondsTotal => "burnin_downtime_seconds_total"
  | M_ForcedDisconnectsTotal => "burnin_forced_disconnects_total"
  | M_OrderingViolationsTotal => "burnin_gcp_ordering_violations_total"
  | M_FanoutDeliveriesTotal => "burnin_gcp_fanout_deliveries_total"
  | M_FanoutDroppedTotal => "burnin_gcp_fanout_dropped_total"
  | M_ExactlyOnceConfirmedTotal => "burnin_gcp_exactly_once_confirmed_total"
  | M_ExactlyOnceUnreconciledTotal => "burnin_gcp_exactly_once_unreconciled_total"
  | M_DeadLetterRepublishedTotal => "burnin_gcp_dead_letter_republished_total"
  | M_DeadLetterLostTotal => "burnin_gcp_dead_letter_lost_total"
  | M_InteropConvergedTotal => "burnin_gcp_interop_converged_total"
  | M_InteropDivergedTotal => "burnin_gcp_interop_diverged_total"
  | M_NackRedeliveredTotal => "burnin_gcp_nack_redelivered_total"
  | M_BatchAtomicityViolationsTotal => "burnin_gcp_batch_atomicity_violations_total"
  | M_FilterMismatchTotal => "burnin_gcp_filter_mismatch_total"
  | M_FilterMatchedDeliveredTotal => "burnin_gcp_filter_matched_delivered_total"
  | M_SchemaRejectViolationsTotal => "burnin_gcp_schema_reject_violations_total"
  | M_SchemaEnforceConfirmedTotal => "burnin_gcp_schema_enforce_confirmed_total"
  | M_SeekReplayExpectedTotal => "burnin_gcp_seek_replay_expected_total"
  | M_SeekReplayObservedTotal => "burnin_gcp_seek_replay_observed_total"
  | M_SeekReplayMismatchTotal => "burnin_gcp_seek_replay_mismatch_total"
  | M_InflightCapTailRedeliveredTotal => "burnin_gcp_inflight_cap_tail_redelivered_total"
  | M_InflightCapLostTotal => "burnin_gcp_inflight_cap_lost_total"
  | M_ExactlyOnceInvalidAckConfirmedTotal => "burnin_gcp_exactly_once_invalid_ack_confirmed_total"
  | M_FlowControlViolationsTotal => "burnin_gcp_flow_control_violations_total"
  | M_RetryBackoffObservedTotal => "burnin_gcp_retry_backoff_observed_total"
  | M_LeaseExtendConfirmedTotal => "burnin_gcp_lease_extend_confirmed_total"
  | M_LeaseExtendRejectConfirmedTotal => "burnin_gcp_lease_extend_reject_confirmed_total"
  | M_CrossStreamAckConfirmedTotal => "burnin_gcp_cross_stream_ack_confirmed_total"
  | M_PeriodicCloseObservedTotal => "burnin_gcp_periodic_close_observed_total"
  | M_MessageLatencySeconds => "burnin_message_latency_seconds"
  | M_SendDurationSeconds => "burnin_send_duration_seconds"
  | M_ActiveConnections => "burnin_active_connections"
  | M_UptimeSeconds => "burnin_uptime_seconds"
  | M_TargetRate => "burnin_target_rate"
  | M_ActualRate => "burnin_actual_rate"
  | M_ConsumerLag => "burnin_consumer_lag_messages"
  | M_WarmupActive => "burnin_warmup_active"
  | M_OutstandingMessages => "burnin_gcp_outstanding_messages"
  | M_DeliveryAttemptMax => "burnin_gcp_delivery_attempt_max"
  end.

Definition metric_labels (m : metric) : list string :=
  match m with
  | M_MessagesSentTotal => ["sdk"; "worker"; "producerid"]
  | M_MessagesReceivedTotal => ["sdk"; "worker"; "consumer_id"]
  | M_ErrorsTotal => ["sdk"; "worker"; "error_type"]
  | M_ForcedDisconnectsTotal | M_UptimeSeconds | M_WarmupActive => ["sdk"]
  | _ => ["sdk"; "worker"]
  end.

(** A call on a vector: [WithLabelValues(labels).Inc()/Add(x)/Set(x)/Observe(x)]. *)
Inductive metric_op :=
| MInc (m : metric) (labels : list string)
| MAdd (m : metric) (labels : list string) (x : float64)
| MSet (m : metric) (labels : list string) (x : float64)
| MObserve (m : metric) (labels : list string) (x : float64).

(** ** Helpers *)

Definition IncSent (worker : string) (producerID : string) : metric_op := MInc M_MessagesSentTotal [sdkLabel; worker; producerID].
Definition IncReceived (worker : string) (consumerID : string) : metric_op := MInc M_MessagesReceivedTotal [sdkLabel; worker; consumerID].
Definition AddLost (worker : string) (delta : Z) : metric_op := MAdd M_MessagesLostTotal [sdkLabel; worker] (f_of_Z delta).
Definition IncDuplicated (worker : string) : metric_op := MInc M_MessagesDuplicatedTotal [sdkLabel; worker].
Definition IncCorrupted (worker : string) : metric_op := MInc M_MessagesCorruptedTotal [sdkLabel; worker].
Definition IncOutOfOrder (worker : string) : metric_op := MInc M_MessagesOutOfOrderTotal [sdkLabel; worker].
Definition IncError (worker : string) (errorType : string) : metric_op := MInc M_ErrorsTotal [sdkLabel; worker; errorType].
Definition IncReconnection (worker : string) : metric_op := MInc M_ReconnectionsTotal [sdkLabel; worker].
Definition IncAck (worker : string) : metric_op := MInc M_AcksTotal [sdkLabel; worker].
Definition IncOrderingViolation (worker : string) : metric_op := MInc M_OrderingViolationsTotal [sdkLabel; worker].
Definition IncFanoutDelivery (worker : string) : metric_op := MInc M_FanoutDeliveriesTotal [sdkLabel; worker].
Definition AddFanoutDropped (worker : string) (delta : Z) : metric_op := MAdd M_FanoutDroppedTotal [sdkLabel; worker] (f_of_Z delta).
Definition IncExactlyOnceConfirmed (worker : string) : metric_op := MInc M_ExactlyOnceConfirmedTotal [sdkLabel; worker].
Definition IncExactlyOnceUnreconciled (worker : string) : metric_op := MInc M_ExactlyOnceUnreconciledTotal [sdkLabel; worker].
Definition IncDeadLetterRepublished (worker : string) : metric_op := MInc M_DeadLetterRepublishedTotal [sdkLabel; worker].
Definition AddDeadLetterLost (worker : string) (delta : Z) : metric_op := MAdd M_DeadLetterLostTotal [sdkLabel; worker] (f_of_Z delta).
Definition IncInteropConverged (worker : string) : metric_op := MInc M_InteropConvergedTotal [sdkLabel; worker].
Definition AddInteropDiverged (worker : string) (delta : Z) : metric_op := MAdd M_InteropDivergedTotal [sdkLabel; worker] (f_of_Z delta).
Definition IncNackRedelivered (worker : string) : metric_op := MInc M_NackRedeliveredTotal [sdkLabel; worker].
Definition IncBatchAtomicityViolation (worker : string) : metric_op := MInc M_BatchAtomicityViolationsTotal [sdkLabel; worker].
Definition IncFilterMismatch (worker : string) : metric_op := MInc M_FilterMismatchTotal [sdkLabel; worker].
Definition IncFilterMatchedDelivered (worker : string) : metric_op := MInc M_FilterMatchedDeliveredTotal [sdkLabel; worker].
Definition IncSchemaRejectViolation (worker : string) : metric_op := MInc M_SchemaRejectViolationsTotal [sdkLabel; worker].
Definition IncSchemaEnforceConfirmed (worker : string) : metric_op := MInc M_SchemaEnforceConfirmedTotal [sdkLabel; worker].
Definition AddSeekReplayExpected (worker : string) (delta : Z) : metric_op := MAdd M_SeekReplayExpectedTotal [sdkLabel; worker] (f_of_Z delta).
Definition AddSeekReplayObserved (worker : string) (delta : Z) : metric_op := MAdd M_SeekReplayObservedTotal [sdkLabel; worker] (f_of_Z delta).
Definition IncSeekReplayMismatch (worker : string) : metric_op := MInc M_SeekReplayMismatchTotal [sdkLabel; worker].
Definition IncInflightCapTailRedelivered (worker : string) : metric_op := MInc M_InflightCapTailRedeliveredTotal [sdkLabel; worker].
Definition AddInflightCapLost (worker : string) (delta : Z) : metric_op := MAdd M_InflightCapLostTotal [sdkLabel; worker] (f_of_Z delta).
Definition IncExactlyOnceInvalidAckConfirmed (worker : string) : metric_op := MInc M_ExactlyOnceInvalidAckConfirmedTotal [sdkLabel; worker].
Definition IncFlowControlViolation (worker : string) : metric_op := MInc M_FlowControlViolationsTotal [sdkLabel; worker].
Definition IncRetryBackoffObserved (worker : string) : metric_op := MInc M_RetryBackoffObservedTotal [sdkLabel; worker].
Definition IncLeaseExtendConfirmed (worker : string) : metric_op := MInc M_LeaseExtendConfirmedTotal [sdkLabel; worker].
Definition IncLeaseExtendRejectConfirmed (worker : string) : metric_op := MInc M_LeaseExtendRejectConfirmedTotal [sdkLabel; worker].
Definition IncCrossStreamAckConfirmed (worker : string) : metric_op := MInc M_CrossStreamAckConfirmedTotal [sdkLabel; worker].
Definition IncPeriodicCloseObserved (worker : string) : metric_op := MInc M_PeriodicCloseObservedTotal [sdkLabel; worker].
Definition SetOutstanding (worker : string) (n : float64) : metric_op := MSet M_OutstandingMessages [sdkLabel; worker] n.
Definition SetDeliveryAttemptMax (worker : string) (n : float64) : metric_op := MSet M_DeliveryAttemptMax [sdkLabel; worker] n.
Definition ObserveLatency (worker : string) (d : Z) : metric_op := MObserve M_MessageLatencySeconds [sdkLabel; worker] (Seconds d).
Definition ObserveSendDuration (worker : string) (d : Z) : metric_op := MObserve M_SendDurationSeconds [sdkLabel; worker] (Seconds d).
Definition AddDowntime (worker : string) (seconds : float64) : metric_op := MAdd M_DowntimeSecondsTotal [sdkLabel; worker] seconds.
Definition IncForcedDisconnect : metric_op := MInc M_ForcedDisconnectsTotal [sdkLabel].
Definition RecordBytesSent (worker : string) (n : Z) : metric_op := MAdd M_BytesSentTotal [sdkLabel; worker] (f_of_Z n).
Definition RecordBytesReceived (worker : string) (n : Z) : metric_op := MAdd M_BytesReceivedTotal [sdkLabel; worker] (f_of_Z n).
Definition SetActiveConnections (worker : string) (n : float64) : metric_op := MSet M_ActiveConnections [sdkLabel; worker] n.
Definition SetTargetRate (worker : string) (r : float64) : metric_op := MSet M_TargetRate [sdkLabel; worker] r.
Definition SetActualRate (worker : string) (r : float64) : metric_op := MSet M_ActualRate [sdkLabel; worker] r.
Definition SetConsumerLag (worker : string) (lag : float64) : metric_op := MSet M_ConsumerLag [sdkLabel; worker] lag.

(** The vectors [InitMetrics] touches for a worker, in the order of the source. *)
Definition init_counters : list metric :=
  [M_MessagesLostTotal; M_MessagesDuplicatedTotal; M_MessagesCorruptedTotal; M_MessagesOutOfOrderTotal;
   M_ReconnectionsTotal; M_BytesSentTotal; M_BytesReceivedTotal; M_AcksTotal; M_DowntimeSecondsTotal;
   M_OrderingViolationsTotal; M_FanoutDeliveriesTotal; M_FanoutDroppedTotal; M_ExactlyOnceConfirmedTotal;
   M_ExactlyOnceUnreconciledTotal; M_DeadLetterRepublishedTotal; M_DeadLetterLostTotal;
   M_InteropConvergedTotal; M_InteropDivergedTotal; M_NackRedeliveredTotal;
   M_BatchAtomicityViolationsTotal; M_FilterMismatchTotal; M_FilterMatchedDeliveredTotal;
   M_SchemaRejectViolationsTotal; M_SchemaEnforceConfirmedTotal; M_SeekReplayExpectedTotal;
   M_SeekReplayObservedTotal; M_SeekReplayMismatchTotal; M_InflightCapTailRedeliveredTotal;
   M_InflightCapLostTotal; M_ExactlyOnceInvalidAckConfirmedTotal; M_FlowControlViolationsTotal;
   M_RetryBackoffObservedTotal; M_LeaseExtendConfirmedTotal; M_LeaseExtendRejectConfirmedTotal;
   M_CrossStreamAckConfirmedTotal; M_PeriodicCloseObservedTotal].

Definition errorTypes : list string :=
  ["send_failure"; "receive_failure"; "ack_failure"; "create_failure";
   "subscribe_failure"; "publish_failure"; "connect_failure"; "interop_failure"].

Definition init_worker (w : string) : list metric_op :=
  [MAdd M_MessagesSentTotal [sdkLabel; w; "p-" +:+ w +:+ "-000"] f0;
   MAdd M_MessagesReceivedTotal [sdkLabel; w; "c-" +:+ w +:+ "-000"] f0] ++
  map (fun m => MAdd m [sdkLabel; w] f0) init_counters ++
  [MSet M_OutstandingMessages [sdkLabel; w] f0; MSet M_DeliveryAttemptMax [sdkLabel; w] f0] ++
  map (fun et => MAdd M_ErrorsTotal [sdkLabel; w; et] f0) errorTypes ++
  [SetActiveConnections w f0; SetTargetRate w f0; SetActualRate w f0; SetConsumerLag w f0].

Definition InitMetrics (workers : list string) : list metric_op :=
  concat (map init_worker workers) ++
  [MAdd M_ForcedDisconnectsTotal [sdkLabel] f0; MSet M_UptimeSeconds [sdkLabel] f0;
   MSet M_WarmupActive [sdkLabel] f0].

(** ** Latency *)

Section latency.
(** [ValueAtQuantile values q] of the HdrHistogram that recorded [values]. *)
Context (ValueAtQuantile : list Z -> float64 -> Z).

(** The histogram is the list of the values it was given, in microseconds. *)
Definition LatencyAccumulator : Type := list Z.
Definition NewLatencyAccumulator : LatencyAccumulator := [].
Definition lat_Record (a : LatencyAccumulator) (d : Z) : LatencyAccumulator := a ++ [Z.quot d Microsecond].
Definition lat_Reset (a : LatencyAccumulator) : LatencyAccumulator := [].
Definition Percentiles (a : LatencyAccumulator) : float64 * float64 * float64 * float64 :=
  let at_ q := fdiv (f_of_Z (ValueAtQuantile a q)) (f_of_Z 1000) in
  (at_ (f_of_Z 50), at_ (f_of_Z 95), at_ (f_of_Z 99), at_ (f_lit 999 10)).
End latency.

(** ** Rate windows *)

Definition slidingWindowSize : nat := 30.

Record SlidingRateWindow := mkSliding {
  sw_buckets : list Z;
  sw_idx : nat;
  sw_total : Z;
  sw_ticks : Z
}.

Definition NewSlidingRateWindow : SlidingRateWindow :=
  mkSliding (replicate slidingWindowSize 0) 0 0 0.

Definition sw_Record (w : SlidingRateWindow) : SlidingRateWindow :=
  mkSliding (alter (fun b => to_int (b + 1)) (sw_idx w) (sw_buckets w)) (sw_idx w) (to_int (sw_total w + 1)) (sw_ticks w).

Definition sw_Advance (w : SlidingRateWindow) : SlidingRateWindow :=
  let idx := ((sw_idx w + 1) mod slidingWindowSize)%nat in
  mkSliding (<[idx := 0]> (sw_buckets w)) idx
    (to_int (sw_total w - default 0 (sw_buckets w !! idx))) (to_int (sw_ticks w + 1)).

Definition sw_Rate (w : SlidingRateWindow) : float64 :=
  let window := if Z.of_nat slidingWindowSize <? sw_ticks w then Z.of_nat slidingWindowSize else sw_ticks w in
  if window =? 0 then f0 else fdiv (f_of_Z (sw_total w)) (f_of_Z window).

Definition sw_Reset (w : SlidingRateWindow) : SlidingRateWindow :=
  mkSliding (map (fun _ => 0) (sw_buckets w)) 0 0 0.

Definition peakWindowSize : nat := 10.

Record PeakRateTracker := mkPeak {
  pk_buckets : list Z;
  pk_idx : nat;
  pk_peak : float64
}.

Definition NewPeakRateTracker : PeakRateTracker := mkPeak (replicate peakWindowSize 0) 0 f0.

Definition pk_Record (p : PeakRateTracker) : PeakRateTracker :=
  mkPeak (alter (fun b => to_int (b + 1)) (pk_idx p) (pk_buckets p)) (pk_idx p) (pk_peak p).

Definition pk_avg (p : PeakRateTracker) : float64 :=
  fdiv (f_of_Z (foldl (fun n b => to_int (n + b)) 0 (pk_buckets p))) (f_of_Z (Z.of_nat peakWindowSize)).

Definition pk_Advance (p : PeakRateTracker) : PeakRateTracker :=
  let avg := pk_avg p in
  let peak := if fltb (pk_peak p) avg then avg else pk_peak p in
  let idx := ((pk_idx p + 1) mod peakWindowSize)%nat in
  mkPeak (<[idx := 0]> (pk_buckets p)) idx peak.

Definition pk_Peak (p : PeakRateTracker) : float64 := pk_peak p.
