(* ===== verification/MetricsProps.v ===== *)
(** * What burnin/metrics guarantees

    The metric surface registers and is used consistently, and the two ring
    buffers compute rates over the last ticks. *)
From S2P Require Import Prelude GoFloat GoFmt Metrics.

(** ** The metric surface *)

Definition all_metrics : list metric :=
  [M_MessagesSentTotal; M_MessagesReceivedTotal; M_ErrorsTotal; M_ForcedDisconnectsTotal;
   M_MessageLatencySeconds; M_SendDurationSeconds; M_ActiveConnections; M_UptimeSeconds; M_TargetRate;
   M_ActualRate; M_ConsumerLag; M_WarmupActive; M_OutstandingMessages; M_DeliveryAttemptMax]
  ++ init_counters.

Lemma all_metrics_complete m : m ∈ all_metrics.
Proof.
  destruct m; unfold all_metrics, init_counters; simpl;
    repeat first [apply list_elem_of_here | apply list_elem_of_further].
Qed.

(** A call the client library accepts: as many label values as labels, and an
    operation of the vector's kind. *)
Definition op_metric (o : metric_op) : metric :=
  match o with MInc m _ | MAdd m _ _ | MSet m _ _ | MObserve m _ _ => m end.
Definition op_ok (o : metric_op) : bool :=
  match o with
  | MInc m l | MAdd m l _ =>
      (length l =? length (metric_labels m))%nat &&
      match metric_kind_of m with KCounter => true | _ => false end
  | MSet m l _ =>
      (length l =? length (metric_labels m))%nat &&
      match metric_kind_of m with KGauge => true | _ => false end
  | MObserve m l _ =>
      (length l =? length (metric_labels m))%nat &&
      match metric_kind_of m with KHistogram => true | _ => false end
  end.

Lemma metric_names_nodup : NoDup (map metric_name all_metrics).
Proof. refine (bool_decide_eq_true_1 _ _). vm_compute. reflexivity. Qed.

Lemma metric_name_inj m1 m2 : metric_name m1 = metric_name m2 -> m1 = m2.
Proof.
  intros E. pose proof metric_names_nodup as Hnd.
  destruct (list_elem_of_lookup_1 _ _ (all_metrics_complete m1)) as [i Hi].
  destruct (list_elem_of_lookup_1 _ _ (all_metrics_complete m2)) as [j Hj].
  assert (i = j) as ->; [|congruence].
  eapply NoDup_lookup; [exact Hnd| |].
  - by rewrite list_lookup_fmap, Hi.
  - rewrite list_lookup_fmap, Hj. simpl. by f_equal.
Qed.

Lemma init_worker_ok w : forallb op_ok (init_worker w) = true.
Proof. reflexivity. Qed.

Lemma init_covers w m : In "worker" (metric_labels m) -> metric_kind_of m <> KHistogram ->
  exists o, In o (init_worker w) /\ op_metric o = m /\ op_ok o = true.
Proof.
  intros Hl Hk.
  destruct m; try (exfalso; apply Hk; reflexivity);
    try (exfalso; simpl in Hl; intuition discriminate);
    match goal with |- exists o, In o ?l /\ op_metric o = ?m /\ _ =>
      assert (existsb (fun o => bool_decide (metric_name (op_metric o) = metric_name m) && op_ok o) l = true) as H
        by reflexivity;
      apply existsb_exists in H as (o & Hin & H); apply andb_true_iff in H as [H1 H2];
      apply bool_decide_eq_true in H1; apply metric_name_inj in H1; by exists o
    end.
Qed.

(** No two vectors share a metric name (registering a name
    twice panics), every call [InitMetrics] makes fits its vector, and every
    worker-labelled counter and gauge is initialised for every worker. *)
Theorem metric_surface_consistent workers :
  (forall m1 m2, metric_name m1 = metric_name m2 -> m1 = m2) /\
  forallb op_ok (InitMetrics workers) = true /\
  (forall w m, In w workers -> In "worker" (metric_labels m) -> metric_kind_of m <> KHistogram ->
     exists o, In o (InitMetrics workers) /\ op_metric o = m /\ op_ok o = true).
Proof.
  split; [apply metric_name_inj|]. split.
  - unfold InitMetrics. rewrite forallb_app, andb_true_iff. split; [|reflexivity].
    induction workers as [|w ws IH]; [done|]. cbn [map concat]. by rewrite forallb_app, init_worker_ok.
  - intros w m Hw Hl Hk. destruct (init_covers w m Hl Hk) as (o & Ho & ?).
    exists o. split; [|done]. unfold InitMetrics. apply in_or_app. left.
    apply in_concat. exists (init_worker w). split; [by apply in_map|done].
Qed.

(** ** Ring buffers *)

(** The reference: messages per tick, the current tick first. *)
Inductive rate_op := RRecord | RAdvance.

Definition hist_step (h : list Z) (o : rate_op) : list Z :=
  match o with
  | RRecord => match h with x :: t => (x + 1) :: t | [] => [1] end
  | RAdvance => 0 :: h
  end.
Definition history (ops : list rate_op) : list Z := foldl hist_step [0] ops.

(** Bucket [idx - j] (modulo [n]) holds the count of [j] ticks ago. *)
Definition ring_pos (n idx j : nat) : nat := if (j <=? idx)%nat then idx - j else idx + n - j.

Record ring_rel (n : nat) (buckets : list Z) (idx : nat) (h : list Z) : Prop := {
  rr_len : length buckets = n;
  rr_idx : (idx < n)%nat;
  rr_cur : h <> [];
  rr_at : forall j, (j < n)%nat -> buckets !! ring_pos n idx j = Some (nth j h 0);
  rr_sum : zsum buckets = zsum (take n h)
}.

Section ring.
Context (n : nat) (Hn : (1 < n)%nat).

Lemma ring_new : ring_rel n (replicate n 0) 0 [0].
Proof.
  split; [apply length_replicate|lia|done| |].
  - intros j Hj. rewrite lookup_replicate_2 by (unfold ring_pos; case_match; zbool; lia || (apply Nat.leb_gt in H; lia)).
    by destruct j as [|[|j]].
  - rewrite zsum_replicate. destruct n as [|[|m]]; simpl; lia.
Qed.

Lemma ring_record b i h : ring_rel n b i h -> is_int (nth 0 h 0 + 1) ->
  ring_rel n (alter (fun x => to_int (x + 1)) i b) i (hist_step h RRecord).
Proof.
  intros [Hl Hi Hc Hat Hs] Hx. destruct h as [|x h]; [done|]. cbn [nth] in Hx. cbn [hist_step].
  pose proof (Hat 0%nat ltac:(lia)) as H0. unfold ring_pos in H0. simpl in H0. rewrite Nat.sub_0_r in H0.
  rewrite (list_alter_ext (fun x => to_int (x + 1)) (fun x => x + 1) b b i); [| |done].
  2: { intros y Hy. rewrite H0 in Hy. injection Hy as <-. by apply to_int_small. }
  split; [by rewrite length_alter|done|done| |].
  - intros j Hj. rewrite list_lookup_alter. destruct j as [|j].
    + unfold ring_pos. simpl. rewrite Nat.sub_0_r. rewrite decide_True by done. by rewrite H0.
    + rewrite decide_False.
      * rewrite (Hat (S j) Hj). done.
      * unfold ring_pos. destruct (Nat.leb_spec (S j) i); lia.
  - rewrite (zsum_alter _ _ _ x) by done. destruct n as [|m]; [lia|]. simpl in *. lia.
Qed.

Lemma ring_advance b i h :
  ring_rel n b i h ->
  let i' := ((i + 1) mod n)%nat in
  ring_rel n (<[i' := 0]> b) i' (hist_step h RAdvance) /\ b !! i' = Some (nth (n - 1) h 0).
Proof.
  intros [Hl Hi Hc Hat Hs]. simpl.
  assert (((i + 1) mod n)%nat = if (i + 1 =? n)%nat then 0%nat else (i + 1)%nat) as Hi'.
  { destruct (Nat.eqb_spec (i + 1) n) as [->|]; [apply Nat.Div0.mod_same|apply Nat.mod_small; lia]. }
  set (i' := ((i + 1) mod n)%nat) in *.
  assert (i' < n)%nat as Hlt by (rewrite Hi'; destruct (Nat.eqb_spec (i + 1) n); lia).
  assert (b !! i' = Some (nth (n - 1) h 0)) as He.
  { rewrite <- (Hat (n - 1)%nat) by lia. f_equal. rewrite Hi'. unfold ring_pos.
    destruct (Nat.eqb_spec (i + 1) n), (Nat.leb_spec (n - 1) i); lia. }
  split; [|done]. split; [by rewrite length_insert|done|done| |].
  - intros j Hj. destruct j as [|j].
    + unfold ring_pos. simpl. rewrite Nat.sub_0_r. rewrite list_lookup_insert_eq; [done|lia].
    + assert (ring_pos n i' (S j) = ring_pos n i j) as Hp.
      { rewrite Hi'. unfold ring_pos.
        destruct (Nat.eqb_spec (i + 1) n);
          repeat match goal with |- context [(?a <=? ?b)%nat] => destruct (Nat.leb_spec a b) end; lia. }
      rewrite list_lookup_insert_ne.
      * rewrite Hp. by rewrite Hat by lia.
      * unfold ring_pos. destruct (Nat.leb_spec (S j) i'); lia.
  - rewrite (zsum_insert _ _ _ _ He), zsum_take_cons by lia. lia.
Qed.
End ring.

(** Fewer operations than 2^63 keep every number a counter. *)
Lemma history_bounds ops :
  Forall (Z.le 0) (history ops) /\ zsum (history ops) <= Z.of_nat (length ops) /\ history ops <> [] /\
  (length (history ops) <= length ops + 1)%nat.
Proof.
  unfold history. induction ops as [|o ops (H1 & H2 & H3 & H4)] using rev_ind; [split_and!; [by repeat constructor|done..]|].
  rewrite foldl_app, !length_app. cbn [foldl length]. destruct o; cbn [hist_step].
  - destruct (foldl hist_step [0] ops) as [|x h]; [done|]. apply Forall_cons in H1 as [Hx H1]. cbn [zsum foldr length] in *.
    unfold zsum in *. cbn [foldr] in *. split_and!; [constructor; [lia|done]|lia|done|lia].
  - unfold zsum in *. cbn [foldr length]. split_and!; [by constructor|lia|done|lia].
Qed.
Lemma zsum_take_bounds n (h : list Z) : Forall (Z.le 0) h -> 0 <= zsum (take n h) <= zsum h.
Proof.
  intros H. revert n. induction H as [|x h Hx H IH]; intros [|n]; cbn [take zsum foldr]; unfold zsum in *; cbn [foldr].
  - lia.
  - lia.
  - specialize (IH 0%nat). rewrite take_0 in IH. cbn [foldr] in IH. lia.
  - specialize (IH n). lia.
Qed.
Lemma nth0_bounds (h : list Z) : Forall (Z.le 0) h -> 0 <= nth 0 h 0 <= zsum h.
Proof.
  intros H. destruct H as [|x h Hx H]; [done|]. pose proof (zsum_take_bounds 0 h H) as B. rewrite take_0 in B.
  unfold zsum in *. cbn [nth foldr] in *. lia.
Qed.
Lemma window_int n ops : Z.of_nat (length ops) < two63 -> is_int (zsum (take n (history ops))).
Proof. intros H. destruct (history_bounds ops) as (B1 & B2 & _). pose proof (zsum_take_bounds n _ B1). range. Qed.

(** ** The sliding window *)

Definition sw_step (w : SlidingRateWindow) (o : rate_op) : SlidingRateWindow :=
  match o with RRecord => sw_Record w | RAdvance => sw_Advance w end.

Definition sw_inv (w : SlidingRateWindow) (ops : list rate_op) : Prop :=
  ring_rel slidingWindowSize (sw_buckets w) (sw_idx w) (history ops) /\
  sw_total w = zsum (take slidingWindowSize (history ops)) /\
  sw_ticks w = Z.of_nat (length (history ops)) - 1.

Lemma history_snoc ops o : history (ops ++ [o]) = hist_step (history ops) o.
Proof. unfold history. by rewrite foldl_app. Qed.

Lemma sw_run_inv ops : Z.of_nat (length ops) < two63 -> sw_inv (foldl sw_step NewSlidingRateWindow ops) ops.
Proof.
  induction ops as [|o ops IH] using rev_ind; intros Hn.
  { split_and!; [apply ring_new; unfold slidingWindowSize; lia|done|done]. }
  pose proof (window_int slidingWindowSize _ Hn) as Hw. rewrite length_app in Hn. cbn [length] in Hn.
  destruct (history_bounds ops) as (B1 & B2 & _ & B4). pose proof (nth0_bounds _ B1) as B0.
  destruct (IH ltac:(lia)) as (Hr & Ht & Hk). clear IH. unfold sw_inv. rewrite foldl_app, history_snoc in *. cbn [foldl].
  set (w := foldl sw_step _ ops) in *. set (h := history ops) in *. clearbody h w. destruct o; cbn [sw_step hist_step] in *.
  - destruct (ring_record slidingWindowSize ltac:(unfold slidingWindowSize; lia) _ _ _ Hr ltac:(range)) as [R1 R2 R3 R4 R5].
    split; [by split|]. destruct h as [|x h']; [by destruct (rr_cur _ _ _ _ Hr)|]. unfold slidingWindowSize in *.
    split; [|exact Hk]. cbn [sw_Record sw_total]. rewrite Ht.
    cbn [hist_step take] in *. unfold zsum in *. cbn [foldr] in *. rewrite to_int_small; [lia|range].
  - destruct (ring_advance slidingWindowSize ltac:(unfold slidingWindowSize; lia) _ _ _ Hr) as [Hr' He].
    split; [exact Hr'|]. cbn [sw_Advance sw_total sw_ticks]. rewrite He, Ht, Hk. cbn [from_option]. unfold id. split.
    + rewrite zsum_take_cons in Hw |- * by (unfold slidingWindowSize; lia). rewrite to_int_small; [lia|range].
    + cbn [length]. rewrite to_int_small; [lia|range].
Qed.

(** After any sequence of fewer than 2^63 records and ticks the sliding
    window reports the messages of the current tick and the 29 before it,
    divided by the number of completed ticks up to 30 (0 before the first
    tick). *)
Theorem sliding_rate_spec ops :
  Z.of_nat (length ops) < two63 ->
  let h := history ops in
  let completed := Z.of_nat (length h) - 1 in
  sw_Rate (foldl sw_step NewSlidingRateWindow ops) =
    if completed =? 0 then f0
    else fdiv (f_of_Z (zsum (take 30 h))) (f_of_Z (Z.min 30 completed)).
Proof.
  intros Hn. simpl. destruct (sw_run_inv ops Hn) as (Hr & Ht & Hk). unfold sw_Rate. rewrite Ht, Hk.
  pose proof (rr_cur _ _ _ _ Hr). assert (0 < length (history ops))%nat by (destruct (history ops); [done|simpl; lia]).
  change (Z.of_nat slidingWindowSize) with 30. unfold slidingWindowSize.
  destruct (30 <? Z.of_nat (length (history ops)) - 1) eqn:E; zbool.
  - rewrite (proj2 (Z.eqb_neq (Z.of_nat (length (history ops)) - 1) 0)), Z.min_l by lia. done.
  - rewrite Z.min_r by lia. done.
Qed.

(** ** The peak *)

Definition pk_step (p : PeakRateTracker) (o : rate_op) : PeakRateTracker :=
  match o with RRecord => pk_Record p | RAdvance => pk_Advance p end.

Lemma pk_run_ring ops :
  Z.of_nat (length ops) < two63 ->
  let p := foldl pk_step NewPeakRateTracker ops in
  ring_rel peakWindowSize (pk_buckets p) (pk_idx p) (history ops).
Proof.
  induction ops as [|o ops IH] using rev_ind; intros Hn.
  { apply ring_new. unfold peakWindowSize. lia. }
  rewrite length_app in Hn. cbn [length] in Hn. specialize (IH ltac:(lia)).
  cbv zeta in *. rewrite history_snoc, foldl_app. cbn [foldl].
  destruct o.
  - apply ring_record; [unfold peakWindowSize; lia|done|].
    destruct (history_bounds ops) as (B1 & B2 & _). pose proof (nth0_bounds _ B1). range.
  - by apply ring_advance; [unfold peakWindowSize; lia|].
Qed.

(** The average the tracker would see at the end of [ops]. *)
Definition tick_avg (ops : list rate_op) : float64 :=
  fdiv (f_of_Z (zsum (take 10 (history ops)))) (f_of_Z 10).

Lemma pk_avg_spec ops : Z.of_nat (length ops) < two63 -> pk_avg (foldl pk_step NewPeakRateTracker ops) = tick_avg ops.
Proof.
  intros Hn. pose proof (pk_run_ring ops Hn) as Hr. cbv zeta in Hr. unfold pk_avg, tick_avg.
  rewrite foldl_wrap_zsum, Z.add_0_l, (rr_sum _ _ _ _ Hr) by range. rewrite to_int_small by by apply window_int. done.
Qed.

(** The running maximum of the averages at the ticks of [ops]. *)
Fixpoint peak_spec (pre ops : list rate_op) (best : float64) : float64 :=
  match ops with
  | [] => best
  | RRecord :: ops' => peak_spec (pre ++ [RRecord]) ops' best
  | RAdvance :: ops' =>
      peak_spec (pre ++ [RAdvance]) ops' (if fltb best (tick_avg pre) then tick_avg pre else best)
  end.

Lemma peak_spec_run ops pre :
  Z.of_nat (length (pre ++ ops)) < two63 ->
  pk_Peak (foldl pk_step (foldl pk_step NewPeakRateTracker pre) ops)
    = peak_spec pre ops (pk_Peak (foldl pk_step NewPeakRateTracker pre)).
Proof.
  revert pre. induction ops as [|o ops IH]; intros pre Hn; [done|]. cbn [foldl].
  assert (forall o, pk_step (foldl pk_step NewPeakRateTracker pre) o
                    = foldl pk_step NewPeakRateTracker (pre ++ [o])) as Hs.
  { intros o'. by rewrite foldl_app. }
  rewrite Hs, IH by (by rewrite <- app_assoc). destruct o; cbn [peak_spec]; rewrite <- Hs; [done|].
  unfold pk_step, pk_Advance, pk_Peak. cbn [pk_peak]. rewrite pk_avg_spec; [done|]. rewrite length_app in Hn. lia.
Qed.

(** For fewer than 2^63 operations the peak is the running maximum, over the
    ticks, of the average of the last ten ticks. *)
Theorem peak_rate_spec ops :
  Z.of_nat (length ops) < two63 ->
  pk_Peak (foldl pk_step NewPeakRateTracker ops) = peak_spec [] ops f0.
Proof. apply (peak_spec_run ops []). Qed.
