(* ===== verification/Transport.v ===== *)
(** * burnin/transport: names, addresses and the RPC wrappers

    The naming grammar of resources.go, address resolution, gRPC status
    classification, the idempotent create and delete wrappers, batch and
    ordered publishing, and the flow-control probe's receive loop.  The Google
    client is a parameter: the class [PubSubAPI] lists the calls the wrappers
    make on it, over an abstract broker state. *)
From S2P Require Import Prelude GoFloat GoFmt Config.
From Stdlib Require Import Ascii.

(** ** Environment and addresses *)

Definition BrokerEnv : string := "KUBEMQ_BROKER_ADDRESS".
Definition EmulatorEnv : string := "PUBSUB_EMULATOR_HOST".
Definition GRPCEnv : string := "KUBEMQ_GRPC_ADDRESS".
Definition DefaultBroker : string := "localhost:8085".
Definition DefaultGRPC : string := "localhost:50000".
Definition ResourcePrefixEnv : string := "BURNIN_RESOURCE_PREFIX".

Definition nonempty (s : string) : bool := negb (String.eqb s "").

Definition EmulatorHost (Getenv : string -> string) (emulatorHost address : string) : string :=
  if nonempty emulatorHost then emulatorHost
  else if nonempty address then address
  else if nonempty (Getenv EmulatorEnv) then Getenv EmulatorEnv
  else if nonempty (Getenv BrokerEnv) then Getenv BrokerEnv
  else DefaultBroker.

Definition GRPCAddress (Getenv : string -> string) (address : string) : string :=
  if nonempty address then address
  else if nonempty (Getenv GRPCEnv) then Getenv GRPCEnv
  else DefaultGRPC.

Definition resourcePrefix (Getenv : string -> string) : string :=
  if nonempty (Getenv ResourcePrefixEnv) then Getenv ResourcePrefixEnv else "gcp_burnin".

(** [splitHostPort], over [net.SplitHostPort]. *)
Definition splitHostPort (SplitHostPort : string -> result (string * string)) (address : string)
  : result (string * Z) :=
  '(host, portStr) ← SplitHostPort address;
  match Atoi portStr with
  | None => Err (Sprintf "invalid port %q" [AStr portStr])
  | Some port => Ok (host, port)
  end.

Record PubSubConfig := mkPubSub { ps_ProjectID : string; ps_EmulatorHost : string }.
Record NativeConfig := mkNative { nc_Address : string; nc_ClientID : string }.

(** ** Names; [prefix] is [resourcePrefix()] *)

Section names.
Context (prefix : string).

Definition TopicName (worker : string) (idx : Z) : string :=
  Sprintf "%s_%s_%04d" [AStr prefix; AStr worker; AInt idx].
Definition SubscriptionName (worker : string) (idx : Z) : string :=
  Sprintf "%s_%s_%04d_sub" [AStr prefix; AStr worker; AInt idx].
Definition FanoutSubscriptionName (worker : string) (idx sub : Z) : string :=
  Sprintf "%s_%s_%04d_s%02d" [AStr prefix; AStr worker; AInt idx; AInt sub].
Definition SnapshotName (worker : string) (idx : Z) : string :=
  Sprintf "%s_%s_%04d_snap" [AStr prefix; AStr worker; AInt idx].
Definition SchemaName (worker : string) (idx : Z) : string :=
  Sprintf "%s_%s_%04d_schema" [AStr prefix; AStr worker; AInt idx].
Definition DeadLetterTopicName (worker : string) (idx : Z) : string :=
  Sprintf "%s_%s_%04d_dlt" [AStr prefix; AStr worker; AInt idx].
Definition DeadLetterSubscriptionName (worker : string) (idx : Z) : string :=
  Sprintf "%s_%s_%04d_dlt_sub" [AStr prefix; AStr worker; AInt idx].
End names.

Definition MappedTopicChannel (topic : string) : string := Sprintf "pubsub.%s" [AStr topic].
Definition MappedSubscriptionChannel (sub : string) : string := Sprintf "pubsub.sub.%s" [AStr sub].
Definition SubscriptionPath (projectID subID : string) : string :=
  Sprintf "projects/%s/subscriptions/%s"
    [AStr (if nonempty projectID then projectID else "burnin"); AStr subID].

(** ** gRPC errors *)

Inductive code :=
| InvalidArgument | NotFound | AlreadyExists | PermissionDenied | FailedPrecondition | Unavailable | OtherCode.
Global Instance code_eq_dec : EqDecision code.
Proof. solve_decision. Defined.

(** A gRPC error: its status code, the reason of its ErrorInfo detail when it
    has one, and its text.  Wrapping with [%w] keeps the status. *)
Record rpc_error := mkErr { e_code : code; e_reason : option string; e_text : string }.
Definition wrap (k : string -> string) (e : rpc_error) : rpc_error :=
  mkErr (e_code e) (e_reason e) (k (e_text e)).

Definition IsAlreadyExists (e : rpc_error) : bool := bool_decide (e_code e = AlreadyExists).
Definition IsNotFound (e : rpc_error) : bool := bool_decide (e_code e = NotFound).
Definition IsInvalidArgument (e : rpc_error) : bool := bool_decide (e_code e = InvalidArgument).
Definition IsFailedPrecondition (e : rpc_error) : bool := bool_decide (e_code e = FailedPrecondition).

Definition InvalidAckIDReason : string := "PERMANENT_FAILURE_INVALID_ACK_ID".
Definition AckErrorReason (e : rpc_error) : string := default "" (e_reason e).

Inductive AcknowledgeStatus :=
| StatusSuccess | StatusPermissionDenied | StatusFailedPrecondition | StatusInvalidAckID | StatusOther.
Global Instance ackstatus_eq_dec : EqDecision AcknowledgeStatus.
Proof. solve_decision. Defined.

Definition ackStatusFromError (err : option rpc_error) : AcknowledgeStatus :=
  match err with
  | None => StatusSuccess
  | Some e =>
      match e_code e with
      | FailedPrecondition =>
          if String.eqb (AckErrorReason e) InvalidAckIDReason then StatusInvalidAckID
          else StatusFailedPrecondition
      | PermissionDenied => StatusPermissionDenied
      | _ => StatusOther
      end
  end.

Definition ackStatusString (s : AcknowledgeStatus) : string :=
  match s with
  | StatusSuccess => "success"
  | StatusPermissionDenied => "permission_denied"
  | StatusFailedPrecondition => "failed_precondition"
  | StatusInvalidAckID => "invalid_ack_id"
  | StatusOther => "other"
  end.

(** ** Subscription settings *)

Definition AckDeadline (seconds : Z) : Z := to_int (seconds * Second).
Definition DefaultMaxOutstanding : Z := 1000.

(** The fields of [pubsub.SubscriptionConfig] the code sets: the dead-letter
    policy is its topic and its attempts, the retry policy its two back-offs. *)
Record SubscriptionConfig := mkSubCfg {
  sc_Topic : string; sc_AckDeadline : Z; sc_Filter : string; sc_Ordering : bool; sc_ExactlyOnce : bool;
  sc_DeadLetter : option (string * Z); sc_Retry : option (Z * Z)
}.
Global Instance sub_cfg_eq_dec : EqDecision SubscriptionConfig.
Proof. solve_decision. Defined.
(** One with a topic and a deadline alone. *)
Definition plain_subscription (topic : string) (ackDeadline : Z) : SubscriptionConfig :=
  mkSubCfg topic ackDeadline "" false false None None.
Definition FilteredSubscriptionConfig (topic : string) (ackDeadlineSeconds : Z) (filter : string) :=
  mkSubCfg topic (AckDeadline ackDeadlineSeconds) filter false false None None.
Definition OrderingSubscriptionConfig (topic : string) (ackDeadlineSeconds : Z) :=
  mkSubCfg topic (AckDeadline ackDeadlineSeconds) "" true false None None.

Record ReceiveSettings := mkReceive {
  NumGoroutines : Z; MaxOutstandingMessages : Z; MaxOutstandingBytes : Z
}.
Definition ConfigureReceiveWithBytes (rs : ReceiveSettings) (numStreams maxOutstandingBytes : Z) :=
  mkReceive (if numStreams <? 1 then 1 else numStreams) DefaultMaxOutstanding
    (if 0 <? maxOutstandingBytes then maxOutstandingBytes else MaxOutstandingBytes rs).
Definition ConfigureReceive (rs : ReceiveSettings) (numStreams : Z) :=
  ConfigureReceiveWithBytes rs numStreams 0.

(** ** Calls on the Google client *)

(** The calls the wrappers make, over the broker's state.  A failing call
    returns its error. *)
Class PubSubAPI (St : Type) := {
  api_CreateTopic : string -> St -> St * option rpc_error;
  api_CreateSubscription : string -> SubscriptionConfig -> St -> St * option rpc_error;
  api_DeleteSnapshot : string -> St -> St * option rpc_error;
  api_DeleteSchema : string -> St -> St * option rpc_error
}.

Section ops.
Context {St : Type} {api : PubSubAPI St}.

(** The handle is the topic's id; [Err] is the wrapped error. *)
Definition EnsureTopic (topicID : string) (s : St) : St * (string + rpc_error) :=
  let '(s', err) := api_CreateTopic topicID s in
  match err with
  | None => (s', inl topicID)
  | Some e =>
      if negb (IsAlreadyExists e)
      then (s', inr (wrap (fun t => Sprintf "create topic %q: %w" [AStr topicID; AStr t]) e))
      else (s', inl topicID)
  end.

Definition EnsureSubscription (subID : string) (cfg : SubscriptionConfig) (s : St)
  : St * (string + rpc_error) :=
  let '(s', err) := api_CreateSubscription subID cfg s in
  match err with
  | None => (s', inl subID)
  | Some e =>
      if negb (IsAlreadyExists e)
      then (s', inr (wrap (fun t => Sprintf "create subscription %q: %w" [AStr subID; AStr t]) e))
      else (s', inl subID)
  end.

Definition DeleteSnapshot (snapshotID : string) (s : St) : St * option rpc_error :=
  let '(s', err) := api_DeleteSnapshot snapshotID s in
  match err with
  | None => (s', None)
  | Some e =>
      if IsNotFound e || IsAlreadyExists e then (s', None)
      else (s', Some (wrap (fun t => Sprintf "delete snapshot %q: %w" [AStr snapshotID; AStr t]) e))
  end.

Definition DeleteSchema (schemaID : string) (s : St) : St * option rpc_error :=
  let '(s', err) := api_DeleteSchema schemaID s in
  match err with
  | None => (s', None)
  | Some e =>
      if IsNotFound e || IsAlreadyExists e then (s', None)
      else (s', Some (wrap (fun t => Sprintf "delete schema %q: %w" [AStr schemaID; AStr t]) e))
  end.
End ops.

(** [ListSnapshots] drains an iterator: its values until the first error. *)
Fixpoint ListSnapshots {A} (it : list (A + rpc_error)) : list A + rpc_error :=
  match it with
  | [] => inl []
  | inr e :: _ => inr (wrap (fun t => Sprintf "list snapshots: %w" [AStr t]) e)
  | inl c :: it' => match ListSnapshots it' with inl l => inl (c :: l) | inr e => inr e end
  end.

(** [GetSnapshot]: the first listed snapshot with the id. *)
Definition GetSnapshot (it : list (string + rpc_error)) (snapshotID : string) : result string :=
  match ListSnapshots it with
  | inr e => Err (e_text e)
  | inl cfgs =>
      match List.find (fun id => String.eqb id snapshotID) cfgs with
      | Some c => Ok c
      | None => Err (Sprintf "get snapshot %q: not found" [AStr snapshotID])
      end
  end.

(** ** Publishing *)

(** [results] are the outcomes of the per-message results of a batch, in
    order: the assigned id or the error. *)
Fixpoint publish_batch_loop (i total : Z) (results : list (string + rpc_error)) : list string + rpc_error :=
  match results with
  | [] => inl []
  | inr e :: _ =>
      inr (wrap (fun t => Sprintf "publish batch (msg %d/%d): %w" [AInt (i + 1); AInt total; AStr t]) e)
  | inl id :: rest =>
      match publish_batch_loop (i + 1) total rest with inl ids => inl (id :: ids) | inr e => inr e end
  end.
Definition PublishBatch (results : list (string + rpc_error)) : list string + rpc_error :=
  publish_batch_loop 0 (Z.of_nat (length results)) results.

Definition PublishMessageSync (outcome : string + rpc_error) : string + rpc_error :=
  match outcome with
  | inl id => inl id
  | inr e => inr (wrap (fun t => Sprintf "publish: %w" [AStr t]) e)
  end.

(** The publisher's state is the client library's: [publish key] enqueues and
    awaits a message on an ordering key, [resume key] is [ResumePublish]. *)
Definition PublishOrdered {St} (publish : string -> St -> St * (string + rpc_error))
    (resume : string -> St -> St) (key : string) (s : St) : St * (string + rpc_error) :=
  let '(s1, r) := publish key s in
  match PublishMessageSync r with
  | inl id => (s1, inl id)
  | inr e => (resume key s1, inr e)
  end.

(** ** The flow-control probe *)

Definition flowControlStreamPollInterval : Z := 50 * Millisecond.
Definition flowControlMinIdleWindow : Z := 1 * Second.

Definition idle_window (recvBudget : Z) : Z :=
  let recvBudget := if recvBudget <? 1 then 1 else recvBudget in
  let w := to_int (recvBudget * flowControlStreamPollInterval) in
  if w <? flowControlMinIdleWindow then flowControlMinIdleWindow else w.

(** What the [select] of the probe can see: the context's end, the idle timer,
    a batch of [got] messages, or a stream error ([quiet] when it is EOF or the
    context has ended). *)
Inductive probe_event := PDone | PIdle | PRecv (got : Z) | PErr (quiet : bool) (text : string).

(** The loop over a sequence of events; [None] when the sequence ends before
    the loop returns. *)
Fixpoint clamp_loop (unacked : Z) (evs : list probe_event) : option (Z * option string) :=
  match evs with
  | [] => None
  | PDone :: _ => Some (unacked, None)
  | PIdle :: _ => Some (unacked, None)
  | PErr quiet text :: _ =>
      Some (unacked, if quiet then None else Some (Sprintf "streaming pull recv: %w" [AStr text]))
  | PRecv got :: evs' => if got =? 0 then clamp_loop unacked evs' else clamp_loop (unacked + got) evs'
  end.
(** [openErr] and [sendErr] are the errors of opening the stream and of its
    first request. *)
Definition FlowControlClampProbe (openErr sendErr : option string) (evs : list probe_event) : option (Z * option string) :=
  match openErr, sendErr with
  | Some e, _ => Some (0, Some (Sprintf "open streaming pull: %w" [AStr e]))
  | None, Some e => Some (0, Some (Sprintf "send initial streaming pull request: %w" [AStr e]))
  | None, None => clamp_loop 0 evs
  end.
