(* ===== verification/TransportProps.v ===== *)
(** * What burnin/transport guarantees

    Resource ids never collide, the provisioning wrappers are idempotent over
    any client with the documented create semantics, ordered publishing leaves
    no key paused, and the flow-control probe reports what it received. *)
From S2P Require Import Prelude GoFloat GoFmt Config Transport.
From Stdlib Require Import Ascii.

(** ** Splitting at the last underscore *)

Fixpoint no_char (c : ascii) (s : string) : bool :=
  match s with EmptyString => true | String d s' => negb (Ascii.eqb d c) && no_char c s' end.

Lemma no_char_app c a b : no_char c (a +:+ b) = no_char c a && no_char c b.
Proof. induction a as [|d a IH]; [done|]. cbn [String.append no_char]. by rewrite IH, andb_assoc. Qed.

Lemma last_sep_inj c a b x y :
  no_char c x = true -> no_char c y = true ->
  a +:+ String c x = b +:+ String c y -> a = b /\ x = y.
Proof.
  intros Hx Hy. revert b. induction a as [|d a IH]; intros [|e b] E; cbn [String.append] in E.
  - by injection E as ->.
  - injection E as -> E. exfalso. rewrite E, no_char_app in Hx. cbn [no_char] in Hx.
    by rewrite Ascii.eqb_refl, andb_false_r in Hx.
  - injection E as -> E. exfalso. rewrite <- E, no_char_app in Hy. cbn [no_char] in Hy.
    by rewrite Ascii.eqb_refl, andb_false_r in Hy.
  - injection E as -> E. destruct (IH b E) as [-> ->]. done.
Qed.

(** ** Zero-padded numbers *)

Lemma parse_zeros k s : parse_digits (Repeat "0" k +:+ s) 0 = parse_digits s 0.
Proof. induction k as [|k IH]; [done|]. exact IH. Qed.

Lemma fmt_0d_parse w z : 0 <= z < two64 -> parse_digits (fmt_0d w z) 0 = Some z.
Proof.
  intros Hz. unfold fmt_0d. rewrite (proj2 (Z.ltb_ge _ _)) by lia.
  unfold pad_left. rewrite parse_zeros. apply parse_digits_of; [range|done].
Qed.

Lemma fmt_0d_inj w z z' : 0 <= z < two64 -> 0 <= z' < two64 -> fmt_0d w z = fmt_0d w z' -> z = z'.
Proof. intros H H' E. pose proof (fmt_0d_parse w z H). rewrite E, fmt_0d_parse in H0 by done. congruence. Qed.

(** A parsed text is all digits, so it holds no underscore. *)
Lemma parse_no_underscore s a n : parse_digits s a = Some n -> no_char "_" s = true.
Proof.
  revert a. induction s as [|c s IH]; intros a H; [done|]. cbn [parse_digits] in H.
  destruct (is_digit c) eqn:Hc; [|done]. destruct (_ <=? _); [done|]. cbn [no_char].
  rewrite (IH _ H), andb_true_r. apply negb_true_iff, Ascii.eqb_neq. by intros ->.
Qed.

Lemma fmt_0d_no_underscore w z : 0 <= z < two64 -> no_char "_" (fmt_0d w z) = true.
Proof. intros H. by eapply parse_no_underscore, fmt_0d_parse. Qed.

(** ** The resources of the harness *)

Inductive resource :=
| RTopic (w : string) (i : Z)
| RSub (w : string) (i : Z)
| RFanoutSub (w : string) (i s : Z)
| RSnapshot (w : string) (i : Z)
| RSchema (w : string) (i : Z)
| RDeadLetterTopic (w : string) (i : Z)
| RDeadLetterSub (w : string) (i : Z).

Definition resource_id (prefix : string) (r : resource) : string :=
  match r with
  | RTopic w i => TopicName prefix w i
  | RSub w i => SubscriptionName prefix w i
  | RFanoutSub w i s => FanoutSubscriptionName prefix w i s
  | RSnapshot w i => SnapshotName prefix w i
  | RSchema w i => SchemaName prefix w i
  | RDeadLetterTopic w i => DeadLetterTopicName prefix w i
  | RDeadLetterSub w i => DeadLetterSubscriptionName prefix w i
  end.

Definition index_ok (i : Z) : Prop := 0 <= i < two64.
Definition resource_ok (r : resource) : Prop :=
  match r with
  | RTopic _ i | RSub _ i | RSnapshot _ i | RSchema _ i | RDeadLetterTopic _ i | RDeadLetterSub _ i =>
      index_ok i
  | RFanoutSub _ i s => index_ok i /\ index_ok s
  end.

(** Every id is [prefix_worker_NNNN] followed by a tail of its kind. *)
Definition base_id (prefix w : string) (i : Z) : string := (prefix +:+ "_" +:+ w) +:+ String "_" (fmt_0d 4 i).

Lemma resource_id_shape prefix r :
  resource_id prefix r =
  match r with
  | RTopic w i => base_id prefix w i
  | RSub w i => base_id prefix w i +:+ String "_" "sub"
  | RFanoutSub w i s => base_id prefix w i +:+ String "_" (String "s" (fmt_0d 2 s))
  | RSnapshot w i => base_id prefix w i +:+ String "_" "snap"
  | RSchema w i => base_id prefix w i +:+ String "_" "schema"
  | RDeadLetterTopic w i => base_id prefix w i +:+ String "_" "dlt"
  | RDeadLetterSub w i => (base_id prefix w i +:+ String "_" "dlt") +:+ String "_" "sub"
  end.
Proof.
  destruct r; unfold resource_id, base_id, TopicName, SubscriptionName, FanoutSubscriptionName,
    SnapshotName, SchemaName, DeadLetterTopicName, DeadLetterSubscriptionName;
    cbn [Sprintf fmt_s fmt_0w String.append]; rewrite ?sapp_assoc; cbn [String.append];
    rewrite ?sapp_assoc; cbn [String.append]; rewrite ?sapp_nil_r; reflexivity.
Qed.

Lemma base_id_inj prefix w w' i i' :
  index_ok i -> index_ok i' -> base_id prefix w i = base_id prefix w' i' -> w = w' /\ i = i'.
Proof.
  intros Hi Hi' E. apply last_sep_inj in E as [E1 E2]; [|by apply fmt_0d_no_underscore..].
  split; [|by apply (fmt_0d_inj 4)]. apply (inj (String.append prefix)) in E1. by injection E1.
Qed.

(** The last segment of [base_id] is a number: no tail of a kind is one. *)
Lemma base_id_tail prefix w w' i i' x :
  index_ok i -> no_char "_" x = true -> parse_digits x 0 = None ->
  base_id prefix w i <> base_id prefix w' i' +:+ String "_" x /\
  base_id prefix w i <> (base_id prefix w' i' +:+ String "_" "dlt") +:+ String "_" x.
Proof.
  intros Hi Hx Hn. split; intros E; apply last_sep_inj in E as [_ E];
    try (by apply fmt_0d_no_underscore); try done;
    rewrite <- E, fmt_0d_parse in Hn by done; done.
Qed.

Lemma parse_s x : parse_digits (String "s" x) 0 = None.
Proof. reflexivity. Qed.

Lemma no_char_s z : index_ok z -> no_char "_" (String "s" (fmt_0d 2 z)) = true.
Proof. intros H. cbn [no_char]. by rewrite fmt_0d_no_underscore. Qed.

(** Head and last segment of an id. *)
Definition id_head (prefix : string) (r : resource) : string :=
  match r with
  | RTopic w _ => prefix +:+ "_" +:+ w
  | RSub w i | RFanoutSub w i _ | RSnapshot w i | RSchema w i | RDeadLetterTopic w i => base_id prefix w i
  | RDeadLetterSub w i => base_id prefix w i +:+ String "_" "dlt"
  end.
Definition id_tail (r : resource) : string :=
  match r with
  | RTopic _ i => fmt_0d 4 i
  | RSub _ _ | RDeadLetterSub _ _ => "sub"
  | RFanoutSub _ _ s => String "s" (fmt_0d 2 s)
  | RSnapshot _ _ => "snap"
  | RSchema _ _ => "schema"
  | RDeadLetterTopic _ _ => "dlt"
  end.

Lemma resource_id_split prefix r :
  resource_ok r -> resource_id prefix r = id_head prefix r +:+ String "_" (id_tail r) /\
  no_char "_" (id_tail r) = true.
Proof.
  intros Hok. rewrite resource_id_shape. destruct r; simpl in Hok; split; try done.
  - by apply fmt_0d_no_underscore.
  - apply no_char_s. tauto.
Qed.

(** Kinds with equal last segments are equal, apart from the two that end in
    [sub]. *)
Lemma id_tail_kind prefix r r' :
  resource_ok r -> resource_ok r' -> id_head prefix r = id_head prefix r' -> id_tail r = id_tail r' -> r = r'.
Proof.
  intros Hr Hr' Eh Et.
  assert (forall i, index_ok i -> parse_digits (fmt_0d 4 i) 0 = Some i) as Hp by (intros; by apply fmt_0d_parse).
  destruct r, r'; simpl in Hr, Hr', Eh, Et; try discriminate Et;
    try (exfalso; pose proof (Hp _ Hr) as Hc; rewrite Et in Hc; discriminate Hc);
    try (exfalso; pose proof (Hp _ Hr') as Hc; rewrite <- Et in Hc; discriminate Hc);
    try (apply base_id_inj in Eh as [-> ->]; tauto);
    try (injection Et as Et; exfalso;
         first [ pose proof (fmt_0d_parse 2 _ (proj2 Hr)) as Hc; rewrite Et in Hc; discriminate Hc
               | pose proof (fmt_0d_parse 2 _ (proj2 Hr')) as Hc; rewrite <- Et in Hc; discriminate Hc ]).
  - apply (inj (String.append prefix)) in Eh. injection Eh as ->. f_equal. by apply (fmt_0d_inj 4).
  - by destruct (proj1 (base_id_tail prefix w w0 i i0 "dlt" Hr eq_refl eq_refl)).
  - destruct Hr, Hr'. apply base_id_inj in Eh as [-> ->]; [|done..]. injection Et as Et.
    f_equal. by apply (fmt_0d_inj 2).
  - by destruct (proj1 (base_id_tail prefix w0 w i0 i "dlt" Hr' eq_refl eq_refl)).
  - apply sapp_inj_tail in Eh. apply base_id_inj in Eh as [-> ->]; done.
Qed.

Lemma HasPrefix_nil s : HasPrefix s "" = true.
Proof. by destruct s. Qed.

Lemma topic_not_sub p x : HasPrefix p "sub." = false -> HasPrefix (p +:+ String "_" x) "sub." = false.
Proof.
  intros H. destruct p as [|a [|b [|c [|d p]]]];
    [..|cbn [String.append HasPrefix] in *; rewrite HasPrefix_nil in *; exact H];
    apply not_true_is_false; intros F; cbn [String.append HasPrefix] in F;
    rewrite ?andb_true_iff in F; repeat match goal with H : _ /\ _ |- _ => destruct H end; discriminate.
Qed.

Lemma mapped_channels t s : MappedTopicChannel t = MappedSubscriptionChannel s -> HasPrefix t "sub." = true.
Proof.
  unfold MappedTopicChannel, MappedSubscriptionChannel. cbn [Sprintf fmt_s]. rewrite !sapp_nil_r.
  intros E. injection E as E. rewrite E. apply (HasPrefix_app "sub." s).
Qed.

(** Two resources of the harness with the same id under the
    same prefix are the same resource (same kind, worker and indices), and no
    topic's Events Store channel is a subscription's queue channel unless the
    prefix itself starts with the reserved [sub.]. *)
Theorem resource_ids_disjoint prefix r r' :
  resource_ok r -> resource_ok r' ->
  (resource_id prefix r = resource_id prefix r' -> r = r') /\
  (HasPrefix prefix "sub." = false ->
   MappedTopicChannel (resource_id prefix r) <> MappedSubscriptionChannel (resource_id prefix r')).
Proof.
  intros Hr Hr'. destruct (resource_id_split prefix r Hr) as [E Hn].
  destruct (resource_id_split prefix r' Hr') as [E' Hn']. split.
  - rewrite E, E'. intros F. apply last_sep_inj in F as [Fh Ft]; [|done..].
    by apply (id_tail_kind prefix).
  - intros Hp F. apply mapped_channels in F.
    assert (exists x, resource_id prefix r = prefix +:+ String "_" x) as [x Ex].
    { rewrite resource_id_shape. unfold base_id. destruct r; rewrite ?sapp_assoc; by eexists. }
    rewrite Ex, topic_not_sub in F by done. done.
Qed.

Lemma resource_ids_disjoint_witness :
  resource_id "gcp_burnin" (RDeadLetterSub WorkerDeadLetter 3) <> resource_id "gcp_burnin" (RSub WorkerDeadLetter 3) /\
  MappedTopicChannel (resource_id "gcp_burnin" (RTopic WorkerFanOut 0))
    <> MappedSubscriptionChannel (resource_id "gcp_burnin" (RSub WorkerFanOut 0)).
Proof.
  split.
  - intros E. apply (resource_ids_disjoint "gcp_burnin") in E; [discriminate E|..]; simpl; unfold index_ok; range.
  - apply resource_ids_disjoint; [simpl; unfold index_ok; range..|reflexivity].
Defined.

(** ** Provisioning *)

(** What the connector documents of topic creation: creating a topic that
    exists fails with AlreadyExists and changes nothing; a creation that
    succeeds makes it exist and one that fails does not change the state. *)
Class CreateLaws {St : Type} (api : PubSubAPI St) (has_topic : St -> string -> Prop) := {
  create_existing : forall t s, has_topic s t ->
    exists e, api_CreateTopic t s = (s, Some e) /\ e_code e = AlreadyExists;
  create_ok : forall t s s', api_CreateTopic t s = (s', None) -> has_topic s' t;
  create_exists_only : forall t s s' e, api_CreateTopic t s = (s', Some e) ->
    s' = s /\ (e_code e = AlreadyExists -> has_topic s t)
}.

(** Over any client with those laws, [EnsureTopic] succeeds
    exactly when the topic exists afterwards with the wrapper's handle, a second
    call succeeds without changing the broker, and a failed call changes
    nothing and keeps the error's status code. *)
Theorem ensure_topic_idempotent {St} (api : PubSubAPI St) has_topic t s
    (L : CreateLaws api has_topic) :
  match EnsureTopic t s with
  | (s', inl h) => h = t /\ has_topic s' t /\ EnsureTopic t s' = (s', inl t)
  | (s', inr e) => s' = s /\ exists e0, api_CreateTopic t s = (s, Some e0) /\ e_code e = e_code e0
  end.
Proof.
  assert (forall s0, has_topic s0 t -> EnsureTopic t s0 = (s0, inl t)) as Hex.
  { intros s0 H0. destruct (create_existing t s0 H0) as (e & E & Ec). unfold EnsureTopic.
    rewrite E. unfold IsAlreadyExists. by rewrite bool_decide_true. }
  unfold EnsureTopic at 1. destruct (api_CreateTopic t s) as [s' [e|]] eqn:E.
  - destruct (create_exists_only t s s' e E) as [-> Ha]. unfold IsAlreadyExists. case_bool_decide; simpl.
    + split; [done|]. split; auto.
    + split; [done|]. by exists e.
  - apply create_ok in E. split; [done|]. split; auto.
Qed.

(** A broker that is a set of topic names satisfies the laws. *)
Definition set_broker : PubSubAPI (gset string) := {|
  api_CreateTopic t s :=
    if bool_decide (t ∈ s) then (s, Some (mkErr AlreadyExists None "exists")) else ({[ t ]} ∪ s, None);
  api_CreateSubscription _ _ s := (s, None);
  api_DeleteSnapshot _ s := (s, None);
  api_DeleteSchema _ s := (s, None)
|}.

Lemma set_broker_laws : @CreateLaws _ set_broker (fun s t => t ∈ s).
Proof.
  split; intros t s; simpl.
  - intros H. rewrite bool_decide_true by done. by eexists.
  - intros s'. case_bool_decide; intros [= <-]. set_solver.
  - intros s' e. case_bool_decide; intros [= <- <-]. done.
Qed.

Lemma ensure_topic_idempotent_witness :
  match @EnsureTopic _ set_broker "t" ∅ with
  | (s', inl h) => h = "t" /\ "t" ∈ s' /\ @EnsureTopic _ set_broker "t" s' = (s', inl "t")
  | (s', inr e) => s' = ∅ /\ exists e0, @api_CreateTopic _ set_broker "t" ∅ = (∅, Some e0) /\ e_code e = e_code e0
  end.
Proof. apply (ensure_topic_idempotent set_broker (fun s t => t ∈ s) "t" ∅ set_broker_laws). Defined.

(** ** Publishing *)

Lemma publish_batch_spec results i total :
  match publish_batch_loop i total results with
  | inl ids => results = map inl ids
  | inr e => exists pre e0 post, results = map inl pre ++ inr e0 :: post /\ e_code e = e_code e0
  end.
Proof.
  revert i. induction results as [|[id|e] rs IH]; intros i; cbn [publish_batch_loop].
  - done.
  - specialize (IH (i + 1)). destruct (publish_batch_loop (i + 1) total rs) as [ids|e].
    + simpl. by f_equal.
    + destruct IH as (pre & e0 & post & -> & ?). exists (id :: pre), e0, post. done.
  - exists [], e, rs. done.
Qed.

Lemma clamp_loop_spec evs u :
  match clamp_loop u evs with
  | Some (n, _) => exists batches rest, evs = map PRecv batches ++ rest /\ n = u + zsum batches /\
                     match rest with PRecv _ :: _ | [] => False | _ => True end
  | None => exists batches, evs = map PRecv batches
  end.
Proof.
  revert u. induction evs as [|[| |got|q t] evs IH]; intros u; cbn [clamp_loop].
  - by exists [].
  - exists [], (PDone :: evs). simpl. split_and!; [done|lia|done].
  - exists [], (PIdle :: evs). simpl. split_and!; [done|lia|done].
  - assert (forall v, v = u + got ->
      match clamp_loop v evs with
      | Some (n, _) => exists batches rest, PRecv got :: evs = map PRecv batches ++ rest /\
          n = u + zsum batches /\ match rest with PRecv _ :: _ | [] => False | _ => True end
      | None => exists batches, PRecv got :: evs = map PRecv batches
      end) as Hg.
    { intros v ->. specialize (IH (u + got)). destruct (clamp_loop (u + got) evs) as [[n o]|].
      + destruct IH as (b & r & -> & -> & Hr). exists (got :: b), r. simpl. split_and!; [done|lia|done].
      + destruct IH as (b & ->). by exists (got :: b). }
    destruct (got =? 0) eqn:E; zbool; apply Hg; lia.
  - exists [], (PErr q t :: evs). simpl. split_and!; [done|lia|done].
Qed.

(** Once its stream is open, the flow-control probe returns at the first event that
    is not a batch, with the number of messages delivered before it; it only
    keeps waiting while every event is a batch. *)
Theorem clamp_probe_counts evs :
  match FlowControlClampProbe None None evs with
  | Some (n, _) => exists batches rest, evs = map PRecv batches ++ rest /\ n = zsum batches /\
                     match rest with PRecv _ :: _ | [] => False | _ => True end
  | None => exists batches, evs = map PRecv batches
  end.
Proof. apply (clamp_loop_spec evs 0). Qed.
