(* ===== verification/Worker.v ===== *)
(** * burnin/worker: the shared worker

    [BaseWorker] with its counters, probe flags, tracker and accumulators, the
    recording helpers (each with the metric call it makes), the warm-up reset,
    and the message attributes every publish carries.  Atomic counters are
    [uint64]; [bw_metrics] is the sequence of calls made on the metric
    registry. *)
From S2P Require Import Prelude GoFloat GoFmt Config Tracker Payload Metrics Transport.
From Stdlib Require Import Ascii.

(** ** State *)

(** The atomic counters and the per-probe flags of [BaseWorker]. *)
Inductive counter :=
| C_sent | C_received | C_errors | C_corrupted | C_reconnections | C_downtime | C_duplicated
| C_acked | C_orderingViolations | C_fanoutDeliveries | C_fanoutDropped | C_exactlyOnceConfirmed
| C_exactlyOnceUnreconciled | C_deadLetterRepublished | C_deadLetterLost | C_interopConverged
| C_interopDiverged | C_nackRedelivered | C_batchAtomicityViolations | C_filterMismatch
| C_filterMatchedDelivered | C_schemaRejectViolations | C_schemaEnforceConfirmed
| C_seekReplayExpected | C_seekReplayObserved | C_seekReplayMismatch
| C_inflightCapTailRedelivered | C_inflightCapLost | C_exactlyOnceInvalidAckConfirmed
| C_flowControlViolations | C_retryBackoffObserved | C_leaseExtendConfirmed
| C_leaseExtendRejectConfirmed | C_deliveryAttemptMax | C_crossStreamAckConfirmed
| C_periodicCloseObserved.

Inductive flag :=
| F_flowControlProbeRan | F_invalidAckProbeRan | F_confirmationsProbeRan
| F_crossStreamAckProbeRan | F_leaseExtendProbeRan | F_schemaEnforceProbeRan.

Global Instance counter_eq_dec : EqDecision counter.
Proof. solve_decision. Defined.
Global Instance flag_eq_dec : EqDecision flag.
Proof. solve_decision. Defined.

Record BaseWorker := mkBW {
  bw_name : string;
  bw_channelName : string;
  bw_channelIndex : Z;
  bw_cfg : Config;
  bw_workerCfg : WorkerConfig;
  bw_psCfg : PubSubConfig;
  bw_nativeCfg : NativeConfig;
  bw_sizeDistrib : option SizeDistribution;
  bw_limit : float64 * Z;              (* rate and burst of the limiter *)
  bw_trk : Tracker;
  bw_lat : LatencyAccumulator;
  bw_peak : PeakRateTracker;
  bw_rate : SlidingRateWindow;
  bw_ready : bool;                     (* consumerReady is closed *)
  bw_disconnectGen : Z;
  bw_cnt : counter -> Z;
  bw_flag : flag -> bool;
  bw_metrics : list metric_op
}.

Definition set_trk (b : BaseWorker) (t : Tracker) : BaseWorker :=
  mkBW (bw_name b) (bw_channelName b) (bw_channelIndex b) (bw_cfg b) (bw_workerCfg b) (bw_psCfg b)
    (bw_nativeCfg b) (bw_sizeDistrib b) (bw_limit b) t (bw_lat b) (bw_peak b) (bw_rate b)
    (bw_ready b) (bw_disconnectGen b) (bw_cnt b) (bw_flag b) (bw_metrics b).
Definition set_accums (b : BaseWorker) (l : LatencyAccumulator) (p : PeakRateTracker)
    (r : SlidingRateWindow) : BaseWorker :=
  mkBW (bw_name b) (bw_channelName b) (bw_channelIndex b) (bw_cfg b) (bw_workerCfg b) (bw_psCfg b)
    (bw_nativeCfg b) (bw_sizeDistrib b) (bw_limit b) (bw_trk b) l p r
    (bw_ready b) (bw_disconnectGen b) (bw_cnt b) (bw_flag b) (bw_metrics b).
Definition set_ready (b : BaseWorker) (r : bool) (g : Z) : BaseWorker :=
  mkBW (bw_name b) (bw_channelName b) (bw_channelIndex b) (bw_cfg b) (bw_workerCfg b) (bw_psCfg b)
    (bw_nativeCfg b) (bw_sizeDistrib b) (bw_limit b) (bw_trk b) (bw_lat b) (bw_peak b) (bw_rate b)
    r g (bw_cnt b) (bw_flag b) (bw_metrics b).
Definition set_counts (b : BaseWorker) (c : counter -> Z) (f : flag -> bool) (m : list metric_op) : BaseWorker :=
  mkBW (bw_name b) (bw_channelName b) (bw_channelIndex b) (bw_cfg b) (bw_workerCfg b) (bw_psCfg b)
    (bw_nativeCfg b) (bw_sizeDistrib b) (bw_limit b) (bw_trk b) (bw_lat b) (bw_peak b) (bw_rate b)
    (bw_ready b) (bw_disconnectGen b) c f m.

(** [x.Store(v)], [x.Add(n)] on a counter, [x.Store(v)] on a flag, a metric call. *)
Definition store_counter (c : counter) (v : Z) (b : BaseWorker) : BaseWorker :=
  set_counts b (fun c' => if decide (c' = c) then v else bw_cnt b c') (bw_flag b) (bw_metrics b).
Definition add_counter (c : counter) (n : Z) (b : BaseWorker) : BaseWorker :=
  store_counter c (bw_cnt b c +u n) b.
Definition store_flag (f : flag) (v : bool) (b : BaseWorker) : BaseWorker :=
  set_counts b (bw_cnt b) (fun f' => if decide (f' = f) then v else bw_flag b f') (bw_metrics b).
Definition emit (o : metric_op) (b : BaseWorker) : BaseWorker :=
  set_counts b (bw_cnt b) (bw_flag b) (bw_metrics b ++ [o]).

(** ** Construction *)

(** A byte outside [A-Za-z0-9_-] becomes [-]. *)
Definition client_char (c : ascii) : ascii :=
  let n := char_code c in
  if ((97 <=? n) && (n <=? 122)) || ((65 <=? n) && (n <=? 90)) || ((48 <=? n) && (n <=? 57))
     || Ascii.eqb c "_" || Ascii.eqb c "-"
  then c else "-"%char.
Fixpoint sanitizeClientID (s : string) : string :=
  match s with EmptyString => "" | String c s' => String (client_char c) (sanitizeClientID s') end.

(** [None]: the worker's name is not in the table, and the source dereferences
    a nil pointer. *)
Definition NewBaseWorker (Getenv : string -> string) (name channelName : string) (channelIndex : Z)
    (cfg : Config) : option BaseWorker :=
  workerCfg ← GetWorkerConfig cfg name;
  let targetRate := f_of_Z (wc_Rate workerCfg) in
  let burst := if f_trunc targetRate <? 1 then 1 else f_trunc targetRate in
  let sizeDistrib :=
    if String.eqb (msg_SizeMode (c_Message cfg)) "distribution"
    then match ParseDistribution (msg_SizeDistribution (c_Message cfg)) with Ok d => Some d | Err _ => None end
    else None in
  Some (mkBW name channelName channelIndex cfg workerCfg
    (mkPubSub (gcp_ProjectID (c_GCP cfg))
       (EmulatorHost Getenv (gcp_EmulatorHost (c_GCP cfg)) (br_Address (c_Broker cfg))))
    (mkNative (br_GRPCAddress (c_Broker cfg))
       (sanitizeClientID (br_ClientIDPrefix (c_Broker cfg) +:+ "-" +:+ channelName)))
    sizeDistrib (targetRate, burst) (New (msg_ReorderWindow (c_Message cfg)))
    NewLatencyAccumulator NewPeakRateTracker NewSlidingRateWindow
    false 0 (fun _ => 0) (fun _ => false) []).

(** ** Recording *)

Definition recordSent (bytes : Z) (producerID : string) (b : BaseWorker) : BaseWorker :=
  let b := add_counter C_sent 1 b in
  let b := set_accums b (bw_lat b) (bw_peak b) (sw_Record (bw_rate b)) in
  let b := set_accums b (bw_lat b) (pk_Record (bw_peak b)) (bw_rate b) in
  let b := emit (IncSent (bw_name b) producerID) b in
  emit (RecordBytesSent (bw_name b) bytes) b.

Definition recordReceived (bytes : Z) (consumerID : string) (b : BaseWorker) : BaseWorker :=
  let b := add_counter C_received 1 b in
  let b := emit (IncReceived (bw_name b) consumerID) b in
  emit (RecordBytesReceived (bw_name b) bytes) b.

Definition recordError (errType : string) (b : BaseWorker) : BaseWorker :=
  emit (IncError (bw_name b) errType) (add_counter C_errors 1 b).

Definition recordLatency (d : Z) (b : BaseWorker) : BaseWorker :=
  emit (ObserveLatency (bw_name b) d) (set_accums b (lat_Record (bw_lat b) d) (bw_peak b) (bw_rate b)).

Definition recordAcked (b : BaseWorker) : BaseWorker :=
  emit (IncAck (bw_name b)) (add_counter C_acked 1 b).
Definition recordCorrupted (b : BaseWorker) : BaseWorker :=
  emit (IncCorrupted (bw_name b)) (add_counter C_corrupted 1 b).
Definition recordDuplicated (b : BaseWorker) : BaseWorker :=
  emit (IncDuplicated (bw_name b)) (add_counter C_duplicated 1 b).
Definition recordReconnection (b : BaseWorker) : BaseWorker :=
  emit (IncReconnection (bw_name b)) (add_counter C_reconnections 1 b).
Definition recordOrderingViolation (b : BaseWorker) : BaseWorker :=
  emit (IncOrderingViolation (bw_name b)) (add_counter C_orderingViolations 1 b).
Definition recordFanoutDelivery (b : BaseWorker) : BaseWorker :=
  emit (IncFanoutDelivery (bw_name b)) (add_counter C_fanoutDeliveries 1 b).
Definition recordFanoutDropped (n : Z) (b : BaseWorker) : BaseWorker :=
  emit (AddFanoutDropped (bw_name b) n) (add_counter C_fanoutDropped n b).
Definition recordDeadLetterRepublished (b : BaseWorker) : BaseWorker :=
  emit (IncDeadLetterRepublished (bw_name b)) (add_counter C_deadLetterRepublished 1 b).
Definition recordDeadLetterLost (n : Z) (b : BaseWorker) : BaseWorker :=
  emit (AddDeadLetterLost (bw_name b) n) (add_counter C_deadLetterLost n b).
Definition recordInteropConverged (b : BaseWorker) : BaseWorker :=
  emit (IncInteropConverged (bw_name b)) (add_counter C_interopConverged 1 b).
Definition recordInteropDiverged (n : Z) (b : BaseWorker) : BaseWorker :=
  emit (AddInteropDiverged (bw_name b) n) (add_counter C_interopDiverged n b).
Definition recordNackRedelivered (b : BaseWorker) : BaseWorker :=
  emit (IncNackRedelivered (bw_name b)) (add_counter C_nackRedelivered 1 b).
Definition recordBatchAtomicityViolation (b : BaseWorker) : BaseWorker :=
  emit (IncBatchAtomicityViolation (bw_name b)) (add_counter C_batchAtomicityViolations 1 b).
Definition recordFilterMismatch (b : BaseWorker) : BaseWorker :=
  emit (IncFilterMismatch (bw_name b)) (add_counter C_filterMismatch 1 b).
Definition recordFilterMatchedDelivered (b : BaseWorker) : BaseWorker :=
  emit (IncFilterMatchedDelivered (bw_name b)) (add_counter C_filterMatchedDelivered 1 b).
Definition recordSchemaRejectViolation (b : BaseWorker) : BaseWorker :=
  emit (IncSchemaRejectViolation (bw_name b)) (add_counter C_schemaRejectViolations 1 b).
Definition recordSchemaEnforceConfirmed (b : BaseWorker) : BaseWorker :=
  emit (IncSchemaEnforceConfirmed (bw_name b)) (add_counter C_schemaEnforceConfirmed 1 b).
Definition recordSeekReplayExpected (n : Z) (b : BaseWorker) : BaseWorker :=
  emit (AddSeekReplayExpected (bw_name b) n) (add_counter C_seekReplayExpected n b).
Definition recordSeekReplayObserved (n : Z) (b : BaseWorker) : BaseWorker :=
  emit (AddSeekReplayObserved (bw_name b) n) (add_counter C_seekReplayObserved n b).
Definition recordSeekReplayMismatch (b : BaseWorker) : BaseWorker :=
  emit (IncSeekReplayMismatch (bw_name b)) (add_counter C_seekReplayMismatch 1 b).
Definition recordInflightCapTailRedelivered (b : BaseWorker) : BaseWorker :=
  emit (IncInflightCapTailRedelivered (bw_name b)) (add_counter C_inflightCapTailRedelivered 1 b).
Definition recordInflightCapLost (n : Z) (b : BaseWorker) : BaseWorker :=
  emit (AddInflightCapLost (bw_name b) n) (add_counter C_inflightCapLost n b).
Definition recordExactlyOnceInvalidAckConfirmed (b : BaseWorker) : BaseWorker :=
  emit (IncExactlyOnceInvalidAckConfirmed (bw_name b)) (add_counter C_exactlyOnceInvalidAckConfirmed 1 b).
Definition recordFlowControlViolation (b : BaseWorker) : BaseWorker :=
  emit (IncFlowControlViolation (bw_name b)) (add_counter C_flowControlViolations 1 b).
Definition recordRetryBackoffObserved (b : BaseWorker) : BaseWorker :=
  emit (IncRetryBackoffObserved (bw_name b)) (add_counter C_retryBackoffObserved 1 b).
Definition recordLeaseExtendConfirmed (b : BaseWorker) : BaseWorker :=
  emit (IncLeaseExtendConfirmed (bw_name b)) (add_counter C_leaseExtendConfirmed 1 b).
Definition recordLeaseExtendRejectConfirmed (b : BaseWorker) : BaseWorker :=
  emit (IncLeaseExtendRejectConfirmed (bw_name b)) (add_counter C_leaseExtendRejectConfirmed 1 b).
Definition recordCrossStreamAckConfirmed (b : BaseWorker) : BaseWorker :=
  emit (IncCrossStreamAckConfirmed (bw_name b)) (add_counter C_crossStreamAckConfirmed 1 b).
Definition recordPeriodicCloseObserved (b : BaseWorker) : BaseWorker :=
  emit (IncPeriodicCloseObserved (bw_name b)) (add_counter C_periodicCloseObserved 1 b).

Definition recordExactlyOnceAck (confirmed : bool) (b : BaseWorker) : BaseWorker :=
  if confirmed then emit (IncExactlyOnceConfirmed (bw_name b)) (add_counter C_exactlyOnceConfirmed 1 b)
  else emit (IncExactlyOnceUnreconciled (bw_name b)) (add_counter C_exactlyOnceUnreconciled 1 b).

(** The compare-and-swap loops of [reconcileExactlyOnce] and
    [setDeliveryAttemptMax]; the swap is the atomic step modelled here. *)
Definition reconcileExactlyOnce (b : BaseWorker) : BaseWorker :=
  let cur := bw_cnt b C_exactlyOnceUnreconciled in
  if cur =? 0 then b else store_counter C_exactlyOnceUnreconciled (cur -u 1) b.

Definition setDeliveryAttemptMax (v : Z) (b : BaseWorker) : BaseWorker :=
  let cur := bw_cnt b C_deliveryAttemptMax in
  if v <=? cur then b
  else emit (SetDeliveryAttemptMax (bw_name b) (f_of_Z v)) (store_counter C_deliveryAttemptMax v b).

Definition setOutstanding (n : float64) (b : BaseWorker) : BaseWorker :=
  emit (SetOutstanding (bw_name b) n) b.

(** [recordTracked] returns whether the message was a duplicate. *)
Definition recordTracked (producerID : string) (seq : Z) (b : BaseWorker) : BaseWorker * bool :=
  let '(t, (dup, oo)) := Record_ (bw_trk b) producerID seq in
  let b := set_trk b t in
  let b := if dup then recordDuplicated b else b in
  let b := if oo : bool then emit (IncOutOfOrder (bw_name b)) b else b in
  (b, dup).

(** [r] is the draw [SelectSize] makes; [None] when it panics. *)
Definition selectMessageSize (b : BaseWorker) (r : Z) : option Z :=
  match bw_sizeDistrib b with
  | Some d =>
      if String.eqb (msg_SizeMode (c_Message (bw_cfg b))) "distribution" then SelectSize d r
      else Some (msg_SizeBytes (c_Message (bw_cfg b)))
  | None => Some (msg_SizeBytes (c_Message (bw_cfg b)))
  end.

Definition addDowntime (d : Z) (b : BaseWorker) : BaseWorker :=
  emit (AddDowntime (bw_name b) (Seconds d)) (add_counter C_downtime (u64 d) b).
Definition DowntimeSeconds (b : BaseWorker) : float64 :=
  fdiv (f_of_Z (bw_cnt b C_downtime)) (f_of_Z Second).

Definition AdvanceRateWindows (b : BaseWorker) : BaseWorker :=
  set_accums b (bw_lat b) (pk_Advance (bw_peak b)) (sw_Advance (bw_rate b)).

(** The counters and flags [ResetAfterWarmup] stores, in the order of the source. *)
Definition reset_counters : list counter :=
  [C_sent; C_received; C_errors; C_corrupted; C_reconnections; C_downtime; C_duplicated; C_acked;
   C_orderingViolations; C_fanoutDeliveries; C_fanoutDropped; C_exactlyOnceConfirmed;
   C_exactlyOnceUnreconciled; C_deadLetterRepublished; C_deadLetterLost; C_interopConverged;
   C_interopDiverged; C_nackRedelivered; C_batchAtomicityViolations; C_filterMismatch;
   C_filterMatchedDelivered; C_schemaRejectViolations; C_schemaEnforceConfirmed;
   C_seekReplayExpected; C_seekReplayObserved; C_seekReplayMismatch;
   C_inflightCapTailRedelivered; C_inflightCapLost; C_exactlyOnceInvalidAckConfirmed;
   C_flowControlViolations; C_retryBackoffObserved; C_leaseExtendConfirmed;
   C_leaseExtendRejectConfirmed; C_deliveryAttemptMax; C_crossStreamAckConfirmed;
   C_periodicCloseObserved].
Definition reset_flags : list flag :=
  [F_flowControlProbeRan; F_invalidAckProbeRan; F_confirmationsProbeRan;
   F_crossStreamAckProbeRan; F_leaseExtendProbeRan; F_schemaEnforceProbeRan].

(** [ResetAfterWarmup] holds no lock over its body: each of its statements is a
    step of its own, between which the worker's goroutines may run. *)
Inductive reset_store :=
| RTracker
| RLatency
| RPeak
| RRate
| RCounter (c : counter)
| RFlag (f : flag).
Definition reset_apply (b : BaseWorker) (r : reset_store) : BaseWorker :=
  match r with
  | RTracker => set_trk b (Reset (bw_trk b))
  | RLatency => set_accums b (lat_Reset (bw_lat b)) (bw_peak b) (bw_rate b)
  | RPeak => set_accums b (bw_lat b) NewPeakRateTracker (bw_rate b)
  | RRate => set_accums b (bw_lat b) (bw_peak b) (sw_Reset (bw_rate b))
  | RCounter c => store_counter c 0 b
  | RFlag f => store_flag f false b
  end.
Definition reset_stores : list reset_store :=
  [RTracker; RLatency; RPeak; RRate] ++ map RCounter reset_counters ++ map RFlag reset_flags.

(** The whole body, when no other goroutine touches the worker meanwhile. *)
Definition ResetAfterWarmup (b : BaseWorker) : BaseWorker := foldl reset_apply b reset_stores.

Definition signalReady (b : BaseWorker) : BaseWorker := set_ready b true (bw_disconnectGen b).
Definition DisconnectConsumers (b : BaseWorker) : BaseWorker := set_ready b (bw_ready b) (bw_disconnectGen b +u 1).
Definition disconnectGeneration (b : BaseWorker) : Z := bw_disconnectGen b.

Definition stopWaitTimeout : Z := 15 * Second.
Definition reconnectBackoff (cfg : Config) : Z :=
  if 0 <? c_ReconnectInterval cfg then c_ReconnectInterval cfg else Second.

(** ** Message attributes *)

Notation attrs := (gmap string string).

(** [now] is [time.Now().UnixNano()]. *)
Definition stampAttrs (producerID : string) (seq : Z) (crcHex : string) (now : Z) : attrs :=
  <[AttrWorkerID := producerID]> (<[AttrSequence := FormatUint seq]>
    (<[AttrContentHash := crcHex]> (<[AttrTimestampNS := Itoa now]> ∅))).

(** Indexing a Go map gives the zero value for a missing key. *)
Definition attr (a : attrs) (k : string) : string := default "" (a !! k).

Record Meta := mkMeta {
  m_producer : string; m_seq : Z; m_crc : string; m_sentAt : option Z; m_ok : bool
}.

(** [sentAt] is [None] for the zero time; a nil map is the empty map. *)
Definition extractMeta (a : attrs) : Meta :=
  let producerID := attr a AttrWorkerID in
  let seq := let v := attr a AttrSequence in
             if String.eqb v "" then 0 else default 0 (ParseUint v) in
  let sentAt := let v := attr a AttrTimestampNS in
                if String.eqb v "" then None else ParseInt v in
  mkMeta producerID seq (attr a AttrContentHash) sentAt (negb (String.eqb producerID "")).
