(* ===== verification/WorkerProps.v ===== *)
(** * What the shared worker guarantees

    Attributes survive the round trip, the warm-up reset makes a worker
    indistinguishable from a new one, and the counters agree with the metric
    calls (with the one operation that breaks the agreement). *)
From S2P Require Import Prelude GoFloat GoFmt Config Tracker Payload Metrics MetricsProps Transport Worker.

(** ** Attributes *)

Lemma extractMeta_lookup (a : attrs) producerID seq crcHex now :
  is_u64 seq -> is_int now ->
  a !! AttrWorkerID = Some producerID -> a !! AttrSequence = Some (FormatUint seq) ->
  a !! AttrContentHash = Some crcHex -> a !! AttrTimestampNS = Some (Itoa now) ->
  extractMeta a = mkMeta producerID seq crcHex (Some now) (negb (String.eqb producerID "")).
Proof.
  intros Hs Hn E1 E2 E3 E4. unfold extractMeta, attr. rewrite E1, E2, E3, E4. simpl.
  pose proof (ParseUint_FormatUint seq Hs) as Hp. pose proof (Atoi_Itoa now Hn) as Hq.
  assert (String.eqb (FormatUint seq) "" = false) as ->
    by (apply String.eqb_neq; intros E; rewrite E in Hp; done).
  assert (String.eqb (Itoa now) "" = false) as ->
    by (apply String.eqb_neq; intros E; rewrite E in Hq; done).
  rewrite Hp. unfold Atoi in Hq. by rewrite Hq.
Qed.

Lemma stampAttrs_lookup producerID seq crcHex now :
  stampAttrs producerID seq crcHex now !! AttrWorkerID = Some producerID /\
  stampAttrs producerID seq crcHex now !! AttrSequence = Some (FormatUint seq) /\
  stampAttrs producerID seq crcHex now !! AttrContentHash = Some crcHex /\
  stampAttrs producerID seq crcHex now !! AttrTimestampNS = Some (Itoa now).
Proof. unfold stampAttrs. repeat split; rewrite ?lookup_insert_ne by done; by rewrite lookup_insert_eq. Qed.

(** What a consumer reads from a stamped publish is what the
    producer stamped, for every sequence number and timestamp. *)
Theorem attrs_roundtrip producerID seq crcHex now :
  is_u64 seq -> is_int now ->
  extractMeta (stampAttrs producerID seq crcHex now)
    = mkMeta producerID seq crcHex (Some now) (negb (String.eqb producerID "")).
Proof.
  intros Hs Hn. destruct (stampAttrs_lookup producerID seq crcHex now) as (E1 & E2 & E3 & E4).
  by apply extractMeta_lookup.
Qed.

Lemma attrs_roundtrip_witness :
  extractMeta (stampAttrs "p-streaming_pull-0000-000" 42 "cbf43926" 1700000000000000000)
    = mkMeta "p-streaming_pull-0000-000" 42 "cbf43926" (Some 1700000000000000000) true.
Proof. apply (attrs_roundtrip "p-streaming_pull-0000-000" 42 "cbf43926" 1700000000000000000); range. Defined.

(** ** Operations of a running worker *)

Inductive worker_op :=
| OpSent (bytes : Z) (producerID : string)
| OpReceived (bytes : Z) (consumerID : string)
| OpError (errType : string)
| OpLatency (d : Z)
| OpTracked (producerID : string) (seq : Z)
| OpExactlyOnceAck (confirmed : bool)
| OpReconcileExactlyOnce
| OpDeliveryAttemptMax (v : Z)
| OpOutstanding (n : float64)
| OpDowntime (d : Z)
| OpAdvanceRateWindows
| OpMarkProbeRan (f : flag)
| OpSignalReady
| OpDisconnect
| OpAcked
| OpCorrupted
| OpDuplicated
| OpReconnection
| OpOrderingViolation
| OpFanoutDelivery
| OpFanoutDropped (n : Z)
| OpDeadLetterRepublished
| OpDeadLetterLost (n : Z)
| OpInteropConverged
| OpInteropDiverged (n : Z)
| OpNackRedelivered
| OpBatchAtomicityViolation
| OpFilterMismatch
| OpFilterMatchedDelivered
| OpSchemaRejectViolation
| OpSchemaEnforceConfirmed
| OpSeekReplayExpected (n : Z)
| OpSeekReplayObserved (n : Z)
| OpSeekReplayMismatch
| OpInflightCapTailRedelivered
| OpInflightCapLost (n : Z)
| OpExactlyOnceInvalidAckConfirmed
| OpFlowControlViolation
| OpRetryBackoffObserved
| OpLeaseExtendConfirmed
| OpLeaseExtendRejectConfirmed
| OpCrossStreamAckConfirmed
| OpPeriodicCloseObserved.

Definition apply_op (b : BaseWorker) (o : worker_op) : BaseWorker :=
  match o with
  | OpSent n p => recordSent n p b
  | OpReceived n c => recordReceived n c b
  | OpError t => recordError t b
  | OpLatency d => recordLatency d b
  | OpTracked p s => fst (recordTracked p s b)
  | OpExactlyOnceAck c => recordExactlyOnceAck c b
  | OpReconcileExactlyOnce => reconcileExactlyOnce b
  | OpDeliveryAttemptMax v => setDeliveryAttemptMax v b
  | OpOutstanding n => setOutstanding n b
  | OpDowntime d => addDowntime d b
  | OpAdvanceRateWindows => AdvanceRateWindows b
  | OpMarkProbeRan f => store_flag f true b
  | OpSignalReady => signalReady b
  | OpDisconnect => DisconnectConsumers b
  | OpAcked => recordAcked b
  | OpCorrupted => recordCorrupted b
  | OpDuplicated => recordDuplicated b
  | OpReconnection => recordReconnection b
  | OpOrderingViolation => recordOrderingViolation b
  | OpFanoutDelivery => recordFanoutDelivery b
  | OpFanoutDropped n => recordFanoutDropped n b
  | OpDeadLetterRepublished => recordDeadLetterRepublished b
  | OpDeadLetterLost n => recordDeadLetterLost n b
  | OpInteropConverged => recordInteropConverged b
  | OpInteropDiverged n => recordInteropDiverged n b
  | OpNackRedelivered => recordNackRedelivered b
  | OpBatchAtomicityViolation => recordBatchAtomicityViolation b
  | OpFilterMismatch => recordFilterMismatch b
  | OpFilterMatchedDelivered => recordFilterMatchedDelivered b
  | OpSchemaRejectViolation => recordSchemaRejectViolation b
  | OpSchemaEnforceConfirmed => recordSchemaEnforceConfirmed b
  | OpSeekReplayExpected n => recordSeekReplayExpected n b
  | OpSeekReplayObserved n => recordSeekReplayObserved n b
  | OpSeekReplayMismatch => recordSeekReplayMismatch b
  | OpInflightCapTailRedelivered => recordInflightCapTailRedelivered b
  | OpInflightCapLost n => recordInflightCapLost n b
  | OpExactlyOnceInvalidAckConfirmed => recordExactlyOnceInvalidAckConfirmed b
  | OpFlowControlViolation => recordFlowControlViolation b
  | OpRetryBackoffObserved => recordRetryBackoffObserved b
  | OpLeaseExtendConfirmed => recordLeaseExtendConfirmed b
  | OpLeaseExtendRejectConfirmed => recordLeaseExtendRejectConfirmed b
  | OpCrossStreamAckConfirmed => recordCrossStreamAckConfirmed b
  | OpPeriodicCloseObserved => recordPeriodicCloseObserved b
  end.

Definition run_ops (b : BaseWorker) (ops : list worker_op) : BaseWorker := foldl apply_op b ops.

(** ** Warm-up *)

(** Same settings and same measured state; the metric log, the ready signal
    and the churn generation are not part of a measurement. *)
Record measured_eq (b1 b2 : BaseWorker) : Prop := {
  me_name : bw_name b1 = bw_name b2;
  me_cfg : bw_cfg b1 = bw_cfg b2;
  me_trk : bw_trk b1 = bw_trk b2;
  me_lat : bw_lat b1 = bw_lat b2;
  me_peak : bw_peak b1 = bw_peak b2;
  me_rate : bw_rate b1 = bw_rate b2;
  me_cnt : forall c, bw_cnt b1 c = bw_cnt b2 c;
  me_flag : forall f, bw_flag b1 f = bw_flag b2 f
}.

Global Instance measured_equiv : Equivalence measured_eq.
Proof.
  split.
  - intros b. by split.
  - intros b1 b2 []. split; done.
  - intros b1 b2 b3 [] []. split; intros; etrans; eauto.
Qed.

Lemma emit_eq o o' b1 b2 : measured_eq b1 b2 -> measured_eq (emit o b1) (emit o' b2).
Proof. intros []. by split. Qed.
Lemma store_counter_eq c v v' b1 b2 :
  measured_eq b1 b2 -> v = v' -> measured_eq (store_counter c v b1) (store_counter c v' b2).
Proof.
  intros [] ->. split; try done. intros c'. simpl. by destruct (decide _).
Qed.
Lemma add_counter_eq c n b1 b2 : measured_eq b1 b2 -> measured_eq (add_counter c n b1) (add_counter c n b2).
Proof. intros H. apply store_counter_eq; [done|]. by rewrite (me_cnt _ _ H). Qed.
Lemma store_flag_eq f v b1 b2 : measured_eq b1 b2 -> measured_eq (store_flag f v b1) (store_flag f v b2).
Proof. intros []. split; try done. intros f'. simpl. by destruct (decide _). Qed.
Lemma set_accums_eq l1 l2 p1 p2 r1 r2 b1 b2 :
  measured_eq b1 b2 -> l1 = l2 -> p1 = p2 -> r1 = r2 -> measured_eq (set_accums b1 l1 p1 r1) (set_accums b2 l2 p2 r2).
Proof. intros [] -> -> ->. by split. Qed.
Lemma set_trk_eq t1 t2 b1 b2 : measured_eq b1 b2 -> t1 = t2 -> measured_eq (set_trk b1 t1) (set_trk b2 t2).
Proof. intros [] ->. by split. Qed.
Lemma set_ready_eq r g r' g' b1 b2 : measured_eq b1 b2 -> measured_eq (set_ready b1 r g) (set_ready b2 r' g').
Proof. intros []. by split. Qed.
#[export] Hint Resolve emit_eq add_counter_eq store_flag_eq set_ready_eq : go.

(** Every operation respects the equivalence. *)
Global Instance apply_op_proper : Proper (measured_eq ==> eq ==> measured_eq) apply_op.
Proof.
  intros b1 b2 H o ? <-. pose proof H as [Hn Hc Ht Hl Hp Hr Hcnt Hf].
  destruct o; simpl; try (by auto with go);
    try (unfold recordSent, recordReceived, recordError, recordExactlyOnceAck, setOutstanding, addDowntime,
      recordLatency, AdvanceRateWindows;
      repeat first [apply emit_eq | apply add_counter_eq | (apply set_accums_eq; [|simpl; congruence..]) | done
                   | match goal with |- context [if ?b then _ else _] => destruct b end]).
  - unfold recordTracked. rewrite Ht. destruct (Record_ (bw_trk b2) producerID seq) as [t [d oo]].
    destruct d, oo; simpl; repeat first [apply emit_eq | apply add_counter_eq | apply set_trk_eq | done].
  - unfold reconcileExactlyOnce. rewrite Hcnt. destruct (_ =? 0); [done|].
    by apply store_counter_eq.
  - unfold setDeliveryAttemptMax. rewrite Hcnt. destruct (_ <=? _); [done|].
    apply emit_eq. by apply store_counter_eq.
Qed.

Lemma run_ops_proper ops b1 b2 : measured_eq b1 b2 -> measured_eq (run_ops b1 ops) (run_ops b2 ops).
Proof.
  revert b1 b2. induction ops as [|o ops IH]; intros b1 b2 H; [done|]. apply IH. by rewrite H.
Qed.

Lemma reset_counters_all c : c ∈ reset_counters.
Proof. destruct c; unfold reset_counters; repeat first [apply list_elem_of_here | apply list_elem_of_further]. Qed.
Lemma reset_flags_all f : f ∈ reset_flags.
Proof. destruct f; unfold reset_flags; repeat first [apply list_elem_of_here | apply list_elem_of_further]. Qed.

Lemma fold_store_cnt l b c :
  bw_cnt (foldl (fun b c => store_counter c 0 b) b l) c = if decide (c ∈ l) then 0 else bw_cnt b c.
Proof.
  revert b. induction l as [|d l IH]; intros b; [by rewrite decide_False by apply not_elem_of_nil|].
  simpl. rewrite IH. simpl. destruct (decide (c ∈ l)) as [Hin|Hn].
  - rewrite decide_True; [done|by right].
  - destruct (decide (c = d)) as [->|Hne].
    + rewrite decide_True; [done|left].
    + rewrite decide_False; [done|]. by intros [?|?]%elem_of_cons.
Qed.

Lemma fold_store_flag l b f :
  bw_flag (foldl (fun b f => store_flag f false b) b l) f = if decide (f ∈ l) then false else bw_flag b f.
Proof.
  revert b. induction l as [|d l IH]; intros b; [by rewrite decide_False by apply not_elem_of_nil|].
  simpl. rewrite IH. simpl. destruct (decide (f ∈ l)) as [Hin|Hn].
  - rewrite decide_True; [done|by right].
  - destruct (decide (f = d)) as [->|Hne].
    + rewrite decide_True; [done|left].
    + rewrite decide_False; [done|]. by intros [?|?]%elem_of_cons.
Qed.

(** Storing counters and flags leaves the rest of the worker alone. *)
Lemma fold_store_rest lc lf b :
  let b' := foldl (fun b f => store_flag f false b) (foldl (fun b c => store_counter c 0 b) b lc) lf in
  bw_name b' = bw_name b /\ bw_cfg b' = bw_cfg b /\ bw_trk b' = bw_trk b /\ bw_lat b' = bw_lat b /\
  bw_peak b' = bw_peak b /\ bw_rate b' = bw_rate b /\
  forall c, bw_cnt b' c = bw_cnt (foldl (fun b c => store_counter c 0 b) b lc) c.
Proof.
  simpl. assert (forall l x, let y := foldl (fun b c => store_counter c 0 b) x l in
    bw_name y = bw_name x /\ bw_cfg y = bw_cfg x /\ bw_trk y = bw_trk x /\ bw_lat y = bw_lat x /\
    bw_peak y = bw_peak x /\ bw_rate y = bw_rate x) as Hc.
  { induction l as [|c l IH]; intros x; [done|]. apply (IH (store_counter c 0 x)). }
  assert (forall l x, let y := foldl (fun b f => store_flag f false b) x l in
    bw_name y = bw_name x /\ bw_cfg y = bw_cfg x /\ bw_trk y = bw_trk x /\ bw_lat y = bw_lat x /\
    bw_peak y = bw_peak x /\ bw_rate y = bw_rate x /\ forall c, bw_cnt y c = bw_cnt x c) as Hf.
  { induction l as [|f l IH]; intros x; [done|]. apply (IH (store_flag f false x)). }
  destruct (Hc lc b) as (?&?&?&?&?&?). destruct (Hf lf (foldl (fun b c => store_counter c 0 b) b lc)) as (?&?&?&?&?&?&?).
  split_and!; try congruence.
Qed.

(** The statements of the body by the field they write. *)
Definition reset_pass (b : BaseWorker) : BaseWorker :=
  let b := set_accums (set_trk b (Reset (bw_trk b))) (lat_Reset (bw_lat b)) NewPeakRateTracker (sw_Reset (bw_rate b)) in
  let b := foldl (fun b c => store_counter c 0 b) b reset_counters in
  foldl (fun b f => store_flag f false b) b reset_flags.
Lemma reset_unfold b : ResetAfterWarmup b = reset_pass b.
Proof. reflexivity. Qed.

Lemma reset_spec b :
  let b' := ResetAfterWarmup b in
  bw_name b' = bw_name b /\ bw_cfg b' = bw_cfg b /\ bw_trk b' = New (reorderWindow (bw_trk b)) /\
  bw_lat b' = [] /\ bw_peak b' = NewPeakRateTracker /\ bw_rate b' = sw_Reset (bw_rate b) /\
  (forall c, bw_cnt b' c = 0) /\ (forall f, bw_flag b' f = false).
Proof.
  cbv zeta. rewrite reset_unfold. unfold reset_pass.
  set (b0 := set_accums _ _ _ _). destruct (fold_store_rest reset_counters reset_flags b0) as (?&?&?&?&?&?&Hc).
  split_and!; try done.
  - intros c. rewrite Hc, fold_store_cnt, decide_True; [done|apply reset_counters_all].
  - intros f. rewrite fold_store_flag, decide_True; [done|apply reset_flags_all].
Qed.

(** What no operation changes: settings, the tracker's window, the ring sizes. *)
Definition stable (b0 b : BaseWorker) : Prop :=
  bw_name b = bw_name b0 /\ bw_cfg b = bw_cfg b0 /\
  reorderWindow (bw_trk b) = reorderWindow (bw_trk b0) /\ length (sw_buckets (bw_rate b)) = slidingWindowSize.

Lemma Record_window t p s : reorderWindow (fst (Record_ t p s)) = reorderWindow t.
Proof. unfold Record_. destruct (_ !! _); [|done]. by destruct (record_known _ _ _). Qed.

Lemma apply_op_stable b0 b o : stable b0 b -> stable b0 (apply_op b o).
Proof.
  intros (Hn & Hc & Hw & Hl). unfold stable.
  destruct o; simpl; rewrite ?length_alter, ?length_insert; try done.
  - pose proof (Record_window (bw_trk b) producerID seq) as Hr. unfold recordTracked.
    destruct (Record_ (bw_trk b) producerID seq) as [t [d oo]]. simpl in Hr.
    destruct d, oo; simpl; rewrite Hr; done.
  - by destruct confirmed.
  - unfold reconcileExactlyOnce. by destruct (_ =? 0).
  - unfold setDeliveryAttemptMax. by destruct (_ <=? _).
Qed.

Lemma run_ops_stable b0 b ops : stable b0 b -> stable b0 (run_ops b ops).
Proof.
  revert b. induction ops as [|o ops IH]; intros b H; [done|]. apply IH. by apply apply_op_stable.
Qed.

Lemma map_const_replicate (l : list Z) : map (fun _ => 0) l = replicate (length l) 0.
Proof. induction l as [|x l IH]; [done|]. simpl. by rewrite IH. Qed.

(** C9 (equivalence).  Whatever a worker did during warm-up, after
    [ResetAfterWarmup] every further sequence of operations measures exactly
    what it would have measured on a newly built worker. *)
Theorem warmup_leaves_no_trace Getenv name channel idx cfg b0 warmup ops :
  NewBaseWorker Getenv name channel idx cfg = Some b0 ->
  measured_eq (run_ops (ResetAfterWarmup (run_ops b0 warmup)) ops) (run_ops b0 ops).
Proof.
  intros Hb. apply run_ops_proper. unfold NewBaseWorker in Hb.
  destruct (GetWorkerConfig cfg name) as [wc|]; [|done]. simpl in Hb. injection Hb as <-.
  match goal with |- measured_eq (ResetAfterWarmup (run_ops ?b _)) _ => set (b0 := b) end.
  destruct (run_ops_stable b0 b0 warmup) as (Hn & Hc & Hw & Hl); [done|].
  destruct (reset_spec (run_ops b0 warmup)) as (E1 & E2 & E3 & E4 & E5 & E6 & E7 & E8).
  split; rewrite ?E1, ?E2, ?E3, ?E4, ?E5, ?E6, ?Hn, ?Hc, ?Hw; try done.
  unfold sw_Reset. by rewrite map_const_replicate, Hl.
Qed.

Lemma warmup_leaves_no_trace_witness :
  exists b0, NewBaseWorker (fun _ => "") WorkerStreamingPull "t" 0 DefaultConfig = Some b0 /\
  measured_eq
    (run_ops (ResetAfterWarmup (run_ops b0 [OpSent 64 "p"; OpTracked "p" 1; OpAdvanceRateWindows]))
             [OpTracked "p" 1; OpReceived 64 "c"])
    (run_ops b0 [OpTracked "p" 1; OpReceived 64 "c"]).
Proof.
  eexists. split; [reflexivity|].
  apply (warmup_leaves_no_trace (fun _ => "") WorkerStreamingPull "t" 0 DefaultConfig). reflexivity.
Defined.

(** ** Counters and metric calls *)

(** The counters whose helper makes one [Inc] call per increment. *)
Definition inc_metric (c : counter) : option metric :=
  match c with
  | C_acked => Some M_AcksTotal
  | C_corrupted => Some M_MessagesCorruptedTotal
  | C_duplicated => Some M_MessagesDuplicatedTotal
  | C_reconnections => Some M_ReconnectionsTotal
  | C_orderingViolations => Some M_OrderingViolationsTotal
  | C_fanoutDeliveries => Some M_FanoutDeliveriesTotal
  | C_deadLetterRepublished => Some M_DeadLetterRepublishedTotal
  | C_interopConverged => Some M_InteropConvergedTotal
  | C_nackRedelivered => Some M_NackRedeliveredTotal
  | C_batchAtomicityViolations => Some M_BatchAtomicityViolationsTotal
  | C_filterMismatch => Some M_FilterMismatchTotal
  | C_filterMatchedDelivered => Some M_FilterMatchedDeliveredTotal
  | C_schemaRejectViolations => Some M_SchemaRejectViolationsTotal
  | C_schemaEnforceConfirmed => Some M_SchemaEnforceConfirmedTotal
  | C_seekReplayMismatch => Some M_SeekReplayMismatchTotal
  | C_inflightCapTailRedelivered => Some M_InflightCapTailRedeliveredTotal
  | C_exactlyOnceInvalidAckConfirmed => Some M_ExactlyOnceInvalidAckConfirmedTotal
  | C_flowControlViolations => Some M_FlowControlViolationsTotal
  | C_retryBackoffObserved => Some M_RetryBackoffObservedTotal
  | C_leaseExtendConfirmed => Some M_LeaseExtendConfirmedTotal
  | C_leaseExtendRejectConfirmed => Some M_LeaseExtendRejectConfirmedTotal
  | C_crossStreamAckConfirmed => Some M_CrossStreamAckConfirmedTotal
  | C_periodicCloseObserved => Some M_PeriodicCloseObservedTotal
  | C_sent => Some M_MessagesSentTotal
  | C_received => Some M_MessagesReceivedTotal
  | C_errors => Some M_ErrorsTotal
  | C_exactlyOnceConfirmed => Some M_ExactlyOnceConfirmedTotal
  | C_exactlyOnceUnreconciled => Some M_ExactlyOnceUnreconciledTotal
  | _ => None
  end.

Definition is_inc (m : metric) (o : metric_op) : bool :=
  match o with MInc m' _ => bool_decide (metric_name m' = metric_name m) | _ => false end.
Definition count_inc (m : metric) (log : list metric_op) : Z :=
  Z.of_nat (length (List.filter (is_inc m) log)).

Lemma inc_metric_inj c c' m : inc_metric c = Some m -> inc_metric c' = Some m -> c = c'.
Proof. intros H H'. destruct c; simplify_eq/=; destruct c'; by simplify_eq/=. Qed.

Definition agrees (b : BaseWorker) : Prop :=
  forall c m, inc_metric c = Some m -> bw_cnt b c = u64 (count_inc m (bw_metrics b)).

Lemma count_inc_app m l o : count_inc m (l ++ [o]) = count_inc m l + (if is_inc m o then 1 else 0).
Proof. unfold count_inc. rewrite List.filter_app. simpl. rewrite length_app. destruct (is_inc m o); simpl; lia. Qed.

(** A call that is not an [Inc] of a counted vector. *)
Definition silent (o : metric_op) : Prop := forall c m, inc_metric c = Some m -> is_inc m o = false.

Lemma agrees_silent o b : silent o -> agrees b -> agrees (emit o b).
Proof. intros Ho H c m Hc. simpl. rewrite count_inc_app, (Ho c m Hc), Z.add_0_r. by apply H. Qed.

Lemma agrees_inc c m l b : inc_metric c = Some m -> agrees b -> agrees (emit (MInc m l) (add_counter c 1 b)).
Proof.
  intros Hc H c' m' Hc'. simpl. rewrite count_inc_app. unfold is_inc.
  destruct (decide (c' = c)) as [->|Hne].
  - rewrite Hc in Hc'. simplify_eq. rewrite bool_decide_true by done. rewrite (H c m' Hc).
    unfold uadd, u64. by rewrite Zplus_mod_idemp_l.
  - rewrite bool_decide_false, Z.add_0_r; [by apply H|].
    intros E%metric_name_inj. subst. apply Hne. by eapply inc_metric_inj.
Qed.

Lemma agrees_other c n b : inc_metric c = None -> agrees b -> agrees (add_counter c n b).
Proof.
  intros Hc H c' m' Hc'. simpl. destruct (decide (c' = c)) as [->|Hne]; [congruence|]. by apply H.
Qed.
Lemma agrees_same b b' : bw_cnt b' = bw_cnt b -> bw_metrics b' = bw_metrics b -> agrees b -> agrees b'.
Proof. intros E1 E2 H c m Hc. rewrite E1, E2. by apply H. Qed.
Lemma silent_add m l x : silent (MAdd m l x).
Proof. done. Qed.
Lemma silent_set m l x : silent (MSet m l x).
Proof. done. Qed.
Lemma silent_observe m l x : silent (MObserve m l x).
Proof. done. Qed.
Lemma silent_ooo l : silent (MInc M_MessagesOutOfOrderTotal l).
Proof. intros c m Hc. destruct c; simplify_eq/=; reflexivity. Qed.

(** All operations but the exactly-once reconciliation keep the agreement. *)
Definition reconciles (o : worker_op) : bool :=
  match o with OpReconcileExactlyOnce => true | _ => false end.

Lemma apply_op_agrees b o : reconciles o = false -> agrees b -> agrees (apply_op b o).
Proof.
  intros Ho H. destruct o; try done; cbn [apply_op];
    try (by apply (agrees_same b));
    try (by apply agrees_inc);
    try (apply agrees_silent; [done|]; by apply agrees_other).
  - apply agrees_silent; [done|]. 
    apply (agrees_same (emit (IncSent (bw_name b) producerID) (add_counter C_sent 1 b))); [done..|].
    by apply agrees_inc.
  - apply agrees_silent; [done|]. by apply agrees_inc.
  - apply agrees_silent; [done|]. by apply (agrees_same b).
  - unfold recordTracked. destruct (Record_ _ _ _) as [t [d oo]]. cbn [fst].
    assert (agrees (set_trk b t)) as H0 by (by apply (agrees_same b)).
    destruct d, oo; cbn [fst]; try (apply agrees_silent; [apply silent_ooo|]); try (by apply agrees_inc); done.
  - destruct confirmed; by apply agrees_inc.
  - unfold setDeliveryAttemptMax. destruct (_ <=? _); [done|]. apply agrees_silent; [done|].
    intros c m Hc. simpl. rewrite decide_False; [by apply H|]. by intros ->.
  - by apply agrees_silent.
Qed.

Lemma run_ops_agrees b ops : forallb (fun o => negb (reconciles o)) ops = true -> agrees b -> agrees (run_ops b ops).
Proof.
  revert b. induction ops as [|o ops IH]; intros b Ho H; [done|]. simpl in Ho. zbool.
  apply IH; [done|]. by apply apply_op_agrees.
Qed.

(** From a new worker and under any operations but
    [reconcileExactlyOnce], every event counter equals the number of [Inc]
    calls made on its Prometheus counter (as a [uint64]). *)
Theorem counters_match_metrics Getenv name channel idx cfg b0 ops c m :
  NewBaseWorker Getenv name channel idx cfg = Some b0 ->
  forallb (fun o => negb (reconciles o)) ops = true -> inc_metric c = Some m ->
  bw_cnt (run_ops b0 ops) c = u64 (count_inc m (bw_metrics (run_ops b0 ops))).
Proof.
  intros Hb Ho Hc. apply run_ops_agrees; [done| |done]. unfold NewBaseWorker in Hb.
  destruct (GetWorkerConfig cfg name) as [wc|]; [|done]. simpl in Hb. injection Hb as <-.
  intros c' m' _. done.
Qed.

Lemma counters_match_metrics_witness :
  exists b0, NewBaseWorker (fun _ => "") WorkerExactlyOnce "t" 0 DefaultConfig = Some b0 /\
  bw_cnt (run_ops b0 [OpTracked "p" 1; OpTracked "p" 1; OpExactlyOnceAck false]) C_duplicated
  = u64 (count_inc M_MessagesDuplicatedTotal
      (bw_metrics (run_ops b0 [OpTracked "p" 1; OpTracked "p" 1; OpExactlyOnceAck false]))).
Proof.
  eexists. split; [reflexivity|].
  apply (counters_match_metrics (fun _ => "") WorkerExactlyOnce "t" 0 DefaultConfig); reflexivity.
Defined.

(** Reconciling an acknowledgement lowers the counter the gate
    reads but not the Prometheus counter: a run whose single failed
    acknowledgement was reconciled passes the gate while the exported metric
    of never-reconciled ack ids stays at one. *)
Theorem reconcile_leaves_metric b :
  bw_cnt b C_exactlyOnceUnreconciled = 0 ->
  count_inc M_ExactlyOnceUnreconciledTotal (bw_metrics b) = 0 ->
  let b' := run_ops b [OpExactlyOnceAck false; OpReconcileExactlyOnce] in
  bw_cnt b' C_exactlyOnceUnreconciled = 0 /\
  count_inc M_ExactlyOnceUnreconciledTotal (bw_metrics b') = 1.
Proof.
  intros H1 H2. simpl. unfold reconcileExactlyOnce. cbn [recordExactlyOnceAck].
  unfold add_counter. simpl. rewrite H1. simpl. split; [done|].
  rewrite count_inc_app, H2. done.
Qed.

Lemma reconcile_leaves_metric_witness :
  exists b0, NewBaseWorker (fun _ => "") WorkerExactlyOnce "t" 0 DefaultConfig = Some b0 /\
  bw_cnt (run_ops b0 [OpExactlyOnceAck false; OpReconcileExactlyOnce]) C_exactlyOnceUnreconciled = 0.
Proof.
  eexists. split; [reflexivity|]. apply reconcile_leaves_metric; reflexivity.
Defined.
