(* ===== verification/WorkerTypes.v ===== *)
(** * The types of a worker's state

    Every field of a worker keeps to its Go type whatever operations run on it
    in whatever order, the statements of the warm-up reset between them:
    counters wrap within [uint64], the trackers' bitsets and the rings of the
    rate windows keep their sizes and their indices stay in bounds, so no
    operation indexes out of range. *)
From S2P Require Import Prelude GoFloat GoFmt Config Payload Tracker TrackerBits TrackerSpec TrackerProps.
From S2P Require Import Metrics MetricsProps Transport Worker WorkerProps.

(** ** Producers *)

Definition ps_typed (ps : producerState) : Prop :=
  is_u64 (ps_received ps) /\ is_u64 (ps_duplicates ps) /\ is_u64 (ps_outOfOrder ps) /\
  is_u64 (ps_confirmedLost ps) /\ is_u64 (ps_lastReportedLost ps) /\ is_u64 (ps_lastSeen ps).

Lemma advance_typed ps : ps_typed ps -> ps_typed (advanceContiguous ps).
Proof. unfold advanceContiguous. by destruct (advance_loop _ _ _). Qed.

Lemma lost_typed ps pend : ps_typed ps -> ps_typed (ps_set_lost ps pend).
Proof. unfold ps_typed. cbn. intros (?&?&?&?&?&?). repeat split; try apply u64_range; range. Qed.
Lemma window_typed ps high w : ps_typed ps -> ps_typed (ps_set_window ps high w).
Proof. done. Qed.

Create HintDb typed.
#[export] Hint Resolve advance_typed lost_typed window_typed : typed.

Lemma slide_typed rw ps s : ps_typed ps -> ps_typed (slideWindow rw ps s).
Proof. intros H. unfold slideWindow. repeat case_if; auto with typed. Qed.

Lemma record_known_typed rw ps s : ps_typed ps -> is_u64 s -> ps_typed (fst (record_known rw ps s)).
Proof.
  intros H Hs. assert (ps_typed (prologue ps s)) as Hp.
  { destruct H as (?&?&?&?&?&?). unfold prologue, ps_typed. case_if; cbn; repeat split; try apply uadd_range; range. }
  assert (ps_typed (ps_set_duplicates (prologue ps s) (ps_duplicates (prologue ps s) +u 1))) as Hd.
  { destruct Hp as (?&?&?&?&?&?). unfold ps_typed. cbn [ps_set_duplicates ps_received ps_duplicates ps_outOfOrder ps_confirmedLost
      ps_lastReportedLost ps_lastSeen]. repeat split; try apply uadd_range; range. }
  rewrite record_known_unfold. cbv zeta. repeat case_if; cbn [fst]; auto using slide_typed with typed.
Qed.

Lemma record_first_typed rw s : is_u64 s -> ps_typed (record_first rw s).
Proof.
  intros Hs. unfold record_first. apply advance_typed. unfold ps_typed. cbn. repeat split; try apply uadd_range; range.
Qed.

(** ** Trackers *)

Record tracker_typed (t : Tracker) : Prop := {
  tt_rel : exists m, tracker_rel t m;
  tt_stats : map_Forall (fun _ ps => ps_typed ps) (producers t)
}.

Lemma new_typed rw : rw_ok rw -> tracker_typed (New rw).
Proof. intros H. split; [exists ∅; by apply New_rel|apply map_Forall_empty]. Qed.

Lemma record_typed t p s : tracker_typed t -> is_u64 s -> tracker_typed (fst (Record_ t p s)).
Proof.
  intros [[m Hm] Hs] Hu. split; [eexists; by apply Record_sim|].
  unfold Record_. destruct (producers t !! p) as [ps|] eqn:E.
  - pose proof (record_known_typed (reorderWindow t) ps s (Hs _ _ E) Hu) as Hk.
    destruct (record_known _ _ _) as [ps' res]. cbn in *. by apply map_Forall_insert_2.
  - cbn. apply map_Forall_insert_2; [by apply record_first_typed|done].
Qed.

Lemma detect_typed t : tracker_typed t -> tracker_typed (fst (DetectGaps t)).
Proof.
  intros [[m Hm] Hs]. unfold DetectGaps. cbn [fst]. split.
  - exists m. split; [exact (rel_rw _ _ Hm)|]. intros p. cbn. pose proof (rel_producers _ _ Hm p) as H. rewrite lookup_fmap.
    destruct (producers t !! p) as [ps|]; [|done]. cbn. destruct (m !! p); [|done]. destruct H as [H1 H2].
    split; [by apply (wf_frame _ ps)|by apply (sim_frame ps)].
  - cbn. intros p ps. rewrite lookup_fmap. intros (ps0 & E & ->)%fmap_Some.
    destruct (Hs p ps0 E) as (?&?&?&?&?&?). unfold ps_typed. cbn. repeat split; range.
Qed.

(** ** Rings *)

(** A ring of [n] counts with its index in bounds. *)
Record ring_typed (n : nat) (buckets : list Z) (idx : nat) : Prop := {
  rt_length : length buckets = n;
  rt_index : (idx < n)%nat;
  rt_counts : Forall is_int buckets
}.

Lemma ring_new_typed n : (0 < n)%nat -> ring_typed n (replicate n 0) 0.
Proof. intros H. split; [apply length_replicate|done|apply Forall_replicate; range]. Qed.

Lemma ring_record_typed n l i : ring_typed n l i -> ring_typed n (alter (fun b => to_int (b + 1)) i l) i.
Proof.
  intros [H1 H2 H3]. split; [by rewrite length_alter|done|].
  apply Forall_alter; [done|]. intros x _ _. apply to_int_range.
Qed.

Lemma ring_advance_typed n l i : ring_typed n l i -> ring_typed n (<[((i + 1) mod n)%nat := 0]> l) ((i + 1) mod n)%nat.
Proof.
  intros [H1 H2 H3]. split; [by rewrite length_insert|apply Nat.mod_upper_bound; lia|]. apply Forall_insert; [done|range].
Qed.

Record rate_typed (w : SlidingRateWindow) : Prop := {
  rw_ring : ring_typed slidingWindowSize (sw_buckets w) (sw_idx w);
  rw_total : sw_total w = to_int (zsum (sw_buckets w));
  rw_ticks : is_int (sw_ticks w)
}.
Definition peak_typed (p : PeakRateTracker) : Prop := ring_typed peakWindowSize (pk_buckets p) (pk_idx p).

Lemma rate_record_typed w : rate_typed w -> rate_typed (sw_Record w).
Proof.
  intros [H1 H2 H3]. pose proof (ring_record_typed _ _ _ H1) as H4. destruct H1 as [L1 L2 L3].
  destruct (lookup_lt_is_Some_2 (sw_buckets w) (sw_idx w)) as [x Hx]; [lia|].
  split; [done| |done]. cbn [sw_Record sw_total sw_buckets]. rewrite (zsum_alter _ _ _ x), H2, to_int_add by done.
  rewrite (to_int_shift _ (x + 1)). f_equal. lia.
Qed.

Lemma rate_advance_typed w : rate_typed w -> rate_typed (sw_Advance w).
Proof.
  intros [H1 H2 H3]. pose proof (ring_advance_typed _ _ _ H1) as H4. destruct H1 as [L1 L2 L3], H4 as [R1 R2 R3].
  destruct (lookup_lt_is_Some_2 (sw_buckets w) ((sw_idx w + 1) mod slidingWindowSize)) as [x Hx]; [by rewrite L1|].
  split; [done| |apply to_int_range]. cbn [sw_Advance sw_total sw_buckets]. rewrite (zsum_insert _ _ x), Hx, H2 by done.
  cbn [default]. replace (zsum (sw_buckets w) - x + 0) with (zsum (sw_buckets w) + - x) by lia. by rewrite <- to_int_add.
Qed.

Lemma rate_reset_typed w : rate_typed w -> rate_typed (sw_Reset w).
Proof.
  intros [[L1 _ _] _ _]. unfold sw_Reset. rewrite map_const_replicate, L1.
  split; [by apply ring_new_typed; vm_compute; lia| |done]. cbn [sw_total sw_buckets]. by rewrite zsum_replicate.
Qed.

(** ** Workers *)

Record well_typed (b : BaseWorker) : Prop := {
  wt_counters : forall c, is_u64 (bw_cnt b c);
  wt_generation : is_u64 (bw_disconnectGen b);
  wt_tracker : tracker_typed (bw_trk b);
  wt_latencies : Forall is_int (bw_lat b);
  wt_peak : peak_typed (bw_peak b);
  wt_rate : rate_typed (bw_rate b)
}.

(** The arguments of an operation are values of their Go types. *)
Definition op_typed (o : worker_op) : Prop :=
  match o with
  | OpTracked _ s => is_u64 s
  | OpDeliveryAttemptMax v => is_u64 v
  | OpLatency d => is_int d
  | _ => True
  end.

(** Everything that writes a worker's state: its own operations, the warm-up
    reset, and the engine's gap detection. *)
Inductive any_op :=
| AnOp (o : worker_op)
| AResetStore (r : reset_store)
| ADetectGaps.
Definition any_apply (b : BaseWorker) (a : any_op) : BaseWorker :=
  match a with
  | AnOp o => apply_op b o
  | AResetStore r => reset_apply b r
  | ADetectGaps => set_trk b (fst (DetectGaps (bw_trk b)))
  end.
Definition any_typed (a : any_op) : Prop := match a with AnOp o => op_typed o | _ => True end.

Lemma typed_emit o b : well_typed b -> well_typed (emit o b).
Proof. by intros []. Qed.
Lemma typed_flag f v b : well_typed b -> well_typed (store_flag f v b).
Proof. by intros []. Qed.
Lemma typed_store c n b : is_u64 n -> well_typed b -> well_typed (store_counter c n b).
Proof. intros Hn [H1 H2 H3 H4 H5 H6]. split; try done. intros d. cbn. by case_decide. Qed.
Lemma typed_add c n b : well_typed b -> well_typed (add_counter c n b).
Proof. intros H. apply typed_store; [apply uadd_range|done]. Qed.
Lemma typed_trk t b : tracker_typed t -> well_typed b -> well_typed (set_trk b t).
Proof. intros Ht []. by split. Qed.
Lemma typed_accums lat pk sw b :
  Forall is_int lat -> peak_typed pk -> rate_typed sw -> well_typed b -> well_typed (set_accums b lat pk sw).
Proof. intros H1 H2 H3 []. by split. Qed.
#[export] Hint Resolve typed_emit typed_flag typed_add : typed.

Lemma apply_typed b o : op_typed o -> well_typed b -> well_typed (apply_op b o).
Proof.
  intros Ho H. pose proof H as [H1 H2 H3 H4 H5 H6]. destruct o; cbn [apply_op op_typed] in *;
    try (by apply typed_emit, typed_add); auto with typed.
  - unfold recordSent. cbv zeta. do 2 apply typed_emit. apply typed_accums; [done|by apply ring_record_typed|by apply rate_record_typed|].
    apply typed_accums; [done|done|by apply rate_record_typed|]. by apply typed_add.
  - unfold recordReceived. cbv zeta. auto with typed.
  - apply typed_emit, typed_accums; [|done..]. apply Forall_app. split; [done|]. apply Forall_singleton.
    unfold is_int, two63, Microsecond, Nanosecond in *. Z.to_euclidean_division_equations. lia.
  - pose proof (record_typed _ producerID seq H3 Ho) as Ht. unfold recordTracked.
    destruct (Record_ _ _ _) as [t [dup oo]]. cbn [fst] in *.
    assert (well_typed (set_trk b t)) by (by apply typed_trk). destruct dup, oo; auto with typed;
      unfold recordDuplicated; auto with typed.
  - unfold recordExactlyOnceAck. destruct confirmed; auto with typed.
  - unfold reconcileExactlyOnce. cbv zeta. case_if; [done|]. apply typed_store; [apply usub_range|done].
  - unfold setDeliveryAttemptMax. cbv zeta. case_if; [done|]. apply typed_emit. by apply typed_store.
  - by apply typed_emit.
  - apply typed_accums; [done| |by apply rate_advance_typed|done]. by apply (ring_advance_typed peakWindowSize).
  - by split.
  - split; try done. apply uadd_range.
Qed.

Lemma reset_store_typed b r : well_typed b -> well_typed (reset_apply b r).
Proof.
  intros H. pose proof H as [H1 H2 [[m Hm] _] H4 H5 H6]. destruct r; cbn [reset_apply].
  - apply typed_trk; [apply new_typed; exact (rel_rw _ _ Hm)|done].
  - by apply typed_accums.
  - apply typed_accums; try done. apply ring_new_typed. vm_compute. lia.
  - apply typed_accums; try done. by apply rate_reset_typed.
  - apply typed_store; [range|done].
  - by apply typed_flag.
Qed.

Lemma any_keeps_typed b a : any_typed a -> well_typed b -> well_typed (any_apply b a).
Proof.
  intros Ha H. destruct a as [o|r|]; cbn [any_apply any_typed] in *; [by apply apply_typed|by apply reset_store_typed|].
  apply typed_trk; [by apply detect_typed; destruct H|done].
Qed.

(** C10 (type).  A worker built from a configuration whose reorder window is
    positive and leaves room for the bitset is well typed, and so it stays
    under every interleaving of its operations with arguments of their types,
    gap detections and the single stores of [ResetAfterWarmup]: counters are
    [uint64]s, the [int64] and [int] fields of the rate windows stay at their
    width, bitsets and rings keep their sizes and indices their bounds, and the
    total of the sliding window is the wrapped sum of its buckets. *)
Theorem worker_well_typed Getenv name channel idx cfg b ops :
  NewBaseWorker Getenv name channel idx cfg = Some b -> rw_ok (msg_ReorderWindow (c_Message cfg)) ->
  Forall any_typed ops -> well_typed (foldl any_apply b ops).
Proof.
  intros Hb Hrw Ho.
  assert (well_typed b) as H.
  { unfold NewBaseWorker in Hb. destruct (GetWorkerConfig cfg name); [|done]. cbn in Hb. injection Hb as <-.
    split; cbn; [intros; range|range|by apply new_typed|done| |].
    - apply ring_new_typed. vm_compute. lia.
    - split; [apply ring_new_typed; vm_compute; lia|reflexivity|done]. }
  clear Hb. revert b H. induction Ho as [|a ops Ha Ho IH]; intros b H; [done|]. apply IH. by apply any_keeps_typed.
Qed.

Lemma worker_well_typed_witness :
  exists b, NewBaseWorker (fun _ => "") WorkerStreamingPull "t" 0 DefaultConfig = Some b /\
    well_typed (foldl any_apply b
      [AnOp (OpSent 3 "p"); AnOp (OpTracked "p" 18446744073709551615); AnOp OpAdvanceRateWindows; ADetectGaps;
       AResetStore RTracker; AnOp (OpReceived 3 "c"); AResetStore (RCounter C_received)]).
Proof.
  eexists. split; [reflexivity|].
  apply (worker_well_typed (fun _ => "") WorkerStreamingPull "t" 0 DefaultConfig); [reflexivity|vm_compute; auto|].
  repeat constructor; cbn; unfold is_u64, two64; lia.
Defined.
