(* ===== verification/Verdict.v ===== *)
(** * burnin/engine: snapshots and the verdict

    [captureWorkerSnapshots] folds the workers of a group into a
    [WorkerSnapshot]; [computeVerdict] evaluates the snapshots against the
    thresholds and the Pub/Sub gates.  Go ranges over the snapshot map in any
    order, so the verdict takes the entries as a list; [VerdictProps] shows the
    order is immaterial. *)
From S2P Require Import Prelude GoFloat GoFmt Config Tracker Metrics Transport Worker.

(** ** Snapshots *)

(** The fields that are sums of a worker's atomic counters (and
    [DeliveryAttemptMax], their maximum) are [sn_cnt]; the probe flags are
    [sn_flag]. *)
Record WorkerSnapshot := mkSnap {
  sn_cnt : counter -> Z;
  sn_DowntimeSeconds : float64;
  sn_Lost : Z;
  sn_OutOfOrder : Z;
  sn_flag : flag -> bool;
  sn_LatencyP50 : float64;
  sn_LatencyP95 : float64;
  sn_LatencyP99 : float64;
  sn_LatencyP999 : float64;
  sn_PeakRate : float64;
  sn_AvgRate : float64
}.

Definition zero_snapshot : WorkerSnapshot :=
  mkSnap (fun _ => 0) f0 0 0 (fun _ => false) f0 f0 f0 f0 f0 f0.

(** The counters the loop adds up, statement by statement; the downtime is
    added as seconds and the delivery attempt is a maximum. *)
Definition summed_counters : list counter :=
  [C_sent; C_received; C_errors; C_corrupted; C_reconnections; C_duplicated; C_acked; C_orderingViolations;
   C_fanoutDeliveries; C_fanoutDropped; C_exactlyOnceConfirmed; C_exactlyOnceUnreconciled;
   C_deadLetterRepublished; C_deadLetterLost; C_interopConverged; C_interopDiverged;
   C_nackRedelivered; C_batchAtomicityViolations; C_filterMismatch; C_filterMatchedDelivered;
   C_schemaRejectViolations; C_schemaEnforceConfirmed; C_seekReplayExpected; C_seekReplayObserved;
   C_seekReplayMismatch; C_inflightCapTailRedelivered; C_inflightCapLost;
   C_exactlyOnceInvalidAckConfirmed; C_flowControlViolations; C_retryBackoffObserved;
   C_leaseExtendConfirmed; C_leaseExtendRejectConfirmed; C_crossStreamAckConfirmed; C_periodicCloseObserved].
Definition summed (c : counter) : bool := bool_decide (c ∈ summed_counters).

Section capture.
Context (ValueAtQuantile : list Z -> float64 -> Z).
Context (TotalCount : list Z -> Z).

(** One round of the inner loop: the snapshot so far, and the accumulator with
    the most samples so far with its count. *)
Definition capture_worker (acc : WorkerSnapshot * option LatencyAccumulator * Z) (w : BaseWorker)
  : WorkerSnapshot * option LatencyAccumulator * Z :=
  let '(snap, bestLat, bestLatCount) := acc in
  let cnt c :=
    if summed c then sn_cnt snap c +u bw_cnt w c
    else match c with
         | C_deliveryAttemptMax =>
             if sn_cnt snap c <? bw_cnt w c then bw_cnt w c else sn_cnt snap c
         | _ => sn_cnt snap c
         end in
  let snap' := mkSnap cnt
    (fadd (sn_DowntimeSeconds snap) (DowntimeSeconds w))
    (sn_Lost snap +u TotalLost (bw_trk w))
    (sn_OutOfOrder snap +u TotalOutOfOrder (bw_trk w))
    (fun f => sn_flag snap f || bw_flag w f)
    (sn_LatencyP50 snap) (sn_LatencyP95 snap) (sn_LatencyP99 snap) (sn_LatencyP999 snap)
    (if fltb (sn_PeakRate snap) (pk_Peak (bw_peak w)) then pk_Peak (bw_peak w) else sn_PeakRate snap)
    (fadd (sn_AvgRate snap) (sw_Rate (bw_rate w))) in
  let c := TotalCount (bw_lat w) in
  if bestLatCount <? c then (snap', Some (bw_lat w), c) else (snap', bestLat, bestLatCount).

Definition set_latency (s : WorkerSnapshot) (p : float64 * float64 * float64 * float64) : WorkerSnapshot :=
  let '(p50, p95, p99, p999) := p in
  mkSnap (sn_cnt s) (sn_DowntimeSeconds s) (sn_Lost s) (sn_OutOfOrder s) (sn_flag s)
    p50 p95 p99 p999 (sn_PeakRate s) (sn_AvgRate s).

(** [snap.FanoutDropped += snap.Lost; snap.Lost = 0]. *)
Definition fold_fanout (s : WorkerSnapshot) : WorkerSnapshot :=
  mkSnap (fun c => if decide (c = C_fanoutDropped) then sn_cnt s c +u sn_Lost s else sn_cnt s c)
    (sn_DowntimeSeconds s) 0 (sn_OutOfOrder s) (sn_flag s)
    (sn_LatencyP50 s) (sn_LatencyP95 s) (sn_LatencyP99 s) (sn_LatencyP999 s)
    (sn_PeakRate s) (sn_AvgRate s).

Definition capture_group (name : string) (workers : list BaseWorker) : WorkerSnapshot :=
  let '(snap, bestLat, _) := foldl capture_worker (zero_snapshot, None, 0) workers in
  let snap := match bestLat with Some a => set_latency snap (Percentiles ValueAtQuantile a) | None => snap end in
  if IsFanoutWorker name then fold_fanout snap else snap.

Definition captureWorkerSnapshots (groups : list (string * list BaseWorker))
  : list (string * WorkerSnapshot) :=
  map (fun '(name, ws) => (name, capture_group name ws)) groups.
End capture.

(** ** The verdict *)

Definition boundaryLossPct : float64 := f_lit 1 2.

Record VerdictResult := mkVerdict { v_Result : string; v_Passed : bool; v_Warnings : list string }.

(** What a gate does: [fail(...)] or append a note. *)
Inductive outcome := Fail (msg : string) | Note (msg : string).

Definition gate (cond : bool) (f : string) (args : list arg) : list outcome :=
  if cond then [Fail (Sprintf f args)] else [].
Definition note (f : string) (args : list arg) : list outcome := [Note (Sprintf f args)].

Definition checkLatency (name label : string) (value threshold : float64) : list outcome :=
  gate (fltb f0 value && fltb f0 threshold && fltb threshold value)
    "%s: %s latency %.1fms exceeds %.1fms" [AStr name; AStr label; AFloat value; AFloat threshold].

(** The gates on loss, duplication, latency, errors, throughput and downtime. *)
Definition standard_gates (cfg : Config) (measurement : Z) (name : string) (s : WorkerSnapshot) : list outcome :=
  let th := c_Thresholds cfg in
  let n c := sn_cnt s c in
  gate (0 <? n C_corrupted) "%s: %d corrupted messages" [AStr name; AInt (n C_corrupted)] ++
  (if 0 <? n C_sent then
     let lossPct := pct (sn_Lost s) (n C_sent) in
     gate (fltb (th_MaxLossPct th) lossPct && fltb boundaryLossPct lossPct)
       "%s: loss %.4f%% exceeds threshold %.4f%%" [AStr name; AFloat lossPct; AFloat (th_MaxLossPct th)]
   else []) ++
  (if (0 <? n C_received) && negb (IsDuplicationGateExempt name) then
     let dupPct := pct (n C_duplicated) (n C_received) in
     gate (fltb (th_MaxDuplicationPct th) dupPct)
       "%s: duplication %.4f%% exceeds threshold %.4f%%"
       [AStr name; AFloat dupPct; AFloat (th_MaxDuplicationPct th)]
   else []) ++
  (if negb (IsLatencyGateExempt name) then
     checkLatency name "p50" (sn_LatencyP50 s) (th_MaxP50LatencyMS th) ++
     checkLatency name "p95" (sn_LatencyP95 s) (th_MaxP95LatencyMS th) ++
     checkLatency name "p99" (sn_LatencyP99 s) (th_MaxP99LatencyMS th) ++
     checkLatency name "p999" (sn_LatencyP999 s) (th_MaxP999LatencyMS th)
   else []) ++
  (let total := n C_sent +u n C_received in
   if 0 <? total then
     let errPct := pct (n C_errors) total in
     gate (fltb (th_MaxErrorRatePct th) errPct)
       "%s: error rate %.4f%% exceeds %.4f%%" [AStr name; AFloat errPct; AFloat (th_MaxErrorRatePct th)]
   else []) ++
  (if (0 <? measurement) && (0 <? n C_sent) && negb (IsDeadLetterWorker name) &&
      negb (IsSeekSnapshotWorker name) && negb (IsFilteringWorker name) then
     let targetRate := f_of_Z (GetWorkerRate cfg name) in
     if fltb f0 targetRate then
       let actualRate := fdiv (f_of_Z (n C_sent)) (Seconds measurement) in
       let throughputPct := fmul (fdiv actualRate targetRate) f100 in
       gate (fltb throughputPct (th_MinThroughputPct th))
         "%s: throughput %.1f%% below %.1f%%" [AStr name; AFloat throughputPct; AFloat (th_MinThroughputPct th)]
     else []
   else []) ++
  (if (0 <? measurement) && fltb f0 (sn_DowntimeSeconds s) then
     let downtimePct := fmul (fdiv (sn_DowntimeSeconds s) (Seconds measurement)) f100 in
     gate (fltb (th_MaxDowntimePct th) downtimePct)
       "%s: downtime %.1f%% exceeds %.1f%%" [AStr name; AFloat downtimePct; AFloat (th_MaxDowntimePct th)]
   else []).

(** The Pub/Sub gates. *)
Definition fidelity_gates (name : string) (s : WorkerSnapshot) : list outcome :=
  let n c := sn_cnt s c in
  gate (IsOrderingWorker name && (0 <? n C_orderingViolations))
    "%s: %d ordering-key violations (expected 0)" [AStr name; AInt (n C_orderingViolations)] ++
  gate (IsExactlyOnceWorker name && (0 <? n C_exactlyOnceUnreconciled))
    "%s: %d exactly-once ack ids unreconciled (expected 0)" [AStr name; AInt (n C_exactlyOnceUnreconciled)] ++
  gate (IsDeadLetterWorker name && (0 <? n C_deadLetterLost))
    "%s: %d dead-letter messages lost (expected 0)" [AStr name; AInt (n C_deadLetterLost)] ++
  gate (IsFanoutWorker name && (0 <? n C_fanoutDropped))
    "%s: %d fan-out deliveries dropped (expected 0)" [AStr name; AInt (n C_fanoutDropped)] ++
  gate (IsInteropWorker name && (0 <? n C_interopDiverged))
    "%s: %d interop messages never converged (expected 0)" [AStr name; AInt (n C_interopDiverged)].

(** The data-plane coverage gates. *)
Definition coverage_gates (name : string) (s : WorkerSnapshot) : list outcome :=
  let n c := sn_cnt s c in
  let ran f := sn_flag s f in
  gate (0 <? n C_batchAtomicityViolations)
    "%s: %d batch publish partial-enqueue / accepted-invalid-batch violations (expected 0)"
    [AStr name; AInt (n C_batchAtomicityViolations)] ++
  gate (IsFilteringWorker name && (0 <? n C_filterMismatch))
    "%s: %d filtered-out messages delivered (expected 0)" [AStr name; AInt (n C_filterMismatch)] ++
  (if IsSchemaEnforceWorker name then
     gate (0 <? n C_schemaRejectViolations)
       "%s: %d non-conforming publishes accepted under schema enforcement (expected 0)"
       [AStr name; AInt (n C_schemaRejectViolations)] ++
     gate (ran F_schemaEnforceProbeRan && (n C_schemaEnforceConfirmed =? 0))
       "%s: schema-enforce probe ran but the INVALID_ARGUMENT rejection was never observed" [AStr name]
   else []) ++
  gate (IsSeekSnapshotWorker name && (0 <? n C_seekReplayMismatch))
    "%s: %d seek/snapshot replay-count mismatches (expected 0)" [AStr name; AInt (n C_seekReplayMismatch)] ++
  gate (IsInflightCapWorker name && (0 <? n C_inflightCapLost))
    "%s: %d in-flight-cap messages lost (tail not redelivered, expected 0)"
    [AStr name; AInt (n C_inflightCapLost)] ++
  (if IsExactlyOnceWorker name then
     gate (ran F_invalidAckProbeRan && (n C_exactlyOnceInvalidAckConfirmed =? 0))
       "%s: invalid-ack probe ran but FAILED_PRECONDITION + INVALID_ACK_ID was never observed" [AStr name] ++
     gate (ran F_confirmationsProbeRan && (n C_exactlyOnceConfirmed =? 0))
       "%s: exactly-once traffic flowed but StreamingPull ack confirmations were never observed" [AStr name]
   else []) ++
  gate (0 <? n C_flowControlViolations)
    "%s: %d flow-control clamp violations (un-acked delivered above ceiling, expected 0)"
    [AStr name; AInt (n C_flowControlViolations)] ++
  (if ran F_leaseExtendProbeRan then
     gate (n C_leaseExtendConfirmed =? 0)
       "%s: lease-extend probe ran but non-redelivery in the extended window was never confirmed" [AStr name] ++
     gate (n C_leaseExtendRejectConfirmed =? 0)
       "%s: lease-extend probe ran but an out-of-range deadline rejection (INVALID_ARGUMENT) was never confirmed"
       [AStr name]
   else []) ++
  gate (ran F_crossStreamAckProbeRan && (n C_crossStreamAckConfirmed =? 0))
    "%s: cross-stream ack probe ran but a subscription-owned-lease ack was never confirmed" [AStr name] ++
  gate (IsDeadLetterWorker name && (0 <? n C_deadLetterRepublished) && (n C_deliveryAttemptMax =? 0))
    "%s: dead-letter republish observed but delivery_attempt was never surfaced (>0) on the source (expected the DLQ policy to surface attempts)"
    [AStr name].

(** The notes that never fail a run. *)
Definition bounded_notes (cfg : Config) (name : string) (s : WorkerSnapshot) : list outcome :=
  let n c := sn_cnt s c in
  (if IsDeadLetterWorker name && gcp_RetryBackoffProbe (c_GCP cfg) then
     if 0 <? n C_retryBackoffObserved
     then note "%s: exponential retry backoff observed" [AStr name]
     else note "%s: retry backoff not conclusively observed in window (timing-nondeterministic)" [AStr name]
   else []) ++
  (if IsStreamingPullWorker name then
     if 0 <? n C_periodicCloseObserved
     then note "%s: periodic StreamingPull server-close observed and survived" [AStr name]
     else note "%s: periodic close not exercised in this window (StreamCloseSeconds default 1800 > run duration)"
            [AStr name]
   else []).

(** The body of the loop for one entry of the snapshot map. *)
Definition worker_outcomes (cfg : Config) (measurement : Z) (e : string * WorkerSnapshot) : list outcome :=
  let '(name, s) := e in
  standard_gates cfg measurement name s ++ fidelity_gates name s ++ coverage_gates name s ++
  bounded_notes cfg name s.

Definition apply_outcome (r : VerdictResult) (o : outcome) : VerdictResult :=
  match o with
  | Fail msg => mkVerdict "FAILED" false (v_Warnings r ++ [msg])
  | Note msg => mkVerdict (v_Result r) (v_Passed r) (v_Warnings r ++ [msg])
  end.

(** Growth of the memory warns, and never fails the run. *)
Definition memory_warning (cfg : Config) (baseline peak : Z) (r : VerdictResult) : VerdictResult :=
  if (0 <? baseline) && (baseline <? peak) then
    let growth := fdiv (f_of_Z peak) (f_of_Z baseline) in
    let limit := th_MaxMemoryGrowthFactor (c_Thresholds cfg) in
    if fltb limit growth then
      mkVerdict (if v_Passed r then "PASSED_WITH_WARNINGS" else v_Result r) (v_Passed r)
        (v_Warnings r ++ [Sprintf "memory growth %.2fx exceeds threshold %.2fx" [AFloat growth; AFloat limit]])
    else r
  else r.

(** [computeVerdict]: [measurement] is producersStoppedAt - producersStartedAt
    in nanoseconds, [baseline] and [peak] the recorded memory sizes. *)
Definition computeVerdict (cfg : Config) (measurement : Z) (baseline peak : Z)
    (snapshots : list (string * WorkerSnapshot)) : VerdictResult :=
  let r := foldl apply_outcome (mkVerdict "PASSED" true [])
             (concat (map (worker_outcomes cfg measurement) snapshots)) in
  memory_warning cfg baseline peak r.
