(* ===== verification/Report.v ===== *)
(** * burnin/report and the report of main.go

    [GenerateVerdict] with its structured checks, and [RunReport], which builds
    the summary from the engine's snapshots and reconciles the report's verdict
    with the engine's. *)
From S2P Require Import Prelude GoFloat GoFmt Config Metrics Transport Worker Verdict.

(** ** Data *)

(** The counter fields of [WorkerStats] are [st_cnt]. *)
Record WorkerStats := mkStats_ {
  st_Enabled : bool;
  st_cnt : counter -> Z;
  st_Lost : Z;
  st_OutOfOrder : Z;
  st_LossPct : float64;
  st_DowntimeSeconds : float64;
  st_LatencyP50MS : float64;
  st_LatencyP95MS : float64;
  st_LatencyP99MS : float64;
  st_LatencyP999MS : float64;
  st_AvgRate : float64;
  st_PeakRate : float64;
  st_TargetRate : Z;
  st_Channels : Z
}.

Record ResourceStats := mkResources {
  PeakRSSMB : float64; BaselineRSSMB : float64; MemoryGrowthFactor : float64
}.

(** Times are Unix nanoseconds, [None] for the zero time. *)
Record Summary := mkSummary {
  su_RunID : string; su_SDK : string; su_SDKVersion : string; su_Mode : string;
  su_BrokerAddress : string; su_ProjectID : string; su_EmulatorHost : string;
  su_StartedAt : option Z; su_EndedAt : option Z; su_DurationSeconds : float64;
  su_AllWorkersEnabled : bool;
  su_Workers : list (string * WorkerStats);
  su_Resources : ResourceStats
}.

Record CheckResult := mkCheck {
  ck_Name : string; ck_Passed : bool; ck_Advisory : bool;
  ck_Value : float64; ck_Threshold : float64; ck_Message : string
}.

Record Verdict := mkReportVerdict {
  rv_Result : string; rv_Passed : bool; rv_Warnings : list string; rv_Checks : gmap string CheckResult
}.

Definition add_check (v : Verdict) (c : CheckResult) (ok : bool) : Verdict :=
  mkReportVerdict (rv_Result v) (if ok then rv_Passed v else false) (rv_Warnings v)
    (<[ck_Name c := c]> (rv_Checks v)).
Definition add_warning (v : Verdict) (w : string) : Verdict :=
  mkReportVerdict (rv_Result v) (rv_Passed v) (rv_Warnings v ++ [w]) (rv_Checks v).

(** ** GenerateVerdict *)

Definition lossGateThreshold (base : float64) : float64 :=
  if fltb base boundaryLossPct then boundaryLossPct else base.

Definition addHard (v : Verdict) (name : string) (value threshold : float64) (msg : string) : Verdict :=
  let passed := fleb value threshold in
  add_check v (mkCheck name passed false value threshold msg) passed.

(** A gate that expects a counter to be zero. *)
Definition addZero (v : Verdict) (name : string) (value : Z) (msg : string) : Verdict :=
  add_check v (mkCheck name (value =? 0) false (f_of_Z value) f0 msg) (negb (0 <? value)).

Definition report_loss (th : ThresholdsConfig) (name : string) (ws : WorkerStats) (v : Verdict) : Verdict :=
  if (0 <? st_cnt ws C_sent) && negb (IsFanoutWorker name) then
    let lossPct := pct (st_Lost ws) (st_cnt ws C_sent) in
    addHard v ("message_loss:" +:+ name) lossPct (lossGateThreshold (th_MaxLossPct th))
      (Sprintf "%.4f%% loss (threshold %.4f%%)" [AFloat lossPct; AFloat (th_MaxLossPct th)])
  else v.

Definition report_dup (th : ThresholdsConfig) (name : string) (ws : WorkerStats) (v : Verdict) : Verdict :=
  if 0 <? st_cnt ws C_received then
    let dupPct := pct (st_cnt ws C_duplicated) (st_cnt ws C_received) in
    if IsDuplicationGateExempt name then
      if fltb (th_MaxDuplicationPct th) dupPct then
        add_warning v (Sprintf "%s: duplication %.4f%% exceeds %.4f%% — gate-exempt (at-least-once redelivery by design / inherent to delivery model)"
          [AStr name; AFloat dupPct; AFloat (th_MaxDuplicationPct th)])
      else v
    else addHard v ("duplication:" +:+ name) dupPct (th_MaxDuplicationPct th)
      (Sprintf "%.4f%% duplication (threshold %.4f%%)" [AFloat dupPct; AFloat (th_MaxDuplicationPct th)])
  else v.

Definition report_latency (th : ThresholdsConfig) (name : string) (ws : WorkerStats) (v : Verdict) : Verdict :=
  let p99 := st_LatencyP99MS ws in
  if fltb f0 p99 then
    if IsLatencyGateExempt name then
      if fltb (th_MaxP99LatencyMS th) p99 then
        add_warning v (Sprintf "%s: p99 latency %.1fms exceeds %.1fms — gate-exempt (by-design / inherent delivery latency, not a steady-state SLA)"
          [AStr name; AFloat p99; AFloat (th_MaxP99LatencyMS th)])
      else v
    else addHard v ("p99_latency:" +:+ name) p99 (th_MaxP99LatencyMS th)
      (Sprintf "P99=%.1fms (threshold %.1fms)" [AFloat p99; AFloat (th_MaxP99LatencyMS th)])
  else v.

Definition report_errors (th : ThresholdsConfig) (name : string) (ws : WorkerStats) (v : Verdict) : Verdict :=
  let total := st_cnt ws C_sent +u st_cnt ws C_received in
  if 0 <? total then
    let errPct := pct (st_cnt ws C_errors) total in
    addHard v ("error_rate:" +:+ name) errPct (th_MaxErrorRatePct th)
      (Sprintf "%.4f%% error rate (threshold %.4f%%)" [AFloat errPct; AFloat (th_MaxErrorRatePct th)])
  else v.

(** The structured gates; [n] and [m] are the two counters of the message. *)
Definition report_structured (name : string) (ws : WorkerStats) (v : Verdict) : Verdict :=
  let n c := st_cnt ws c in
  let v := if IsOrderingWorker name then
    addZero v ("ordering_violations:" +:+ name) (n C_orderingViolations)
      (Sprintf "%d ordering-key violations" [AInt (n C_orderingViolations)]) else v in
  let v := if IsExactlyOnceWorker name then
    addZero v ("exactly_once_reconciled:" +:+ name) (n C_exactlyOnceUnreconciled)
      (Sprintf "%d unreconciled ack ids (of %d confirmed)"
         [AInt (n C_exactlyOnceUnreconciled); AInt (n C_exactlyOnceConfirmed)]) else v in
  let v := if IsDeadLetterWorker name then
    addZero v ("dead_letter_loss:" +:+ name) (n C_deadLetterLost)
      (Sprintf "%d dead-letter messages lost (of %d republished)"
         [AInt (n C_deadLetterLost); AInt (n C_deadLetterRepublished)]) else v in
  let v := if IsFanoutWorker name then
    addZero v ("fanout_dropped:" +:+ name) (n C_fanoutDropped)
      (Sprintf "%d fan-out deliveries dropped (of %d delivered)"
         [AInt (n C_fanoutDropped); AInt (n C_fanoutDeliveries)]) else v in
  if IsInteropWorker name then
    addZero v ("interop_convergence:" +:+ name) (n C_interopDiverged)
      (Sprintf "%d interop messages diverged (of %d converged)"
         [AInt (n C_interopDiverged); AInt (n C_interopConverged)]) else v.

Definition report_worker (th : ThresholdsConfig) (v : Verdict) (e : string * WorkerStats) : Verdict :=
  let '(name, ws) := e in
  if negb (st_Enabled ws) then v
  else report_structured name ws (report_errors th name ws (report_latency th name ws
         (report_dup th name ws (report_loss th name ws v)))).

Definition total_corrupted (workers : list (string * WorkerStats)) : Z :=
  foldl (fun total e => total +u st_cnt (snd e) C_corrupted) 0 workers.

Definition GenerateVerdict (summary : Summary) (cfg : Config) : Verdict :=
  let th := c_Thresholds cfg in
  let v := foldl (report_worker th) (mkReportVerdict "PASSED" true [] ∅) (su_Workers summary) in
  let totalCorrupted := total_corrupted (su_Workers summary) in
  let v := addZero v "corruption" totalCorrupted (Sprintf "%d corrupted messages" [AInt totalCorrupted]) in
  let v :=
    if fltb f0 (BaselineRSSMB (su_Resources summary)) then
      let growth := MemoryGrowthFactor (su_Resources summary) in
      let limit := th_MaxMemoryGrowthFactor th in
      let passed := fleb growth limit in
      let v := add_check v (mkCheck "memory_stability" passed true growth limit
                 (Sprintf "%.2fx growth (threshold %.2fx)" [AFloat growth; AFloat limit])) true in
      if passed then v
      else add_warning v (Sprintf "memory_stability: %.2fx growth exceeds %.2fx" [AFloat growth; AFloat limit])
    else v in
  mkReportVerdict
    (if negb (rv_Passed v) then "FAILED"
     else match rv_Warnings v with [] => rv_Result v | _ => "PASSED_WITH_WARNINGS" end)
    (rv_Passed v) (rv_Warnings v) (rv_Checks v).

(** ** RunReport (main.go, engineAdapter) *)

Definition worker_stats (wc : WorkerConfig) (s : WorkerSnapshot) : WorkerStats :=
  mkStats_ true (sn_cnt s) (sn_Lost s) (sn_OutOfOrder s)
    (if 0 <? sn_cnt s C_sent then pct (sn_Lost s) (sn_cnt s C_sent) else f0)
    (sn_DowntimeSeconds s) (sn_LatencyP50 s) (sn_LatencyP95 s) (sn_LatencyP99 s) (sn_LatencyP999 s)
    (sn_AvgRate s) (sn_PeakRate s) (wc_Rate wc) (wc_Channels wc).

(** Indexing the snapshot map. *)
Definition find_snapshot (snapshots : list (string * WorkerSnapshot)) (name : string) : option WorkerSnapshot :=
  snd <$> List.find (fun e => String.eqb (fst e) name) snapshots.

(** The loop over [AllWorkerNames]. *)
Definition report_workers (cfg : Config) (snapshots : list (string * WorkerSnapshot))
  : list (string * WorkerStats) :=
  omap (fun name =>
    s ← find_snapshot snapshots name;
    wc ← GetWorkerConfig cfg name;
    if wc_Enabled wc then Some (name, worker_stats wc s) else None) AllWorkerNames.

Record EngineView := mkView {
  ev_RunID : string; ev_StartedAt : option Z; ev_EndedAt : option Z;
  ev_Snapshots : option (list (string * WorkerSnapshot));
  ev_Baseline : Z; ev_Peak : Z; ev_Verdict : option VerdictResult
}.

Definition build_summary (cfg : Config) (ev : EngineView) (snapshots : list (string * WorkerSnapshot)) : Summary :=
  let workers := report_workers cfg snapshots in
  mkSummary (ev_RunID ev) SDK (out_SDKVersion (c_Output cfg)) (c_Mode cfg) (br_Address (c_Broker cfg))
    (gcp_ProjectID (c_GCP cfg)) (gcp_EmulatorHost (c_GCP cfg)) (ev_StartedAt ev) (ev_EndedAt ev)
    (match ev_EndedAt ev, ev_StartedAt ev with Some e, Some s => Seconds (e - s) | _, _ => f0 end)
    (length workers =? length AllWorkerNames)%nat
    workers
    (mkResources (fdiv (fdiv (f_of_Z (ev_Peak ev)) (f_of_Z 1024)) (f_of_Z 1024))
       (fdiv (fdiv (f_of_Z (ev_Baseline ev)) (f_of_Z 1024)) (f_of_Z 1024))
       (if 0 <? ev_Baseline ev then fdiv (f_of_Z (ev_Peak ev)) (f_of_Z (ev_Baseline ev)) else f0)).

(** The engine's verdict is authoritative when it fails or warns. *)
Definition reconcile (v : Verdict) (ev : option VerdictResult) : Verdict :=
  match ev with
  | None => v
  | Some e =>
      if negb (v_Passed e) then mkReportVerdict "FAILED" false (rv_Warnings v ++ v_Warnings e) (rv_Checks v)
      else if String.eqb (v_Result e) "PASSED_WITH_WARNINGS" && String.eqb (rv_Result v) "PASSED"
      then mkReportVerdict "PASSED_WITH_WARNINGS" (rv_Passed v) (rv_Warnings v ++ v_Warnings e) (rv_Checks v)
      else v
  end.

(** [cfg] is the run's configuration, or the startup one when there is none. *)
Definition RunReport (cfg : Config) (ev : EngineView) : option (Summary * Verdict) :=
  snapshots ← ev_Snapshots ev;
  let summary := build_summary cfg ev snapshots in
  Some (summary, reconcile (GenerateVerdict summary cfg) (ev_Verdict ev)).

(** The exit code of main: [passed] and [HasWarnings] come from the engine's
    verdict. *)
Definition exit_code (ev : option VerdictResult) : Z :=
  match ev with
  | Some e => if negb (v_Passed e) then 1 else if String.eqb (v_Result e) "PASSED_WITH_WARNINGS" then 2 else 0
  | None => 1
  end.
