(* ===== verification/VerdictProps.v ===== *)
(** * What the verdict guarantees

    The engine's verdict does not depend on map order; for validated
    configurations the report never passes a run the engine fails nor the other
    way round; and the places where the two, or the exit code, part. *)
From S2P Require Import Prelude GoFloat GoFmt Config ConfigProps Metrics Transport Worker Verdict Report.
From Stdlib Require Import SpecFloat.

(** ** Folding outcomes *)

Definition is_fail (o : outcome) : bool := match o with Fail _ => true | Note _ => false end.
Definition outcome_msg (o : outcome) : string := match o with Fail m | Note m => m end.
Definition fails (l : list outcome) : bool := existsb is_fail l.

Lemma apply_outcomes l r :
  (v_Passed r = false -> v_Result r = "FAILED") ->
  let r' := foldl apply_outcome r l in
  v_Passed r' = v_Passed r && negb (fails l) /\
  v_Result r' = (if fails l then "FAILED" else v_Result r) /\
  v_Warnings r' = v_Warnings r ++ map outcome_msg l.
Proof.
  revert r. induction l as [|o l IH]; intros r Hr.
  - simpl. by rewrite andb_true_r, app_nil_r.
  - simpl. destruct (IH (apply_outcome r o)) as (H1 & H2 & H3).
    { destruct o; simpl; [done|exact Hr]. }
    rewrite H1, H2, H3. destruct o; simpl; rewrite <- app_assoc; split_and!; try done.
    + by rewrite andb_false_r.
    + by destruct (fails l).
Qed.

Lemma fails_perm l l' : l ≡ₚ l' -> fails l = fails l'.
Proof.
  intros H. unfold fails. induction H as [|x l l' H IH|x y l|l1 l2 l3 H1 IH1 H2 IH2]; simpl; [done| | |congruence].
  - by rewrite IH.
  - by destruct (is_fail x), (is_fail y).
Qed.

(** The verdict before the memory advisory. *)
Definition base_verdict (cfg : Config) (measurement : Z) (snaps : list (string * WorkerSnapshot)) : VerdictResult :=
  foldl apply_outcome (mkVerdict "PASSED" true []) (concat (map (worker_outcomes cfg measurement) snaps)).

Lemma computeVerdict_passed cfg meas base peak snaps :
  v_Passed (computeVerdict cfg meas base peak snaps)
    = negb (fails (concat (map (worker_outcomes cfg meas) snaps))).
Proof.
  unfold computeVerdict, memory_warning. destruct (apply_outcomes (concat (map (worker_outcomes cfg meas) snaps))
    (mkVerdict "PASSED" true [])) as (H & _); [done|]. simpl in H. rewrite <- H.
  destruct (_ && _); [|done]. by destruct (fltb _ _).
Qed.

Lemma outcomes_perm cfg meas s s' :
  s ≡ₚ s' -> concat (map (worker_outcomes cfg meas) s) ≡ₚ concat (map (worker_outcomes cfg meas) s').
Proof.
  intros H. induction H as [|x l l' H IH|x y l|l1 l2 l3 H1 IH1 H2 IH2]; simpl; [done| | |by etrans].
  - by apply Permutation_app_head.
  - rewrite !app_assoc. apply Permutation_app_tail, Permutation_app_comm.
Qed.

(** C5 (equivalence).  Go ranges over the snapshot map in an unspecified
    order: whatever the order, the verdict has the same result, the same
    pass flag and the same messages up to their order. *)
Theorem verdict_order_irrelevant cfg meas base peak snaps snaps' :
  snaps ≡ₚ snaps' ->
  let r := computeVerdict cfg meas base peak snaps in
  let r' := computeVerdict cfg meas base peak snaps' in
  v_Passed r = v_Passed r' /\ v_Result r = v_Result r' /\ v_Warnings r ≡ₚ v_Warnings r'.
Proof.
  intros Hp. pose proof (outcomes_perm cfg meas _ _ Hp) as Ho. pose proof (fails_perm _ _ Ho) as Hf.
  cbv zeta. unfold computeVerdict, memory_warning.
  destruct (apply_outcomes (concat (map (worker_outcomes cfg meas) snaps)) (mkVerdict "PASSED" true []))
    as (A1 & A2 & A3); [done|].
  destruct (apply_outcomes (concat (map (worker_outcomes cfg meas) snaps')) (mkVerdict "PASSED" true []))
    as (B1 & B2 & B3); [done|].
  cbn [v_Passed v_Result v_Warnings app] in *. rewrite <- Hf in B1, B2.
  assert (map outcome_msg (concat (map (worker_outcomes cfg meas) snaps)) ≡ₚ
          map outcome_msg (concat (map (worker_outcomes cfg meas) snaps'))) as Hm by (by apply Permutation_map).
  destruct ((0 <? base) && (base <? peak));
    [destruct (fltb (th_MaxMemoryGrowthFactor (c_Thresholds cfg)) (fdiv (f_of_Z peak) (f_of_Z base)))|];
    cbn [v_Passed v_Result v_Warnings]; rewrite A1, A2, A3, B1, B2, B3;
    (split; [done|]; split; [done|]); [by apply Permutation_app_tail|done..].
Qed.

Lemma verdict_order_irrelevant_witness :
  let a := ("fan_out", zero_snapshot) in let b := ("streaming_pull", zero_snapshot) in
  v_Passed (computeVerdict DefaultConfig 0 0 0 [a; b]) = v_Passed (computeVerdict DefaultConfig 0 0 0 [b; a]).
Proof.
  intros a b. apply (verdict_order_irrelevant DefaultConfig 0 0 0 [a; b] [b; a]). apply Permutation_swap.
Defined.

(** ** The report against the engine *)

(** Thresholds the shared gates compare with are numbers. *)
Record numbers (th : ThresholdsConfig) : Prop := {
  num_loss : is_nan (th_MaxLossPct th) = false;
  num_dup : is_nan (th_MaxDuplicationPct th) = false;
  num_p99 : is_nan (th_MaxP99LatencyMS th) = false;
  num_err : is_nan (th_MaxErrorRatePct th) = false
}.

Definition snap_ok (s : WorkerSnapshot) : Prop := (forall c, is_u64 (sn_cnt s c)) /\ is_u64 (sn_Lost s).

Lemma fails_app l l' : fails (l ++ l') = fails l || fails l'.
Proof. apply existsb_app. Qed.

Lemma fails_gate b f args : fails (gate b f args) = b.
Proof. by destruct b. Qed.

Lemma fails_concat ls : fails (concat ls) = existsb fails ls.
Proof. induction ls as [|l ls IH]; [done|]. simpl. by rewrite fails_app, IH. Qed.

(** Not above the threshold is at most the threshold. *)
Lemma passes_limit x t : is_nan x = false -> is_nan t = false -> fltb t x = false -> fleb x t = true.
Proof. intros Hx Ht H. rewrite fleb_fltb by done. by rewrite H. Qed.

Lemma loss_gates_agree base x :
  is_nan base = false -> is_nan x = false ->
  fltb base x && fltb boundaryLossPct x = negb (fleb x (lossGateThreshold base)).
Proof.
  intros Hb Hx. assert (is_nan boundaryLossPct = false) as H0 by reflexivity.
  unfold lossGateThreshold. destruct (fltb base boundaryLossPct) eqn:E.
  - rewrite fleb_fltb, negb_involutive by done.
    destruct (fltb boundaryLossPct x) eqn:E2; [|by rewrite andb_false_r].
    by rewrite (fltb_trans _ _ _ E E2).
  - rewrite fleb_fltb, negb_involutive by done.
    destruct (fltb base x) eqn:E2; [|done]. simpl.
    assert (fleb boundaryLossPct base = true) as Hle by (rewrite fleb_fltb by done; by rewrite E).
    by rewrite (fleb_fltb_trans _ _ _ Hle E2).
Qed.

(** Passing is preserved by each part of the report when the engine's matching
    gate did not fire. *)
Section agree.
Context (cfg : Config) (meas : Z) (Hnum : numbers (c_Thresholds cfg)).
Context (Hp99 : fltb f0 (th_MaxP99LatencyMS (c_Thresholds cfg)) = true).
Context (name : string) (s : WorkerSnapshot) (wc : WorkerConfig) (Hs : snap_ok s).

Lemma passed_addHard v n x t m : rv_Passed v = true -> fleb x t = true -> rv_Passed (addHard v n x t m) = true.
Proof. intros H E. unfold addHard. rewrite E. done. Qed.

Lemma passed_addZero v n x m : rv_Passed v = true -> (0 <? x) = false -> rv_Passed (addZero v n x m) = true.
Proof. intros H E. unfold addZero. rewrite E. done. Qed.

Lemma passed_loss v :
  (if 0 <? sn_cnt s C_sent
   then fltb (th_MaxLossPct (c_Thresholds cfg)) (pct (sn_Lost s) (sn_cnt s C_sent)) &&
        fltb boundaryLossPct (pct (sn_Lost s) (sn_cnt s C_sent)) else false) = false ->
  rv_Passed v = true -> rv_Passed (report_loss (c_Thresholds cfg) name (worker_stats wc s) v) = true.
Proof.
  intros H Hv. unfold report_loss. cbn [worker_stats st_cnt st_Lost].
  destruct (0 <? sn_cnt s C_sent) eqn:E; [|done]. destruct (IsFanoutWorker name); [done|].
  cbn [andb negb]. zbool.
  destruct Hs as [Hc Hl].
  rewrite loss_gates_agree in H; [|apply Hnum|by apply pct_not_nan; [..|lia]].
  apply passed_addHard; [done|]. by apply negb_false_iff.
Qed.

Lemma passed_dup v :
  (if (0 <? sn_cnt s C_received) && negb (IsDuplicationGateExempt name)
   then fltb (th_MaxDuplicationPct (c_Thresholds cfg)) (pct (sn_cnt s C_duplicated) (sn_cnt s C_received))
   else false) = false ->
  rv_Passed v = true -> rv_Passed (report_dup (c_Thresholds cfg) name (worker_stats wc s) v) = true.
Proof.
  intros H Hv. unfold report_dup. cbn [worker_stats st_cnt].
  destruct (0 <? sn_cnt s C_received) eqn:E; [|done]. zbool.
  destruct (IsDuplicationGateExempt name); cbn [andb negb] in H; [by case_if; exact Hv|].
  destruct Hs as [Hc Hl]. apply passed_addHard; [done|].
  apply passes_limit; [by apply pct_not_nan; [..|lia]|apply Hnum|done].
Qed.

Lemma passed_latency v :
  (if negb (IsLatencyGateExempt name)
   then fltb f0 (sn_LatencyP99 s) && fltb f0 (th_MaxP99LatencyMS (c_Thresholds cfg)) &&
        fltb (th_MaxP99LatencyMS (c_Thresholds cfg)) (sn_LatencyP99 s) else false) = false ->
  rv_Passed v = true -> rv_Passed (report_latency (c_Thresholds cfg) name (worker_stats wc s) v) = true.
Proof.
  intros H Hv. unfold report_latency. cbn [worker_stats st_LatencyP99MS].
  destruct (fltb f0 (sn_LatencyP99 s)) eqn:E; [|done].
  destruct (IsLatencyGateExempt name); cbn [andb negb] in H; [by case_if; exact Hv|].
  rewrite Hp99 in H. simpl in H. apply passed_addHard; [done|].
  apply passes_limit; [by apply (fltb_not_nan f0)|apply Hnum|done].
Qed.

Lemma passed_errors v :
  (if 0 <? sn_cnt s C_sent +u sn_cnt s C_received
   then fltb (th_MaxErrorRatePct (c_Thresholds cfg))
          (pct (sn_cnt s C_errors) (sn_cnt s C_sent +u sn_cnt s C_received)) else false) = false ->
  rv_Passed v = true -> rv_Passed (report_errors (c_Thresholds cfg) name (worker_stats wc s) v) = true.
Proof.
  intros H Hv. unfold report_errors. cbn [worker_stats st_cnt].
  destruct (0 <? _) eqn:E; [|done]. zbool. destruct Hs as [Hc Hl].
  apply passed_addHard; [done|].
  apply passes_limit; [apply pct_not_nan; [done|apply uadd_range|lia]|apply Hnum|done].
Qed.

Lemma passed_structured v :
  fails (fidelity_gates name s) = false -> rv_Passed v = true ->
  rv_Passed (report_structured name (worker_stats wc s) v) = true.
Proof.
  unfold fidelity_gates, report_structured. rewrite !fails_app, !fails_gate.
  cbn [worker_stats st_cnt]. intros H Hv. rewrite !orb_false_iff in H.
  destruct H as (H1 & H2 & H3 & H4 & H5).
  destruct (IsOrderingWorker name), (IsExactlyOnceWorker name), (IsDeadLetterWorker name),
    (IsFanoutWorker name), (IsInteropWorker name); cbn [andb] in *;
    repeat (apply passed_addZero; [|done]); done.
Qed.

Lemma fails_if (b : bool) l : fails (if b then l else []) = if b then fails l else false.
Proof. by destruct b. Qed.

(** A worker none of whose engine gates fired passes the report. *)
Lemma passed_worker v :
  fails (worker_outcomes cfg meas (name, s)) = false -> rv_Passed v = true ->
  rv_Passed (report_worker (c_Thresholds cfg) v (name, worker_stats wc s)) = true /\
  sn_cnt s C_corrupted = 0.
Proof.
  unfold worker_outcomes. rewrite !fails_app, !orb_false_iff. intros (H1 & H2 & _ & _) Hv.
  unfold standard_gates in H1. cbv zeta in H1. unfold checkLatency in H1.
  rewrite !fails_app, !fails_if, !fails_app, !fails_gate, !orb_false_iff in H1.
  destruct H1 as (Hcor & Hloss & Hdup & Hlat & Herr & _ & _). split.
  - unfold report_worker. cbn [worker_stats st_Enabled negb].
    apply passed_structured; [done|]. apply passed_errors; [done|]. apply passed_latency.
    + destruct (IsLatencyGateExempt name); cbn [negb] in *; [done|].
      rewrite !orb_false_iff in Hlat. tauto.
    + apply passed_dup; [done|]. by apply passed_loss.
  - destruct Hs as [Hc _]. specialize (Hc C_corrupted). zbool. range.
Qed.
End agree.

Lemma find_snapshot_in snaps name s : find_snapshot snaps name = Some s -> (name, s) ∈ snaps.
Proof.
  unfold find_snapshot. intros H. destruct (List.find _ snaps) as [[n s']|] eqn:E; [|done]. simplify_eq/=.
  apply find_some in E as [Hin He]. simpl in He. apply String.eqb_eq in He as ->. by apply list_elem_of_In.
Qed.

Lemma report_workers_in cfg snaps e :
  e ∈ report_workers cfg snaps -> exists wc s, e = (fst e, worker_stats wc s) /\ (fst e, s) ∈ snaps.
Proof.
  unfold report_workers. intros (name & Hin & H)%list_elem_of_omap.
  destruct (find_snapshot snaps name) as [s|] eqn:E; [|done]. simpl in H.
  destruct (GetWorkerConfig cfg name) as [wc|]; [|done]. simpl in H.
  destruct (wc_Enabled wc); [|done]. simplify_eq. exists wc, s. split; [done|]. by apply find_snapshot_in.
Qed.

Lemma engine_pass_report cfg meas snaps ev :
  config_passes cfg -> numbers (c_Thresholds cfg) -> Forall (fun e => snap_ok (snd e)) snaps ->
  fails (concat (map (worker_outcomes cfg meas) snaps)) = false ->
  rv_Passed (GenerateVerdict (build_summary cfg ev snaps) cfg) = true.
Proof.
  intros Hcfg Hnum Hsnaps Hf.
  assert (fltb f0 (th_MaxP99LatencyMS (c_Thresholds cfg)) = true) as Hp99.
  { destruct Hcfg as [_ H]. unfold float_settings in H. cbv zeta in H. rewrite !Forall_cons in H.
    destruct H as (_ & _ & _ & _ & _ & H & _). cbn [fst snd passes] in H. change (f_of_Z 0) with f0 in H. rewrite fleb_fltb in H; [|apply Hnum|done].
    by apply negb_false_iff. }
  assert (forall e, e ∈ snaps -> fails (worker_outcomes cfg meas e) = false) as Hall.
  { intros e He. rewrite fails_concat in Hf. apply not_true_is_false. intros Ht.
    rewrite <- not_true_iff_false in Hf. apply Hf, existsb_exists.
    exists (worker_outcomes cfg meas e). split; [|done]. apply in_map. by apply list_elem_of_In. }
  assert (forall l v, (forall e, e ∈ l -> e ∈ report_workers cfg snaps) -> rv_Passed v = true ->
    rv_Passed (foldl (report_worker (c_Thresholds cfg)) v l) = true /\ total_corrupted l = 0) as Hfold.
  { intros l. induction l as [|e l IH] using rev_ind; intros v Hl Hv; [done|].
    destruct (IH v) as [IH1 IH2]; [intros x Hx; apply Hl; set_solver|done|].
    unfold total_corrupted in *. rewrite !foldl_app. cbn [foldl]. rewrite IH2.
    destruct (report_workers_in cfg snaps e) as (wc & s & He & Hin); [apply Hl; set_solver|].
    assert (snap_ok s) as Hs by (apply (proj1 (Forall_forall _ _) Hsnaps _ Hin)).
    destruct (passed_worker cfg meas Hnum Hp99 (fst e) s wc Hs
      (foldl (report_worker (c_Thresholds cfg)) v l)) as [H1 H2]; [by apply Hall|done|].
    rewrite He. split; [done|]. cbn [snd worker_stats st_cnt]. by rewrite H2. }
  destruct (Hfold (report_workers cfg snaps) (mkReportVerdict "PASSED" true [] ∅)) as [H1 H2]; [done..|].
  unfold GenerateVerdict. cbv zeta. cbn [rv_Passed build_summary su_Workers]. rewrite H2.
  case_if; [|exact H1]. case_if; exact H1.
Qed.

(** C6 (refinement).  For a configuration without hard errors and with
    thresholds that are numbers, the final report of a run passes exactly when
    the engine's verdict passes, which is exactly when the process does not
    exit with code 1: the reconciliation never has to overrule the report's
    failures. *)
Theorem report_agrees_with_engine cfg meas base peak snaps ev summary v :
  hard_errors cfg = [] -> numbers (c_Thresholds cfg) -> Forall (fun e => snap_ok (snd e)) snaps ->
  ev_Snapshots ev = Some snaps -> ev_Verdict ev = Some (computeVerdict cfg meas base peak snaps) ->
  RunReport cfg ev = Some (summary, v) ->
  rv_Passed v = v_Passed (computeVerdict cfg meas base peak snaps) /\
  (rv_Passed v = true <-> exit_code (ev_Verdict ev) <> 1).
Proof.
  intros Hcfg%hard_errors_passes Hnum Hsnaps Hs Hv Hr. unfold RunReport in Hr. rewrite Hs, Hv in Hr.
  cbv zeta in Hr. cbn [mbind option_bind] in Hr.
  assert (v = reconcile (GenerateVerdict (build_summary cfg ev snaps) cfg)
    (Some (computeVerdict cfg meas base peak snaps))) as -> by congruence.
  clear Hr. rewrite Hv. pose proof (computeVerdict_passed cfg meas base peak snaps) as Hp.
  assert (rv_Passed (reconcile (GenerateVerdict (build_summary cfg ev snaps) cfg)
    (Some (computeVerdict cfg meas base peak snaps))) = v_Passed (computeVerdict cfg meas base peak snaps)) as E.
  { unfold reconcile. destruct (v_Passed (computeVerdict cfg meas base peak snaps)) eqn:Ev; [|done].
    symmetry in Hp. apply negb_true_iff in Hp.
    pose proof (engine_pass_report cfg meas snaps ev Hcfg Hnum Hsnaps Hp) as Hg. cbn [negb].
    by case_if. }
  split; [done|]. rewrite E. unfold exit_code.
  destruct (v_Passed (computeVerdict cfg meas base peak snaps)); cbn [negb]; [|naive_solver].
  split; [intros _; by case_if|done].
Qed.

(** The view of a finished run with one worker. *)
Definition one_worker_view (cfg : Config) (name : string) (s : WorkerSnapshot) : EngineView :=
  mkView "r1" (Some 0) (Some (Minute)) (Some [(name, s)]) 0 0
    (Some (computeVerdict cfg Minute 0 0 [(name, s)])).

(** A snapshot with the given counters and losses. *)
Definition traffic (sent received duplicated lost : Z) : WorkerSnapshot :=
  mkSnap (fun c => match c with
                   | C_sent => sent | C_received => received | C_duplicated => duplicated
                   | _ => 0 end)
    f0 lost 0 (fun _ => false) f0 f0 f0 f0 f0 f0.

Lemma traffic_ok a b c d : is_u64 a -> is_u64 b -> is_u64 c -> is_u64 d -> snap_ok (traffic a b c d).
Proof. intros. split; [intros []; simpl; range|done]. Qed.

Lemma report_agrees_with_engine_witness :
  exists summary v,
    RunReport DefaultConfig (one_worker_view DefaultConfig WorkerPublishPullRoundTrip (traffic 6000 6000 3 0)) = Some (summary, v) /\
    rv_Passed v = v_Passed (computeVerdict DefaultConfig Minute 0 0 [(WorkerPublishPullRoundTrip, traffic 6000 6000 3 0)]).
Proof.
  eexists _, _. split; [reflexivity|].
  refine (proj1 (report_agrees_with_engine DefaultConfig Minute 0 0 [(WorkerPublishPullRoundTrip, traffic 6000 6000 3 0)]
    (one_worker_view DefaultConfig WorkerPublishPullRoundTrip (traffic 6000 6000 3 0)) _ _ _ _ _ _ _ _)).
  - vm_compute. reflexivity.
  - split; reflexivity.
  - apply Forall_singleton, traffic_ok; range.
  - reflexivity.
  - reflexivity.
  - reflexivity.
Defined.

(** The exit code follows the engine's verdict, not the report's:
    with the default configuration a gate-exempt worker that redelivers half of
    its messages makes the published report say PASSED_WITH_WARNINGS while the
    process exits with 0, the code documented for PASSED. *)
Theorem warned_report_exits_zero :
  let ev := one_worker_view DefaultConfig WorkerNackRedelivery (traffic 3000 6000 3000 0) in
  exists summary v, RunReport DefaultConfig ev = Some (summary, v) /\
    rv_Result v = "PASSED_WITH_WARNINGS" /\ rv_Passed v = true /\ exit_code (ev_Verdict ev) = 0.
Proof. intros ev. eexists _, _. split; [reflexivity|]. vm_compute. auto. Qed.

(** The default configuration with [thresholds.max_loss_pct: .nan]. *)
Definition nan_loss_config : Config :=
  let c := DefaultConfig in let t := c_Thresholds c in
  mkConfig (c_Version c) (c_Broker c) (c_Mode c) (c_Duration c) (c_RunID c) (c_WarmupDuration c) (c_GCP c)
    (c_Workers c) (c_Message c) (c_Metrics c) (c_Logging c) (c_ForcedDisconnect c) (c_Recovery c) (c_Shutdown c)
    (c_Output c)
    (mkThresholds S754_nan (th_MaxDuplicationPct t) (th_MaxP50LatencyMS t) (th_MaxP95LatencyMS t)
       (th_MaxP99LatencyMS t) (th_MaxP999LatencyMS t) (th_MinThroughputPct t) (th_MaxErrorRatePct t)
       (th_MaxMemoryGrowthFactor t) (th_MaxDowntimePct t) (th_MaxDuration t))
    (c_Warmup c) (c_CORS c) 0 0 0 0 0 0 0 0 [].

(** [Validate] accepts a loss threshold that is not a number, and
    it switches the engine's loss gate off: a run that loses every message
    passes the engine and exits with 0, while its report fails. *)
Theorem nan_threshold_disables_loss_gate :
  let ev := one_worker_view nan_loss_config WorkerPublishPullRoundTrip (traffic 6000 6000 0 6000) in
  hard_errors nan_loss_config = [] /\ ~ config_ok nan_loss_config /\
  exists summary v, RunReport nan_loss_config ev = Some (summary, v) /\
    rv_Passed v = false /\ exit_code (ev_Verdict ev) = 0.
Proof.
  intros ev. split; [vm_compute; reflexivity|]. split.
  { intros [_ H]. unfold float_settings in H. cbv zeta in H. rewrite !Forall_cons in H.
    destruct H as (_ & [H _] & _). vm_compute in H. discriminate H. }
  eexists _, _. split; [reflexivity|]. vm_compute. auto.
Qed.

(** ** Groups of one worker *)

(** The snapshot of a group of one. *)
Lemma capture_single vq tc name b :
  IsFanoutWorker name = false ->
  (forall c, summed c = true -> sn_cnt (capture_group vq tc name [b]) c = u64 (bw_cnt b c)) /\
  (forall f, sn_flag (capture_group vq tc name [b]) f = bw_flag b f).
Proof.
  intros Hn. unfold capture_group. cbn [foldl capture_worker]. cbv zeta. rewrite Hn.
  case_if; [unfold set_latency; destruct (Percentiles _ _) as [[[? ?] ?] ?]|]; split; try done;
    intros c Hc; cbn [sn_cnt]; by rewrite Hc.
Qed.

(** ** Silent gates *)

Lemma gate_nil cond f args : gate cond f args = [] <-> cond = false.
Proof. unfold gate. by destruct cond. Qed.
