(* ===== verification/Snapshot.v ===== *)
(** * What a snapshot says of the workers of a group

    The accessors of a worker, through which the engine reads it, and the exact
    content of the snapshot [captureWorkerSnapshots] takes of a group: sums, a
    maximum, disjunctions, and the percentiles of one of its workers. *)
From S2P Require Import Prelude GoFloat GoFmt Config Tracker Metrics Transport Worker Verdict Report VerdictProps.

(** ** Accessors *)

Definition Name (b : BaseWorker) : string := bw_name b.
Definition ChannelName (b : BaseWorker) : string := bw_channelName b.
Definition ChannelIndex (b : BaseWorker) : Z := bw_channelIndex b.
Definition ConsumerReady (b : BaseWorker) : bool := bw_ready b.
Definition Tracker_ (b : BaseWorker) : Tracker := bw_trk b.
Definition LatencyAccumulator_ (b : BaseWorker) : LatencyAccumulator := bw_lat b.
Definition PeakRate (b : BaseWorker) : PeakRateTracker := bw_peak b.
Definition RateWindow (b : BaseWorker) : SlidingRateWindow := bw_rate b.
Definition SentCount (b : BaseWorker) : Z := bw_cnt b C_sent.
Definition ReceivedCount (b : BaseWorker) : Z := bw_cnt b C_received.
Definition ErrorCount (b : BaseWorker) : Z := bw_cnt b C_errors.
Definition CorruptedCount (b : BaseWorker) : Z := bw_cnt b C_corrupted.
Definition ReconnectionCount (b : BaseWorker) : Z := bw_cnt b C_reconnections.
Definition DuplicatedCount (b : BaseWorker) : Z := bw_cnt b C_duplicated.
Definition AckedCount (b : BaseWorker) : Z := bw_cnt b C_acked.
Definition OrderingViolations (b : BaseWorker) : Z := bw_cnt b C_orderingViolations.
Definition FanoutDeliveries (b : BaseWorker) : Z := bw_cnt b C_fanoutDeliveries.
Definition FanoutDropped (b : BaseWorker) : Z := bw_cnt b C_fanoutDropped.
Definition ExactlyOnceConfirmed (b : BaseWorker) : Z := bw_cnt b C_exactlyOnceConfirmed.
Definition ExactlyOnceUnreconciled (b : BaseWorker) : Z := bw_cnt b C_exactlyOnceUnreconciled.
Definition DeadLetterRepublished (b : BaseWorker) : Z := bw_cnt b C_deadLetterRepublished.
Definition DeadLetterLost (b : BaseWorker) : Z := bw_cnt b C_deadLetterLost.
Definition InteropConverged (b : BaseWorker) : Z := bw_cnt b C_interopConverged.
Definition InteropDiverged (b : BaseWorker) : Z := bw_cnt b C_interopDiverged.
Definition NackRedelivered (b : BaseWorker) : Z := bw_cnt b C_nackRedelivered.
Definition BatchAtomicityViolations (b : BaseWorker) : Z := bw_cnt b C_batchAtomicityViolations.
Definition FilterMismatch (b : BaseWorker) : Z := bw_cnt b C_filterMismatch.
Definition FilterMatchedDelivered (b : BaseWorker) : Z := bw_cnt b C_filterMatchedDelivered.
Definition SchemaRejectViolations (b : BaseWorker) : Z := bw_cnt b C_schemaRejectViolations.
Definition SchemaEnforceConfirmed (b : BaseWorker) : Z := bw_cnt b C_schemaEnforceConfirmed.
Definition SeekReplayExpected (b : BaseWorker) : Z := bw_cnt b C_seekReplayExpected.
Definition SeekReplayObserved (b : BaseWorker) : Z := bw_cnt b C_seekReplayObserved.
Definition SeekReplayMismatch (b : BaseWorker) : Z := bw_cnt b C_seekReplayMismatch.
Definition InflightCapTailRedelivered (b : BaseWorker) : Z := bw_cnt b C_inflightCapTailRedelivered.
Definition InflightCapLost (b : BaseWorker) : Z := bw_cnt b C_inflightCapLost.
Definition ExactlyOnceInvalidAckConfirmed (b : BaseWorker) : Z := bw_cnt b C_exactlyOnceInvalidAckConfirmed.
Definition FlowControlViolations (b : BaseWorker) : Z := bw_cnt b C_flowControlViolations.
Definition RetryBackoffObserved (b : BaseWorker) : Z := bw_cnt b C_retryBackoffObserved.
Definition LeaseExtendConfirmed (b : BaseWorker) : Z := bw_cnt b C_leaseExtendConfirmed.
Definition LeaseExtendRejectConfirmed (b : BaseWorker) : Z := bw_cnt b C_leaseExtendRejectConfirmed.
Definition DeliveryAttemptMax (b : BaseWorker) : Z := bw_cnt b C_deliveryAttemptMax.
Definition CrossStreamAckConfirmed (b : BaseWorker) : Z := bw_cnt b C_crossStreamAckConfirmed.
Definition PeriodicCloseObserved (b : BaseWorker) : Z := bw_cnt b C_periodicCloseObserved.
Definition FlowControlProbeRan (b : BaseWorker) : bool := bw_flag b F_flowControlProbeRan.
Definition InvalidAckProbeRan (b : BaseWorker) : bool := bw_flag b F_invalidAckProbeRan.
Definition ConfirmationsProbeRan (b : BaseWorker) : bool := bw_flag b F_confirmationsProbeRan.
Definition CrossStreamAckProbeRan (b : BaseWorker) : bool := bw_flag b F_crossStreamAckProbeRan.
Definition LeaseExtendProbeRan (b : BaseWorker) : bool := bw_flag b F_leaseExtendProbeRan.
Definition SchemaEnforceProbeRan (b : BaseWorker) : bool := bw_flag b F_schemaEnforceProbeRan.
Definition markFlowControlProbeRan : BaseWorker -> BaseWorker := store_flag F_flowControlProbeRan true.
Definition markInvalidAckProbeRan : BaseWorker -> BaseWorker := store_flag F_invalidAckProbeRan true.
Definition markConfirmationsProbeRan : BaseWorker -> BaseWorker := store_flag F_confirmationsProbeRan true.
Definition markCrossStreamAckProbeRan : BaseWorker -> BaseWorker := store_flag F_crossStreamAckProbeRan true.
Definition markLeaseExtendProbeRan : BaseWorker -> BaseWorker := store_flag F_leaseExtendProbeRan true.
Definition markSchemaEnforceProbeRan : BaseWorker -> BaseWorker := store_flag F_schemaEnforceProbeRan true.

(** The counters and flags with their accessors, and what marks a probe as run. *)
Definition accessors : list (counter * (BaseWorker -> Z)) :=
  [(C_sent, SentCount); (C_received, ReceivedCount); (C_errors, ErrorCount); (C_corrupted, CorruptedCount);
   (C_reconnections, ReconnectionCount); (C_duplicated, DuplicatedCount); (C_acked, AckedCount); (C_orderingViolations,
   OrderingViolations); (C_fanoutDeliveries, FanoutDeliveries); (C_fanoutDropped, FanoutDropped);
   (C_exactlyOnceConfirmed, ExactlyOnceConfirmed); (C_exactlyOnceUnreconciled, ExactlyOnceUnreconciled);
   (C_deadLetterRepublished, DeadLetterRepublished); (C_deadLetterLost, DeadLetterLost); (C_interopConverged,
   InteropConverged); (C_interopDiverged, InteropDiverged); (C_nackRedelivered, NackRedelivered);
   (C_batchAtomicityViolations, BatchAtomicityViolations); (C_filterMismatch, FilterMismatch); (C_filterMatchedDelivered,
   FilterMatchedDelivered); (C_schemaRejectViolations, SchemaRejectViolations); (C_schemaEnforceConfirmed,
   SchemaEnforceConfirmed); (C_seekReplayExpected, SeekReplayExpected); (C_seekReplayObserved, SeekReplayObserved);
   (C_seekReplayMismatch, SeekReplayMismatch); (C_inflightCapTailRedelivered, InflightCapTailRedelivered);
   (C_inflightCapLost, InflightCapLost); (C_exactlyOnceInvalidAckConfirmed, ExactlyOnceInvalidAckConfirmed);
   (C_flowControlViolations, FlowControlViolations); (C_retryBackoffObserved, RetryBackoffObserved);
   (C_leaseExtendConfirmed, LeaseExtendConfirmed); (C_leaseExtendRejectConfirmed, LeaseExtendRejectConfirmed);
   (C_deliveryAttemptMax, DeliveryAttemptMax); (C_crossStreamAckConfirmed, CrossStreamAckConfirmed);
   (C_periodicCloseObserved, PeriodicCloseObserved)].
Definition flag_accessors : list (flag * (BaseWorker -> bool)) :=
  [(F_flowControlProbeRan, FlowControlProbeRan); (F_invalidAckProbeRan, InvalidAckProbeRan); (F_confirmationsProbeRan,
   ConfirmationsProbeRan); (F_crossStreamAckProbeRan, CrossStreamAckProbeRan); (F_leaseExtendProbeRan,
   LeaseExtendProbeRan); (F_schemaEnforceProbeRan, SchemaEnforceProbeRan)].
Definition marks : list (flag * (BaseWorker -> BaseWorker)) :=
  [(F_flowControlProbeRan, markFlowControlProbeRan); (F_invalidAckProbeRan, markInvalidAckProbeRan);
   (F_confirmationsProbeRan, markConfirmationsProbeRan); (F_crossStreamAckProbeRan, markCrossStreamAckProbeRan);
   (F_leaseExtendProbeRan, markLeaseExtendProbeRan); (F_schemaEnforceProbeRan, markSchemaEnforceProbeRan)].

(** Each reads its own counter, and every counter but the downtime has one. *)
Lemma accessors_read : Forall (fun a => forall b, a.2 b = bw_cnt b a.1) accessors.
Proof. by repeat constructor. Qed.
Lemma accessors_complete c : bool_decide (c ∈ accessors.*1) = bool_decide (c <> C_downtime).
Proof. by destruct c. Qed.
Lemma accessor_summed c f : (c, f) ∈ accessors -> c <> C_deliveryAttemptMax -> summed c = true.
Proof.
  intros Hin Hm. assert (c ∈ accessors.*1) as H by (apply list_elem_of_fmap; by exists (c, f)).
  apply (bool_decide_eq_true_2 _) in H. rewrite accessors_complete, bool_decide_eq_true in H. by destruct c.
Qed.
Lemma flags_read : Forall (fun a => forall b, a.2 b = bw_flag b a.1) flag_accessors /\ forall f, f ∈ flag_accessors.*1.
Proof. split; [by repeat constructor|]. intros f. apply (bool_decide_unpack _). by destruct f. Qed.

(** A mark sets its flag and leaves everything else that can be read. *)
Lemma mark_one g b : (forall f, bw_flag (store_flag g true b) f = bool_decide (f = g) || bw_flag b f) /\
  bw_cnt (store_flag g true b) = bw_cnt b /\ bw_trk (store_flag g true b) = bw_trk b.
Proof.
  split; [|done]. intros f. unfold store_flag. cbn [set_counts bw_flag].
  case_decide; [by rewrite bool_decide_eq_true_2|by rewrite bool_decide_eq_false_2].
Qed.
Lemma marks_read : Forall (fun m => forall b,
  (forall f, bw_flag (m.2 b) f = bool_decide (f = m.1) || bw_flag b f) /\ bw_cnt (m.2 b) = bw_cnt b /\ bw_trk (m.2 b) = bw_trk b) marks.
Proof. repeat apply Forall_cons_2; try apply Forall_nil_2; intros b; apply mark_one. Qed.

(** ** The content of a snapshot *)

Definition total (f : BaseWorker -> Z) (ws : list BaseWorker) : Z := foldr (fun w n => f w + n) 0 ws.
Definition highest (f : BaseWorker -> Z) (ws : list BaseWorker) : Z := foldl (fun n w => Z.max n (f w)) 0 ws.

Section capture.
Context (ValueAtQuantile : list Z -> float64 -> Z) (TotalCount : list Z -> Z).
Notation capture_worker := (capture_worker TotalCount).
Notation capture_group := (capture_group ValueAtQuantile TotalCount).

(** [Count] of the latency accumulator. *)
Definition Count (a : LatencyAccumulator) : Z := TotalCount a.

(** The fold, field by field. *)
Definition gathered (ws : list BaseWorker) : WorkerSnapshot * option LatencyAccumulator * Z :=
  foldl capture_worker (zero_snapshot, None, 0) ws.
Definition snap_of (acc : WorkerSnapshot * option LatencyAccumulator * Z) : WorkerSnapshot := fst (fst acc).

(** A field to which every worker adds. *)
Lemma gather_sum (p : WorkerSnapshot -> Z) (f : BaseWorker -> Z) ws acc :
  (forall acc w, p (snap_of (capture_worker acc w)) = p (snap_of acc) +u f w) -> is_u64 (p (snap_of acc)) ->
  p (snap_of (foldl capture_worker acc ws)) = u64 (p (snap_of acc) + total f ws).
Proof.
  intros Hp. revert acc. induction ws as [|w ws IH]; intros acc Hacc; cbn [foldl total foldr].
  - rewrite Z.add_0_r. symmetry. by apply u64_small.
  - rewrite IH; rewrite Hp; [|apply u64_range]. unfold uadd. rewrite Z.add_assoc. unfold u64. by rewrite Zplus_mod_idemp_l.
Qed.
(** One of which the largest value is kept, and one that is set once. *)
Lemma gather_max (p : WorkerSnapshot -> Z) (f : BaseWorker -> Z) ws acc :
  (forall acc w, p (snap_of (capture_worker acc w)) = Z.max (p (snap_of acc)) (f w)) ->
  p (snap_of (foldl capture_worker acc ws)) = foldl (fun n w => Z.max n (f w)) (p (snap_of acc)) ws.
Proof. intros Hp. revert acc. induction ws as [|w ws IH]; intros acc; [done|]. cbn [foldl]. by rewrite IH, Hp. Qed.
Lemma gather_or (p : WorkerSnapshot -> bool) (f : BaseWorker -> bool) ws acc :
  (forall acc w, p (snap_of (capture_worker acc w)) = p (snap_of acc) || f w) ->
  p (snap_of (foldl capture_worker acc ws)) = p (snap_of acc) || existsb f ws.
Proof.
  intros Hp. revert acc. induction ws as [|w ws IH]; intros acc; cbn [foldl existsb]; [by rewrite orb_false_r|]. by rewrite IH, Hp, orb_assoc.
Qed.

(** The step, field by field. *)
Lemma step_cnt c acc w : summed c = true -> sn_cnt (snap_of (capture_worker acc w)) c = sn_cnt (snap_of acc) c +u bw_cnt w c.
Proof. intros Hc. destruct acc as [[s b] n]. unfold capture_worker. cbv zeta. case_if; cbn [snap_of fst sn_cnt]; by rewrite Hc. Qed.
Lemma step_max acc w :
  sn_cnt (snap_of (capture_worker acc w)) C_deliveryAttemptMax = Z.max (sn_cnt (snap_of acc) C_deliveryAttemptMax) (DeliveryAttemptMax w).
Proof.
  destruct acc as [[s b] n]. unfold capture_worker, DeliveryAttemptMax. cbv zeta. case_if; cbn [snap_of fst sn_cnt];
    change (summed C_deliveryAttemptMax) with false; cbn match; case_if; lia.
Qed.
Lemma step_lost acc w : sn_Lost (snap_of (capture_worker acc w)) = sn_Lost (snap_of acc) +u TotalLost (Tracker_ w).
Proof. destruct acc as [[s b] n]. unfold capture_worker. cbv zeta. by case_if. Qed.
Lemma step_order acc w : sn_OutOfOrder (snap_of (capture_worker acc w)) = sn_OutOfOrder (snap_of acc) +u TotalOutOfOrder (Tracker_ w).
Proof. destruct acc as [[s b] n]. unfold capture_worker. cbv zeta. by case_if. Qed.
Lemma step_flag f acc w : sn_flag (snap_of (capture_worker acc w)) f = sn_flag (snap_of acc) f || bw_flag w f.
Proof. destruct acc as [[s b] n]. unfold capture_worker. cbv zeta. by case_if. Qed.

Lemma gathered_cnt c ws : summed c = true -> sn_cnt (snap_of (gathered ws)) c = u64 (total (fun w => bw_cnt w c) ws).
Proof.
  intros Hc. apply (gather_sum (fun s => sn_cnt s c) (fun w => bw_cnt w c) ws (zero_snapshot, None, 0)); [|done]. intros acc w. by apply step_cnt.
Qed.
Lemma gathered_lost ws : sn_Lost (snap_of (gathered ws)) = u64 (total (fun w => TotalLost (Tracker_ w)) ws).
Proof. apply (gather_sum sn_Lost (fun w => TotalLost (Tracker_ w)) ws (zero_snapshot, None, 0)); [apply step_lost|done]. Qed.

(** The accumulator that is kept: one with the most samples, if there are any. *)
Definition most_samples (ws : list BaseWorker) (best : option LatencyAccumulator) : Prop :=
  match best with
  | None => Forall (fun w => Count (LatencyAccumulator_ w) <= 0) ws
  | Some a => (exists w, w ∈ ws /\ LatencyAccumulator_ w = a) /\ 0 < Count a /\ Forall (fun w => Count (LatencyAccumulator_ w) <= Count a) ws
  end.
Lemma gathered_best ws : most_samples ws (snd (fst (gathered ws))) /\ snd (gathered ws) = from_option Count 0 (snd (fst (gathered ws))).
Proof.
  unfold gathered. induction ws as [|w ws [IH1 IH2]] using rev_ind; [split; [apply Forall_nil_2|done]|]. rewrite foldl_app. cbn [foldl].
  destruct (foldl _ _ ws) as [[s best] n]. cbn [fst snd] in *. subst n. unfold capture_worker, Count, LatencyAccumulator_ in *. cbv zeta.
  case_if; zbool; cbn [fst snd from_option]; (split; [|done]); unfold most_samples in *.
  - split_and!; [exists w; set_solver| |].
    + destruct best; cbn in *; unfold Count in *; lia.
    + apply Forall_app. split; [|by repeat constructor]. destruct best as [a|]; cbn in *; [destruct IH1 as (_ & _ & IH1)|].
      all: eapply Forall_impl; [exact IH1|]; unfold Count, LatencyAccumulator_; intros x; cbn; lia.
  - destruct best as [a|]; cbn in *.
    + destruct IH1 as ((x & Hx & E) & Ha & IH1). split_and!; [exists x; set_solver|done|]. apply Forall_app. split; [done|]. by repeat constructor.
    + apply Forall_app. split; [done|]. by repeat constructor.
Qed.

(** What the latency and the fan-out rule leave of the fold. *)
Definition latency_of (s : WorkerSnapshot) : float64 * float64 * float64 * float64 :=
  (sn_LatencyP50 s, sn_LatencyP95 s, sn_LatencyP99 s, sn_LatencyP999 s).
Lemma group_fields name ws :
  let s := capture_group name ws in let g := snap_of (gathered ws) in
  (forall c, c <> C_fanoutDropped \/ IsFanoutWorker name = false -> sn_cnt s c = sn_cnt g c) /\
  (IsFanoutWorker name = true -> sn_cnt s C_fanoutDropped = sn_cnt g C_fanoutDropped +u sn_Lost g) /\
  sn_Lost s = (if IsFanoutWorker name then 0 else sn_Lost g) /\ sn_OutOfOrder s = sn_OutOfOrder g /\ sn_flag s = sn_flag g /\
  latency_of s = match snd (fst (gathered ws)) with Some a => Percentiles ValueAtQuantile a | None => latency_of g end.
Proof.
  unfold capture_group, gathered. destruct (foldl _ _ ws) as [[g best] n]. cbv zeta. cbn [snap_of fst snd].
  set (s := match best with Some _ => _ | None => _ end).
  assert (sn_cnt s = sn_cnt g /\ sn_Lost s = sn_Lost g /\ sn_OutOfOrder s = sn_OutOfOrder g /\ sn_flag s = sn_flag g /\
    latency_of s = match best with Some a => Percentiles ValueAtQuantile a | None => latency_of g end) as (E1 & E2 & E3 & E4 & E5).
  { subst s. destruct best as [a|]; [|done]. unfold set_latency. by destruct (Percentiles ValueAtQuantile a) as [[[? ?] ?] ?]. }
  destruct (IsFanoutWorker name); [|by rewrite E1, E2, E3, E4]. unfold fold_fanout. cbn [sn_cnt sn_Lost sn_OutOfOrder sn_flag].
  rewrite E1, E2, E3, E4. split_and!; [|by rewrite decide_True|done..|exact E5]. intros c [Hc|]; [|done]. by rewrite decide_False.
Qed.

(** A percentile that was never set. *)
Lemma gathered_unset ws : latency_of (snap_of (gathered ws)) = (f0, f0, f0, f0).
Proof.
  unfold gathered. assert (latency_of (snap_of (zero_snapshot, @None LatencyAccumulator, 0)) = (f0, f0, f0, f0)) as H by done.
  revert H. generalize (zero_snapshot, @None LatencyAccumulator, 0). induction ws as [|w ws IH]; intros acc H; [done|]. cbn [foldl]. apply IH.
  destruct acc as [[s b] n]. unfold capture_worker. cbv zeta. by case_if.
Qed.

Lemma total_ext f g ws : (forall w, f w = g w) -> total f ws = total g ws.
Proof. intros H. unfold total. induction ws as [|w ws IH]; [done|]. cbn [foldr]. by rewrite H, IH. Qed.
Lemma existsb_ext (f g : BaseWorker -> bool) ws : (forall w, f w = g w) -> existsb f ws = existsb g ws.
Proof. intros H. induction ws as [|w ws IH]; [done|]. cbn [existsb]. by rewrite H, IH. Qed.

(** The fields of the snapshot that gates read. *)
Lemma group_cnt name ws c f : (c, f) ∈ accessors -> summed c = true -> c <> C_fanoutDropped ->
  sn_cnt (capture_group name ws) c = u64 (total f ws).
Proof.
  intros Hin Hs Hne. destruct (group_fields name ws) as (Hc & _). cbv zeta in *. rewrite Hc by auto. rewrite gathered_cnt by done. f_equal.
  apply total_ext. intros w. pose proof accessors_read as H. rewrite Forall_forall in H. symmetry. exact (H (c, f) Hin w).
Qed.
Lemma group_flag name ws p f : (p, f) ∈ flag_accessors -> sn_flag (capture_group name ws) p = existsb f ws.
Proof.
  intros Hin. destruct (group_fields name ws) as (_ & _ & _ & _ & -> & _). transitivity (existsb (fun w => bw_flag w p) ws).
  - exact (gather_or (fun s => sn_flag s p) (fun w => bw_flag w p) ws (zero_snapshot, None, 0) (step_flag p)).
  - apply existsb_ext. intros w. destruct flags_read as [H _]. rewrite Forall_forall in H. symmetry. exact (H (p, f) Hin w).
Qed.
Lemma group_lost name ws :
  let lost := u64 (total (fun w => TotalLost (Tracker_ w)) ws) in
  (sn_Lost (capture_group name ws), sn_cnt (capture_group name ws) C_fanoutDropped) =
    (if IsFanoutWorker name then (0, u64 (total FanoutDropped ws + lost)) else (lost, u64 (total FanoutDropped ws))).
Proof.
  destruct (group_fields name ws) as (Hc & Hf & Hl & _). cbv zeta in *. rewrite Hl.
  pose proof (gathered_cnt C_fanoutDropped ws eq_refl) as Ed. change (fun w => bw_cnt w C_fanoutDropped) with FanoutDropped in Ed.
  destruct (IsFanoutWorker name).
  - rewrite Hf, Ed, gathered_lost by done. f_equal. unfold uadd, u64. by rewrite Zplus_mod_idemp_l.
  - by rewrite Hc, Ed, gathered_lost by auto.
Qed.

(** C25 (functional).  The snapshot of a group, for any number of workers: each
    counter but two is the sum, modulo 2^64, of what its accessor returns for
    them; the delivery attempt is the highest; a probe has run when it ran in one of
    them; the losses of the trackers are the group's loss, but for the fan-out
    group, where they are added to what was dropped and the loss is zero; and
    the percentiles are those of a single worker, one with the most samples, or
    zero when there are no samples at all. *)
Theorem snapshot_exact name ws :
  let s := capture_group name ws in
  let lost := u64 (total (fun w => TotalLost (Tracker_ w)) ws) in
  (forall c f, (c, f) ∈ accessors -> c <> C_deliveryAttemptMax -> c <> C_fanoutDropped -> sn_cnt s c = u64 (total f ws)) /\
  sn_cnt s C_deliveryAttemptMax = highest DeliveryAttemptMax ws /\
  (forall p f, (p, f) ∈ flag_accessors -> sn_flag s p = existsb f ws) /\
  sn_OutOfOrder s = u64 (total (fun w => TotalOutOfOrder (Tracker_ w)) ws) /\
  (sn_Lost s, sn_cnt s C_fanoutDropped) =
    (if IsFanoutWorker name then (0, u64 (total FanoutDropped ws + lost)) else (lost, u64 (total FanoutDropped ws))) /\
  exists best, most_samples ws best /\
    latency_of s = match best with Some a => Percentiles ValueAtQuantile a | None => (f0, f0, f0, f0) end.
Proof.
  cbv zeta. destruct (group_fields name ws) as (Hc & _ & _ & Ho & _ & Hp). cbv zeta in *. split_and!.
  - intros c f Hin Hm. apply group_cnt; [done|]. by apply (accessor_summed c f).
  - rewrite Hc by auto. exact (gather_max (fun s => sn_cnt s C_deliveryAttemptMax) DeliveryAttemptMax ws (zero_snapshot, None, 0) step_max).
  - apply group_flag.
  - rewrite Ho. exact (gather_sum sn_OutOfOrder (fun w => TotalOutOfOrder (Tracker_ w)) ws (zero_snapshot, None, 0) step_order ltac:(done)).
  - apply group_lost.
  - exists (snd (fst (gathered ws))). split; [apply gathered_best|]. rewrite Hp. by destruct (snd (fst (gathered ws))); [|rewrite gathered_unset].
Qed.

(** A worker whose samples are all slow goes unnoticed next to one with more
    samples: the percentiles of the group are those of the other. *)
Lemma slow_worker_hidden name w w' :
  0 < Count (LatencyAccumulator_ w) -> Count (LatencyAccumulator_ w') < Count (LatencyAccumulator_ w) ->
  latency_of (capture_group name [w; w']) = Percentiles ValueAtQuantile (LatencyAccumulator_ w).
Proof.
  intros H H'. destruct (group_fields name [w; w']) as (_ & _ & _ & _ & _ & ->). destruct (gathered_best [w; w']) as [Hb _].
  destruct (snd (fst (gathered [w; w']))) as [a|].
  - destruct Hb as ((x & Hx & <-) & _ & Hm). f_equal. apply elem_of_cons in Hx as [->|[->|[]%not_elem_of_nil]%elem_of_cons]; [done|].
    rewrite Forall_forall in Hm. specialize (Hm w ltac:(set_solver)). lia.
  - cbn [most_samples] in Hb. rewrite Forall_forall in Hb. specialize (Hb w ltac:(set_solver)). lia.
Qed.
End capture.

(** ** What PASSED means *)

(** The counters of which a group may have none, by the name of the group. *)
Definition zero_tolerance (name : string) (c : counter) : bool :=
  match c with
  | C_corrupted | C_batchAtomicityViolations | C_flowControlViolations => true
  | C_orderingViolations => IsOrderingWorker name
  | C_exactlyOnceUnreconciled => IsExactlyOnceWorker name
  | C_deadLetterLost => IsDeadLetterWorker name
  | C_fanoutDropped => IsFanoutWorker name
  | C_interopDiverged => IsInteropWorker name
  | C_filterMismatch => IsFilteringWorker name
  | C_schemaRejectViolations => IsSchemaEnforceWorker name
  | C_seekReplayMismatch => IsSeekSnapshotWorker name
  | C_inflightCapLost => IsInflightCapWorker name
  | _ => false
  end.
(** The probes of which one that ran has to have been confirmed. *)
Definition probes (name : string) : list (flag * counter) :=
  (if IsSchemaEnforceWorker name then [(F_schemaEnforceProbeRan, C_schemaEnforceConfirmed)] else []) ++
  (if IsExactlyOnceWorker name then
     [(F_invalidAckProbeRan, C_exactlyOnceInvalidAckConfirmed); (F_confirmationsProbeRan, C_exactlyOnceConfirmed)] else []) ++
  [(F_leaseExtendProbeRan, C_leaseExtendConfirmed); (F_leaseExtendProbeRan, C_leaseExtendRejectConfirmed);
   (F_crossStreamAckProbeRan, C_crossStreamAckConfirmed)].

Definition clean (name : string) (s : WorkerSnapshot) : Prop :=
  (forall c, zero_tolerance name c = true -> sn_cnt s c <= 0) /\
  (forall p c, (p, c) ∈ probes name -> sn_flag s p = true -> sn_cnt s c <> 0).

Lemma probe_summed name p c : (p, c) ∈ probes name -> summed c = true /\ c <> C_fanoutDropped.
Proof.
  unfold probes. rewrite !elem_of_app. intros [Hp|[Hp|Hp]].
  - destruct (IsSchemaEnforceWorker name); [|by apply elem_of_nil in Hp]. by apply list_elem_of_singleton in Hp as [= -> ->].
  - destruct (IsExactlyOnceWorker name); [|by apply elem_of_nil in Hp]. by apply elem_of_cons in Hp as [[= -> ->]|[= -> ->]%list_elem_of_singleton].
  - by apply elem_of_cons in Hp as [[= -> ->]|[[= -> ->]|[= -> ->]%list_elem_of_singleton]%elem_of_cons].
Qed.
Lemma silent_clean cfg meas name s : fails (worker_outcomes cfg meas (name, s)) = false -> clean name s.
Proof.
  cbn [worker_outcomes]. rewrite !fails_app, !orb_false_iff. intros (Hs & Hf & Hg & _). revert Hs Hf Hg.
  unfold standard_gates. cbv zeta. rewrite fails_app, fails_gate, orb_false_iff. intros [S1 _].
  unfold fidelity_gates, coverage_gates. cbv zeta. rewrite !fails_app, !fails_if, !fails_app, !fails_gate, !orb_false_iff.
  intros (F1 & F2 & F3 & F4 & F5) (G1 & G2 & G3 & G4 & G5 & G6 & G7 & G8 & G9 & _). split.
  - intros c. destruct c; cbn [zero_tolerance]; try done; intros Hn; apply Z.ltb_ge; try done.
    all: rewrite Hn in *; try done. by apply orb_false_iff in G3 as [G3 _].
  - intros p c. unfold probes. rewrite !elem_of_app. intros [Hp|[Hp|Hp]] Hf.
    + destruct (IsSchemaEnforceWorker name); [|by apply elem_of_nil in Hp]. apply list_elem_of_singleton in Hp as [= -> ->].
      apply orb_false_iff in G3 as [_ G3]. rewrite Hf in G3. by apply Z.eqb_neq.
    + destruct (IsExactlyOnceWorker name); [|by apply elem_of_nil in Hp]. apply orb_false_iff in G6 as [A B].
      apply elem_of_cons in Hp as [[= -> ->]|[= -> ->]%list_elem_of_singleton]; rewrite Hf in *; by apply Z.eqb_neq.
    + apply elem_of_cons in Hp as [[= -> ->]|[[= -> ->]|[= -> ->]%list_elem_of_singleton]%elem_of_cons]; rewrite Hf in *; cbn [andb] in *.
      1, 2: apply orb_false_iff in G8 as [A B]. all: by apply Z.eqb_neq.
Qed.

(** Sums of numbers that are not negative. *)
Lemma sum_nonneg f ws : Forall (fun w => 0 <= f w) ws -> 0 <= total f ws.
Proof. induction 1; [done|]. cbn [total foldr]. unfold total in *. lia. Qed.
Lemma total_bounds f ws w : Forall (fun w => 0 <= f w) ws -> w ∈ ws -> 0 <= f w <= total f ws.
Proof.
  intros H. induction H as [|x ws Hx H IH]; [by intros ?%elem_of_nil|]. cbn [total foldr]. fold (total f ws).
  pose proof (sum_nonneg f ws H).
  intros [->|Hw]%elem_of_cons; [lia|]. specialize (IH Hw). lia.
Qed.
Lemma total_positive f ws : Forall (fun w => 0 <= f w) ws -> total f ws <> 0 -> exists w, w ∈ ws /\ 0 < f w.
Proof.
  intros H. induction H as [|x ws Hx H IH]; [done|]. cbn [total foldr]. fold (total f ws). intros Hne.
  destruct (Z.eq_dec (f x) 0) as [E|E]; [|exists x; split; [by left|lia]].
  destruct IH as (w & Hw & Hp); [lia|]. exists w. split; [by right|done].
Qed.

(** Counters that are not negative and whose sums over the group are below 2^64. *)
Record in_range (ws : list BaseWorker) : Prop := {
  ir_cnt : forall c f, (c, f) ∈ accessors -> Forall (fun w => 0 <= f w) ws /\ total f ws < two64;
  ir_lost : Forall (fun w => 0 <= TotalLost (Tracker_ w)) ws;
  ir_dropped : total FanoutDropped ws + total (fun w => TotalLost (Tracker_ w)) ws < two64
}.

(** It can be computed. *)
Definition range_ok (ws : list BaseWorker) : bool :=
  forallb (fun a => forallb (fun w => 0 <=? a.2 w) ws && (total a.2 ws <? two64)) accessors &&
  forallb (fun w => 0 <=? TotalLost (Tracker_ w)) ws && (total FanoutDropped ws + total (fun w => TotalLost (Tracker_ w)) ws <? two64).
Lemma range_ok_sound ws : range_ok ws = true -> in_range ws.
Proof.
  assert (forall (f : BaseWorker -> Z), forallb (fun w => 0 <=? f w) ws = true -> Forall (fun w => 0 <= f w) ws) as H.
  { intros f. rewrite forallb_forall, Forall_forall. intros Hf w Hw%list_elem_of_In. by apply Z.leb_le, Hf. }
  unfold range_ok. rewrite !andb_true_iff, Z.ltb_lt. intros [[H1 H2] H3]. split; [|by apply H|done].
  intros c f Hin%list_elem_of_In. rewrite forallb_forall in H1. specialize (H1 (c, f) Hin). rewrite andb_true_iff, Z.ltb_lt in H1.
  destruct H1 as [A B]. split; [by apply H|done].
Qed.

Section passed.
Context (ValueAtQuantile : list Z -> float64 -> Z) (TotalCount : list Z -> Z).
Notation capture_group := (capture_group ValueAtQuantile TotalCount).
Notation captureWorkerSnapshots := (captureWorkerSnapshots ValueAtQuantile TotalCount).

Lemma dropped_accessor : (C_fanoutDropped, FanoutDropped) ∈ accessors.
Proof. by apply (list_elem_of_lookup_2 _ 9). Qed.
Lemma sent_accessor : (C_sent, SentCount) ∈ accessors.
Proof. by apply (list_elem_of_lookup_2 _ 0). Qed.
Lemma accessor_is c f w : (c, f) ∈ accessors -> f w = bw_cnt w c.
Proof. intros H. pose proof accessors_read as R. rewrite Forall_forall in R. exact (R (c, f) H w). Qed.

(** Without wrap-around the snapshot has the sums themselves. *)
Lemma group_sum name ws c f : in_range ws -> (c, f) ∈ accessors -> summed c = true -> c <> C_fanoutDropped ->
  sn_cnt (capture_group name ws) c = total f ws.
Proof.
  intros R Hin Hs Hne. destruct (ir_cnt _ R c f Hin) as [Hn Hb]. pose proof (sum_nonneg f ws Hn).
  rewrite (group_cnt _ _ name ws c f) by done. apply u64_small. by split.
Qed.
Lemma group_dropped name ws : in_range ws -> IsFanoutWorker name = true ->
  sn_cnt (capture_group name ws) C_fanoutDropped = total FanoutDropped ws + total (fun w => TotalLost (Tracker_ w)) ws.
Proof.
  intros R Hn. pose proof (group_lost ValueAtQuantile TotalCount name ws) as E. cbv zeta in E. rewrite Hn in E. injection E as _ ->.
  destruct (ir_cnt _ R _ _ dropped_accessor) as [Hf _]. pose proof (sum_nonneg _ _ Hf). pose proof (sum_nonneg _ _ (ir_lost _ R)).
  pose proof (ir_dropped _ R). rewrite (u64_small (total _ ws)) by range. apply u64_small. range.
Qed.

(** A counter that is tolerated in no snapshot is zero in every worker. *)
Lemma group_zero name ws c f w : in_range ws -> (c, f) ∈ accessors -> zero_tolerance name c = true ->
  sn_cnt (capture_group name ws) c <= 0 -> w ∈ ws -> f w = 0.
Proof.
  intros R Hin Hz Hle Hw. destruct (ir_cnt _ R c f Hin) as [Hn _]. pose proof (total_bounds f ws w Hn Hw).
  destruct (decide (c = C_fanoutDropped)) as [->|Hne].
  - rewrite group_dropped in Hle by done. pose proof (sum_nonneg _ _ (ir_lost _ R)).
    rewrite (total_ext FanoutDropped f) in Hle by (intros x; by rewrite (accessor_is C_fanoutDropped f)). lia.
  - rewrite (group_sum name ws c f) in Hle; [lia|done..| |done]. by destruct c.
Qed.

(** C20 (safety).  What PASSED says of every single worker: when the verdict on
    the snapshots of the groups passes, no worker has a corrupted message, a
    violated batch or flow-control limit, nor any of the violations its group is
    gated on, and no fan-out worker's tracker has a loss; a probe that ran in a
    worker was confirmed by a worker of its group; and the loss of a group is
    not above both its threshold and the boundary allowance.  Asked of the
    counters is only that they are not negative and their sums do not wrap. *)
Theorem passed_means_clean cfg meas baseline peak groups :
  v_Passed (computeVerdict cfg meas baseline peak (captureWorkerSnapshots groups)) = true ->
  forall name ws, (name, ws) ∈ groups -> in_range ws ->
  (forall w, w ∈ ws ->
     (forall c f, (c, f) ∈ accessors -> zero_tolerance name c = true -> f w = 0) /\
     (IsFanoutWorker name = true -> TotalLost (Tracker_ w) = 0) /\
     (forall p g c f, (p, g) ∈ flag_accessors -> (c, f) ∈ accessors -> (p, c) ∈ probes name -> g w = true -> exists w', w' ∈ ws /\ 0 < f w')) /\
  (IsFanoutWorker name = false -> 0 < total SentCount ws ->
     let loss := pct (total (fun w => TotalLost (Tracker_ w)) ws) (total SentCount ws) in
     fltb (th_MaxLossPct (c_Thresholds cfg)) loss && fltb boundaryLossPct loss = false).
Proof.
  rewrite computeVerdict_passed, fails_concat, negb_true_iff. intros Hv name ws Hin R.
  assert (fails (worker_outcomes cfg meas (name, capture_group name ws)) = false) as Ho.
  { apply not_true_is_false. intros Ht. rewrite <- not_true_iff_false in Hv. apply Hv. rewrite existsb_exists.
    eexists. split; [|exact Ht]. apply in_map, (in_map (fun '(n, l) => (n, capture_group n l)) groups (name, ws)). by apply list_elem_of_In. }
  destruct (silent_clean _ _ _ _ Ho) as [Hz Hp]. split.
  - intros w Hw. split_and!.
    + intros c f Hc Ht. apply (group_zero name ws c f w); auto.
    + intros Hf. specialize (Hz C_fanoutDropped Hf). rewrite group_dropped in Hz by done.
      destruct (ir_cnt _ R _ _ dropped_accessor) as [Hn _]. pose proof (sum_nonneg _ _ Hn).
      pose proof (total_bounds _ ws w (ir_lost _ R) Hw). cbv beta in *. lia.
    + intros p g c f Hg Hc Hpc Hr. specialize (Hp p c Hpc). rewrite (group_flag _ _ name ws p g Hg) in Hp.
      destruct (probe_summed _ _ _ Hpc). rewrite (group_sum name ws c f) in Hp by done.
      destruct (ir_cnt _ R c f Hc) as [Hn _]. apply total_positive; [done|]. apply Hp. apply existsb_exists. exists w. split; [by apply list_elem_of_In|done].
  - intros Hf Hs. cbv zeta. revert Ho. cbn [worker_outcomes]. rewrite !fails_app, !orb_false_iff. intros (Ho & _). revert Ho.
    unfold standard_gates. cbv zeta. rewrite !fails_app, !orb_false_iff, !fails_if. intros (_ & Ho & _).
    pose proof sent_accessor as Ha.
    rewrite (group_sum name ws C_sent SentCount), (proj2 (Z.ltb_lt _ _) Hs) in Ho by done.
    pose proof (group_lost ValueAtQuantile TotalCount name ws) as E. cbv zeta in E. rewrite Hf in E. injection E as E _.
    rewrite E, u64_small, fails_gate in Ho; [done|]. pose proof (sum_nonneg _ _ (ir_lost _ R)). pose proof (ir_dropped _ R).
    destruct (ir_cnt _ R _ _ dropped_accessor) as [Hn _]. pose proof (sum_nonneg _ _ Hn). range.
Qed.
End passed.

(** A group of two, one of which has sent and received. *)
Definition ordering_pair : option (list BaseWorker) :=
  b ← NewBaseWorker (fun _ => "") WorkerOrderingKeys "t" 0 DefaultConfig; Some [recordReceived 1 "c" (recordSent 1 "p" b); b].

Lemma passed_means_clean_witness :
  exists w w', ordering_pair = Some [w; w'] /\ OrderingViolations w = 0 /\ CorruptedCount w' = 0.
Proof.
  do 2 eexists. split; [reflexivity|].
  match goal with |- OrderingViolations ?x = 0 /\ CorruptedCount ?y = 0 => set (w := x); set (w' := y) end.
  assert (v_Passed (computeVerdict DefaultConfig 0 0 0
    (captureWorkerSnapshots (fun _ _ => 0) (fun l => Z.of_nat (length l)) [(WorkerOrderingKeys, [w; w'])])) = true) as Hp by (vm_compute; reflexivity).
  assert (in_range [w; w']) as R by (apply range_ok_sound; vm_compute; reflexivity).
  destruct (passed_means_clean (fun _ _ => 0) (fun l => Z.of_nat (length l)) DefaultConfig 0 0 0 [(WorkerOrderingKeys, [w; w'])] Hp
    WorkerOrderingKeys [w; w'] ltac:(by left) R) as [H _].
  destruct (H w) as (H1 & _); [by left|]. destruct (H w') as (H2 & _); [by right; left|]. split.
  - apply (H1 C_orderingViolations OrderingViolations); [by apply (list_elem_of_lookup_2 _ 7)|reflexivity].
  - apply (H2 C_corrupted CorruptedCount); [by apply (list_elem_of_lookup_2 _ 3)|reflexivity].
Defined.
