(* ===== verification/Handlers.v ===== *)
(** * burnin/worker: what the twelve workers share

    The pieces every worker file of the source repeats: the integrity part of a
    message handler, one iteration of a publish loop, the receive loop that
    re-opens a subscription, and the interface [Worker] of worker.go through
    which the engine drives a worker.  A worker type is a base worker with its
    own fields, the class [HasBase]. *)
From S2P Require Import Prelude GoFloat GoFmt Config Payload Tracker Metrics Transport Worker.

(** ** Workers that embed a [BaseWorker] *)

Class HasBase (W : Type) := {
  base : W -> BaseWorker;
  with_base : (BaseWorker -> BaseWorker) -> W -> W;
  base_with_base : forall f w, base (with_base f w) = f (base w)
}.

(** [*BaseWorker] itself. *)
#[global] Instance has_base_self : HasBase BaseWorker :=
  {| base := fun b => b; with_base := fun f b => f b; base_with_base := fun f b => eq_refl |}.

(** The interface [Worker]: the operations the engine calls that concrete
    workers override.  The base operations they all perform are laws. *)
Class Worker (W : Type) `{HasBase W} := {
  w_ResetAfterWarmup : W -> W;
  w_DisconnectConsumers : W -> W;
  (* the time it runs at, and the failures of the acknowledgements it sends *)
  w_StopProducers : Z -> list bool -> W -> W;
  w_StopConsumers : Z -> W -> W;
  reset_base : forall w, base (w_ResetAfterWarmup w) = ResetAfterWarmup (base w);
  disconnect_base : forall w, base (w_DisconnectConsumers w) = DisconnectConsumers (base w);
  stop_producers_keeps : forall now fs w c, c <> C_acked -> c <> C_errors ->
    bw_cnt (base (w_StopProducers now fs w)) c = bw_cnt (base w) c;
  stop_producers_tracker : forall now fs w, bw_trk (base (w_StopProducers now fs w)) = bw_trk (base w);
  stop_keeps_tracker : forall now w, bw_trk (base (w_StopConsumers now w)) = bw_trk (base w)
}.

(** ** Receiving *)

Record Message := mkMsg { pm_Data : list Z; pm_Attributes : attrs; pm_OrderingKey : string; pm_AckID : string }.

(** [now.Sub(t)]: saturates at the ends of [time.Duration]. *)
Definition time_Sub (now t : Z) : Z :=
  let d := now - t in
  if d <? - two63 then - two63 else if two63 - 1 <? d then two63 - 1 else d.

Definition data_len (m : Message) : Z := Z.of_nat (length (pm_Data m)).

(** The checksum and the latency of a tracked message. *)
Definition check_integrity (now : Z) (data : list Z) (meta : Meta) (b : BaseWorker) : BaseWorker :=
  let b := if nonempty (m_crc meta) && negb (VerifyCRC data (m_crc meta)) then recordCorrupted b else b in
  match m_sentAt meta with
  | Some sentAt => recordLatency (time_Sub now sentAt) b
  | None => b
  end.

(** Calls on a message handle. *)
Inductive ack_call := CallAck | CallNack.

(** One session of a receive loop: what [transport.Receive] delivered (a
    message, the time it is handled at and what else its handler meets), whether it returned an error, whether the consumer context had ended
    by then, and whether the back-off slept through. *)
Record session (D : Type) := mkSession {
  ses_messages : list D;
  ses_error : bool;
  ses_done : bool;
  ses_slept : bool
}.
Arguments mkSession {D} _ _ _ _.
Arguments ses_messages {D} _.
Arguments ses_error {D} _.
Arguments ses_done {D} _.
Arguments ses_slept {D} _.

Section receive_loop.
Context {W D : Type} `{HasBase W}.
Context (handle : W -> D -> W).

(** The loop, for as many sessions as it runs before the context ends. *)
Fixpoint receive_sessions (first : bool) (ss : list (session D)) (w : W) : W :=
  match ss with
  | [] => w
  | s :: ss' =>
      let w := if first then w else with_base recordReconnection w in
      let w := with_base signalReady w in
      let w := foldl handle w (ses_messages s) in
      if ses_done s then w
      else if ses_error s then
        let w := with_base (recordError "receive_failure") w in
        if ses_slept s then receive_sessions false ss' w else w
      else receive_sessions false ss' w
  end.
Definition receiveLoop (ss : list (session D)) (w : W) : W := receive_sessions true ss w.
End receive_loop.

(** ** Publishing *)

(** What one iteration of a publish loop meets: the draws of the body, the
    clock when the attributes are stamped, the outcome of the publish, whether
    the producer context had ended when it failed, how long it took, and the
    time right after it. *)
Record publish_env := mkEnv {
  pe_size : Z;
  pe_rand : nat -> Z;
  pe_stamp : Z;
  pe_result : string + rpc_error;
  pe_done : bool;
  pe_elapsed : Z;
  pe_after : Z
}.

Inductive loop_ctl := Continue | Return.

Definition producer_id (b : BaseWorker) (producerIdx : Z) : string :=
  Sprintf "p-%s-%d" [AStr (bw_channelName b); AInt producerIdx].
Definition message_id (producerID : string) (seq : Z) : string :=
  Sprintf "%s#%d" [AStr producerID; AInt seq].

(** The id determines the producer and the sequence: the part after the last
    [#] is a number. *)
Lemma message_id_shape p s : message_id p s = p +:+ "#" +:+ Itoa s.
Proof. unfold message_id. cbn [Sprintf fmt_s fmt_d String.append]. by rewrite sapp_nil_r. Qed.

Lemma no_hash_in_number a d n : ParseUint (a +:+ "#" +:+ d) <> Some n.
Proof.
  unfold ParseUint. case_if; [done|]. rewrite parse_digits_app. destruct (parse_digits a 0); [|done]. done.
Qed.

Lemma hash_split p q d d' n n' :
  ParseUint d = Some n -> ParseUint d' = Some n' -> p +:+ "#" +:+ d = q +:+ "#" +:+ d' -> p = q /\ d = d'.
Proof.
  intros Hd Hd'. revert q. induction p as [|c p IH]; intros [|c' q] E; cbn [String.append] in *.
  - by simplify_eq.
  - injection E as Ec E. subst c'. rewrite E in Hd. by apply no_hash_in_number in Hd.
  - injection E as Ec E. subst c. rewrite <- E in Hd'. by apply no_hash_in_number in Hd'.
  - injection E as -> E. by destruct (IH q E) as [-> ->].
Qed.

Lemma message_id_inj p s q t : is_u64 s -> is_u64 t -> message_id p s = message_id q t -> p = q /\ s = t.
Proof.
  intros Hs Ht. rewrite !message_id_shape. unfold Itoa. rewrite !(proj2 (Z.ltb_ge _ _)) by range. intros E.
  apply (hash_split p q _ _ s t) in E as [-> E]; [|by apply ParseUint_FormatUint..].
  split; [done|]. by apply FormatUint_inj.
Qed.

(** A sequence read from the attributes is a [uint64]. *)
Lemma parse_digits_range s a n : is_u64 a -> parse_digits s a = Some n -> is_u64 n.
Proof.
  revert a. induction s as [|c s IH]; intros a Ha H; cbn in H; [by simplify_eq|].
  destruct (is_digit c) eqn:Ed; [|done]. destruct (two64 <=? _) eqn:E; [done|]. zbool.
  eapply IH; [|exact H]. unfold is_digit, digit_val in *. zbool. range.
Qed.
Lemma meta_seq_range a : is_u64 (m_seq (extractMeta a)).
Proof.
  unfold extractMeta. cbn [m_seq]. case_if; [range|]. unfold ParseUint. case_if; [range|].
  destruct (parse_digits _ 0) eqn:Ep; [|cbn; range]. apply parse_digits_range in Ep; [done|range].
Qed.

(** The body and attributes of a message; [None] when [SelectSize] panics. *)
Definition build_message (producerID : string) (seq : Z) (env : publish_env) (b : BaseWorker) : option Message :=
  size ← selectMessageSize b (pe_size env);
  let '(body, crcHex) := Build (pe_rand env) size in
  Some (mkMsg body (stampAttrs producerID seq crcHex (pe_stamp env)) "" "").

(** What the loop does with the outcome of the publish. *)
Definition publish_outcome (producerID : string) (len : Z) (env : publish_env) (b : BaseWorker)
  : loop_ctl * BaseWorker :=
  match PublishMessageSync (pe_result env) with
  | inr _ => if pe_done env then (Return, b) else (Continue, recordError "publish_failure" b)
  | inl _ =>
      let b := emit (ObserveSendDuration (bw_name b) (pe_elapsed env)) b in
      (Continue, recordSent len producerID b)
  end.
Definition published_ok (env : publish_env) : bool :=
  match pe_result env with inl _ => true | inr _ => false end.

(** The number of producer goroutines of a channel. *)
Definition producer_count (b : BaseWorker) : Z :=
  let n := wc_ProducersPerChannel (bw_workerCfg b) in if n <? 1 then 1 else n.

(** ** Counters across handlers *)

(** [f] leaves counter [c] alone. *)
Definition keeps (c : counter) (f : BaseWorker -> BaseWorker) : Prop := forall b, bw_cnt (f b) c = bw_cnt b c.

Create HintDb keeps.

Lemma keeps_compose c f g : keeps c f -> keeps c g -> keeps c (fun b => g (f b)).
Proof. intros Hf Hg b. by rewrite Hg, Hf. Qed.

Lemma cnt_add_counter c c' n b : bw_cnt (add_counter c' n b) c = if decide (c = c') then bw_cnt b c +u n else bw_cnt b c.
Proof. unfold add_counter, store_counter. simpl. destruct (decide (c = c')); by subst. Qed.

Lemma cnt_emit c o b : bw_cnt (emit o b) c = bw_cnt b c.
Proof. done. Qed.

Lemma keeps_record c c' n o : c <> c' -> keeps c (fun b => emit (o b) (add_counter c' n b)).
Proof. intros Hc b. rewrite cnt_emit, cnt_add_counter. by destruct (decide (c = c')). Qed.

Lemma keeps_error c t : c <> C_errors -> keeps c (recordError t).
Proof. intros H b. by apply (keeps_record c C_errors 1 (fun b => IncError (bw_name b) t)). Qed.
Lemma keeps_received c n id : c <> C_received -> keeps c (recordReceived n id).
Proof.
  intros H b. unfold recordReceived. cbn [emit]. rewrite !cnt_emit, cnt_add_counter. by destruct (decide (c = C_received)).
Qed.
Lemma keeps_sent c n id : c <> C_sent -> keeps c (recordSent n id).
Proof.
  intros H b. unfold recordSent. rewrite !cnt_emit. cbn [set_accums bw_cnt]. rewrite cnt_add_counter.
  by destruct (decide (c = C_sent)).
Qed.
Lemma keeps_acked c : c <> C_acked -> keeps c recordAcked.
Proof. intros H b. by apply (keeps_record c C_acked 1 (fun b => IncAck (bw_name b))). Qed.
Lemma keeps_tracked c p s : c <> C_duplicated -> keeps c (fun b => fst (recordTracked p s b)).
Proof.
  intros H b. unfold recordTracked. destruct (Record_ (bw_trk b) p s) as [t [dup oo]]. cbn [fst].
  destruct oo, dup; rewrite ?cnt_emit; unfold recordDuplicated; rewrite ?cnt_emit, ?cnt_add_counter; try done;
    by destruct (decide (c = C_duplicated)).
Qed.
Lemma keeps_integrity c now data meta :
  c <> C_corrupted -> keeps c (check_integrity now data meta).
Proof.
  intros H b. unfold check_integrity.
  assert (forall b, bw_cnt (recordCorrupted b) c = bw_cnt b c) as Hc
    by (intros b'; by apply (keeps_record c C_corrupted 1 (fun b => IncCorrupted (bw_name b)))).
  destruct (m_sentAt meta); case_if; cbn [recordLatency emit set_counts set_accums bw_cnt]; rewrite ?Hc; done.
Qed.
Lemma keeps_outcome c p len env b :
  c <> C_sent -> c <> C_errors -> bw_cnt (snd (publish_outcome p len env b)) c = bw_cnt b c.
Proof.
  intros H1 H2. unfold publish_outcome. destruct (PublishMessageSync (pe_result env)); cbn [snd].
  - by rewrite (keeps_sent c).
  - case_if; cbn [snd]; [done|]. by rewrite (keeps_error c).
Qed.
#[export] Hint Resolve keeps_error keeps_received keeps_sent keeps_acked keeps_integrity keeps_tracked : keeps.

(** ** The tracker across handlers *)

Lemma integrity_trk now data meta b : bw_trk (check_integrity now data meta b) = bw_trk b.
Proof. unfold check_integrity. by destruct (m_sentAt meta); case_if. Qed.

Lemma recordTracked_trk p s b : bw_trk (fst (recordTracked p s b)) = fst (Record_ (bw_trk b) p s).
Proof. unfold recordTracked. destruct (Record_ (bw_trk b) p s) as [t [dup oo]]. by destruct dup, oo. Qed.

Lemma integrity_channel now data meta b : bw_channelName (check_integrity now data meta b) = bw_channelName b.
Proof. unfold check_integrity. by destruct (m_sentAt meta); case_if. Qed.

Lemma recordTracked_channel p s b : bw_channelName (fst (recordTracked p s b)) = bw_channelName b.
Proof. unfold recordTracked. destruct (Record_ (bw_trk b) p s) as [t [dup oo]]. by destruct dup, oo. Qed.

Lemma integrity_cfg now data meta b : bw_cfg (check_integrity now data meta b) = bw_cfg b.
Proof. unfold check_integrity. by destruct (m_sentAt meta); case_if. Qed.

Lemma recordTracked_cfg p s b : bw_cfg (fst (recordTracked p s b)) = bw_cfg b.
Proof. unfold recordTracked. destruct (Record_ (bw_trk b) p s) as [t [dup oo]]. by destruct dup, oo. Qed.

Lemma recordTracked_dup p s b :
  bw_cnt (fst (recordTracked p s b)) C_duplicated =
  if fst (snd (Record_ (bw_trk b) p s)) then bw_cnt b C_duplicated +u 1 else bw_cnt b C_duplicated.
Proof. unfold recordTracked. destruct (Record_ (bw_trk b) p s) as [t [dup oo]]. by destruct dup, oo. Qed.

(** ** A publish *)

Lemma outcome_channel p len env b : bw_channelName (snd (publish_outcome p len env b)) = bw_channelName b.
Proof. unfold publish_outcome. destruct (PublishMessageSync _); [done|]. by case_if. Qed.
Lemma outcome_trk p len env b : bw_trk (snd (publish_outcome p len env b)) = bw_trk b.
Proof. unfold publish_outcome. destruct (PublishMessageSync _); [done|]. by case_if. Qed.
Lemma outcome_sent p len env b :
  bw_cnt (snd (publish_outcome p len env b)) C_sent =
  if published_ok env then bw_cnt b C_sent +u 1 else bw_cnt b C_sent.
Proof.
  unfold publish_outcome, published_ok, PublishMessageSync. destruct (pe_result env); [done|]. by case_if.
Qed.

(** A receive loop keeps what its handler and the loop's own records keep. *)
Lemma receive_keeps {W D} `{HasBase W} (handle : W -> D -> W) c first ss w :
  c <> C_reconnections -> c <> C_errors ->
  (forall w d, bw_cnt (base (handle w d)) c = bw_cnt (base w) c) ->
  bw_cnt (base (receive_sessions handle first ss w)) c = bw_cnt (base w) c.
Proof.
  intros Hr He Hh. revert first w. induction ss as [|s ss IH]; intros first w; [done|]. cbn [receive_sessions].
  set (w1 := if first then w else with_base recordReconnection w).
  set (w2 := foldl handle (with_base signalReady w1) (ses_messages s)).
  assert (bw_cnt (base w2) c = bw_cnt (base w) c) as E.
  { assert (bw_cnt (base (with_base signalReady w1)) c = bw_cnt (base w) c) as E1.
    { rewrite base_with_base. unfold w1. destruct first; [done|]. rewrite base_with_base.
      by apply (keeps_record c C_reconnections 1 (fun b => IncReconnection (bw_name b))). }
    rewrite <- E1. unfold w2. generalize (with_base signalReady w1). clear -Hh.
    induction (ses_messages s) as [|d l IHl]; intros v; [done|]. simpl. by rewrite IHl. }
  destruct (ses_done s); [done|]. destruct (ses_error s); [destruct (ses_slept s)|].
  - rewrite IH, base_with_base. by rewrite (keeps_error c).
  - rewrite base_with_base. by rewrite (keeps_error c).
  - by rewrite IH.
Qed.
