(* ===== verification/Tracked.v ===== *)
(** * Handlers that report to the tracker

    The interface between a worker's message handler and the tracker: which
    event a delivery is, and that the handler records exactly it.  Complete
    in-order deliveries are then reported without loss or duplicates, for any
    worker whose handler has the interface.  Also the identity of a published
    message: the producer id and the attributes it is tracked by. *)
From S2P Require Import Prelude GoFloat GoFmt Config Payload Tracker TrackerBits TrackerSpec TrackerProps.
From S2P Require Import Streams Metrics Transport Worker WorkerProps Handlers.

(** ** The interface *)

(** [event d]: the producer and sequence delivery [d] is tracked under. *)
Class TrackedHandler {W D : Type} {HB : HasBase W} (handle : W -> D -> W) (event : D -> option (string * Z)) := {
  handler_trk : forall w d,
    bw_trk (base (handle w d)) =
    match event d with Some (p, s) => fst (Record_ (bw_trk (base w)) p s) | None => bw_trk (base w) end;
  handler_dup : forall w d,
    bw_cnt (base (handle w d)) C_duplicated =
    match event d with
    | Some (p, s) => if fst (snd (Record_ (bw_trk (base w)) p s)) then bw_cnt (base w) C_duplicated +u 1
                     else bw_cnt (base w) C_duplicated
    | None => bw_cnt (base w) C_duplicated
    end
}.

(** A worker whose tracker is new. *)
Definition fresh_tracker (b : BaseWorker) : Prop :=
  producers (bw_trk b) = ∅ /\ rw_ok (reorderWindow (bw_trk b)) /\ bw_cnt b C_duplicated = 0.

Section tracked.
Context {W D : Type} {HB : HasBase W} (handle : W -> D -> W) (event : D -> option (string * Z)).
Context {TH : TrackedHandler handle event}.

Lemma event_cons d l : omap event (d :: l) = match event d with Some e => e :: omap event l | None => omap event l end.
Proof. done. Qed.

Lemma handled_trk l w : bw_trk (base (foldl handle w l)) = fst (run (bw_trk (base w)) (omap event l)).
Proof.
  revert w. induction l as [|d l IH]; intros w; [done|]. cbn [foldl]. rewrite IH, handler_trk, event_cons.
  destruct (event d) as [[p s]|]; [|done]. cbn [run].
  destruct (Record_ _ p s) as [t [dup oo]]. cbn [fst]. by destruct (run t _).
Qed.

(** No duplicate flag raised leaves the counter. *)
Lemma handled_dup l w :
  Forall (eq false) (snd (run (bw_trk (base w)) (omap event l))) ->
  bw_cnt (base (foldl handle w l)) C_duplicated = bw_cnt (base w) C_duplicated.
Proof.
  revert w. induction l as [|d l IH]; intros w H; [done|]. cbn [foldl].
  pose proof (handler_trk w d) as Ht. pose proof (handler_dup w d) as Hd. rewrite event_cons in H.
  destruct (event d) as [[p s]|].
  - cbn [run] in H. destruct (Record_ (bw_trk (base w)) p s) as [t [dup oo]]. cbn [fst snd] in *.
    destruct (run t (omap event l)) as [t' ds] eqn:Er. cbn [snd] in H. apply Forall_cons in H as [<- H].
    rewrite IH; [done|]. by rewrite Ht, Er.
  - rewrite IH; [done|]. by rewrite Ht.
Qed.

(** Each flag raised adds one. *)
Definition flags (ds : list bool) : Z := Z.of_nat (length (List.filter (fun d => d) ds)).

Lemma handled_dups l w :
  u64 (bw_cnt (base (foldl handle w l)) C_duplicated) =
  u64 (bw_cnt (base w) C_duplicated + flags (snd (run (bw_trk (base w)) (omap event l)))).
Proof.
  revert w. induction l as [|d l IH]; intros w; [cbn; by rewrite Z.add_0_r|]. cbn [foldl]. rewrite IH.
  pose proof (handler_trk w d) as Ht. pose proof (handler_dup w d) as Hd. rewrite event_cons.
  destruct (event d) as [[p s]|]; [|by rewrite Ht, Hd].
  cbn [run]. destruct (Record_ (bw_trk (base w)) p s) as [t [dup oo]]. cbn [fst snd] in *. rewrite Ht, Hd.
  destruct (run t (omap event l)) as [t' ds]. cbn [snd]. unfold flags. cbn [List.filter].
  destruct dup; cbn [length]; [wrap_eq|done].
Qed.

Lemma handled_clean l w :
  fresh_tracker (base w) -> Forall (fun e => is_u64 e.2) (omap event l) ->
  (forall p, exists s n, of_producer p (omap event l) = seqZ s n) ->
  TotalLost (bw_trk (base (foldl handle w l))) = 0 /\ bw_cnt (base (foldl handle w l)) C_duplicated = 0.
Proof.
  intros (Hp & Hrw & Hd) Hu Ho. destruct (in_order_clean _ _ Hrw Hp Hu Ho) as [H1 H2].
  rewrite handled_trk, H1. split; [done|]. rewrite handled_dup; [done|]. rewrite H2.
  apply Forall_replicate. done.
Qed.
End tracked.

(** ** Producer ids *)

Lemma producer_id_shape b i : producer_id b i = "p-" +:+ bw_channelName b +:+ "-" +:+ Itoa i.
Proof.
  unfold producer_id. cbn [Sprintf fmt_s fmt_d String.append]. rewrite ?sapp_assoc. cbn [String.append].
  by rewrite sapp_nil_r.
Qed.

Lemma producer_id_ext b b' i : bw_channelName b = bw_channelName b' -> producer_id b i = producer_id b' i.
Proof. intros E. by rewrite !producer_id_shape, E. Qed.

Lemma producer_id_inj b i j : is_int i -> is_int j -> producer_id b i = producer_id b j -> i = j.
Proof.
  intros Hi Hj. rewrite !producer_id_shape. intros E.
  apply (inj (String.append "p-")) in E. apply (inj (String.append (bw_channelName b))) in E.
  apply (inj (String.append "-")) in E. by apply Itoa_inj.
Qed.

Lemma producer_id_nonempty b i : String.eqb (producer_id b i) "" = false.
Proof. by rewrite producer_id_shape. Qed.

(** ** Published messages *)

(** What a stamped message is tracked as, whatever one attribute of another
    name is added to it. *)
Lemma stamp_extra p s crc now k v :
  is_u64 s -> is_int now -> p <> "" ->
  k <> AttrWorkerID -> k <> AttrSequence -> k <> AttrContentHash -> k <> AttrTimestampNS ->
  extractMeta (<[k := v]> (stampAttrs p s crc now)) = mkMeta p s crc (Some now) true.
Proof.
  intros Hs Hn Hp K1 K2 K3 K4. destruct (stampAttrs_lookup p s crc now) as (E1 & E2 & E3 & E4).
  rewrite (extractMeta_lookup _ p s crc now) by (done || by rewrite lookup_insert_ne).
  apply String.eqb_neq in Hp. by rewrite Hp.
Qed.

Lemma stamp_plain p s crc now :
  is_u64 s -> is_int now -> p <> "" -> extractMeta (stampAttrs p s crc now) = mkMeta p s crc (Some now) true.
Proof.
  intros Hs Hn Hp. destruct (stampAttrs_lookup p s crc now) as (E1 & E2 & E3 & E4).
  rewrite (extractMeta_lookup _ p s crc now) by done. apply String.eqb_neq in Hp. by rewrite Hp.
Qed.

(** A new worker's tracker is fresh, and so is one after the warm-up reset. *)
Lemma new_fresh Getenv name channel idx cfg b :
  NewBaseWorker Getenv name channel idx cfg = Some b -> rw_ok (msg_ReorderWindow (c_Message cfg)) -> fresh_tracker b.
Proof. unfold NewBaseWorker. intros H Hrw. destruct (GetWorkerConfig cfg name); [|done]. by injection H as <-. Qed.

Lemma new_counters Getenv name channel idx cfg b c : NewBaseWorker Getenv name channel idx cfg = Some b -> bw_cnt b c = 0.
Proof. unfold NewBaseWorker. intros H. destruct (GetWorkerConfig cfg name); [|done]. by injection H as <-. Qed.

(** A configuration with a small reorder window and bodies. *)
Definition small_window (c : Config) (rw : Z) : Config :=
  mkConfig (c_Version c) (c_Broker c) (c_Mode c) (c_Duration c) (c_RunID c) (c_WarmupDuration c) (c_GCP c)
    (c_Workers c) (mkMessage "fixed" 16 "" rw) (c_Metrics c) (c_Logging c) (c_ForcedDisconnect c) (c_Recovery c)
    (c_Shutdown c) (c_Output c) (c_Thresholds c) (c_Warmup c) (c_CORS c) (c_DurationParsed c)
    (c_WarmupDurationParsed c) (c_ReportIntervalParsed c) (c_ForcedDisconnInterval c)
    (c_ForcedDisconnDuration c) (c_ReconnectInterval c) (c_ReconnectMaxInterval c)
    (c_MaxDurationParsed c) (c_Warnings c).
