(* ===== verification/OrderingKeys.v ===== *)
(** * burnin/worker: ordering_keys

    Per-key delivery order: the producer stamps a per-key sequence, the receiver
    keeps the highest one seen per producer and key and records a violation when
    a delivery goes below it. *)
From S2P Require Import Prelude GoFloat GoFmt Config Payload Tracker Metrics Transport Worker Handlers.
From Stdlib Require Import Ascii.

Definition orderingKeyCount : nat := 8.

Record OrderingKeysWorker := mkOrdering {
  ok_base : BaseWorker;
  ok_topicID : string;
  ok_subID : string;
  ok_seq : Z;
  ok_perKey : gmap string Z
}.

#[global] Instance ordering_has_base : HasBase OrderingKeysWorker.
Proof.
  refine {| base := ok_base;
            with_base := fun f w => mkOrdering (f (ok_base w)) (ok_topicID w) (ok_subID w) (ok_seq w) (ok_perKey w) |}.
  done.
Defined.

Definition NewOrderingKeysWorker (Getenv : string -> string) (cfg : Config) (idx : Z) : option OrderingKeysWorker :=
  let topicID := TopicName (resourcePrefix Getenv) WorkerOrderingKeys idx in
  let subID := SubscriptionName (resourcePrefix Getenv) WorkerOrderingKeys idx in
  b ← NewBaseWorker Getenv WorkerOrderingKeys (MappedTopicChannel topicID) idx cfg;
  Some (mkOrdering b topicID subID 0 ∅).

(** [checkOrdering]. *)
Definition map_key (producerID orderingKey : string) : string := producerID +:+ "|" +:+ orderingKey.

Definition set_perKey (w : OrderingKeysWorker) (m : gmap string Z) : OrderingKeysWorker :=
  mkOrdering (ok_base w) (ok_topicID w) (ok_subID w) (ok_seq w) m.

Definition checkOrdering (producerID orderingKey orderingSeqStr : string) (w : OrderingKeysWorker) : OrderingKeysWorker :=
  if negb (nonempty orderingKey) || negb (nonempty orderingSeqStr) then w
  else match ParseUint orderingSeqStr with
  | None => w
  | Some oseq =>
      let mapKey := map_key producerID orderingKey in
      match ok_perKey w !! mapKey with
      | Some last =>
          if oseq <? last then with_base recordOrderingViolation w
          else if last <? oseq then set_perKey w (<[mapKey := oseq]> (ok_perKey w)) else w
      | None => set_perKey w (<[mapKey := oseq]> (ok_perKey w))
      end
  end.

(** [handleMessage]; the message is acked whatever it carries. *)
Definition handleMessage (now : Z) (m : Message) (consumerID : string) (w : OrderingKeysWorker)
  : OrderingKeysWorker * list ack_call :=
  let w := with_base (recordReceived (data_len m) consumerID) w in
  let meta := extractMeta (pm_Attributes m) in
  let w :=
    if m_ok meta then
      let w := with_base (check_integrity now (pm_Data m) meta) w in
      let '(b, dup) := recordTracked (m_producer meta) (m_seq meta) (base w) in
      let w := with_base (fun _ => b) w in
      if negb dup then checkOrdering (m_producer meta) (pm_OrderingKey m) (attr (pm_Attributes m) AttrOrderingSeq) w
      else w
    else w in
  (with_base recordAcked w, [CallAck]).

Definition receive_loop (ss : list (session (Z * Message))) (w : OrderingKeysWorker) : OrderingKeysWorker :=
  receiveLoop (fun w '(now, m) => fst (handleMessage now m ("c-" +:+ bw_channelName (base w)) w)) ss w.

(** The map is cleared under the lock after the base's statements; deliveries
    may be checked in between. *)
Definition w_reset (w : OrderingKeysWorker) : OrderingKeysWorker := set_perKey (with_base ResetAfterWarmup w) ∅.

(** ** Producing *)

(** The state of a producer goroutine: its per-key sequences and its round
    robin counter.  [StartProducers] starts it afresh. *)
Record producer := mkProducer { p_keySeq : list Z; p_rr : Z }.
Definition new_producer : producer := mkProducer (replicate orderingKeyCount 0) 0.

Definition ordering_key (producerID : string) (keyIdx : Z) : string :=
  Sprintf "%s-k%d" [AStr producerID; AInt keyIdx].

(** One iteration of [produceLoop]: the message it publishes, and the state it
    leaves.  The per-key sequence and the shared one advance before the publish
    is attempted. *)
Definition produce_once (producerIdx : Z) (env : publish_env) (w : OrderingKeysWorker) (p : producer)
  : option (Message * loop_ctl * OrderingKeysWorker * producer) :=
  let producerID := producer_id (base w) producerIdx in
  let keyIdx := p_rr p mod Z.of_nat orderingKeyCount in
  let keySeq := alter (fun s => s +u 1) (Z.to_nat keyIdx) (p_keySeq p) in
  let oseq := default 0 (keySeq !! Z.to_nat keyIdx) in
  let p := mkProducer keySeq (to_int (p_rr p + 1)) in
  let seq := ok_seq w +u 1 in
  let w := mkOrdering (ok_base w) (ok_topicID w) (ok_subID w) seq (ok_perKey w) in
  m ← build_message producerID seq env (base w);
  let m := mkMsg (pm_Data m) (<[AttrOrderingSeq := FormatUint oseq]> (pm_Attributes m))
             (ordering_key producerID keyIdx) "" in
  let '(ctl, b) := publish_outcome producerID (data_len m) env (base w) in
  Some (m, ctl, with_base (fun _ => b) w, p).

#[global] Instance ordering_worker : Worker OrderingKeysWorker.
Proof.
  refine {| w_ResetAfterWarmup := w_reset;
            w_DisconnectConsumers := with_base DisconnectConsumers;
            w_StopProducers := fun _ _ w => w;
            w_StopConsumers := fun _ w => w |}; done.
Defined.

(** ** What the ordering check decides *)

(** A key's deliveries: those of a producer's key, in the order they are
    checked. *)
Definition delivery : Type := string * string * string.
Definition check_all (w : OrderingKeysWorker) (l : list delivery) : OrderingKeysWorker :=
  foldl (fun w '(p, k, s) => checkOrdering p k s w) w l.

(** The sequence a delivery carries for a producer's key, if it is one of that
    key's. *)
Definition key_seq (pk : string * string) (d : delivery) : option Z :=
  let '(p, k, s) := d in
  if negb (nonempty k) || negb (nonempty s) then None
  else match ParseUint s with
  | Some q => if decide ((p, k) = pk) then Some q else None
  | None => None
  end.

(** The specification: a delivery violates the order when an earlier delivery
    of the same producer and key carried a higher sequence. *)
Definition regresses (before : list delivery) (d : delivery) : bool :=
  let '(p, k, _) := d in
  match key_seq (p, k) d with
  | Some q => existsb (fun q' => q <? q') (omap (key_seq (p, k)) before)
  | None => false
  end.

Fixpoint violations (before rest : list delivery) : Z :=
  match rest with
  | [] => 0
  | d :: rest' => (if regresses before d then 1 else 0) + violations (before ++ [d]) rest'
  end.

(** A producer whose name has no [|]: the map keys of two such producers are
    equal only when the producers and the keys are. *)
Fixpoint no_bar (s : string) : bool :=
  match s with
  | EmptyString => true
  | String c s' => negb (Ascii.eqb c "|"%char) && no_bar s'
  end.

Lemma map_key_inj p k p' k' :
  no_bar p = true -> no_bar p' = true -> map_key p k = map_key p' k' -> p = p' /\ k = k'.
Proof.
  unfold map_key. revert p'. induction p as [|c p IH]; intros [|c' p'] H H' E; cbn in *.
  - by simplify_eq.
  - by simplify_eq/=.
  - by simplify_eq/=.
  - injection E as <- E. apply andb_true_iff in H as [_ H]. apply andb_true_iff in H' as [_ H'].
    by destruct (IH p' H H' E) as [-> ->].
Qed.

(** Without that two producers can share an entry. *)
Lemma map_keys_collide : map_key "a|b" "c" = map_key "a" "b|c".
Proof. reflexivity. Qed.

(** The map holds the maximum of what was delivered per producer and key. *)
Definition high_water (before : list delivery) (m : gmap string Z) : Prop :=
  forall p k, no_bar p = true ->
    match m !! map_key p k with
    | Some h => h ∈ omap (key_seq (p, k)) before /\ forall q, q ∈ omap (key_seq (p, k)) before -> q <= h
    | None => omap (key_seq (p, k)) before = []
    end.

Lemma violation_count w : bw_cnt (base (with_base recordOrderingViolation w)) C_orderingViolations
  = bw_cnt (base w) C_orderingViolations +u 1.
Proof. done. Qed.

Lemma omap_snoc {A B} (f : A -> option B) l x : omap f (l ++ [x]) = omap f l ++ match f x with Some y => [y] | None => [] end.
Proof. rewrite omap_app. simpl. by destruct (f x). Qed.

Lemma key_seq_self p k s q :
  ParseUint s = Some q -> nonempty k = true -> nonempty s = true -> key_seq (p, k) (p, k, s) = Some q.
Proof. intros H Hk Hs. unfold key_seq. rewrite Hk, Hs, H. cbn [negb orb]. by rewrite decide_True. Qed.

Lemma key_seq_other p k s pk : (p, k) <> pk -> key_seq pk (p, k, s) = None.
Proof.
  intros H. unfold key_seq. case_if; [done|]. destruct (ParseUint s); [|done]. by rewrite decide_False.
Qed.

Section step.
Context (before : list delivery) (m : gmap string Z) (p k s : string) (q : Z).
Context (Hm : high_water before m) (Hp : no_bar p = true).
Context (Hq : ParseUint s = Some q) (Hk : nonempty k = true) (Hs : nonempty s = true).

(** Recording a sequence at least as high as all before it. *)
Lemma high_water_insert :
  (forall q', q' ∈ omap (key_seq (p, k)) before -> q' <= q) ->
  high_water (before ++ [(p, k, s)]) (<[map_key p k := q]> m).
Proof using All.
  intros Hmax p' k' Hp'. destruct (decide ((p, k) = (p', k'))) as [E|Hne].
  - injection E as <- <-. rewrite lookup_insert_eq, omap_snoc, (key_seq_self p k s q Hq Hk Hs). split; [set_solver|].
    intros q' [H|H%list_elem_of_singleton]%elem_of_app; [by apply Hmax|lia].
  - rewrite lookup_insert_ne, omap_snoc, (key_seq_other p k s _ Hne), app_nil_r.
    + by apply Hm.
    + intros E. apply map_key_inj in E as [-> ->]; done.
Qed.

(** A sequence no higher than the mark leaves it. *)
Lemma high_water_keep h : m !! map_key p k = Some h -> q <= h -> high_water (before ++ [(p, k, s)]) m.
Proof using All.
  intros Hh Hle p' k' Hp'. pose proof (Hm p' k' Hp') as H. rewrite omap_snoc.
  destruct (decide ((p, k) = (p', k'))) as [E|Hne].
  - injection E as <- <-. rewrite Hh in *. rewrite (key_seq_self p k s q Hq Hk Hs). destruct H as [H1 H2]. split; [set_solver|].
    intros q' [Hin|Heq%list_elem_of_singleton]%elem_of_app; [by apply H2|lia].
  - by rewrite (key_seq_other p k s _ Hne), app_nil_r.
Qed.

Lemma regresses_above h : m !! map_key p k = Some h -> regresses before (p, k, s) = (q <? h).
Proof using All.
  intros Hh. unfold regresses. rewrite (key_seq_self p k s q Hq Hk Hs).
  pose proof (Hm p k Hp) as H. rewrite Hh in H. destruct H as [H1 H2].
  apply Bool.eq_iff_eq_true. rewrite existsb_exists. split.
  - intros (q' & Hin & Hlt). apply list_elem_of_In, H2 in Hin. zbool. apply Z.ltb_lt. lia.
  - intros Hlt. exists h. split; [by apply list_elem_of_In|done].
Qed.
End step.

(** A delivery the check ignores. *)
Lemma high_water_ignore before m d : (forall pk, key_seq pk d = None) -> high_water before m -> high_water (before ++ [d]) m.
Proof. intros Hd Hm p k Hp. rewrite omap_snoc, Hd, app_nil_r. by apply Hm. Qed.

Lemma checkOrdering_step before w p k s :
  high_water before (ok_perKey w) -> no_bar p = true ->
  high_water (before ++ [(p, k, s)]) (ok_perKey (checkOrdering p k s w)) /\
  bw_cnt (base (checkOrdering p k s w)) C_orderingViolations =
    (if regresses before (p, k, s) then bw_cnt (base w) C_orderingViolations +u 1
     else bw_cnt (base w) C_orderingViolations).
Proof.
  intros Hm Hp. unfold checkOrdering.
  destruct (negb (nonempty k) || negb (nonempty s)) eqn:E.
  { assert (forall pk, key_seq pk (p, k, s) = None) as Hn by (intros pk; unfold key_seq; by rewrite E).
    split; [by apply high_water_ignore|]. unfold regresses. by rewrite Hn. }
  zbool. destruct (ParseUint s) as [q|] eqn:Eq.
  2: { assert (forall pk, key_seq pk (p, k, s) = None) as Hn
         by (intros pk; unfold key_seq; rewrite Eq; by destruct (_ || _)).
       split; [by apply high_water_ignore|]. unfold regresses. by rewrite Hn. }
  pose proof (Hm p k Hp) as Hw. destruct (ok_perKey w !! map_key p k) as [h|] eqn:Eh.
  - rewrite (regresses_above before (ok_perKey w) p k s q Hm Hp Eq) with (h := h) by done.
    destruct Hw as [Hw1 Hw2]. destruct (q <? h) eqn:El.
    + split; [|done]. zbool. apply (high_water_keep before _ p k s q) with (h := h); [done..|lia].
    + zbool. destruct (h <? q) eqn:El2; zbool; (split; [|done]).
      * apply (high_water_insert before _ p k s q); [done..|]. intros q' Hq'. specialize (Hw2 q' Hq'). lia.
      * apply (high_water_keep before _ p k s q) with (h := h); [done..|lia].
  - split.
    + apply (high_water_insert before _ p k s q); [done..|]. rewrite Hw. intros q' Hq'. by apply elem_of_nil in Hq'.
    + unfold regresses. by rewrite (key_seq_self p k s q Eq), Hw.
Qed.

(** ** Message streams *)

Definition handle_all (w : OrderingKeysWorker) (l : list (Z * Message)) : OrderingKeysWorker :=
  foldl (fun w '(now, m) => fst (handleMessage now m "c" w)) w l.

(** The delivery a message puts to the check: none for a message that is not
    the harness's or that the tracker has seen. *)
Definition checked (m : Message) (w : OrderingKeysWorker) : list delivery :=
  let meta := extractMeta (pm_Attributes m) in
  if m_ok meta && negb (fst (snd (Record_ (bw_trk (base w)) (m_producer meta) (m_seq meta))))
  then [(m_producer meta, pm_OrderingKey m, attr (pm_Attributes m) AttrOrderingSeq)] else [].

Fixpoint checked_deliveries (w : OrderingKeysWorker) (l : list (Z * Message)) : list delivery :=
  match l with
  | [] => []
  | (now, m) :: l' => checked m w ++ checked_deliveries (fst (handleMessage now m "c" w)) l'
  end.

(** A message of a producer without a [|] in its name. *)
Definition plain_producer (m : Message) : Prop := no_bar (m_producer (extractMeta (pm_Attributes m))) = true.

(** Where a handled message leaves the marks and the violation counter. *)
Lemma handleMessage_step before now m c w :
  high_water before (ok_perKey w) -> plain_producer m ->
  let w' := fst (handleMessage now m c w) in
  high_water (before ++ checked m w) (ok_perKey w') /\
  u64 (bw_cnt (base w) C_orderingViolations + violations before (checked m w)) =
    u64 (bw_cnt (base w') C_orderingViolations).
Proof.
  intros Hm Hp. cbv zeta. unfold handleMessage, checked, plain_producer in *. cbn [fst].
  set (meta := extractMeta (pm_Attributes m)) in *.
  set (w1 := with_base (recordReceived (data_len m) c) w).
  assert (bw_cnt (base w1) C_orderingViolations = bw_cnt (base w) C_orderingViolations) as E1
    by (unfold w1; rewrite base_with_base; by apply keeps_received).
  match goal with |- context [with_base recordAcked ?v] => set (wv := v) end.
  change (ok_perKey (with_base recordAcked wv)) with (ok_perKey wv).
  rewrite (base_with_base recordAcked wv), (keeps_acked C_orderingViolations) by done. subst wv.
  destruct (m_ok meta); cbn [andb].
  2: { rewrite app_nil_r. cbn [violations]. by rewrite Z.add_0_r, E1. }
  set (w2 := with_base (check_integrity now (pm_Data m) meta) w1).
  assert (bw_cnt (base w2) C_orderingViolations = bw_cnt (base w) C_orderingViolations) as E2
    by (unfold w2; rewrite base_with_base, keeps_integrity by done; exact E1).
  assert (bw_trk (base w2) = bw_trk (base w)) as Et by (unfold w2, w1; rewrite base_with_base, integrity_trk; done).
  pose proof (keeps_tracked C_orderingViolations (m_producer meta) (m_seq meta) ltac:(done) (base w2)) as E3.
  unfold recordTracked in *. rewrite Et in *.
  destruct (Record_ (bw_trk (base w)) (m_producer meta) (m_seq meta)) as [t [dup oo]]. cbn [fst snd] in *.
  match type of E3 with bw_cnt ?x _ = _ => set (b := x) in * end.
  set (w3 := with_base (fun _ => b) w2).
  assert (bw_cnt (base w3) C_orderingViolations = bw_cnt (base w) C_orderingViolations) as E4
    by (unfold w3; rewrite base_with_base, E3; exact E2).
  assert (ok_perKey w3 = ok_perKey w) as Ek by done.
  destruct dup; cbn [negb].
  { rewrite app_nil_r. cbn [violations]. rewrite Z.add_0_r, E4. split; [by rewrite <- Ek in Hm|done]. }
  rewrite <- Ek in Hm.
  destruct (checkOrdering_step before w3 (m_producer meta) (pm_OrderingKey m)
    (attr (pm_Attributes m) AttrOrderingSeq) Hm Hp) as [H1 H2].
  split; [exact H1|]. rewrite H2, E4. cbn [violations]. destruct (regresses _ _); [|by rewrite Z.add_0_r].
  unfold uadd, u64. by rewrite Zmod_mod.
Qed.

Lemma violations_app before l1 l2 : violations before (l1 ++ l2) = violations before l1 + violations (before ++ l1) l2.
Proof.
  revert before. induction l1 as [|d l1 IH]; intros before; simpl; [by rewrite app_nil_r|].
  rewrite IH, <- app_assoc. simpl. lia.
Qed.

Lemma handle_all_violations before w l :
  high_water before (ok_perKey w) -> Forall (fun e => plain_producer (snd e)) l ->
  u64 (bw_cnt (base (handle_all w l)) C_orderingViolations) =
  u64 (bw_cnt (base w) C_orderingViolations + violations before (checked_deliveries w l)).
Proof.
  intros Hm Hl. revert before w Hm. induction Hl as [|[now m] l Hp Hl IH]; intros before w Hm; cbn [checked_deliveries].
  { cbn [violations]. by rewrite Z.add_0_r. }
  destruct (handleMessage_step before now m "c" w Hm Hp) as [H1 H2].
  unfold handle_all. cbn [foldl]. fold (handle_all (fst (handleMessage now m "c" w)) l).
  rewrite (IH _ _ H1), violations_app, Z.add_assoc.
  unfold u64 in *. rewrite <- Zplus_mod_idemp_l, <- H2, Zplus_mod_idemp_l. done.
Qed.

(** C26 (functional).  From the moment the high-water map is empty (a new
    worker, or when the warm-up reset has cleared it), the violation counter
    grows by exactly the number of checked deliveries that arrive below an
    earlier delivery of the same producer and ordering key (modulo 2^64),
    whatever the interleaving of keys and producers; duplicates and messages
    without a key are not checked.  Deliveries are handled one after the other,
    and no producer has a bar in its name, which would let two of them share
    an entry of the map. *)
Theorem ordering_violations_exact w l :
  ok_perKey w = ∅ -> Forall (fun e => plain_producer (snd e)) l ->
  u64 (bw_cnt (base (handle_all w l)) C_orderingViolations) =
  u64 (bw_cnt (base w) C_orderingViolations + violations [] (checked_deliveries w l)).
Proof.
  intros He Hl. apply handle_all_violations; [|done]. intros p k _. by rewrite He, lookup_empty.
Qed.

(** A message of producer [p] with its key and both sequences. *)
Definition keyed_message (p k seq oseq : string) : Message :=
  mkMsg [] (<[AttrWorkerID := p]> (<[AttrSequence := seq]> {[ AttrOrderingSeq := oseq ]})) k "".

Lemma ordering_violations_exact_witness :
  exists w, NewOrderingKeysWorker (fun _ => "") DefaultConfig 1 = Some w /\
    let l := [(0, keyed_message "p" "k" "1" "7"); (0, keyed_message "q" "k" "1" "3"); (0, keyed_message "p" "k" "2" "5")] in
    violations [] (checked_deliveries (w_reset w) l) = 1 /\
    u64 (bw_cnt (base (handle_all (w_reset w) l)) C_orderingViolations) =
    u64 (bw_cnt (base (w_reset w)) C_orderingViolations + violations [] (checked_deliveries (w_reset w) l)).
Proof.
  eexists. split; [reflexivity|]. split; [vm_compute; reflexivity|].
  apply ordering_violations_exact; [reflexivity|]. repeat constructor.
Defined.

(** ** A producer that restarts its key sequences *)

(** What a fresh producer goroutine publishes, one outcome per iteration. *)
Fixpoint produce_all (envs : list publish_env) (w : OrderingKeysWorker) (p : producer) : list Message * OrderingKeysWorker :=
  match envs with
  | [] => ([], w)
  | env :: envs' =>
      match produce_once 0 env w p with
      | Some (m, Continue, w, p) => let '(ms, w) := produce_all envs' w p in (m :: ms, w)
      | _ => ([], w)
      end
  end.

Definition ok_env : publish_env := mkEnv 0 (fun _ => 0) 0 (inl "1") false 0 0.

(** Two rounds of every key in the warm-up, one after it. *)
Definition warmup_then_measure (w : OrderingKeysWorker) : Z :=
  let '(warm, w) := produce_all (replicate 16 ok_env) w new_producer in
  let early := take 8 warm in
  let late := drop 8 warm in
  let w := handle_all w ((fun m => (0, m)) <$> early) in
  let w := w_reset w in
  let '(measured, w) := produce_all (replicate 8 ok_env) w new_producer in
  bw_cnt (base (handle_all w ((fun m => (0, m)) <$> (late ++ measured)))) C_orderingViolations.

(** The reset of the high-water map does not isolate the
    measurement from warm-up: producers restart their per-key sequences at 1, so
    when the second half of the warm-up messages is delivered just after the
    reset, every later message is counted as a violation although each key's
    deliveries arrive in the order they were published and none is lost. *)
Theorem restarted_keys_false_violations :
  exists w, NewOrderingKeysWorker (fun _ => "") DefaultConfig 1 = Some w /\ warmup_then_measure w = 8.
Proof. eexists. split; [reflexivity|]. vm_compute. reflexivity. Qed.
