(* ===== verification/Interop.v ===== *)
(** * burnin/worker: cross_protocol_interop

    Pub/Sub publishes reconciled against a native Events Store subscription:
    the ids published with their time, the ids the native side consumed, and the
    convergence accounting when the consumers are stopped. *)
From S2P Require Import Prelude GoFloat GoFmt Config Payload Tracker Metrics Transport Worker Handlers.

Definition interopConvergenceBudget : Z := 10 * Second.

Record InteropWorker := mkInterop {
  iw_base : BaseWorker;
  iw_topicID : string;
  iw_channel : string;
  iw_seq : Z;
  iw_published : gmap string Z;     (* id to publish time *)
  iw_consumed : gset string
}.

#[global] Instance interop_has_base : HasBase InteropWorker.
Proof.
  refine {| base := iw_base;
            with_base := fun f w => mkInterop (f (iw_base w)) (iw_topicID w) (iw_channel w) (iw_seq w)
                                      (iw_published w) (iw_consumed w) |}.
  done.
Defined.

Definition NewCrossProtocolInteropWorker (Getenv : string -> string) (cfg : Config) (idx : Z) : option InteropWorker :=
  let topicID := TopicName (resourcePrefix Getenv) WorkerCrossProtocol idx in
  b ← NewBaseWorker Getenv WorkerCrossProtocol (MappedTopicChannel topicID) idx cfg;
  Some (mkInterop b topicID (MappedTopicChannel topicID) 0 ∅ ∅).

(** [onNativeEvent], of an event with a body and tags. *)
Definition onNativeEvent (now : Z) (body : list Z) (tags : attrs) (w : InteropWorker) : InteropWorker :=
  let w := with_base (recordReceived (Z.of_nat (length body)) ("c-native-" +:+ bw_channelName (base w))) w in
  let meta := extractMeta tags in
  if negb (m_ok meta) then w
  else
    let w := with_base (check_integrity now body meta) w in
    let w := with_base (fun b => fst (recordTracked (m_producer meta) (m_seq meta) b)) w in
    let id := message_id (m_producer meta) (m_seq meta) in
    if bool_decide (id ∈ iw_consumed w) then w
    else with_base recordInteropConverged
           (mkInterop (iw_base w) (iw_topicID w) (iw_channel w) (iw_seq w) (iw_published w)
              ({[ id ]} ∪ iw_consumed w)).

(** The error callback of the native subscription. *)
Definition onNativeError (ctxDone : bool) (w : InteropWorker) : InteropWorker :=
  if ctxDone then w else with_base (recordError "interop_failure") w.

(** One iteration of [produceLoop]. *)
Definition produce_once (producerIdx : Z) (env : publish_env) (w : InteropWorker)
  : option (Message * loop_ctl * InteropWorker) :=
  let producerID := producer_id (base w) producerIdx in
  let seq := iw_seq w +u 1 in
  let w := mkInterop (iw_base w) (iw_topicID w) (iw_channel w) seq (iw_published w) (iw_consumed w) in
  m ← build_message producerID seq env (base w);
  let w := if published_ok env
           then mkInterop (iw_base w) (iw_topicID w) (iw_channel w) seq
                  (<[message_id producerID seq := pe_after env]> (iw_published w)) (iw_consumed w)
           else w in
  let '(ctl, b) := publish_outcome producerID (data_len m) env (base w) in
  Some (m, ctl, with_base (fun _ => b) w).

Definition w_reset (w : InteropWorker) : InteropWorker :=
  let w := with_base ResetAfterWarmup w in
  mkInterop (iw_base w) (iw_topicID w) (iw_channel w) (iw_seq w) ∅ ∅.

(** The ids charged at time [now]: published, not consumed, older than the
    budget. *)
Definition diverged_ids (now : Z) (w : InteropWorker) : gmap string Z :=
  filter (fun '(id, pubTime) => id ∉ iw_consumed w /\ interopConvergenceBudget < time_Sub now pubTime)
    (iw_published w).

Definition reconcileConvergence (now : Z) (w : InteropWorker) : InteropWorker :=
  let diverged := u64 (Z.of_nat (size (diverged_ids now w))) in
  if 0 <? diverged then with_base (recordInteropDiverged diverged) w else w.

(** Beyond the reconciliation, [StopConsumers] cancels the subscription and
    closes the clients, which leaves the worker's counters alone. *)
Definition StopConsumers (now : Z) (w : InteropWorker) : InteropWorker := reconcileConvergence now w.

(** ** Accounting *)

(** What the goroutines of a run do to the worker before it is stopped. *)
Inductive activity :=
| ANative (now : Z) (body : list Z) (tags : attrs)
| ANativeError (ctxDone : bool)
| APublish (producerIdx : Z) (env : publish_env).

(** A publish whose size selection panics ends the process: the worker is as
    before. *)
Definition act (w : InteropWorker) (a : activity) : InteropWorker :=
  match a with
  | ANative now body tags => onNativeEvent now body tags w
  | ANativeError d => onNativeError d w
  | APublish i env => match produce_once i env w with Some (_, _, w') => w' | None => w end
  end.
Definition run (w : InteropWorker) (l : list activity) : InteropWorker := foldl act w l.

Definition accounted (w : InteropWorker) : Prop :=
  bw_cnt (base w) C_interopConverged = u64 (Z.of_nat (size (iw_consumed w))) /\
  bw_cnt (base w) C_interopDiverged = 0.

Lemma onNativeEvent_accounted now body tags w : accounted w -> accounted (onNativeEvent now body tags w).
Proof.
  intros [H1 H2]. unfold onNativeEvent, accounted.
  set (w1 := with_base (recordReceived _ _) w). set (meta := extractMeta tags).
  assert (forall c, c <> C_received -> bw_cnt (base w1) c = bw_cnt (base w) c) as E1
    by (intros c Hc; unfold w1; rewrite base_with_base; by apply keeps_received).
  destruct (m_ok meta); cbn [negb]; [|rewrite !E1 by done; done].
  set (w2 := with_base (fun b => fst (recordTracked (m_producer meta) (m_seq meta) b))
              (with_base (check_integrity now body meta) w1)).
  assert (forall c, c <> C_received -> c <> C_corrupted -> c <> C_duplicated ->
    bw_cnt (base w2) c = bw_cnt (base w) c) as E2.
  { intros c Hr Hc Hd. unfold w2. rewrite !base_with_base.
    rewrite (keeps_tracked c) by done. rewrite keeps_integrity by done. by apply E1. }
  assert (iw_consumed w2 = iw_consumed w) as Ec by done.
  case_bool_decide as Hin; [rewrite !E2 by done; by rewrite Ec|].
  cbn [with_base base interop_has_base iw_base iw_consumed].
  unfold recordInteropConverged. rewrite !cnt_emit, !cnt_add_counter. cbn [decide].
  destruct (decide (C_interopConverged = C_interopConverged)) as [_|]; [|done].
  destruct (decide (C_interopDiverged = C_interopConverged)) as [|_]; [done|].
  change (iw_base w2) with (base w2). rewrite !E2 by done. rewrite H2. split; [|done].
  rewrite Ec in *. rewrite H1. rewrite size_union by set_solver. rewrite size_singleton, Nat2Z.inj_add.
  unfold uadd, u64. rewrite Zplus_mod_idemp_l. f_equal. lia.
Qed.

Lemma interop_act_accounted w a : accounted w -> accounted (act w a).
Proof.
  intros H. destruct a as [now body tags|d|i env]; cbn [act].
  - by apply onNativeEvent_accounted.
  - unfold onNativeError. destruct d; [done|]. unfold accounted in *. by rewrite !base_with_base, !keeps_error.
  - unfold produce_once. cbv zeta.
    match goal with |- context [build_message ?p ?s ?e ?b] => destruct (build_message p s e b) as [m|] end;
      [|exact H].
    cbn [mbind option_bind].
    match goal with |- context [publish_outcome ?p ?n ?e ?b] =>
      pose proof (fun c => keeps_outcome c p n e b) as E; destruct (publish_outcome p n e b) as [ctl b'] end.
    cbn [snd] in E. unfold accounted in *. rewrite base_with_base.
    rewrite !E by done. by destruct (published_ok env).
Qed.

Lemma interop_run_accounted w l : accounted w -> accounted (run w l).
Proof. revert w. induction l as [|a l IH]; intros w H; [done|]. cbn. apply IH, interop_act_accounted, H. Qed.

(** No activity charges a divergence. *)
Lemma act_diverged w a : bw_cnt (base (act w a)) C_interopDiverged = bw_cnt (base w) C_interopDiverged.
Proof.
  destruct a as [now body tags|d|i env]; cbn [act].
  - unfold onNativeEvent. set (w1 := with_base (recordReceived _ _) w). set (meta := extractMeta tags).
    assert (bw_cnt (base w1) C_interopDiverged = bw_cnt (base w) C_interopDiverged) as E1
      by (unfold w1; rewrite base_with_base; by apply keeps_received).
    destruct (m_ok meta); cbn [negb]; [|done].
    set (w2 := with_base (fun b => fst (recordTracked (m_producer meta) (m_seq meta) b))
                (with_base (check_integrity now body meta) w1)).
    assert (bw_cnt (base w2) C_interopDiverged = bw_cnt (base w) C_interopDiverged) as E2.
    { unfold w2. rewrite !base_with_base, (keeps_tracked C_interopDiverged), keeps_integrity by done. exact E1. }
    case_bool_decide; [exact E2|]. rewrite base_with_base. unfold recordInteropConverged.
    rewrite cnt_emit, cnt_add_counter. exact E2.
  - unfold onNativeError. destruct d; [done|]. by rewrite base_with_base, keeps_error.
  - unfold produce_once. cbv zeta.
    match goal with |- context [build_message ?p ?s ?e ?b] => destruct (build_message p s e b) as [m|] end; [|done].
    cbn [mbind option_bind].
    match goal with |- context [publish_outcome ?p ?n ?e ?b] =>
      pose proof (keeps_outcome C_interopDiverged p n e b) as E; destruct (publish_outcome p n e b) as [ctl b'] end.
    cbn [snd] in E. rewrite base_with_base, E by done. by destruct (published_ok env).
Qed.
Lemma run_diverged w l : bw_cnt (base (run w l)) C_interopDiverged = bw_cnt (base w) C_interopDiverged.
Proof. revert w. induction l as [|a l IH]; intros w; [done|]. cbn. by rewrite IH, act_diverged. Qed.

Lemma reset_accounted w : accounted (w_reset w).
Proof. split; done. Qed.

(** From the warm-up reset on, whatever the goroutines do:
    the converged counter is the number of distinct ids the native side consumed
    (modulo 2^64), no divergence is charged before the consumers are stopped, and
    stopping them charges exactly the ids published, never consumed and older
    than the convergence budget. *)
Theorem interop_convergence_accounting w l now :
  let w1 := run (w_reset w) l in
  let w2 := StopConsumers now w1 in
  bw_cnt (base w1) C_interopConverged = u64 (Z.of_nat (size (iw_consumed w1))) /\
  bw_cnt (base w1) C_interopDiverged = 0 /\
  bw_cnt (base w2) C_interopConverged = bw_cnt (base w1) C_interopConverged /\
  bw_cnt (base w2) C_interopDiverged = u64 (Z.of_nat (size (diverged_ids now w1))).
Proof.
  intros w1 w2. destruct (interop_run_accounted (w_reset w) l (reset_accounted w)) as [H1 H2]. fold w1 in H1, H2.
  split; [done|]. split; [done|]. unfold w2, StopConsumers, reconcileConvergence. cbv zeta.
  set (d := u64 (Z.of_nat (size (diverged_ids now w1)))).
  pose proof (u64_range (Z.of_nat (size (diverged_ids now w1)))) as Hd. fold d in Hd.
  case_if.
  - rewrite base_with_base. unfold recordInteropDiverged. rewrite !cnt_emit, !cnt_add_counter.
    destruct (decide (C_interopConverged = C_interopDiverged)) as [|_]; [done|].
    destruct (decide (C_interopDiverged = C_interopDiverged)) as [_|]; [|done].
    split; [done|]. rewrite H2. by apply u64_small.
  - split; [done|]. rewrite H2. range.
Qed.

#[global] Instance interop_worker : Worker InteropWorker.
Proof.
  refine {| w_ResetAfterWarmup := w_reset;
            w_DisconnectConsumers := with_base DisconnectConsumers;
            w_StopProducers := fun _ _ w => w;
            w_StopConsumers := StopConsumers |}; [done..|].
  intros now w. unfold StopConsumers, reconcileConvergence. by case_if.
Defined.
