(* ===== verification/DeadLetter.v ===== *)
(** * burnin/worker: dead_letter

    Poison messages are published to a source subscription that is pulled
    without acking; the connector moves them to a dead-letter subscription,
    which is drained and reconciled against what was published.  The opt-in
    retry-backoff probe times the redeliveries of one message. *)
From S2P Require Import Prelude GoFloat GoFmt Config ConfigProps Payload Tracker Metrics Transport Worker Handlers.

(** [deadLetterBudget]: every multiplication and addition is on [int64]. *)
Definition deadLetterBudget (cfg : Config) : Z :=
  let attempts := gcp_MaxDeliveryAttempts (c_GCP cfg) in
  let attempts := if attempts <? 5 then 5 else attempts in
  to_int (to_int (to_int (gcp_AckDeadlineSeconds (c_GCP cfg) * Second) * to_int (attempts + 2)) + 15 * Second).

Record DeadLetterWorker := mkDL {
  dl_base : BaseWorker;
  dl_srcTopicID : string;
  dl_dltTopicID : string;
  dl_srcSubID : string;
  dl_dltSubID : string;
  dl_seq : Z;
  dl_published : gmap string Z;
  dl_republished : gset string;
  dl_probeTopicID : string;
  dl_probeSubID : string
}.

#[global] Instance dead_letter_has_base : HasBase DeadLetterWorker.
Proof.
  refine {| base := dl_base;
            with_base := fun f w => mkDL (f (dl_base w)) (dl_srcTopicID w) (dl_dltTopicID w) (dl_srcSubID w)
                                      (dl_dltSubID w) (dl_seq w) (dl_published w) (dl_republished w)
                                      (dl_probeTopicID w) (dl_probeSubID w) |}.
  done.
Defined.

Definition set_ledger (w : DeadLetterWorker) (seq : Z) (pub : gmap string Z) (rep : gset string) : DeadLetterWorker :=
  mkDL (dl_base w) (dl_srcTopicID w) (dl_dltTopicID w) (dl_srcSubID w) (dl_dltSubID w) seq pub rep
    (dl_probeTopicID w) (dl_probeSubID w).

Definition NewDeadLetterWorker (Getenv : string -> string) (cfg : Config) (idx : Z) : option DeadLetterWorker :=
  let prefix := resourcePrefix Getenv in
  let srcTopicID := TopicName prefix WorkerDeadLetter idx in
  let dltTopicID := DeadLetterTopicName prefix WorkerDeadLetter idx in
  let srcSubID := SubscriptionName prefix WorkerDeadLetter idx in
  let dltSubID := DeadLetterSubscriptionName prefix WorkerDeadLetter idx in
  b ← NewBaseWorker Getenv WorkerDeadLetter (MappedTopicChannel srcTopicID) idx cfg;
  Some (mkDL b srcTopicID dltTopicID srcSubID dltSubID 0 ∅ ∅ (srcTopicID +:+ "_rbprobe") (srcSubID +:+ "_rbprobe")).

(** The attempts [Start] asks the dead-letter policy for. *)
Definition max_attempts (cfg : Config) : Z :=
  let n := gcp_MaxDeliveryAttempts (c_GCP cfg) in if n <? 5 then 5 else n.

(** ** The source driver *)

(** What a round of [sourceDriveLoop] meets after the context test: the result
    of the pull (the delivery attempts of its messages), whether the context
    ended while it failed, and whether the sleep after an error or an empty
    response ran through. *)
Record pull_round := mkPull { pr_attempts : option (list Z); pr_done : bool; pr_slept : bool }.

Definition note_attempts (l : list Z) (b : BaseWorker) : BaseWorker :=
  foldl (fun b a => if 0 <? a then setDeliveryAttemptMax (u64 a) b else b) b l.

Definition source_round (r : pull_round) (w : DeadLetterWorker) : loop_ctl * DeadLetterWorker :=
  match pr_attempts r with
  | None =>
      if pr_done r then (Return, w)
      else (if pr_slept r then Continue else Return, with_base (recordError "receive_failure") w)
  | Some rms =>
      let w := with_base (note_attempts rms) w in
      match rms with
      | [] => (if pr_slept r then Continue else Return, w)
      | _ => (Continue, w)
      end
  end.

Fixpoint source_rounds (rs : list pull_round) (w : DeadLetterWorker) : DeadLetterWorker :=
  match rs with
  | [] => w
  | r :: rs' => match source_round r w with (Continue, w) => source_rounds rs' w | (Return, w) => w end
  end.
Definition sourceDriveLoop (rs : list pull_round) (w : DeadLetterWorker) : DeadLetterWorker :=
  source_rounds rs (with_base signalReady w).

(** ** The dead-letter consumer *)

Definition handleDLQMessage (now : Z) (m : Message) (w : DeadLetterWorker) : DeadLetterWorker * list ack_call :=
  let w := with_base (recordReceived (data_len m) ("c-dlq-" +:+ bw_channelName (base w))) w in
  let meta := extractMeta (pm_Attributes m) in
  let w :=
    if m_ok meta then
      let w := match m_sentAt meta with
               | Some t => with_base (recordLatency (time_Sub now t)) w
               | None => w
               end in
      let id := message_id (m_producer meta) (m_seq meta) in
      if bool_decide (id ∈ dl_republished w) then w
      else with_base recordDeadLetterRepublished
             (set_ledger w (dl_seq w) (dl_published w) ({[ id ]} ∪ dl_republished w))
    else w in
  (with_base recordAcked w, [CallAck]).

(** [dlqConsumeLoop]: the receive loop of the dead-letter subscription, which
    does not signal readiness. *)
Fixpoint dlq_sessions (first : bool) (ss : list (session (Z * Message))) (w : DeadLetterWorker) : DeadLetterWorker :=
  match ss with
  | [] => w
  | s :: ss' =>
      let w := if first then w else with_base recordReconnection w in
      let w := foldl (fun w '(now, m) => fst (handleDLQMessage now m w)) w (ses_messages s) in
      if ses_done s then w
      else if ses_error s then
        let w := with_base (recordError "receive_failure") w in
        if ses_slept s then dlq_sessions false ss' w else w
      else dlq_sessions false ss' w
  end.
Definition dlqConsumeLoop (ss : list (session (Z * Message))) (w : DeadLetterWorker) : DeadLetterWorker := dlq_sessions true ss w.

(** ** Producing and reconciling *)

Definition produce_once (producerIdx : Z) (env : publish_env) (w : DeadLetterWorker)
  : option (Message * loop_ctl * DeadLetterWorker) :=
  let producerID := producer_id (base w) producerIdx in
  let seq := dl_seq w +u 1 in
  let w := set_ledger w seq (dl_published w) (dl_republished w) in
  m ← build_message producerID seq env (base w);
  let w := if published_ok env
           then set_ledger w seq (<[message_id producerID seq := pe_after env]> (dl_published w)) (dl_republished w)
           else w in
  let '(ctl, b) := publish_outcome producerID (data_len m) env (base w) in
  Some (m, ctl, with_base (fun _ => b) w).

Definition w_reset (w : DeadLetterWorker) : DeadLetterWorker :=
  let w := with_base ResetAfterWarmup w in set_ledger w (dl_seq w) ∅ ∅.

Definition lost_ids (now : Z) (w : DeadLetterWorker) : gmap string Z :=
  filter (fun '(id, pubTime) => id ∉ dl_republished w /\ deadLetterBudget (bw_cfg (base w)) < time_Sub now pubTime)
    (dl_published w).

Definition reconcileDeadLetterLoss (now : Z) (w : DeadLetterWorker) : DeadLetterWorker :=
  let lost := u64 (Z.of_nat (size (lost_ids now w))) in
  if 0 <? lost then with_base (recordDeadLetterLost lost) w else w.

Definition StopConsumers (now : Z) (w : DeadLetterWorker) : DeadLetterWorker := reconcileDeadLetterLoss now w.

#[global] Instance dead_letter_worker : Worker DeadLetterWorker.
Proof.
  refine {| w_ResetAfterWarmup := w_reset;
            w_DisconnectConsumers := with_base DisconnectConsumers;
            w_StopProducers := fun _ _ w => w;
            w_StopConsumers := StopConsumers |}; [done..|].
  intros now w. unfold StopConsumers, reconcileDeadLetterLoss. by case_if.
Defined.

(** ** The retry-backoff probe *)

(** [gaps[i] >= gaps[i-1]*3/2], on [int64]. *)
Fixpoint growing_from (prev : Z) (gaps : list Z) : bool :=
  match gaps with
  | [] => false
  | g :: gaps' => if Z.quot (to_int (prev * 3)) 2 <=? g then true else growing_from g gaps'
  end.
Definition growingGaps (gaps : list Z) : bool :=
  match gaps with
  | g0 :: g1 :: gaps' => growing_from g0 (g1 :: gaps')
  | _ => false
  end.

(** What the observation keeps: the time the message was last visible, the last
    boundary, the gaps between boundaries, and whether it is visible. *)
Record probe_state := mkProbe {
  pb_lastSeen : option Z; pb_lastBoundary : option Z; pb_gaps : list Z; pb_visible : bool
}.
Definition probe_init : probe_state := mkProbe None None [] false.

(** One poll at time [now] that returned the message or not. *)
Definition observe (now : Z) (got : bool) (s : probe_state) : probe_state :=
  if got then
    let gaps := if pb_visible s then pb_gaps s
                else match pb_lastBoundary s with
                     | Some b => pb_gaps s ++ [time_Sub now b]
                     | None => pb_gaps s
                     end in
    mkProbe (Some now) (if pb_visible s then pb_lastBoundary s else Some now) gaps true
  else if pb_visible s && match pb_lastSeen s with Some t => 1500 * Millisecond <? time_Sub now t | None => false end
  then mkProbe (pb_lastSeen s) (pb_lastBoundary s) (pb_gaps s) false
  else s.

(** What a round of the loop meets: the clock at the deadline test, whether the
    context has ended there, the pull (the time after it and whether it returned
    the message; [None] when it failed), whether the context ended while it
    failed, and whether the sleep ran through. *)
Record probe_round := mkRound {
  rd_clock : Z; rd_done : bool; rd_pull : option (Z * bool); rd_failDone : bool; rd_slept : bool
}.
Definition probe_window : Z := 90 * Second.

Fixpoint probe_loop (deadline : Z) (rs : list probe_round) (s : probe_state) (b : BaseWorker) : BaseWorker :=
  match rs with
  | [] => b
  | r :: rs' =>
      if deadline <=? rd_clock r then b
      else if rd_done r then b
      else match rd_pull r with
      | None => if rd_failDone r then b else if rd_slept r then probe_loop deadline rs' s b else b
      | Some (now, got) =>
          let s := observe now got s in
          if growingGaps (pb_gaps s) then recordRetryBackoffObserved b
          else if rd_slept r then probe_loop deadline rs' s b else b
      end
  end.

(** The probe after its topic, its subscription and its message are in place;
    [start] is the clock when the window opens.  A failure before that returns
    without touching the worker. *)
Definition retryBackoffProbe (start : Z) (rs : list probe_round) (w : DeadLetterWorker) : DeadLetterWorker :=
  with_base (probe_loop (start + probe_window) rs probe_init) w.

(** The probe from its publish on: one message of its own producer, outside the
    loss accounting; when the publish fails there is no observation.  The pulls
    go to [probePath]. *)
Definition probePath (w : DeadLetterWorker) : string :=
  Sprintf "projects/%s/subscriptions/%s" [AStr (ps_ProjectID (bw_psCfg (base w))); AStr (dl_probeSubID w)].
Definition probe_publish (env : publish_env) (start : Z) (rs : list probe_round) (w : DeadLetterWorker)
  : option (Message * DeadLetterWorker) :=
  m ← build_message ("p-rbprobe-" +:+ bw_channelName (base w)) 0 env (base w);
  Some (m, if published_ok env then retryBackoffProbe start rs w else w).

(** ** Accounting *)

(** What the goroutines of a run do to the worker before it is stopped. *)
Inductive activity :=
| ADlq (now : Z) (m : Message)
| ASource (r : pull_round)
| APublish (producerIdx : Z) (env : publish_env).

Definition act (w : DeadLetterWorker) (a : activity) : DeadLetterWorker :=
  match a with
  | ADlq now m => fst (handleDLQMessage now m w)
  | ASource r => snd (source_round r w)
  | APublish i env => match produce_once i env w with Some (_, _, w') => w' | None => w end
  end.
Definition run (w : DeadLetterWorker) (l : list activity) : DeadLetterWorker := foldl act w l.

(** *** The specification

    Read off the history of what happened, not off the worker's maps. *)

(** The poison messages, by producer and sequence, that arrived on the
    dead-letter subscription. *)
Definition surfaced (l : list activity) : list (string * Z) :=
  omap (fun a => match a with
                 | ADlq _ m => let meta := extractMeta (pm_Attributes m) in
                               if m_ok meta then Some (m_producer meta, m_seq meta) else None
                 | _ => None
                 end) l.

(** The attempts to publish, each with the next number, and of these the ones
    the connector accepted, with the time. *)
Definition attempted (l : list activity) : list (Z * publish_env) :=
  omap (fun a => match a with APublish i env => Some (i, env) | _ => None end) l.
Definition accepted_at (b : BaseWorker) (seq : Z) (k : nat) (e : Z * publish_env) : list (string * Z * Z) :=
  if published_ok (snd e) then [(producer_id b (fst e), seq + Z.of_nat k + 1, pe_after (snd e))] else [].
Definition publications (b : BaseWorker) (seq : Z) (l : list activity) : list (string * Z * Z) :=
  mjoin (imap (accepted_at b seq) (attempted l)).

(** Time a message has to reach the dead-letter subscription. *)
Definition budget (cfg : Config) : Z :=
  (gcp_AckDeadlineSeconds (c_GCP cfg) * (Z.max 5 (gcp_MaxDeliveryAttempts (c_GCP cfg)) + 2) + 15) * Second.

Definition never_surfaced (b : BaseWorker) (seq now : Z) (l : list activity) : list (string * Z * Z) :=
  filter (fun '(p, s, t) => (p, s) ∉ surfaced l /\ budget (bw_cfg b) < now - t) (publications b seq l).

(** *** What no activity changes *)

Definition same_setup (b b' : BaseWorker) : Prop :=
  bw_cfg b' = bw_cfg b /\ bw_channelName b' = bw_channelName b /\ bw_sizeDistrib b' = bw_sizeDistrib b.

Lemma same_setup_size b b' r : same_setup b b' -> selectMessageSize b' r = selectMessageSize b r.
Proof. intros (E1 & _ & E3). unfold selectMessageSize. by rewrite E1, E3. Qed.

Lemma note_attempts_setup l b : same_setup b (note_attempts l b).
Proof.
  unfold same_setup. revert b. induction l as [|a l IH]; intros b; [done|]. unfold note_attempts in *. cbn [foldl].
  destruct (IH (if 0 <? a then setDeliveryAttemptMax (u64 a) b else b)) as (-> & -> & ->).
  case_if; [|done]. unfold setDeliveryAttemptMax. by case_if.
Qed.
Lemma note_attempts_keeps c l b : c <> C_deliveryAttemptMax -> bw_cnt (note_attempts l b) c = bw_cnt b c.
Proof.
  intros Hc. revert b. induction l as [|a l IH]; intros b; [done|].
  unfold note_attempts in *. cbn [foldl]. rewrite IH. destruct (0 <? a); [|done]. unfold setDeliveryAttemptMax.
  case_if; [done|]. simpl. by destruct (decide (c = C_deliveryAttemptMax)).
Qed.

#[local] Arguments message_id : simpl never.

(** *** The ledger against the history *)

(** The ledger of [w] is the history [l] since it was that of [w0], empty. *)
Record ledger (w0 : DeadLetterWorker) (l : list activity) (w : DeadLetterWorker) : Prop := {
  lg_setup : same_setup (base w0) (base w);
  lg_seq : dl_seq w = dl_seq w0 + Z.of_nat (length (attempted l));
  lg_published : dl_published w =
    list_to_map ((fun '(p, s, t) => (message_id p s, t)) <$> publications (base w0) (dl_seq w0) l);
  lg_republished : dl_republished w = list_to_set ((fun e => message_id e.1 e.2) <$> surfaced l);
  lg_count : bw_cnt (base w) C_deadLetterRepublished =
    u64 (bw_cnt (base w0) C_deadLetterRepublished + Z.of_nat (size (list_to_set (surfaced l) : gset (string * Z))));
  lg_lost : bw_cnt (base w) C_deadLetterLost = bw_cnt (base w0) C_deadLetterLost
}.

Lemma publications_bounds b seq l e :
  e ∈ publications b seq l -> seq < e.1.2 <= seq + Z.of_nat (length (attempted l)).
Proof.
  unfold publications. rewrite list_elem_of_join. intros (es & H & He). apply elem_of_lookup_imap in He as (k & x & -> & Hk).
  apply lookup_lt_Some in Hk. unfold accepted_at in H. destruct (published_ok x.2); [|by apply elem_of_nil in H].
  apply list_elem_of_singleton in H as ->. cbn. lia.
Qed.

Lemma publications_snoc b seq l a :
  publications b seq (l ++ [a]) =
  publications b seq l ++ match a with APublish i env => accepted_at b seq (length (attempted l)) (i, env) | _ => [] end.
Proof.
  unfold publications, attempted. rewrite omap_app. destruct a; cbn [omap list_omap]; rewrite ?app_nil_r; try done.
  rewrite imap_app, !list_join_bind, bind_app. cbn. by rewrite app_nil_r, Nat.add_0_r.
Qed.

(** Numbers are used once, so ids are. *)
Lemma publications_nodup b seq l :
  0 <= seq -> seq + Z.of_nat (length (attempted l)) < two64 ->
  NoDup (((fun '(p, s, t) => (message_id p s, t)) <$> publications b seq l).*1).
Proof.
  intros H0. induction l as [|a l IH] using rev_ind; intros Hb; [constructor|].
  assert (length (attempted l) <= length (attempted (l ++ [a])))%nat as Hle
    by (unfold attempted; rewrite omap_app, length_app; lia).
  rewrite publications_snoc, !fmap_app. apply NoDup_app. split; [apply IH; lia|].
  destruct a as [| |i env]; cbn; try (split; [intros ??; apply not_elem_of_nil|constructor]).
  unfold accepted_at. cbn [fst snd]. destruct (published_ok env);
    [|split; [intros ??; apply not_elem_of_nil|constructor]]. cbn [fmap list_fmap].
  split; [|apply NoDup_singleton]. intros x Hx ->%list_elem_of_singleton.
  apply list_elem_of_fmap in Hx as (y & Ey & ([[p s] t] & -> & He)%list_elem_of_fmap).
  pose proof (publications_bounds _ _ _ _ He) as Hs. cbn in Hs, Ey.
  unfold attempted in Hb. rewrite omap_app, length_app in Hb. cbn in Hb. fold (attempted l) in Hb.
  apply message_id_inj in Ey as [_ Ey]; [lia|range..].
Qed.

(** *** Each activity keeps the ledger *)

(** What a message on the dead-letter subscription changes. *)
Lemma dlq_effect now m w :
  let meta := extractMeta (pm_Attributes m) in
  let id := message_id (m_producer meta) (m_seq meta) in
  let w' := fst (handleDLQMessage now m w) in
  same_setup (base w) (base w') /\ dl_seq w' = dl_seq w /\ dl_published w' = dl_published w /\
  bw_cnt (base w') C_deadLetterLost = bw_cnt (base w) C_deadLetterLost /\
  dl_republished w' = (if m_ok meta then {[ id ]} ∪ dl_republished w else dl_republished w) /\
  bw_cnt (base w') C_deadLetterRepublished =
    (if m_ok meta && negb (bool_decide (id ∈ dl_republished w)) then bw_cnt (base w) C_deadLetterRepublished +u 1
     else bw_cnt (base w) C_deadLetterRepublished).
Proof.
  cbv zeta. unfold handleDLQMessage. cbv zeta. set (meta := extractMeta (pm_Attributes m)).
  destruct (m_ok meta); cbn [andb fst]; [|done]. set (id := message_id _ _).
  destruct (m_sentAt meta); case_bool_decide as Hin; cbn [negb]; cbn in Hin; split_and!;
    first [done | cbn; rewrite ?bool_decide_true, ?bool_decide_false by done; done | cbn; set_solver].
Qed.

Section step.
Context (w0 : DeadLetterWorker) (H0 : 0 <= dl_seq w0).
Notation grown l a := (dl_seq w0 + Z.of_nat (length (attempted (l ++ [a]))) < two64).

Lemma surfaced_snoc l a : surfaced (l ++ [a]) = surfaced l ++ surfaced [a].
Proof. apply omap_app. Qed.
Lemma attempted_snoc l a : attempted (l ++ [a]) = attempted l ++ attempted [a].
Proof. apply omap_app. Qed.

(** An activity that touches neither the ledger nor its counters. *)
Lemma ledger_frame l a w w' :
  ledger w0 l w -> surfaced [a] = [] -> attempted [a] = [] ->
  same_setup (base w) (base w') -> dl_seq w' = dl_seq w -> dl_published w' = dl_published w ->
  dl_republished w' = dl_republished w ->
  bw_cnt (base w') C_deadLetterRepublished = bw_cnt (base w) C_deadLetterRepublished ->
  bw_cnt (base w') C_deadLetterLost = bw_cnt (base w) C_deadLetterLost -> ledger w0 (l ++ [a]) w'.
Proof.
  intros [(S1 & S2 & S3) L2 L3 L4 L5 L6] Hs Ha (T1 & T2 & T3) E1 E2 E3 E4 E5.
  split; rewrite ?surfaced_snoc, ?attempted_snoc, ?Hs, ?Ha, ?app_nil_r, ?E1, ?E2, ?E3, ?E4, ?E5; try done.
  - split_and!; congruence.
  - rewrite L3, publications_snoc. by destruct a; [rewrite app_nil_r..|].
Qed.

Lemma surfaced_range l e : e ∈ surfaced l -> is_u64 e.2.
Proof.
  unfold surfaced. intros (a & _ & H)%list_elem_of_omap. destruct a as [now m| |]; try done. cbv zeta in H.
  destruct (m_ok _); [|done]. injection H as <-. apply meta_seq_range.
Qed.

Lemma surfaced_ids l p s :
  is_u64 s -> message_id p s ∈ (list_to_set ((fun e : string * Z => message_id e.1 e.2) <$> surfaced l) : gset string) <->
  (p, s) ∈ surfaced l.
Proof.
  intros Hs. rewrite elem_of_list_to_set, list_elem_of_fmap. split.
  - intros ([q t] & E & H). pose proof (surfaced_range _ _ H). apply message_id_inj in E as [-> ->]; done.
  - intros H. by exists (p, s).
Qed.

Lemma surfaced_one now m :
  let meta := extractMeta (pm_Attributes m) in
  surfaced [ADlq now m] = if m_ok meta then [(m_producer meta, m_seq meta)] else [].
Proof. unfold surfaced. cbn [omap list_omap]. cbv zeta. by destruct (m_ok _). Qed.

Lemma ledger_dlq l now m w : ledger w0 l w -> ledger w0 (l ++ [ADlq now m]) (act w (ADlq now m)).
Proof.
  intros L. pose proof L as [(S1 & S2 & S3) L2 L3 L4 L5 L6].
  destruct (dlq_effect now m w) as (T & E1 & E2 & E3 & E4 & E5). cbn [act].
  destruct (m_ok (extractMeta (pm_Attributes m))) eqn:Hok; cbn [andb] in *.
  2: { apply (ledger_frame l _ w); try done. by rewrite surfaced_one, Hok. }
  set (p := m_producer (extractMeta (pm_Attributes m))) in *. set (s := m_seq (extractMeta (pm_Attributes m))) in *.
  assert (is_u64 s) as Hs by apply meta_seq_range.
  assert (surfaced [ADlq now m] = [(p, s)]) as Hsf by (by rewrite surfaced_one, Hok).
  destruct T as (T1 & T2 & T3). split.
  - split_and!; congruence.
  - rewrite E1, L2, attempted_snoc. cbn. by rewrite app_nil_r.
  - by rewrite E2, L3, publications_snoc, app_nil_r.
  - rewrite E4, L4, surfaced_snoc, Hsf, fmap_app, list_to_set_app_L. cbn [fmap list_fmap list_to_set]. by rewrite union_empty_r_L, union_comm_L.
  - rewrite E5, L5, L4, surfaced_snoc, Hsf. clear E5. rewrite (bool_decide_ext _ _ (surfaced_ids l p s Hs)), list_to_set_app_L.
    case_bool_decide as Hin; cbn [negb].
    + replace (list_to_set (surfaced l) ∪ list_to_set [(p, s)] : gset (string * Z)) with (list_to_set (surfaced l) : gset (string * Z));
        [done|]. clear -Hin. set_solver.
    + rewrite size_union by (clear -Hin; set_solver). cbn [list_to_set]. rewrite union_empty_r_L, size_singleton, Nat2Z.inj_add.
      unfold uadd, u64. rewrite Zplus_mod_idemp_l. f_equal. lia.
  - congruence.
Qed.

Lemma ledger_source l r w : ledger w0 l w -> ledger w0 (l ++ [ASource r]) (act w (ASource r)).
Proof.
  intros L. cbn [act]. unfold source_round. destruct (pr_attempts r) as [rms|].
  - assert (ledger w0 (l ++ [ASource r]) (with_base (note_attempts rms) w)) as H
      by (apply (ledger_frame l _ w); rewrite ?base_with_base, ?note_attempts_keeps by done; try done; apply note_attempts_setup).
    by destruct rms.
  - destruct (pr_done r); apply (ledger_frame l _ w); done.
Qed.

Lemma ledger_publish l i env w :
  ledger w0 l w -> is_Some (selectMessageSize (base w0) (pe_size env)) -> grown l (APublish i env) ->
  ledger w0 (l ++ [APublish i env]) (act w (APublish i env)).
Proof.
  intros L [sz Hsz] Hg. pose proof L as [HS L2 L3 L4 L5 L6]. pose proof HS as (S1 & S2 & S3).
  rewrite attempted_snoc, length_app in Hg. cbn in Hg.
  assert (dl_seq w +u 1 = dl_seq w0 + Z.of_nat (length (attempted l)) + 1) as Hseq by (rewrite L2; unwrap; lia).
  assert (producer_id (base w) i = producer_id (base w0) i) as Hp by (unfold producer_id; by rewrite S2).
  cbn [act]. unfold produce_once, build_message. cbv zeta. change (base (set_ledger w ?a ?b ?c)) with (base w).
  rewrite (same_setup_size _ _ _ HS), Hsz. cbn [mbind option_bind]. destruct (Build _ _) as [body crc]. cbn [mbind option_bind].
  rewrite Hseq, Hp. unfold publish_outcome, PublishMessageSync. unfold published_ok.
  assert (surfaced [APublish i env] = []) as Hsf by done.
  destruct (pe_result env) as [mid|err] eqn:Er.
  - split; rewrite ?surfaced_snoc, ?Hsf, ?app_nil_r; try done.
    + rewrite attempted_snoc, length_app. cbn. lia.
    + rewrite publications_snoc, fmap_app. unfold accepted_at. cbn [fst snd]. unfold published_ok. rewrite Er.
      cbn [fmap list_fmap]. rewrite list_to_map_snoc; [by rewrite <- L3|].
      pose proof (publications_nodup (base w0) (dl_seq w0) (l ++ [APublish i env]) H0) as Hn.
      rewrite attempted_snoc, length_app in Hn. specialize (Hn ltac:(cbn; lia)).
      rewrite publications_snoc, !fmap_app in Hn. unfold accepted_at in Hn. cbn [fst snd] in Hn. unfold published_ok in Hn.
      rewrite Er in Hn. apply NoDup_app in Hn as (_ & Hn & _). intros Hin. by apply (Hn _ Hin), list_elem_of_singleton.
  - destruct (pe_done env); split; rewrite ?surfaced_snoc, ?Hsf, ?app_nil_r; try done;
      try (rewrite attempted_snoc, length_app; cbn; lia);
      rewrite publications_snoc; unfold accepted_at; cbn [fst snd]; unfold published_ok; by rewrite Er, app_nil_r.
Qed.
End step.


(** No activity charges a loss. *)
Lemma act_lost w a : bw_cnt (base (act w a)) C_deadLetterLost = bw_cnt (base w) C_deadLetterLost.
Proof.
  destruct a as [now m|r|i env]; cbn [act].
  - by destruct (dlq_effect now m w) as (_ & _ & _ & E & _).
  - unfold source_round. destruct (pr_attempts r) as [rms|].
    + assert (bw_cnt (base (with_base (note_attempts rms) w)) C_deadLetterLost = bw_cnt (base w) C_deadLetterLost) as E
        by (by rewrite base_with_base, note_attempts_keeps).
      by destruct rms.
    + destruct (pr_done r); [done|]. cbn [snd]. by rewrite base_with_base, keeps_error.
  - unfold produce_once. cbv zeta.
    match goal with |- context [build_message ?p ?s ?e ?b] => destruct (build_message p s e b) as [m|] end; [|done].
    cbn [mbind option_bind].
    match goal with |- context [publish_outcome ?p ?n ?e ?b] =>
      pose proof (keeps_outcome C_deadLetterLost p n e b) as E; destruct (publish_outcome p n e b) as [ctl b'] end.
    cbn [snd] in E. rewrite base_with_base, E by done. by destruct (published_ok env).
Qed.
Lemma run_charges_nothing w l : bw_cnt (base (run w l)) C_deadLetterLost = bw_cnt (base w) C_deadLetterLost.
Proof. revert w. induction l as [|a l IH]; intros w; [done|]. cbn. by rewrite IH, act_lost. Qed.

Lemma probe_lost start rs w : bw_cnt (base (retryBackoffProbe start rs w)) C_deadLetterLost = bw_cnt (base w) C_deadLetterLost.
Proof.
  unfold retryBackoffProbe. rewrite base_with_base. generalize probe_init. induction rs as [|r rs IH]; intros s; [done|].
  cbn [probe_loop]. repeat (case_if; [done|]). destruct (rd_pull r) as [[now got]|].
  - case_if; [done|]. case_if; [apply IH|done].
  - case_if; [done|]. case_if; [apply IH|done].
Qed.

(** Every message to publish has a size. *)
Definition sized (b : BaseWorker) (a : activity) : Prop :=
  match a with APublish _ env => is_Some (selectMessageSize b (pe_size env)) | _ => True end.

Lemma ledger_run w l :
  dl_published w = ∅ -> dl_republished w = ∅ -> is_u64 (bw_cnt (base w) C_deadLetterRepublished) ->
  0 <= dl_seq w -> dl_seq w + Z.of_nat (length (attempted l)) < two64 ->
  Forall (sized (base w)) l -> ledger w l (run w l).
Proof.
  intros H1 H2 Hu H0 Hb Hl. induction l as [|a l IH] using rev_ind.
  - split; cbn; rewrite ?Z.add_0_r; try done. symmetry. by apply u64_small.
  - apply Forall_app in Hl as [Hl Ha]. rewrite Forall_singleton in Ha. pose proof Hb as Hb'. rewrite attempted_snoc, length_app in Hb'.
    assert (ledger w l (run w l)) as L by (apply IH; [lia|done]).
    unfold run. rewrite foldl_app. cbn [foldl]. fold (run w l).
    destruct a; [by apply ledger_dlq|by apply ledger_source|by apply ledger_publish].
Qed.

(** For valid settings nothing overflows. *)
Lemma budget_value cfg :
  gcp_ok (c_GCP cfg) -> deadLetterBudget cfg = budget cfg /\ 0 <= budget cfg < two63 - 1.
Proof.
  intros [_ Hack Hatt _ _ _ _ _ _]. unfold deadLetterBudget, budget, Second. cbv zeta.
  set (a := if _ <? 5 then 5 else _).
  assert (a = Z.max 5 (gcp_MaxDeliveryAttempts (c_GCP cfg))) as Ea by (unfold a; case_if; lia).
  assert (5 <= a <= 100) by lia. rewrite <- Ea. clearbody a.
  set (k := gcp_AckDeadlineSeconds (c_GCP cfg)) in *. clearbody k.
  rewrite (to_int_small (a + 2)), (to_int_small (k * _)) by range.
  rewrite (to_int_small (k * 1000000000 * (a + 2))) by (unfold is_int, two63; nia).
  rewrite to_int_small by (unfold is_int, two63; nia). unfold two63. nia.
Qed.

Lemma time_Sub_above now t d : 0 <= d < two63 - 1 -> d < time_Sub now t <-> d < now - t.
Proof. intros H. unfold time_Sub. cbv zeta. repeat case_if; range. Qed.

(** The code's filter of its maps is the specification's of the history. *)
Lemma lost_size w l now :
  gcp_ok (c_GCP (bw_cfg (base w))) -> 0 <= dl_seq w -> dl_seq w + Z.of_nat (length (attempted l)) < two64 ->
  ledger w l (run w l) ->
  size (lost_ids now (run w l)) = length (never_surfaced (base w) (dl_seq w) now l).
Proof.
  intros Hcfg H0 Hb [HS L2 L3 L4 L5 L6]. destruct (budget_value _ Hcfg) as [Eb Hr].
  pose proof (publications_nodup (base w) (dl_seq w) l H0 Hb) as Hn.
  unfold lost_ids, never_surfaced. destruct HS as (-> & _ & _). rewrite L3, L4, Eb.
  set (pubs := publications (base w) (dl_seq w) l) in *.
  assert (forall e, e ∈ pubs -> is_u64 e.1.2) as Hu.
  { intros e He. pose proof (publications_bounds _ _ _ _ He). range. }
  rewrite map_filter_alt, map_size_list_to_map.
  2: { eapply sublist_NoDup; [|apply fmap_sublist, sublist_filter]. apply NoDup_fst_map_to_list. }
  rewrite (map_to_list_to_map _ Hn).
  clear L3 Hn. clearbody pubs. induction pubs as [|[[p s] t] pubs IH]; [done|].
  assert (is_u64 s) as Hs by (apply (Hu (p, s, t)); by left).
  specialize (IH (fun e He => Hu e (list_elem_of_further _ _ _ He))). cbn [fmap list_fmap]. rewrite !filter_cons.
  destruct (decide ((p, s) ∉ surfaced l /\ budget (bw_cfg (base w)) < now - t)) as [Hd|Hd];
    rewrite <- (surfaced_ids l p s Hs), <- (time_Sub_above now t _ Hr) in Hd.
  - rewrite decide_True by done. cbn [length]. by rewrite IH.
  - by rewrite decide_False.
Qed.

(** C24 (functional).  From the moment the ledger is empty (a new worker, or
    when the warm-up reset has cleared it), whatever the goroutines do and in
    whatever order: the republished counter grows by the number of distinct
    messages, by producer and sequence, that arrived on the dead-letter
    subscription; no loss is charged before the consumers are stopped; and
    stopping them charges exactly the messages whose publish was accepted, that
    never arrived there, and that were published more than the budget before:
    the ack deadline for two more rounds than the delivery attempts, and 15
    seconds.  Asked are settings within the documented limits, a size for
    every message, and fewer than 2^64 publishes; counters are modulo 2^64. *)
Theorem dead_letter_accounting w l now :
  dl_published w = ∅ -> dl_republished w = ∅ ->
  is_u64 (bw_cnt (base w) C_deadLetterRepublished) -> bw_cnt (base w) C_deadLetterLost = 0 ->
  0 <= dl_seq w -> dl_seq w + Z.of_nat (length (attempted l)) < two64 ->
  gcp_ok (c_GCP (bw_cfg (base w))) -> Forall (sized (base w)) l ->
  let w1 := run w l in
  let w2 := StopConsumers now w1 in
  bw_cnt (base w1) C_deadLetterRepublished =
    u64 (bw_cnt (base w) C_deadLetterRepublished + Z.of_nat (size (list_to_set (surfaced l) : gset (string * Z)))) /\
  bw_cnt (base w1) C_deadLetterLost = 0 /\
  bw_cnt (base w2) C_deadLetterLost = u64 (Z.of_nat (length (never_surfaced (base w) (dl_seq w) now l))).
Proof.
  intros H1 H2 Hu Hz H0 Hb Hcfg Hl w1 w2. pose proof (ledger_run w l H1 H2 Hu H0 Hb Hl) as L.
  pose proof (lost_size w l now Hcfg H0 Hb L) as Hls. destruct L as [_ _ _ _ L5 L6]. fold w1 in Hls, L5, L6.
  split; [done|]. split; [congruence|]. unfold w2, StopConsumers, reconcileDeadLetterLoss. cbv zeta. rewrite Hls.
  set (d := u64 (Z.of_nat _)). pose proof (u64_range (Z.of_nat (length (never_surfaced (base w) (dl_seq w) now l)))) as Hd. fold d in Hd.
  case_if; [|rewrite L6, Hz; range].
  rewrite base_with_base. unfold recordDeadLetterLost. rewrite !cnt_emit, !cnt_add_counter.
  destruct (decide (C_deadLetterLost = C_deadLetterLost)) as [_|]; [|done].
  rewrite L6, Hz. by apply u64_small.
Qed.

(** Two messages published, one of them seen twice on the dead-letter side. *)
Definition dl_history (b : BaseWorker) : list activity :=
  let env := mkEnv 0 (fun _ => 0) 0 (inl "1") false 0 0 in
  let m := mkMsg [] (stampAttrs (producer_id b 0) 1 "" 0) "" "" in
  [APublish 0 env; APublish 0 env; ADlq 5 m; ADlq 6 m].

Lemma dead_letter_accounting_witness :
  exists w, NewDeadLetterWorker (fun _ => "") DefaultConfig 1 = Some w /\
    length (never_surfaced (base w) (dl_seq w) (Hour) (dl_history (base w))) = 1%nat /\
    bw_cnt (base (StopConsumers Hour (run w (dl_history (base w))))) C_deadLetterLost =
      u64 (Z.of_nat (length (never_surfaced (base w) (dl_seq w) Hour (dl_history (base w))))).
Proof.
  eexists. split; [reflexivity|]. split; [vm_compute; reflexivity|].
  apply dead_letter_accounting; try (vm_compute; reflexivity).
  - split; vm_compute; congruence.
  - vm_compute. congruence.
  - split; try (vm_compute; intuition congruence); try (by left); by right.
  - repeat constructor; eexists; vm_compute; reflexivity.
Defined.

(** ** The probe's decision *)

(** Some gap is at least one and a half times the one before it. *)
Definition has_growing_step (gaps : list Z) : Prop :=
  exists i g g', gaps !! i = Some g /\ gaps !! S i = Some g' /\ Z.quot (g * 3) 2 <= g'.

Lemma growing_from_spec prev gaps :
  Forall (fun g => 0 <= g < two63 / 3) (prev :: gaps) ->
  growing_from prev gaps = true <-> has_growing_step (prev :: gaps).
Proof.
  revert prev. induction gaps as [|g gaps IH]; intros prev Hr; cbn [growing_from].
  { split; [done|]. intros (i & a & b & H1 & H2 & _). destruct i; simpl in H2; [done|by destruct i]. }
  inversion Hr as [|x l Hp Hg]; subst. change (two63 / 3) with 3074457345618258602 in Hp. rewrite to_int_small by range.
  destruct (_ <=? g) eqn:E; zbool.
  - split; [|done]. intros _. exists 0%nat, prev, g. done.
  - rewrite (IH g Hg). split.
    + intros (i & a & b & H). by exists (S i), a, b.
    + intros ([|i] & a & b & H1 & H2 & H3); [simpl in *; simplify_eq; lia|]. by exists i, a, b.
Qed.

(** The retry-backoff probe reports exponential backoff as
    soon as one gap reaches one and a half times the gap before it: a single
    growing step decides, where the comment on [growingGaps] asks for two
    consecutive ones. *)
Theorem growing_gaps_one_step gaps :
  Forall (fun g => 0 <= g < two63 / 3) gaps ->
  (growingGaps gaps = true <-> has_growing_step gaps) /\
  growingGaps [8 * Second; 2 * Second; 3 * Second] = true.
Proof.
  intros Hr. split; [|reflexivity]. destruct gaps as [|g0 [|g1 gaps]].
  - split; [done|]. intros (i & a & b & H & _). by destruct i.
  - split; [done|]. intros (i & a & b & _ & H & _). by destruct i.
  - by apply growing_from_spec.
Qed.

Lemma growing_gaps_one_step_witness :
  growingGaps [Second; 2 * Second] = true <-> has_growing_step [Second; 2 * Second].
Proof.
  apply (growing_gaps_one_step [Second; 2 * Second]).
  repeat constructor; vm_compute; congruence.
Defined.
