(* ===== verification/InflightCap.v ===== *)
(** * burnin/worker: inflight_cap

    A backlog of leases held without acking, released in batches when the
    producers stop, and the loss the worker charges when its consumers are
    stopped. *)
From S2P Require Import Prelude GoFloat GoFmt Config Payload Tracker Metrics Transport Worker Handlers.

Definition connectorInflightCap : Z := 20000.
Definition inflightPullBatch : Z := 100.
Definition maxAckDeadlineSeconds : Z := 600.

Record InflightCapWorker := mkInflight {
  ic_base : BaseWorker;
  ic_topicID : string;
  ic_subID : string;
  ic_seq : Z;
  ic_backlogTarget : Z;
  ic_draining : bool;
  ic_released : Z;
  ic_held : gset string
}.

#[global] Instance inflight_has_base : HasBase InflightCapWorker.
Proof.
  refine {| base := ic_base;
            with_base := fun f w => mkInflight (f (ic_base w)) (ic_topicID w) (ic_subID w) (ic_seq w)
                                      (ic_backlogTarget w) (ic_draining w) (ic_released w) (ic_held w) |}.
  done.
Defined.

Definition set_seq (w : InflightCapWorker) (seq : Z) : InflightCapWorker :=
  mkInflight (ic_base w) (ic_topicID w) (ic_subID w) seq (ic_backlogTarget w) (ic_draining w) (ic_released w) (ic_held w).
Definition set_held (w : InflightCapWorker) (held : gset string) : InflightCapWorker :=
  mkInflight (ic_base w) (ic_topicID w) (ic_subID w) (ic_seq w) (ic_backlogTarget w) (ic_draining w) (ic_released w) held.
Definition set_drain (w : InflightCapWorker) (draining : bool) (released : Z) : InflightCapWorker :=
  mkInflight (ic_base w) (ic_topicID w) (ic_subID w) (ic_seq w) (ic_backlogTarget w) draining released (ic_held w).

Definition NewInflightCapWorker (Getenv : string -> string) (cfg : Config) (idx : Z) : option InflightCapWorker :=
  let topicID := TopicName (resourcePrefix Getenv) WorkerInflightCap idx in
  let subID := SubscriptionName (resourcePrefix Getenv) WorkerInflightCap idx in
  let target := gcp_InflightBacklogTarget (c_GCP cfg) in
  let target := if target <? 1 then connectorInflightCap + 5000 else target in
  b ← NewBaseWorker Getenv WorkerInflightCap (MappedTopicChannel topicID) idx cfg;
  Some (mkInflight b topicID subID 0 target false 0 ∅).

(** ** Pulling *)

(** The outcome of an acknowledgement that counts as an error: the call failed
    and its context had not ended. *)
Definition ackOne (ackID : string) (failed : bool) (b : BaseWorker) : BaseWorker :=
  if negb (nonempty ackID) then b else if failed then recordError "ack_failure" b else b.

(** [handlePulled]: [now] is the clock, [failed] the outcome of the unary
    acknowledgement in drain mode. *)
Definition handlePulled (now : Z) (failed : bool) (m : Message) (drain : bool) (w : InflightCapWorker)
  : InflightCapWorker * list (list string) :=
  let w := with_base (recordReceived (data_len m) ("c-" +:+ bw_channelName (base w))) w in
  let meta := extractMeta (pm_Attributes m) in
  let w :=
    if m_ok meta then
      let w := with_base (check_integrity now (pm_Data m) meta) w in
      with_base (fun b => fst (recordTracked (m_producer meta) (m_seq meta) b)) w
    else w in
  if negb drain then (set_held w ({[ pm_AckID m ]} ∪ ic_held w), [])
  else
    let w := with_base (ackOne (pm_AckID m) failed) w in
    let w := with_base recordAcked w in
    let w := if (0 <? ic_released w) && (ic_released w <=? now)
             then with_base recordInflightCapTailRedelivered w else w in
    (w, if nonempty (pm_AckID m) then [[pm_AckID m]] else []).

(** What a round of [pullLoop] meets: the messages of the pull with the clock
    and the outcome of their acknowledgement ([None] when the pull failed),
    whether the context ended while it failed, whether the sleep ran through. *)
Record pull_round := mkPull { pr_messages : option (list (Z * bool * Message)); pr_done : bool; pr_slept : bool }.

Definition pull_once (r : pull_round) (w : InflightCapWorker) : loop_ctl * InflightCapWorker :=
  match pr_messages r with
  | None =>
      if pr_done r then (Return, w)
      else (if pr_slept r then Continue else Return, with_base (recordError "receive_failure") w)
  | Some [] => (if pr_slept r then Continue else Return, w)
  | Some msgs =>
      let drain := ic_draining w in
      let w := foldl (fun w '(now, failed, m) => fst (handlePulled now failed m drain w)) w msgs in
      (Continue, if drain then w else with_base (setOutstanding (f_of_Z (Z.of_nat (size (ic_held w))))) w)
  end.

Fixpoint pull_rounds (rs : list pull_round) (w : InflightCapWorker) : InflightCapWorker :=
  match rs with
  | [] => w
  | r :: rs' => match pull_once r w with (Continue, w) => pull_rounds rs' w | (Return, w) => w end
  end.
Definition pullLoop (rs : list pull_round) (w : InflightCapWorker) : InflightCapWorker :=
  pull_rounds rs (with_base signalReady w).

(** ** Producing *)

(** One iteration of [produceLoop].  It idles when the backlog is complete;
    [taken] is how many sequences other producers drew between the test and the
    increment. *)
Definition produce_once (producerIdx : Z) (idleSlept : bool) (taken : Z) (env : publish_env) (w : InflightCapWorker)
  : option (option Message * loop_ctl * InflightCapWorker) :=
  let producerID := producer_id (base w) producerIdx in
  if ic_backlogTarget w <=? to_int (ic_seq w) then Some (None, if idleSlept then Continue else Return, w)
  else
    let seq := (ic_seq w +u taken) +u 1 in
    let w := set_seq w seq in
    if ic_backlogTarget w <? to_int seq then Some (None, Continue, w)
    else
      m ← build_message producerID seq env (base w);
      let '(ctl, b) := publish_outcome producerID (data_len m) env (base w) in
      Some (Some m, ctl, with_base (fun _ => b) w).

(** ** Releasing the backlog *)

Definition ack_batch : nat := 1000.

(** [ackIDs[start:end]] for [start = 0, batch, 2*batch, ...]; every round takes
    at least one id, so the number of ids is enough fuel. *)
Fixpoint chunks (fuel : nat) (ids : list string) : list (list string) :=
  match fuel, ids with
  | _, [] => []
  | O, _ => []
  | S fuel', _ => take ack_batch ids :: chunks fuel' (drop ack_batch ids)
  end.

(** The requests [ackMany] sends; [failures] are the outcomes of the batches,
    a missing one being a success. *)
Fixpoint ack_chunks (cs : list (list string)) (failures : list bool) (b : BaseWorker) : BaseWorker :=
  match cs with
  | [] => b
  | c :: cs' =>
      let b := if default false (head failures) then recordError "ack_failure" b else b in
      let b := Nat.iter (length c) recordAcked b in
      ack_chunks cs' (tail failures) b
  end.
Definition ackMany (ids : list string) (failures : list bool) (b : BaseWorker) : BaseWorker * list (list string) :=
  let cs := chunks (length ids) ids in (ack_chunks cs failures b, cs).

(** [StopProducers] after the producers have been waited for; the held ids come
    in the order of the map. *)
Definition StopProducers (now : Z) (failures : list bool) (w : InflightCapWorker)
  : InflightCapWorker * list (list string) :=
  let w := set_drain w true now in
  let heldIDs := elements (ic_held w) in
  let w := set_held w ∅ in
  let '(b, reqs) := ackMany heldIDs failures (base w) in
  (with_base (fun _ => b) w, reqs).

Definition w_reset (w : InflightCapWorker) : InflightCapWorker :=
  set_held (set_seq (set_drain (with_base ResetAfterWarmup w) false 0) 0) ∅.

Definition StopConsumers (w : InflightCapWorker) : InflightCapWorker :=
  let lost := TotalLost (bw_trk (base w)) in
  if 0 <? lost then with_base (recordInflightCapLost lost) w else w.

(** ** Lemmas *)

Lemma chunks_concat fuel ids : (length ids <= fuel)%nat -> concat (chunks fuel ids) = ids.
Proof.
  revert ids. induction fuel as [|fuel IH]; intros ids Hl; destruct ids as [|x ids]; simpl in *; try done; try lia.
  rewrite IH; [by rewrite take_drop|]. rewrite length_drop. lia.
Qed.

Lemma chunks_sizes fuel ids : Forall (fun c => (1 <= length c <= ack_batch)%nat) (chunks fuel ids).
Proof.
  revert ids. induction fuel as [|fuel IH]; intros ids; destruct ids as [|x ids]; cbn [chunks]; try constructor.
  - rewrite length_take. cbn [length]. unfold ack_batch. lia.
  - apply IH.
Qed.

Lemma iter_acked n b :
  (forall c, c <> C_acked -> bw_cnt (Nat.iter n recordAcked b) c = bw_cnt b c) /\
  (is_u64 (bw_cnt b C_acked) -> bw_cnt (Nat.iter n recordAcked b) C_acked = u64 (bw_cnt b C_acked + Z.of_nat n)).
Proof.
  induction n as [|n [IH1 IH2]]; [split; [done|]; intros; by rewrite Z.add_0_r, u64_small|].
  change (Nat.iter (S n) recordAcked b) with (recordAcked (Nat.iter n recordAcked b)). split.
  - intros c Hc. by rewrite (keeps_acked c), IH1.
  - intros Hu. unfold recordAcked at 1. rewrite cnt_emit, cnt_add_counter, (IH2 Hu).
    destruct (decide (C_acked = C_acked)); [|done]. unfold uadd, u64. rewrite Zplus_mod_idemp_l. f_equal. lia.
Qed.

Lemma iter_acked_trk n b : bw_trk (Nat.iter n recordAcked b) = bw_trk b.
Proof. induction n as [|n IH]; [done|]. exact IH. Qed.

Lemma ack_chunks_spec cs failures b :
  (forall c, c <> C_acked -> c <> C_errors -> bw_cnt (ack_chunks cs failures b) c = bw_cnt b c) /\
  bw_trk (ack_chunks cs failures b) = bw_trk b /\
  (is_u64 (bw_cnt b C_acked) ->
   bw_cnt (ack_chunks cs failures b) C_acked = u64 (bw_cnt b C_acked + Z.of_nat (length (concat cs)))).
Proof.
  revert failures b. induction cs as [|c0 cs IH]; intros failures b; cbn [ack_chunks].
  { split; [done|]. split; [done|]. intros H. cbn. rewrite Z.add_0_r. by rewrite u64_small. }
  set (b1 := if default false (head failures) then recordError "ack_failure" b else b).
  assert (forall c, c <> C_errors -> bw_cnt b1 c = bw_cnt b c) as E1
    by (intros c Hc; unfold b1; case_if; [by apply keeps_error|done]).
  assert (bw_trk b1 = bw_trk b) as Et by (unfold b1; by case_if).
  destruct (IH (tail failures) (Nat.iter (length c0) recordAcked b1)) as (H1 & H2 & H3).
  split; [|split].
  - intros c Ha He. rewrite H1 by done. rewrite <- (E1 c He). by apply iter_acked.
  - by rewrite H2, iter_acked_trk.
  - intros Hu. assert (bw_cnt (Nat.iter (length c0) recordAcked b1) C_acked = u64 (bw_cnt b C_acked + Z.of_nat (length c0))) as Ea.
    { rewrite <- (E1 C_acked) by done. apply iter_acked. by rewrite E1. }
    rewrite H3 by (rewrite Ea; apply u64_range). rewrite Ea. cbn [concat]. rewrite length_app, Nat2Z.inj_add.
    unfold u64. rewrite Zplus_mod_idemp_l. f_equal. lia.
Qed.

(** Stopping the producers releases the whole backlog: the
    acknowledgement requests carry every held lease exactly once, in batches of
    at most a thousand, the acked counter grows by the number of leases, no
    lease stays held and the worker is in drain mode. *)
Theorem release_acks_every_lease now failures w :
  is_u64 (bw_cnt (base w) C_acked) ->
  let '(w', reqs) := StopProducers now failures w in
  concat reqs ≡ₚ elements (ic_held w) /\
  Forall (fun c => (1 <= length c <= 1000)%nat) reqs /\
  bw_cnt (base w') C_acked = u64 (bw_cnt (base w) C_acked + Z.of_nat (size (ic_held w))) /\
  ic_held w' = ∅ /\ ic_draining w' = true /\ ic_released w' = now.
Proof.
  intros Hu. unfold StopProducers, ackMany. cbv zeta. cbn [set_drain set_held ic_held base inflight_has_base ic_base].
  destruct (ack_chunks_spec (chunks (length (elements (ic_held w))) (elements (ic_held w))) failures (ic_base w))
    as (_ & _ & H). rewrite chunks_concat in * by done.
  split; [done|]. split; [apply chunks_sizes|]. split; [|done].
  exact (H Hu).
Qed.

Lemma release_acks_every_lease_witness :
  exists b, NewBaseWorker (fun _ => "") WorkerInflightCap "c" 1 DefaultConfig = Some b /\
    concat (snd (StopProducers 7 [] (mkInflight b "t" "s" 2 10 false 0 {[ "a1"; "a2" ]}))) ≡ₚ
      elements ({[ "a1"; "a2" ]} : gset string).
Proof.
  eexists. split; [reflexivity|].
  match goal with |- context [StopProducers _ _ ?w] =>
    pose proof (release_acks_every_lease 7 [] w ltac:(cbn; range)) as H;
    destruct (StopProducers 7 [] w) as [w' reqs]; exact (proj1 H) end.
Defined.

#[global] Instance inflight_worker : Worker InflightCapWorker.
Proof.
  refine {| w_ResetAfterWarmup := w_reset;
            w_DisconnectConsumers := with_base DisconnectConsumers;
            w_StopProducers := fun now fs w => fst (StopProducers now fs w);
            w_StopConsumers := fun _ w => StopConsumers w |}; [done|done| | |].
  - intros now fs w c Ha He. unfold StopProducers, ackMany. cbv zeta. cbn [fst].
    rewrite base_with_base. by apply ack_chunks_spec.
  - intros now fs w. unfold StopProducers, ackMany. cbv zeta. cbn [fst]. rewrite base_with_base. apply ack_chunks_spec.
  - intros now w. unfold StopConsumers. by case_if.
Defined.

(** ** Loss is charged only at the end *)

(** What happens to the worker before its consumers are stopped. *)
Inductive activity :=
| APull (r : pull_round)
| APublish (producerIdx : Z) (idleSlept : bool) (taken : Z) (env : publish_env)
| AStopProducers (now : Z) (failures : list bool).

Definition act (w : InflightCapWorker) (a : activity) : InflightCapWorker :=
  match a with
  | APull r => snd (pull_once r w)
  | APublish i s t env => match produce_once i s t env w with Some (_, _, w') => w' | None => w end
  | AStopProducers now fs => fst (StopProducers now fs w)
  end.
Definition run (w : InflightCapWorker) (l : list activity) : InflightCapWorker := foldl act w l.

Lemma handlePulled_lost now failed m drain w :
  bw_cnt (base (fst (handlePulled now failed m drain w))) C_inflightCapLost = bw_cnt (base w) C_inflightCapLost.
Proof.
  unfold handlePulled. set (w1 := with_base (recordReceived _ _) w). set (meta := extractMeta (pm_Attributes m)).
  match goal with |- context [set_held ?v _] => set (w2 := v) end.
  assert (bw_cnt (base w2) C_inflightCapLost = bw_cnt (base w) C_inflightCapLost) as E.
  { unfold w2. destruct (m_ok meta); unfold w1; rewrite ?base_with_base.
    - rewrite (keeps_tracked C_inflightCapLost) by done. rewrite keeps_integrity by done. by apply keeps_received.
    - by apply keeps_received. }
  destruct drain; cbn [negb]; [|exact E]. cbn [fst].
  assert (forall f b, bw_cnt (ackOne (pm_AckID m) f b) C_inflightCapLost = bw_cnt b C_inflightCapLost) as Ea.
  { intros f b. unfold ackOne. case_if; [done|]. case_if; [by apply keeps_error|done]. }
  set (w3 := with_base recordAcked (with_base (ackOne (pm_AckID m) failed) w2)).
  assert (bw_cnt (base w3) C_inflightCapLost = bw_cnt (base w) C_inflightCapLost) as E3.
  { unfold w3. rewrite !base_with_base, keeps_acked, Ea by done. exact E. }
  case_if; [|exact E3]. rewrite base_with_base. exact E3.
Qed.

Lemma act_cap_lost w a : bw_cnt (base (act w a)) C_inflightCapLost = bw_cnt (base w) C_inflightCapLost.
Proof.
  destruct a as [r|i s t env|now fs]; cbn [act].
  - unfold pull_once. destruct (pr_messages r) as [[|p msgs]|]; cbn [snd]; [done| |].
    + assert (forall l v d, bw_cnt (base (foldl (fun w '(now, failed, m) => fst (handlePulled now failed m d w)) v l))
                C_inflightCapLost = bw_cnt (base v) C_inflightCapLost) as H.
      { intros l. induction l as [|[[now f] m] l IH]; intros v d; [done|]. cbn [foldl]. by rewrite IH, handlePulled_lost. }
      destruct (ic_draining w); rewrite ?base_with_base; [apply H|]. exact (H (p :: msgs) w false).
    + destruct (pr_done r); [done|]. cbn [snd]. rewrite base_with_base. by apply keeps_error.
  - unfold produce_once. cbv zeta. case_if; [done|]. case_if; [done|].
    match goal with |- context [build_message ?p ?s ?e ?b] => destruct (build_message p s e b) as [m|] end; [|done].
    cbn [mbind option_bind].
    match goal with |- context [publish_outcome ?p ?n ?e ?b] =>
      pose proof (fun c => keeps_outcome c p n e b) as E; destruct (publish_outcome p n e b) as [ctl b'] end.
    cbn [snd] in E. rewrite base_with_base. by rewrite E.
  - exact (stop_producers_keeps now fs w C_inflightCapLost ltac:(done) ltac:(done)).
Qed.

Lemma run_lost w l : bw_cnt (base (run w l)) C_inflightCapLost = bw_cnt (base w) C_inflightCapLost.
Proof. revert w. induction l as [|a l IH]; intros w; [done|]. cbn. by rewrite IH, act_cap_lost. Qed.
