(* ===== verification/Engine.v ===== *)
(** * burnin/engine: the run lifecycle

    The engine's state, the operations the control API calls, and the run loop
    cut at its blocking points.  A run loop is a goroutine: the engine's state
    holds the program point of every one that is alive, and [step] interleaves
    them with the API calls, with what the workers' goroutines do and with the
    periodic tasks.  The engine sees workers through the interface [Worker]. *)
From S2P Require Import Prelude GoFloat GoFmt Config Payload Tracker Metrics Transport Worker Verdict.
From S2P Require Import Handlers.

Inductive run_state := StateIdle | StateStarting | StateRunning | StateStopping | StateStopped | StateError.
#[global] Instance run_state_eq_dec : EqDecision run_state.
Proof. solve_decision. Defined.

Definition state_name (s : run_state) : string :=
  match s with
  | StateIdle => "idle" | StateStarting => "starting" | StateRunning => "running"
  | StateStopping => "stopping" | StateStopped => "stopped" | StateError => "error"
  end.

(** Where a run loop is: about to build the groups, to start the consumers, to
    wait for readiness, to warm up, to start the measurement; running; at the
    producer stop; draining; about to stop the consumers; about to compute the
    verdict; about to run the deferred function. *)
Inductive pc := PBuild | PConsumers | PReady | PWarmup | PMeasure | PRunning | PShutdown | PDrain | PStop | PVerdict | PExit.
#[global] Instance pc_eq_dec : EqDecision pc.
Proof. solve_decision. Defined.

(** A goroutine of [runLoop]; its context and its done channel have the number
    it is filed under. *)
Record thread := mkThread { t_pc : pc; t_cfg : Config }.

(** A consumer that was started and not stopped: the run that built its worker,
    the group and the position of the worker in it, the context it runs under. *)
Record consumer := mkConsumer { cs_owner : nat; cs_group : string; cs_index : nat; cs_ctx : nat }.

Section engine.
Context {W : Type} {HB : HasBase W} {Wk : Worker W}.

(** [workerGroups]: the channel instances of a worker type by its name. *)
Definition groups : Type := gmap string (list W).

(** Times are nanoseconds, [None] for the zero time.  [e_owner] is the run that
    built the worker groups. *)
Record Engine := mkEngine {
  e_startupCfg : Config;
  e_state : run_state;
  e_runCfg : option Config;
  e_runID : string;
  e_runStartedAt : option Z;
  e_runEndedAt : option Z;
  e_producersStartedAt : Z;
  e_producersStoppedAt : Z;
  e_runError : string;
  e_runCancel : option nat;
  e_runDone : option nat;
  e_groups : groups;
  e_snapshots : option (list (string * WorkerSnapshot));
  e_baselineRSS : Z;
  e_peakRSS : Z;
  e_verdict : option VerdictResult;
  (* the world *)
  e_threads : gmap nat thread;
  e_next : nat;
  e_cancelled : gset nat;
  e_closed : gset nat;
  e_panic : bool;
  e_owner : nat;
  e_consumers : list consumer;
  e_metrics : list metric_op
}.

Definition New (cfg : Config) : Engine :=
  mkEngine cfg StateIdle None "" None None 0 0 "" None None ∅ None 0 0 None ∅ 0 ∅ ∅ false 0 [] [].

(** Groups of field updates. *)
Definition set_state (e : Engine) (s : run_state) (err : string) : Engine :=
  mkEngine (e_startupCfg e) s (e_runCfg e) (e_runID e) (e_runStartedAt e) (e_runEndedAt e) (e_producersStartedAt e)
    (e_producersStoppedAt e) err (e_runCancel e) (e_runDone e) (e_groups e) (e_snapshots e) (e_baselineRSS e)
    (e_peakRSS e) (e_verdict e) (e_threads e) (e_next e) (e_cancelled e) (e_closed e) (e_panic e) (e_owner e) (e_consumers e)
    (e_metrics e).
Definition set_groups (e : Engine) (g : groups) (ms : list metric_op) : Engine :=
  mkEngine (e_startupCfg e) (e_state e) (e_runCfg e) (e_runID e) (e_runStartedAt e) (e_runEndedAt e)
    (e_producersStartedAt e) (e_producersStoppedAt e) (e_runError e) (e_runCancel e) (e_runDone e) g (e_snapshots e)
    (e_baselineRSS e) (e_peakRSS e) (e_verdict e) (e_threads e) (e_next e) (e_cancelled e) (e_closed e) (e_panic e)
    (e_owner e) (e_consumers e) (e_metrics e ++ ms).
Definition set_times (e : Engine) (started stopped : Z) : Engine :=
  mkEngine (e_startupCfg e) (e_state e) (e_runCfg e) (e_runID e) (e_runStartedAt e) (e_runEndedAt e)
    started stopped (e_runError e) (e_runCancel e) (e_runDone e) (e_groups e) (e_snapshots e)
    (e_baselineRSS e) (e_peakRSS e) (e_verdict e) (e_threads e) (e_next e) (e_cancelled e) (e_closed e) (e_panic e)
    (e_owner e) (e_consumers e) (e_metrics e).
Definition set_outcome (e : Engine) (s : option (list (string * WorkerSnapshot))) (base peak : Z)
    (v : option VerdictResult) : Engine :=
  mkEngine (e_startupCfg e) (e_state e) (e_runCfg e) (e_runID e) (e_runStartedAt e) (e_runEndedAt e)
    (e_producersStartedAt e) (e_producersStoppedAt e) (e_runError e) (e_runCancel e) (e_runDone e) (e_groups e) s
    base peak v (e_threads e) (e_next e) (e_cancelled e) (e_closed e) (e_panic e) (e_owner e) (e_consumers e) (e_metrics e).
Definition set_thread (e : Engine) (k : nat) (t : thread) : Engine :=
  mkEngine (e_startupCfg e) (e_state e) (e_runCfg e) (e_runID e) (e_runStartedAt e) (e_runEndedAt e)
    (e_producersStartedAt e) (e_producersStoppedAt e) (e_runError e) (e_runCancel e) (e_runDone e) (e_groups e)
    (e_snapshots e) (e_baselineRSS e) (e_peakRSS e) (e_verdict e) (<[k := t]> (e_threads e)) (e_next e)
    (e_cancelled e) (e_closed e) (e_panic e) (e_owner e) (e_consumers e) (e_metrics e).
Definition set_consumers (e : Engine) (l : list consumer) : Engine :=
  mkEngine (e_startupCfg e) (e_state e) (e_runCfg e) (e_runID e) (e_runStartedAt e) (e_runEndedAt e)
    (e_producersStartedAt e) (e_producersStoppedAt e) (e_runError e) (e_runCancel e) (e_runDone e) (e_groups e)
    (e_snapshots e) (e_baselineRSS e) (e_peakRSS e) (e_verdict e) (e_threads e) (e_next e)
    (e_cancelled e) (e_closed e) (e_panic e) (e_owner e) l (e_metrics e).
Definition set_owner (e : Engine) (k : nat) : Engine :=
  mkEngine (e_startupCfg e) (e_state e) (e_runCfg e) (e_runID e) (e_runStartedAt e) (e_runEndedAt e)
    (e_producersStartedAt e) (e_producersStoppedAt e) (e_runError e) (e_runCancel e) (e_runDone e) (e_groups e)
    (e_snapshots e) (e_baselineRSS e) (e_peakRSS e) (e_verdict e) (e_threads e) (e_next e)
    (e_cancelled e) (e_closed e) (e_panic e) k (e_consumers e) (e_metrics e).
Definition cancel (e : Engine) (k : nat) : Engine :=
  mkEngine (e_startupCfg e) (e_state e) (e_runCfg e) (e_runID e) (e_runStartedAt e) (e_runEndedAt e)
    (e_producersStartedAt e) (e_producersStoppedAt e) (e_runError e) (e_runCancel e) (e_runDone e) (e_groups e)
    (e_snapshots e) (e_baselineRSS e) (e_peakRSS e) (e_verdict e) (e_threads e) (e_next e)
    ({[ k ]} ∪ e_cancelled e) (e_closed e) (e_panic e) (e_owner e) (e_consumers e) (e_metrics e).

Definition goto (e : Engine) (k : nat) (t : thread) (p : pc) : Engine := set_thread e k (mkThread p (t_cfg t)).

(** ** The control operations *)

(** [rid] is what [RandomRunID] draws. *)
Definition StartRunFromConfig (cfg : Config) (rid : string) (now : Z) (e : Engine) : result Engine :=
  match e_state e with
  | StateIdle | StateStopped | StateError =>
      let k := e_next e in
      Ok (mkEngine (e_startupCfg e) StateStarting (Some cfg)
            (if nonempty (c_RunID cfg) then c_RunID cfg else rid)
            (Some now) None (e_producersStartedAt e) (e_producersStoppedAt e) "" (Some k) (Some k)
            (e_groups e) None 0 0 None
            (<[k := mkThread PBuild cfg]> (e_threads e)) (S k) (e_cancelled e) (e_closed e) (e_panic e)
            (e_owner e) (e_consumers e) (e_metrics e))
  | s => Err (Sprintf "cannot start run: engine in state %s" [AStr (state_name s)])
  end.

Definition StopRun (e : Engine) : result Engine :=
  match e_state e with
  | StateStarting | StateRunning => Ok (match e_runCancel e with Some k => cancel e k | None => e end)
  | s => Err (Sprintf "cannot stop run: engine in state %s" [AStr (state_name s)])
  end.

(** [GracefulShutdown] up to its wait: the engine after it and the channel it
    waits on, if it does. *)
Definition shutdown_begin (e : Engine) : Engine * option nat :=
  match e_state e with
  | StateRunning | StateStarting =>
      (match e_runCancel e with Some k => cancel e k | None => e end, e_runDone e)
  | _ => (e, None)
  end.
(** What it returns after the wait. *)
Definition shutdown_passed (e : Engine) : bool :=
  match e_verdict e with Some v => v_Passed v | None => false end.
Definition HasWarnings (e : Engine) : bool :=
  match e_verdict e with Some v => String.eqb (v_Result v) "PASSED_WITH_WARNINGS" | None => false end.

Definition setError (e : Engine) (msg : string) : Engine := set_state e StateError msg.

(** ** Worker groups *)

Context (NewWorker : string -> Config -> Z -> option W).

(** The channels 1 to [n] of a worker; a name outside the table has none. *)
Definition NewWorkerGroup (name : string) (cfg : Config) : list W :=
  omap (NewWorker name cfg) (Z.of_nat <$> seq 1 (Z.to_nat (GetWorkerChannels cfg name))).

Definition enabled (cfg : Config) (name : string) : bool :=
  match GetWorkerConfig cfg name with Some wc => wc_Enabled wc | None => false end.

Definition build_groups (cfg : Config) : groups :=
  list_to_map ((fun name => (name, NewWorkerGroup name cfg)) <$> List.filter (enabled cfg) AllWorkerNames).

(** [StartConsumers] of the groups in the order of [AllWorkerNames]: [start]
    gives the error of a worker's [Start], if any.  The consumers started before
    the first failure keep running. *)
Fixpoint start_workers (start : string -> nat -> option string) (name : string) (i : nat) (ws : list W)
  : list (string * nat) * option string :=
  match ws with
  | [] => ([], None)
  | w :: ws' =>
      match start name i with
      | Some err =>
          ([], Some (Sprintf "start consumer for %s/%s: %w" [AStr name; AStr (bw_channelName (base w)); AStr err]))
      | None => let '(l, r) := start_workers start name (S i) ws' in ((name, i) :: l, r)
      end
  end.
Fixpoint start_groups (start : string -> nat -> option string) (g : groups) (names : list string)
  : list (string * nat) * option string :=
  match names with
  | [] => ([], None)
  | name :: names' =>
      match g !! name with
      | None => start_groups start g names'
      | Some ws =>
          match start_workers start name 0 ws with
          | (l, Some err) => (l, Some err)
          | (l, None) => let '(l', r) := start_groups start g names' in (l ++ l', r)
          end
      end
  end.

(** Every worker of every group. *)
Definition map_workers (f : W -> W) (g : groups) : groups := (fun ws : list W => f <$> ws) <$> g.

Definition totalReceived (g : groups) : Z :=
  u64 (zsum (concat (map (fun e => map (fun w => bw_cnt (base w) C_received) (snd e)) (map_to_list g)))).

(** [DetectGaps] on every tracker, with the metric calls of its deltas. *)
Definition detect_worker (w : W) : W :=
  with_base (fun b => set_trk b (fst (DetectGaps (bw_trk b)))) w.
Definition detect_metrics (g : groups) : list metric_op :=
  concat (map (fun e => concat (map (fun w =>
    map (fun d => AddLost (fst e) (snd d)) (map_to_list (snd (DetectGaps (bw_trk (base w)))))) (snd e))) (map_to_list g)).
Definition detect_gaps (e : Engine) : Engine :=
  set_groups e (map_workers detect_worker (e_groups e)) (detect_metrics (e_groups e)).

Context (ValueAtQuantile : list Z -> float64 -> Z) (TotalCount : list Z -> Z).

Definition capture (g : groups) : list (string * WorkerSnapshot) :=
  captureWorkerSnapshots ValueAtQuantile TotalCount
    (map (fun e => (fst e, map base (snd e))) (map_to_list g)).

(** ** The run loop, between its blocking points *)

Definition loop_build (k : nat) (t : thread) (e : Engine) : Engine :=
  goto (set_owner (set_groups e (build_groups (t_cfg t)) []) k) k t PConsumers.

Definition loop_consumers (start : string -> nat -> option string) (k : nat) (t : thread) (e : Engine) : Engine :=
  let '(started, r) := start_groups start (e_groups e) AllWorkerNames in
  let e := set_consumers e (e_consumers e ++ map (fun '(name, i) => mkConsumer (e_owner e) name i k) started) in
  match r with
  | Some err => goto (setError e (Sprintf "start consumers: %v" [AStr err])) k t PExit
  | None => goto e k t PReady
  end.

(** [timeout] is the error of [WaitForConsumerReady], if a group was late. *)
Definition loop_ready (timeout : option string) (k : nat) (t : thread) (e : Engine) : Engine :=
  match timeout with
  | Some err => goto (setError e (Sprintf "consumer ready: %v" [AStr err])) k t PExit
  | None => goto e k t (if bool_decide (k ∈ e_cancelled e) then PExit else PWarmup)
  end.

(** [warmup] and the test after it; what its producers do in between is
    worker activity.  [drained] is whether the one-second beat ran through rather than being cut short by the
    context, in which case nothing is reset. *)
Definition warm_duration (cfg : Config) : Z :=
  if c_WarmupDurationParsed cfg <=? 0 then 5 * Second else c_WarmupDurationParsed cfg.
Definition loop_warmup (now : Z) (failures : list bool) (drained : bool) (k : nat) (t : thread) (e : Engine) : Engine :=
  let g := map_workers (w_StopProducers now failures) (e_groups e) in
  let g := if drained then map_workers w_ResetAfterWarmup g else g in
  let e := set_groups e g [MSet M_WarmupActive [sdkLabel] (f_of_Z 1); MSet M_WarmupActive [sdkLabel] f0] in
  goto e k t (if bool_decide (k ∈ e_cancelled e) then PExit else PMeasure).

Definition loop_measure (now : Z) (k : nat) (t : thread) (e : Engine) : Engine :=
  let e := set_times e now (e_producersStoppedAt e) in
  let e := set_groups e (e_groups e)
    (omap (fun name => if decide (is_Some (e_groups e !! name))
                       then Some (SetTargetRate name (f_of_Z (GetWorkerRate (t_cfg t) name))) else None)
       AllWorkerNames) in
  goto (set_state e StateRunning (e_runError e)) k t PRunning.

(** The select of the measurement returned; the periodic tasks are over. *)
Definition loop_stop (k : nat) (t : thread) (e : Engine) : Engine :=
  goto (set_state e StateStopping (e_runError e)) k t PShutdown.

Definition loop_shutdown (now : Z) (failures : list bool) (k : nat) (t : thread) (e : Engine) : Engine :=
  let e := set_times e (e_producersStartedAt e) now in
  goto (set_groups e (map_workers (w_StopProducers now failures) (e_groups e)) []) k t PDrain.

Definition loop_capture (k : nat) (t : thread) (e : Engine) : Engine :=
  let e := detect_gaps e in
  goto (set_outcome e (Some (capture (e_groups e))) (e_baselineRSS e) (e_peakRSS e) (e_verdict e)) k t PStop.

(** [sys] is what [ReadMemStats] reports. *)
Definition raise_peak (sys : Z) (e : Engine) : Engine :=
  set_outcome e (e_snapshots e) (e_baselineRSS e) (if e_peakRSS e <? sys then sys else e_peakRSS e) (e_verdict e).

(** [StopConsumers] of every worker of the groups. *)
Definition loop_stop_consumers (now sys : Z) (k : nat) (t : thread) (e : Engine) : Engine :=
  let e := set_consumers e
    (List.filter (fun c => negb (bool_decide (cs_owner c = e_owner e))) (e_consumers e)) in
  let e := set_groups e (map_workers (w_StopConsumers now) (e_groups e)) [] in
  goto (raise_peak sys e) k t PVerdict.

Definition loop_verdict (k : nat) (t : thread) (e : Engine) : Engine :=
  let v := computeVerdict (t_cfg t) (e_producersStoppedAt e - e_producersStartedAt e)
             (e_baselineRSS e) (e_peakRSS e) (default [] (e_snapshots e)) in
  goto (set_outcome e (e_snapshots e) (e_baselineRSS e) (e_peakRSS e) (Some v)) k t PExit.

(** The deferred function: it closes the channel the engine holds by then, and
    closing a closed channel panics. *)
Definition loop_exit (now : Z) (k : nat) (e : Engine) : Engine :=
  let state := if decide (e_state e = StateError) then StateError else StateStopped in
  let closes := match e_runDone e with Some d => {[ d ]} | None => ∅ end : gset nat in
  mkEngine (e_startupCfg e) state (e_runCfg e) (e_runID e) (e_runStartedAt e) (Some now)
    (e_producersStartedAt e) (e_producersStoppedAt e) (e_runError e) (e_runCancel e) (e_runDone e) (e_groups e)
    (e_snapshots e) (e_baselineRSS e) (e_peakRSS e) (e_verdict e) (delete k (e_threads e)) (e_next e)
    (e_cancelled e) (closes ∪ e_closed e)
    (e_panic e || bool_decide (closes ∩ e_closed e <> ∅)) (e_owner e) (e_consumers e) (e_metrics e).

(** ** The periodic tasks *)

Definition advance_group (name : string) (ws : list W) : list W * list metric_op :=
  let ws := with_base AdvanceRateWindows <$> ws in
  let rate := foldl (fun r w => fadd r (sw_Rate (bw_rate (base w)))) f0 ws in
  let sent := u64 (zsum (map (fun w => bw_cnt (base w) C_sent) ws)) in
  let recv := u64 (zsum (map (fun w => bw_cnt (base w) C_received) ws)) in
  (ws, [SetActualRate name rate; SetConsumerLag name (if recv <? sent then f_of_Z (sent - recv) else f0)]).

(** A tick of [rateAdvancer]. *)
Definition rate_tick (e : Engine) : Engine :=
  set_groups e (map_imap (fun name ws => Some (fst (advance_group name ws))) (e_groups e))
    (concat (map (fun '(name, ws) => snd (advance_group name ws)) (map_to_list (e_groups e)))).

(** A tick of [uptimeTracker], [elapsed] after the process booted. *)
Definition uptime_tick (elapsed : Z) (e : Engine) : Engine :=
  set_groups e (e_groups e) [MSet M_UptimeSeconds [sdkLabel] (Seconds elapsed)].

(** A tick of [memoryTracker], [elapsed] after it started; [set_before] is its
    [baselineSet]. *)
Definition baseline_deadline (cfg : option Config) : Z :=
  match cfg with
  | Some c => if (0 <? c_DurationParsed c) && (c_DurationParsed c <? 5 * Minute) then 10 * Second else 5 * Minute
  | None => 5 * Minute
  end.
Definition memory_tick (sys elapsed : Z) (set_before : bool) (e : Engine) : Engine * bool :=
  let e := raise_peak sys e in
  if negb set_before && (baseline_deadline (e_runCfg e) <=? elapsed)
  then (set_outcome e (e_snapshots e) sys (e_peakRSS e) (e_verdict e), true)
  else (e, set_before).

(** A tick of the forced-disconnect manager. *)
Definition disconnect_tick (e : Engine) : Engine :=
  set_groups e (map_workers w_DisconnectConsumers (e_groups e)) [IncForcedDisconnect].

(** ** Draining *)

Definition pollInterval : Z := 250 * Millisecond.
Definition stablePolls : Z := 4.

(** The loop of [drainToQuiescence]: a poll is the clock at the loop test and
    the total received after the sleep.  The result is the number of polls
    made and whether the loop ended because the total was stable; [None] while
    it is still running. *)
Fixpoint drain_loop (deadline prev stable : Z) (n : nat) (polls : list (Z * Z)) : option (nat * bool) :=
  match polls with
  | [] => None
  | (clock, cur) :: polls' =>
      if deadline <=? clock then Some (n, false)
      else if cur =? prev then
        if stablePolls <=? stable + 1 then Some (S n, true) else drain_loop deadline prev (stable + 1) (S n) polls'
      else drain_loop deadline cur 0 (S n) polls'
  end.

(** [start] is the clock and [received] the total when it is entered. *)
Definition drainToQuiescence (maxWait start received : Z) (polls : list (Z * Z)) : option (nat * bool) :=
  let maxWait := if maxWait <=? 0 then Second else maxWait in
  drain_loop (start + maxWait) received 0 0 polls.

(** ** Steps *)

(** What the goroutines of the workers can do to a worker between two steps. *)
Context (evolves : W -> W -> Prop).

Definition groups_evolve (g g' : groups) : Prop :=
  map_relation (fun _ ws ws' => Forall2 evolves ws ws') (fun _ _ => False) (fun _ _ => False) g g'.

Definition at_pc (e : Engine) (k : nat) (t : thread) (p : pc) : Prop := e_threads e !! k = Some t /\ t_pc t = p.

(** A step of a run loop. *)
Inductive loop_step : Engine -> Engine -> Prop :=
| s_build e k t : at_pc e k t PBuild -> loop_step e (loop_build k t e)
| s_consumers e k t start : at_pc e k t PConsumers -> loop_step e (loop_consumers start k t e)
| s_ready e k t timeout : at_pc e k t PReady -> loop_step e (loop_ready timeout k t e)
| s_warmup e k t now failures drained : at_pc e k t PWarmup ->
    (drained = false -> k ∈ e_cancelled e) -> loop_step e (loop_warmup now failures drained k t e)
| s_measure e k t now : at_pc e k t PMeasure -> loop_step e (loop_measure now k t e)
| s_stop_measure e k t : at_pc e k t PRunning ->
    (k ∈ e_cancelled e \/ 0 < c_DurationParsed (t_cfg t)) -> loop_step e (loop_stop k t e)
| s_shutdown e k t now failures : at_pc e k t PShutdown -> loop_step e (loop_shutdown now failures k t e)
| s_poll e k t : at_pc e k t PDrain -> loop_step e (detect_gaps e)
| s_capture e k t : at_pc e k t PDrain -> loop_step e (loop_capture k t e)
| s_stop_consumers e k t now sys : at_pc e k t PStop -> loop_step e (loop_stop_consumers now sys k t e)
| s_verdict e k t : at_pc e k t PVerdict -> loop_step e (loop_verdict k t e)
| s_exit e k t now : at_pc e k t PExit -> loop_step e (loop_exit now k e).

(** A tick of a periodic task: they live while a run is being measured. *)
Inductive periodic_step : Engine -> Engine -> Prop :=
| s_rate e k t : at_pc e k t PRunning -> periodic_step e (rate_tick e)
| s_uptime e k t elapsed : at_pc e k t PRunning -> periodic_step e (uptime_tick elapsed e)
| s_memory e k t sys elapsed set_before : at_pc e k t PRunning ->
    periodic_step e (fst (memory_tick sys elapsed set_before e))
| s_gaps e k t : at_pc e k t PRunning -> periodic_step e (detect_gaps e)
| s_disconnect e k t : at_pc e k t PRunning -> 0 < c_ForcedDisconnInterval (t_cfg t) ->
    periodic_step e (disconnect_tick e).

(** Everything but starting a run. *)
Inductive quiet_step : Engine -> Engine -> Prop :=
| q_loop e e' : loop_step e e' -> quiet_step e e'
| q_periodic e e' : periodic_step e e' -> quiet_step e e'
| q_stop e e' : StopRun e = Ok e' -> quiet_step e e'
| q_signal e : quiet_step e (fst (shutdown_begin e))
| q_activity e g : groups_evolve (e_groups e) g -> quiet_step e (set_groups e g []).

Inductive step : Engine -> Engine -> Prop :=
| s_quiet e e' : quiet_step e e' -> step e e'
| s_start e e' cfg rid now : StartRunFromConfig cfg rid now e = Ok e' -> step e e'.

(** A run that failed is not started over before its run loop has returned:
    between the error state and the deferred function the state check admits a
    second run loop. *)
Inductive calm_step : Engine -> Engine -> Prop :=
| c_quiet e e' : quiet_step e e' -> calm_step e e'
| c_start e e' cfg rid now : (e_state e = StateError -> e_threads e = ∅) -> StartRunFromConfig cfg rid now e = Ok e' -> calm_step e e'.

Definition reachable (cfg : Config) : Engine -> Prop := rtc step (New cfg).
Definition calmly_reachable (cfg : Config) : Engine -> Prop := rtc calm_step (New cfg).
End engine.
