(* ===== verification/EngineProps.v ===== *)
(** * What the run lifecycle guarantees

    The invariant of the engine when runs are started one after the other, what
    a restart during the last steps of a failed run breaks, what a signal does
    at each stage, and when the drain returns. *)
From S2P Require Import Prelude GoFloat GoFmt Config Payload Tracker Metrics Transport Worker Verdict Report.
From S2P Require Import Handlers OrderingKeys Engine.

(** ** The invariant *)

Definition state_fits (s : run_state) (p : pc) : Prop :=
  match p with
  | PBuild | PConsumers | PReady | PWarmup | PMeasure => s = StateStarting
  | PRunning => s = StateRunning
  | PShutdown | PDrain | PStop | PVerdict => s = StateStopping
  | PExit => s = StateStarting \/ s = StateStopping \/ s = StateError
  end.

Lemma state_fits_live s p :
  state_fits s p -> s = StateStarting \/ s = StateRunning \/ s = StateStopping \/ s = StateError.
Proof. destruct p; cbn; naive_solver. Qed.

Section props.
Context {W : Type} {HB : HasBase W} {Wk : Worker W}.
Context (NewWorker : string -> Config -> Z -> option W).
Context (ValueAtQuantile : list Z -> float64 -> Z) (TotalCount : list Z -> Z).
Context (evolves : W -> W -> Prop).

Local Notation engine := (@Engine W).
Local Notation loop_step := (loop_step NewWorker ValueAtQuantile TotalCount).
Local Notation quiet_step := (quiet_step NewWorker ValueAtQuantile TotalCount evolves).
Local Notation calmly_reachable := (calmly_reachable NewWorker ValueAtQuantile TotalCount evolves).

(** The verdict is that of the run's configuration on the engine's snapshots,
    measurement window and memory sizes. *)
Definition verdict_of_run (e : engine) : Prop :=
  exists cfg sn, e_runCfg e = Some cfg /\ e_snapshots e = Some sn /\
    e_verdict e = Some (computeVerdict cfg (e_producersStoppedAt e - e_producersStartedAt e) (e_baselineRSS e) (e_peakRSS e) sn).

(** A verdict exists only once the loop has computed it. *)
Definition verdict_fits (p : pc) (e : engine) : Prop :=
  match p with
  | PStop | PVerdict => e_verdict e = None /\ is_Some (e_snapshots e)
  | PExit => e_verdict e = None \/ (verdict_of_run e /\ e_state e = StateStopping)
  | _ => e_verdict e = None
  end.

Lemma verdict_of_run_some e : verdict_of_run e -> is_Some (e_verdict e) /\ is_Some (e_snapshots e).
Proof. intros (cfg & sn & _ & -> & ->). split; by eexists. Qed.

Record live (e : engine) (k : nat) (t : thread) : Prop := {
  lv_threads : e_threads e = {[ k := t ]};
  lv_cancel : e_runCancel e = Some k;
  lv_done : e_runDone e = Some k;
  lv_next : (k < e_next e)%nat;
  lv_open : k ∉ e_closed e;
  lv_fits : state_fits (e_state e) (t_pc t);
  lv_cfg : e_runCfg e = Some (t_cfg t);
  lv_verdict : verdict_fits (t_pc t) e;
  lv_owner : t_pc t <> PBuild -> e_owner e = k
}.

Record idle (e : engine) : Prop := {
  id_threads : e_threads e = ∅;
  id_state : e_state e = StateIdle \/ e_state e = StateStopped \/ e_state e = StateError;
  id_verdict : e_verdict e = None \/ (verdict_of_run e /\ e_state e = StateStopped)
}.

Record inv (e : engine) : Prop := {
  inv_panic : e_panic e = false;
  inv_closed : forall d, d ∈ e_closed e -> (d < e_next e)%nat;
  inv_runs : idle e \/ exists k t, live e k t
}.

(** The thread of a step is the live one. *)
Lemma live_at e k t k' t' p : live e k t -> at_pc e k' t' p -> k' = k /\ t' = t /\ t_pc t = p.
Proof. intros [Ht _ _ _ _ _ _ _ _] [H1 H2]. rewrite Ht in H1. apply lookup_singleton_Some in H1 as [-> ->]. done. Qed.

Lemma idle_at e k t p : idle e -> ~ at_pc e k t p.
Proof. intros [Ht _ _] [H _]. rewrite Ht, lookup_empty in H. done. Qed.

(** What a run loop's step must show: the run stays live at another point, with
    the channels as they were. *)
Lemma inv_goto e e' k t p :
  inv e -> live e k t ->
  e_threads e' = <[k := mkThread p (t_cfg t)]> (e_threads e) ->
  e_runCancel e' = e_runCancel e -> e_runDone e' = e_runDone e -> e_next e' = e_next e ->
  e_closed e' = e_closed e -> e_panic e' = e_panic e -> e_runCfg e' = e_runCfg e ->
  state_fits (e_state e') p -> verdict_fits p e' ->
  e_owner e' = k -> inv e'.
Proof.
  intros [I1 I2 _] [L1 L2 L3 L4 L5 L6 L7 L8 L9] Ht Hc Hd Hn Hcl Hp Hcfg Hs Hv Ho. split.
  - by rewrite Hp.
  - rewrite Hcl, Hn. done.
  - right. exists k, (mkThread p (t_cfg t)). split; rewrite ?Hc, ?Hd, ?Hn, ?Hcl, ?Hcfg; try done.
    by rewrite Ht, L1, insert_singleton_eq.
Qed.

(** A change of anything the invariant does not speak about. *)
Lemma inv_frame e e' :
  inv e -> e_threads e' = e_threads e -> e_runCancel e' = e_runCancel e -> e_runDone e' = e_runDone e ->
  e_next e' = e_next e -> e_closed e' = e_closed e -> e_panic e' = e_panic e -> e_runCfg e' = e_runCfg e ->
  e_state e' = e_state e -> e_snapshots e' = e_snapshots e -> e_verdict e' = e_verdict e ->
  e_owner e' = e_owner e -> (verdict_of_run e -> verdict_of_run e') -> inv e'.
Proof.
  intros [I1 I2 I3] H1 H2 H3 H4 H5 H6 H7 H8 H9 H10 H11 H12. split.
  - congruence.
  - rewrite H5, H4. done.
  - destruct I3 as [[J1 J2 J3]|(k & t & [L1 L2 L3 L4 L5 L6 L7 L8 L9])].
    + left. split; [congruence|by rewrite H8|]. rewrite H10, H8. destruct J3 as [?|[? ?]]; auto.
    + right. exists k, t. split; rewrite ?H1, ?H2, ?H3, ?H4, ?H5, ?H7, ?H8, ?H11; try done.
      destruct (t_pc t); cbn in *; rewrite ?H9, ?H10, ?H8; try done. destruct L8 as [?|[? ?]]; auto.
Qed.

(** During the measurement there is no verdict to keep. *)
Lemma running_no_verdict e k t : inv e -> at_pc e k t PRunning -> ~ verdict_of_run e.
Proof.
  intros I Hat [[v Hv] _]%verdict_of_run_some. destruct (inv_runs e I) as [Hi|(k0 & t0 & L)]; [by destruct Hi as [Ht _ _]; destruct Hat as [Ha _]; rewrite Ht, lookup_empty in Ha|].
  destruct (live_at _ _ _ _ _ _ L Hat) as (-> & -> & Hp). pose proof (lv_verdict _ _ _ L) as V. rewrite Hp in V. cbn in V. congruence.
Qed.

Lemma inv_exit e k t now : inv e -> live e k t -> t_pc t = PExit -> inv (loop_exit now k e).
Proof.
  intros [I1 I2 _] [L1 L2 L3 L4 L5 L6 L7 L8 L9] Hp. rewrite Hp in *. unfold loop_exit. rewrite L3. split.
  - cbn. rewrite I1. simpl. apply bool_decide_eq_false. intros H. apply H. set_solver.
  - cbn. intros d [->%elem_of_singleton|Hd]%elem_of_union; [done|by apply I2].
  - left. split; cbn [e_threads e_state e_verdict e_snapshots].
    + rewrite L1. apply delete_singleton_eq.
    + case_decide; auto.
    + destruct L8 as [?|[? Hs]]; [by left|]. right. split; [done|]. rewrite Hs. by case_decide.
Qed.

Lemma loop_step_inv e e' : inv e -> loop_step e e' -> inv e'.
Proof.
  intros I Hs. destruct (inv_runs e I) as [Hi|(k0 & t0 & L)].
  { destruct Hs; by edestruct (idle_at e). }
  pose proof (lv_fits _ _ _ L) as F. pose proof (lv_verdict _ _ _ L) as V.
  destruct Hs;
    match goal with H : at_pc _ _ _ _ |- _ => destruct (live_at _ _ _ _ _ _ L H) as (-> & -> & Hp) end;
    pose proof (lv_owner _ _ _ L) as O; rewrite Hp in F, V, O; cbn [state_fits verdict_fits] in F, V;
    try specialize (O ltac:(done)).
  - by apply (inv_goto e _ k0 t0 PConsumers I L).
  - unfold loop_consumers. destruct (start_groups _ _ _) as [started [err|]].
    + apply (inv_goto e _ k0 t0 PExit I L); try done; cbn; auto.
    + by apply (inv_goto e _ k0 t0 PReady I L).
  - unfold loop_ready. destruct timeout.
    + apply (inv_goto e _ k0 t0 PExit I L); try done; cbn; auto.
    + case_bool_decide; [apply (inv_goto e _ k0 t0 PExit I L)|apply (inv_goto e _ k0 t0 PWarmup I L)]; try done; cbn; auto.
  - unfold loop_warmup. cbn [e_cancelled set_groups].
    case_bool_decide; [apply (inv_goto e _ k0 t0 PExit I L)|apply (inv_goto e _ k0 t0 PMeasure I L)]; try done; cbn; auto.
  - by apply (inv_goto e _ k0 t0 PRunning I L).
  - by apply (inv_goto e _ k0 t0 PShutdown I L).
  - by apply (inv_goto e _ k0 t0 PDrain I L).
  - by apply (inv_frame e).
  - by apply (inv_goto e _ k0 t0 PStop I L).
  - by apply (inv_goto e _ k0 t0 PVerdict I L).
  - destruct V as [V1 [sn V2]]. apply (inv_goto e _ k0 t0 PExit I L); try done; cbn; auto. right. split; [|done].
    exists (t_cfg t0), sn. cbn. rewrite V2. split_and!; [exact (lv_cfg _ _ _ L)|done..].
  - by apply (inv_exit e k0 t0).
Qed.

Lemma cancel_inv e k : inv e -> inv (cancel e k).
Proof. intros I. by apply (inv_frame e). Qed.

Lemma quiet_step_inv e e' : inv e -> quiet_step e e' -> inv e'.
Proof.
  intros I Hq. destruct Hq as [e e' Hl|e e' Hp|e e' Hst|e|e g _].
  - by eapply loop_step_inv.
  - destruct Hp as [e k t _|e k t el _|e k t sys el sb Hat|e k t _|e k t _ _]; try by apply (inv_frame e).
    pose proof (running_no_verdict e k t I Hat). unfold memory_tick. case_if; by apply (inv_frame e).
  - unfold StopRun in Hst. destruct (e_state e); simplify_eq; destruct (e_runCancel e); auto using cancel_inv.
  - unfold shutdown_begin. destruct (e_state e); cbn [fst]; try done; destruct (e_runCancel e); auto using cancel_inv.
  - by apply (inv_frame e).
Qed.

(** A start that is admitted finds no run loop, unless the run has failed. *)
Lemma start_alone e e' cfg rid now :
  inv e -> (e_state e = StateError -> e_threads e = ∅) -> StartRunFromConfig cfg rid now e = Ok e' -> e_threads e = ∅.
Proof.
  intros I He H. destruct (inv_runs e I) as [[Ht _ _]|(k & t & L)]; [done|]. unfold StartRunFromConfig in H.
  destruct (state_fits_live _ _ (lv_fits _ _ _ L)) as [E|[E|[E|E]]]; rewrite E in H; try done. by apply He.
Qed.

Lemma start_inv e e' cfg rid now :
  inv e -> (e_state e = StateError -> e_threads e = ∅) -> StartRunFromConfig cfg rid now e = Ok e' -> inv e'.
Proof.
  intros I He H. pose proof (start_alone _ _ _ _ _ I He H) as Ht. destruct I as [I1 I2 I3]. unfold StartRunFromConfig in H.
  assert (e_closed e' = e_closed e /\ e_panic e' = e_panic e /\ e_next e' = S (e_next e) /\
          live e' (e_next e) (mkThread PBuild cfg)) as (E1 & E2 & E3 & L).
  { destruct (e_state e); simplify_eq; (split; [done|]; split; [done|]; split; [done|]; split; cbn; try done;
      [by rewrite Ht|lia|intros Hc%I2; lia]). }
  split; [congruence| |right; by eexists _, _].
  rewrite E1, E3. intros d Hd%I2. lia.
Qed.

Lemma calm_inv cfg e : calmly_reachable cfg e -> inv e.
Proof.
  intros H. apply (rtc_ind_r inv (New cfg)) in H; [done| |].
  - split; [done|set_solver|]. left. split; [done|by left|by left].
  - intros x y _ Hs I. destruct Hs; [by eapply quiet_step_inv|by eapply start_inv].
Qed.

(** C3 (invariant).  Whatever the interleaving of run loops, API calls,
    signals, periodic tasks and worker activity, as long as no run is started
    in the window between a failed run's error state and the return of its run
    loop: no channel is closed twice, at most one run loop exists, a start is
    refused exactly while one is alive and has not failed, and a verdict is only
    ever present in the stopping or stopped state, together with the snapshots
    it was computed from: it is the verdict of the run's own configuration on
    them, over the time between the start and the stop of the producers and
    with the memory sizes the engine holds. *)
Theorem lifecycle_invariant cfg e :
  calmly_reachable cfg e ->
  e_panic e = false /\ (size (e_threads e) <= 1)%nat /\
  (forall c rid now, is_ok (StartRunFromConfig c rid now e) = true <-> e_threads e = ∅ \/ e_state e = StateError) /\
  (forall v, e_verdict e = Some v ->
     (e_state e = StateStopping \/ e_state e = StateStopped) /\
     exists rc sn, e_runCfg e = Some rc /\ e_snapshots e = Some sn /\
       v = computeVerdict rc (e_producersStoppedAt e - e_producersStartedAt e) (e_baselineRSS e) (e_peakRSS e) sn).
Proof.
  intros Hr. assert (forall v, verdict_of_run e -> e_verdict e = Some v ->
    exists rc sn, e_runCfg e = Some rc /\ e_snapshots e = Some sn /\
      v = computeVerdict rc (e_producersStoppedAt e - e_producersStartedAt e) (e_baselineRSS e) (e_peakRSS e) sn) as Hj.
  { intros v (rc & sn & H1 & H2 & H3) Hv. exists rc, sn. split_and!; congruence. }
  destruct (calm_inv cfg e Hr) as [I1 _ [[J1 J2 J3]|(k & t & [L1 L2 L3 L4 L5 L6 L7 L8 L9])]].
  - split; [done|]. rewrite J1. split; [rewrite map_size_empty; lia|]. split.
    + intros c rid now. unfold StartRunFromConfig. destruct J2 as [->|[->| ->]]; cbn; tauto.
    + intros v Hv. destruct J3 as [?|[? ?]]; [congruence|]. auto.
  - split; [done|]. rewrite L1. split; [rewrite map_size_singleton; lia|]. split.
    + intros c rid now. unfold StartRunFromConfig.
      destruct (state_fits_live _ _ L6) as [E|[E|[E|E]]]; rewrite E; cbn;
        (split; [intros; try done; by right|]); intros [Hm|?]; try done; by apply map_non_empty_singleton in Hm.
    + intros v Hv. destruct (t_pc t); cbn in L8; destruct_and?; try congruence.
      destruct L8 as [?|[? ?]]; [congruence|]. auto.
Qed.

(** A signal while a run is starting or running cancels that
    run's context and waits for that run's still open channel.  A signal while
    it is stopping, drained or being stopped does not wait: no verdict exists
    yet, and the process exits with 1 whatever the run's outcome would be. *)
Theorem signal_during_run cfg e k t :
  calmly_reachable cfg e -> e_threads e !! k = Some t ->
  match t_pc t with
  | PBuild | PConsumers | PReady | PWarmup | PMeasure | PRunning =>
      shutdown_begin e = (cancel e k, Some k) /\ k ∉ e_closed e
  | PShutdown | PDrain | PStop | PVerdict =>
      shutdown_begin e = (e, None) /\ shutdown_passed e = false /\ exit_code (e_verdict e) = 1
  | PExit => True
  end.
Proof.
  intros Hr Hk. destruct (calm_inv cfg e Hr) as [_ _ [[J1 _ _]|(k' & t' & [L1 L2 L3 L4 L5 L6 L7 L8 L9])]].
  { rewrite J1, lookup_empty in Hk. done. }
  rewrite L1 in Hk. apply lookup_singleton_Some in Hk as [-> ->].
  unfold shutdown_begin, shutdown_passed, exit_code.
  destruct (t_pc t); cbn in L6, L8; try done; rewrite L6; rewrite ?L2, ?L3; try done;
    first [rewrite L8; done | destruct L8 as [-> _]; done].
Qed.

(** ** Consumers of a failed start *)

(** A consumer whose run loop is gone and whose context nothing cancels. *)
Record orphan (e : engine) (c : consumer) : Prop := {
  or_in : c ∈ e_consumers e;
  or_ctx : cs_ctx c ∉ e_cancelled e;
  or_old : (cs_ctx c < e_next e)%nat;
  or_gone : e_threads e !! cs_ctx c = None;
  or_owner : cs_owner c = cs_ctx c
}.

(** A step of another run that touches neither the cancelled contexts nor the
    consumers. *)
Lemma orphan_goto e e' c k t :
  orphan e c -> live e k t ->
  (e_threads e' = e_threads e \/ (exists t', e_threads e' = <[k := t']> (e_threads e)) \/ e_threads e' = delete k (e_threads e)) ->
  e_cancelled e' = e_cancelled e -> e_next e' = e_next e ->
  (forall c, c ∈ e_consumers e -> cs_owner c <> k -> c ∈ e_consumers e') -> orphan e' c.
Proof.
  intros [O1 O2 O3 O4 O5] L Ht Hc Hn Hcs.
  assert (cs_ctx c <> k) as Hne.
  { intros <-. rewrite (lv_threads _ _ _ L), lookup_singleton_eq in O4. done. }
  split; [apply Hcs; congruence|by rewrite Hc|by rewrite Hn| |done].
  destruct Ht as [->|[[t' ->]| ->]]; [done|by rewrite lookup_insert_ne|by rewrite lookup_delete_ne].
Qed.

Lemma orphan_frame e e' c :
  orphan e c -> e_threads e' = e_threads e -> e_cancelled e' = e_cancelled e -> e_next e' = e_next e ->
  e_consumers e' = e_consumers e -> orphan e' c.
Proof. intros [O1 O2 O3 O4 O5] H1 H2 H3 H4. split; congruence. Qed.

Lemma orphan_loop e e' c : inv e -> orphan e c -> loop_step e e' -> orphan e' c.
Proof.
  intros I Or Hs. destruct (inv_runs e I) as [Hi|(k0 & t0 & L)].
  { destruct Hs; by edestruct (idle_at e). }
  destruct Hs;
    match goal with H : at_pc _ _ _ _ |- _ => destruct (live_at _ _ _ _ _ _ L H) as (-> & -> & Hp) end;
    try (by apply (orphan_frame e)); try (apply (orphan_goto e _ c k0 t0 Or L); try done; right; left; by eexists).
  - unfold loop_consumers. destruct (start_groups _ _ _) as [started [err|]];
      (apply (orphan_goto e _ c k0 t0 Or L); [right; left; by eexists|done|done|]);
      intros c' Hc' _; cbn; set_solver.
  - unfold loop_ready. destruct timeout; (apply (orphan_goto e _ c k0 t0 Or L); try done; right; left; by eexists).
  - apply (orphan_goto e _ c k0 t0 Or L); [right; left; by eexists|done|done|].
    intros c' Hc' Ho. cbn [loop_stop_consumers goto set_thread raise_peak set_outcome set_groups set_consumers e_consumers].
    apply list_elem_of_In, filter_In. split; [by apply list_elem_of_In|].
    apply negb_true_iff, bool_decide_eq_false. rewrite (lv_owner _ _ _ L) by (rewrite Hp; done). done.
  - apply (orphan_goto e _ c k0 t0 Or L); try done. right. by right.
Qed.

Lemma orphan_cancel e c k : inv e -> orphan e c -> e_runCancel e = Some k ->
  (e_state e = StateStarting \/ e_state e = StateRunning) -> orphan (cancel e k) c.
Proof.
  intros I Or Hk Hs. destruct (inv_runs e I) as [[J1 J2 J3]|(k0 & t0 & L)].
  { exfalso. destruct Hs as [Hs|Hs]; rewrite Hs in J2; naive_solver. }
  rewrite (lv_cancel _ _ _ L) in Hk. simplify_eq. destruct Or as [O1 O2 O3 O4 O5]. split; try done.
  cbn. intros [Hc%elem_of_singleton|Hc]%elem_of_union; [|done].
  rewrite Hc, (lv_threads _ _ _ L), lookup_singleton_eq in O4. done.
Qed.

Lemma orphan_calm e e' c :
  inv e -> orphan e c -> calm_step NewWorker ValueAtQuantile TotalCount evolves e e' -> orphan e' c.
Proof.
  intros I Or Hs. destruct Hs as [e e' Hq|e e' cfg rid now Ht Hst].
  - destruct Hq as [e e' Hl|e e' Hp|e e' Hst|e|e g _].
    + by eapply orphan_loop.
    + destruct Hp as [e k t _|e k t el _|e k t sys el sb _|e k t _|e k t _ _]; try by apply (orphan_frame e).
      unfold memory_tick. case_if; by apply (orphan_frame e).
    + unfold StopRun in Hst. destruct (e_state e) eqn:E; simplify_eq; destruct (e_runCancel e) eqn:Ec; try done;
        apply orphan_cancel; auto.
    + unfold shutdown_begin. destruct (e_state e) eqn:E; cbn [fst]; try done; destruct (e_runCancel e) eqn:Ec; try done;
        apply orphan_cancel; auto.
    + by apply (orphan_frame e).
  - unfold StartRunFromConfig in Hst. destruct Or as [O1 O2 O3 O4 O5].
    destruct (e_state e); simplify_eq; (split; cbn; [done|done|lia|rewrite lookup_insert_ne; [done|lia]|done]).
Qed.

(** When a worker fails to start, the run ends in the error state
    and the consumers already started are orphaned: their context has not been
    cancelled and no later step of the engine, including stop requests, signals
    and further complete runs, ever cancels it or stops them. *)
Theorem failed_start_leaks_consumers cfg e k t start now e2 c :
  calmly_reachable cfg e -> at_pc e k t PConsumers -> k ∉ e_cancelled e ->
  let '(started, r) := start_groups start (e_groups e) AllWorkerNames in
  is_Some r -> c ∈ map (fun '(name, i) => mkConsumer k name i k) started ->
  let e1 := loop_exit now k (loop_consumers start k t e) in
  e_state e1 = StateError /\
  (rtc (calm_step NewWorker ValueAtQuantile TotalCount evolves) e1 e2 -> c ∈ e_consumers e2 /\ cs_ctx c ∉ e_cancelled e2).
Proof.
  intros Hr Hat Hk. destruct (start_groups start (e_groups e) AllWorkerNames) as [started r] eqn:Es.
  intros [err ->] Hc e1.
  pose proof (calm_inv cfg e Hr) as I.
  destruct (inv_runs e I) as [Hi|(k0 & t0 & L)]; [by destruct (idle_at e k t PConsumers Hi)|].
  destruct (live_at _ _ _ _ _ _ L Hat) as (-> & -> & Hp).
  assert (inv (loop_consumers start k0 t0 e)) as I1.
  { apply (loop_step_inv e); [done|]. by constructor. }
  assert (at_pc (loop_consumers start k0 t0 e) k0 (mkThread PExit (t_cfg t0)) PExit) as Hat1.
  { split; [|done]. unfold loop_consumers. rewrite Es. cbn. apply lookup_insert_eq. }
  assert (inv e1) as I2. { apply (loop_step_inv (loop_consumers start k0 t0 e)); [done|]. by econstructor. }
  assert (e_state e1 = StateError) as Hst by (unfold e1, loop_consumers; by rewrite Es).
  assert (orphan e1 c) as Or.
  { apply list_elem_of_fmap in Hc as ([name i] & -> & Hin). unfold e1, loop_consumers. rewrite Es.
    split; cbn; [|done|exact (lv_next _ _ _ L)|by rewrite lookup_delete_eq|done].
    apply elem_of_app. right. rewrite (lv_owner _ _ _ L) by (rewrite Hp; done).
    apply list_elem_of_fmap. by exists (name, i). }
  split; [done|]. intros Hrt. clear -Or I2 Hrt. induction Hrt as [x|x y z Hs _ IH]; [by destruct Or|].
  apply IH; [|by eapply orphan_calm]. destruct Hs; [by eapply quiet_step_inv|by eapply start_inv].
Qed.
End props.

(** ** Concrete runs *)

(** A step of the run loop numbered [k], and the test that it is at [p]. *)
Definition at_thread {W} (f : nat -> thread -> @Engine W -> @Engine W) (k : nat) (e : @Engine W) : @Engine W :=
  match e_threads e !! k with Some t => f k t e | None => e end.
Definition thread_at {W} (e : @Engine W) (k : nat) (p : pc) : bool :=
  match e_threads e !! k with Some t => bool_decide (t_pc t = p) | None => false end.

Lemma thread_at_pc {W} (e : @Engine W) k p :
  thread_at e k p = true -> exists t, at_pc e k t p /\ forall f, at_thread f k e = f k t e.
Proof.
  unfold thread_at, at_thread. destruct (e_threads e !! k) as [t|] eqn:E; [|done]. intros H%bool_decide_eq_true.
  exists t. done.
Qed.

Lemma calm_at_thread {W} `{Wk : Worker W} {NewWorker ValueAtQuantile TotalCount evolves} f k p (e : @Engine W) :
  thread_at e k p = true ->
  (forall t, at_pc e k t p -> loop_step NewWorker ValueAtQuantile TotalCount e (f k t e)) ->
  calm_step NewWorker ValueAtQuantile TotalCount evolves e (at_thread f k e).
Proof. intros (t & Hat & Hf)%thread_at_pc Hs. rewrite Hf. by apply c_quiet, q_loop, Hs. Qed.

(** Two ordering_keys channels, measured for a minute. *)
Definition one_config : Config :=
  let off n c := match GetWorkerConfig c n with Some wc => set_worker c n (set_wc_Enabled wc false) | None => c end in
  let c := foldl (fun c n => if String.eqb n WorkerOrderingKeys then c else off n c) DefaultConfig AllWorkerNames in
  set_c_DurationParsed
    match GetWorkerConfig c WorkerOrderingKeys with
    | Some wc => set_worker c WorkerOrderingKeys (set_wc_Channels wc 2)
    | None => c
    end Minute.
Definition new_one (name : string) (cfg : Config) (idx : Z) : option OrderingKeysWorker :=
  if String.eqb name WorkerOrderingKeys then NewOrderingKeysWorker (fun _ => "") cfg idx else None.
Definition vq (_ : list Z) (_ : float64) : Z := 0.
Definition tc (l : list Z) : Z := Z.of_nat (length l).

Local Notation one_engine := (@Engine OrderingKeysWorker).

Definition the_start (now : Z) (e : one_engine) : one_engine :=
  match StartRunFromConfig one_config "r" now e with Ok e' => e' | Err _ => e end.
Definition refuse (_ : string) (_ : nat) : option string := Some "down".
Definition accept (_ : string) (_ : nat) : option string := None.

(** A failed run, restarted before its deferred function has run. *)
Definition raced : list (one_engine -> one_engine) :=
  [the_start 0; at_thread (loop_build new_one) 0; at_thread (loop_consumers refuse) 0;
   the_start 1; loop_exit 2 0;
   at_thread (loop_build new_one) 1; at_thread (loop_consumers refuse) 1; loop_exit 3 1].
Definition run_steps (l : list (one_engine -> one_engine)) : one_engine := foldl (fun e f => f e) (New one_config) l.

Lemma the_start_step now e :
  is_ok (StartRunFromConfig one_config "r" now e) = true -> step new_one vq tc eq e (the_start now e).
Proof.
  unfold the_start. intros H. destruct (StartRunFromConfig one_config "r" now e) as [e'|] eqn:E; [|done]. by econstructor.
Qed.
Lemma at_thread_step f k p e :
  thread_at e k p = true -> (forall t, at_pc e k t p -> loop_step new_one vq tc e (f k t e)) ->
  step new_one vq tc eq e (at_thread f k e).
Proof. intros (t & Hat & Hf)%thread_at_pc Hs. rewrite Hf. by apply s_quiet, q_loop, Hs. Qed.
Lemma exit_step now k e : thread_at e k PExit = true -> step new_one vq tc eq e (loop_exit now k e).
Proof. intros (t & Hat & _)%thread_at_pc. by eapply s_quiet, q_loop, s_exit. Qed.

(** Undo the last step of a concrete run; what it needs is computed. *)
Ltac undo_start := eapply rtc_r; [|apply the_start_step; vm_compute; reflexivity].
Ltac undo_exit := eapply rtc_r; [|apply exit_step; vm_compute; reflexivity].
Ltac undo c p := eapply rtc_r; [|apply (at_thread_step _ _ p); [vm_compute; reflexivity|intros; by apply c]].

(** The window between a failed run's error state and its deferred
    function admits a new run, and then the old function stops the new run's
    state and closes its channel; when the new run ends the channel is closed
    again, and the process panics. *)
Theorem restart_race_panics :
  exists e, reachable (W := OrderingKeysWorker) new_one vq tc eq one_config e /\ e_panic e = true.
Proof.
  exists (run_steps raced). split; [|vm_compute; reflexivity]. unfold reachable, run_steps, raced. cbn [foldl].
  undo_exit. undo s_consumers PConsumers. undo s_build PBuild. undo_exit. undo_start.
  undo s_consumers PConsumers. undo s_build PBuild. undo_start. apply rtc_refl.
Qed.

Lemma calm_start now e :
  is_ok (StartRunFromConfig one_config "r" now e) = true -> (size (e_threads e) =? 0)%nat = true ->
  calm_step new_one vq tc eq e (the_start now e).
Proof.
  unfold the_start. intros H Hs%Nat.eqb_eq%map_size_empty_inv.
  destruct (StartRunFromConfig one_config "r" now e) as [e'|] eqn:E; [|done]. by eapply c_start.
Qed.
Ltac calm_undo c p := eapply rtc_r; [|apply (calm_at_thread _ _ p); [vm_compute; reflexivity|intros; by apply c]].

(** A run that has been measured and is draining. *)
Definition draining : list (one_engine -> one_engine) :=
  [the_start 0; at_thread (loop_build new_one) 0; at_thread (loop_consumers accept) 0; at_thread (loop_ready None) 0;
   at_thread (loop_warmup 1 [] true) 0; at_thread (loop_measure 2) 0; at_thread loop_stop 0;
   at_thread (loop_shutdown 3 []) 0].

Lemma draining_reachable : calmly_reachable new_one vq tc eq one_config (run_steps draining).
Proof.
  unfold calmly_reachable, run_steps, draining. cbn [foldl].
  calm_undo s_shutdown PShutdown.
  eapply rtc_r; [|apply (calm_at_thread _ _ PRunning); [vm_compute; reflexivity|]].
  2: { intros t Ht. apply s_stop_measure; [done|]. right. destruct Ht as [Ht _]. revert Ht. vm_compute. intros [= <-]. done. }
  calm_undo s_measure PMeasure.
  eapply rtc_r; [|apply (calm_at_thread _ _ PWarmup); [vm_compute; reflexivity|intros; by apply s_warmup]].
  calm_undo s_ready PReady. calm_undo s_consumers PConsumers. calm_undo s_build PBuild.
  eapply rtc_r; [apply rtc_refl|]. apply calm_start; vm_compute; reflexivity.
Qed.

Lemma lifecycle_invariant_witness :
  e_panic (run_steps draining) = false /\ (size (e_threads (run_steps draining)) <= 1)%nat.
Proof.
  destruct (lifecycle_invariant new_one vq tc eq one_config (run_steps draining) draining_reachable) as (H1 & H2 & _).
  split; assumption.
Defined.

Lemma signal_during_run_witness :
  shutdown_begin (run_steps draining) = (run_steps draining, None) /\
  exit_code (e_verdict (run_steps draining)) = 1.
Proof.
  destruct (signal_during_run new_one vq tc eq one_config (run_steps draining) 0 (mkThread PDrain one_config)
    draining_reachable ltac:(vm_compute; reflexivity)) as (H1 & _ & H2).
  split; assumption.
Defined.

Definition starting : list (one_engine -> one_engine) := [the_start 0; at_thread (loop_build new_one) 0].
Lemma starting_reachable : calmly_reachable new_one vq tc eq one_config (run_steps starting).
Proof.
  unfold calmly_reachable, run_steps, starting. cbn [foldl]. calm_undo s_build PBuild.
  eapply rtc_r; [apply rtc_refl|]. apply calm_start; vm_compute; reflexivity.
Qed.
Definition refuse_second (_ : string) (i : nat) : option string := if (i =? 1)%nat then Some "down" else None.

Lemma failed_start_leaks_consumers_witness :
  let e1 := loop_exit 9 0 (loop_consumers refuse_second 0 (mkThread PConsumers one_config) (run_steps starting)) in
  e_state e1 = StateError /\ mkConsumer 0 WorkerOrderingKeys 0 0 ∈ e_consumers e1.
Proof.
  pose proof (failed_start_leaks_consumers new_one vq tc eq one_config (run_steps starting) 0
    (mkThread PConsumers one_config) refuse_second 9
    (loop_exit 9 0 (loop_consumers refuse_second 0 (mkThread PConsumers one_config) (run_steps starting)))
    (mkConsumer 0 WorkerOrderingKeys 0 0) starting_reachable
    ltac:(split; vm_compute; reflexivity) ltac:(vm_compute; intros H; inversion H)) as H.
  assert (start_groups refuse_second (e_groups (run_steps starting)) AllWorkerNames =
    ([(WorkerOrderingKeys, 0%nat)],
     Some (Sprintf "start consumer for %s/%s: %w" [AStr WorkerOrderingKeys;
       AStr "pubsub.gcp_burnin_ordering_keys_0002"; AStr "down"]))) as E by (vm_compute; reflexivity).
  rewrite E in H. destruct (H ltac:(by eexists) ltac:(apply list_elem_of_here)) as [H1 H2].
  split; [exact H1|]. apply H2, rtc_refl.
Defined.

(** ** Draining *)

Lemma drain_stops deadline prev stable n polls i c r :
  polls !! i = Some (c, r) -> deadline <= c ->
  exists m b, drain_loop deadline prev stable n polls = Some (m, b) /\ (m <= n + i)%nat.
Proof.
  revert prev stable n i. induction polls as [|[clock cur] polls IH]; intros prev stable n i Hi Hc; [done|].
  cbn [drain_loop]. case_if; [exists n, false; split; [done|lia]|].
  destruct i as [|i]; [simpl in Hi; simplify_eq; lia|]. simpl in Hi.
  destruct (cur =? prev).
  - case_if; [exists (S n), true; split; [done|lia]|].
    destruct (IH prev (stable + 1) (S n) i Hi Hc) as (m & b & H1 & H2). exists m, b. split; [done|lia].
  - destruct (IH cur 0 (S n) i Hi Hc) as (m & b & H1 & H2). exists m, b. split; [done|lia].
Qed.

(** [pre] are the totals read so far, ending in [stable + 1] readings of [prev]. *)
Lemma drain_quiet deadline prev stable n polls m pre pre0 :
  pre = pre0 ++ replicate (S (Z.to_nat stable)) prev -> 0 <= stable < stablePolls ->
  drain_loop deadline prev stable n polls = Some (m, true) ->
  exists pre' v, pre ++ take (m - n) (map snd polls) = pre' ++ replicate 5 v /\ (n < m)%nat.
Proof.
  revert prev stable n pre pre0. induction polls as [|[clock cur] polls IH]; intros prev stable n pre pre0 Hpre Hs H; [done|].
  cbn [drain_loop] in H. destruct (deadline <=? clock); [done|].
  assert (forall k, (S n < k)%nat ->
    pre ++ take (k - n) (map snd ((clock, cur) :: polls)) = (pre ++ [cur]) ++ take (k - S n) (map snd polls)) as Hk.
  { intros k Hk. replace (k - n)%nat with (S (k - S n)) by lia. cbn. by rewrite <- app_assoc. }
  destruct (cur =? prev) eqn:E; zbool; subst.
  - destruct (stablePolls <=? stable + 1) eqn:El; zbool.
    + simplify_eq. exists pre0, prev. replace (S n - n)%nat with 1%nat by lia. split; [|lia]. cbn.
      unfold stablePolls in *. assert (stable = 3) as -> by lia. by rewrite <- app_assoc.
    + destruct (IH prev (stable + 1) (S n) ((pre0 ++ replicate (S (Z.to_nat stable)) prev) ++ [prev]) pre0) as (p' & v & H1 & H2);
        [|lia|done|].
      { rewrite <- app_assoc. f_equal. replace (S (Z.to_nat (stable + 1))) with (S (Z.to_nat stable) + 1)%nat by lia.
        by rewrite replicate_add. }
      exists p', v. split; [|lia]. by rewrite Hk.
  - destruct (IH cur 0 (S n) ((pre0 ++ replicate (S (Z.to_nat stable)) prev) ++ [cur]) (pre0 ++ replicate (S (Z.to_nat stable)) prev))
      as (p' & v & H1 & H2); [done|done|done|].
    exists p', v. split; [|lia]. by rewrite Hk.
Qed.

(** C8 (termination).  The drain always returns: when every poll takes at
    least the poll interval, at the latest after the polls that fit into the
    drain window (one second when the configured one is not positive).  When it
    returns on quiescence, the last five readings of the received total are
    equal. *)
Theorem drain_terminates_quiescent maxWait start received polls :
  (forall i c r, polls !! i = Some (c, r) -> start + Z.of_nat i * pollInterval <= c) ->
  let window := if maxWait <=? 0 then Second else maxWait in
  window <= Z.of_nat (length polls - 1) * pollInterval -> polls <> [] ->
  exists m quiet, drainToQuiescence maxWait start received polls = Some (m, quiet) /\
    Z.of_nat m <= Z.quot (window + pollInterval - 1) pollInterval /\
    (quiet = true -> exists pre v, received :: take m (map snd polls) = pre ++ replicate 5 v).
Proof.
  intros Hclock window Hlen Hne. unfold drainToQuiescence. fold window.
  assert (0 < window) as Hw by (unfold window; case_if; unfold Second; lia).
  set (i := Z.to_nat (Z.quot (window + pollInterval - 1) pollInterval)).
  assert (window <= Z.of_nat i * pollInterval /\ Z.of_nat i <= Z.of_nat (length polls - 1)) as [Hi1 Hi2].
  { unfold i. rewrite Z2Nat.id, Z.quot_div_nonneg by (unfold pollInterval, Millisecond; first [apply Z.quot_pos; lia|lia]).
    pose proof (Z.div_mod (window + pollInterval - 1) pollInterval ltac:(done)) as Hd.
    pose proof (Z.mod_pos_bound (window + pollInterval - 1) pollInterval ltac:(done)) as Hm.
    unfold pollInterval, Millisecond in *. nia. }
  destruct (lookup_lt_is_Some_2 polls i) as [[c r] Hi].
  { destruct polls; [done|]. cbn [length] in *. lia. }
  destruct (drain_stops (start + window) received 0 0 polls i c r Hi) as (m & b & H1 & H2).
  { specialize (Hclock i c r Hi). lia. }
  exists m, b. split; [done|]. split.
  { unfold i in H2. assert (0 <= Z.quot (window + pollInterval - 1) pollInterval) by (apply Z.quot_pos; unfold pollInterval, Millisecond; lia).
    lia. }
  intros ->. destruct (drain_quiet (start + window) received 0 0 polls m [received] [] eq_refl ltac:(done) H1)
    as (pre & v & H3 & _). rewrite Nat.sub_0_r in H3. by exists pre, v.
Qed.

Lemma drain_terminates_quiescent_witness :
  exists m quiet, drainToQuiescence Second 0 7 [(0, 9); (250000000, 9); (500000000, 9); (750000000, 9); (1000000000, 9)]
    = Some (m, quiet).
Proof.
  destruct (drain_terminates_quiescent Second 0 7
    [(0, 9); (250000000, 9); (500000000, 9); (750000000, 9); (1000000000, 9)]) as (m & q & H & _).
  - intros i c r Hi. do 5 (destruct i as [|i]; [simplify_eq/=; vm_compute; congruence|]). done.
  - vm_compute. congruence.
  - done.
  - exists m, q. exact H.
Defined.
