(* ===== verification/RunEnds.v ===== *)
(** * A run ends

    On every infinite schedule in which the run loop of a run is not forever
    kept from a step it can take, a run with a duration, or one that is
    cancelled, ends: its channel is closed and the engine is free for the next. *)
From S2P Require Import Prelude GoFloat GoFmt Config Payload Tracker Metrics Transport Worker Verdict Report.
From S2P Require Import Handlers OrderingKeys Engine EngineProps.

(** The program points of a run loop left before it is gone. *)
Definition pc_rank (p : pc) : nat :=
  match p with
  | PBuild => 11 | PConsumers => 10 | PReady => 9 | PWarmup => 8 | PMeasure => 7 | PRunning => 6
  | PShutdown => 5 | PDrain => 4 | PStop => 3 | PVerdict => 2 | PExit => 1
  end.

(** From the measurement on, a run loop comes to its end by its verdict. *)
Definition judged {A} (p : pc) (v : option A) : Prop :=
  match p with
  | PRunning | PShutdown | PDrain | PStop | PVerdict => True
  | PExit => is_Some v
  | _ => False
  end.

Section ends.
Context {W : Type} {HB : HasBase W} {Wk : Worker W}.
Context (NewWorker : string -> Config -> Z -> option W).
Context (ValueAtQuantile : list Z -> float64 -> Z) (TotalCount : list Z -> Z).
Context (evolves : W -> W -> Prop).

Local Notation engine := (@Engine W).
Local Notation loop_step := (loop_step NewWorker ValueAtQuantile TotalCount).
Local Notation quiet_step := (quiet_step NewWorker ValueAtQuantile TotalCount evolves).
Local Notation calm_step := (calm_step NewWorker ValueAtQuantile TotalCount evolves).
Local Notation calmly_reachable := (calmly_reachable NewWorker ValueAtQuantile TotalCount evolves).

(** Run loop [k] gets to another point; a poll of the drain is not such a step. *)
Definition moves (k : nat) (e e' : engine) : Prop := loop_step e e' /\ e_threads e' !! k <> e_threads e !! k.

(** A schedule is fair to a run loop when again and again the loop moves or
    cannot move. *)
Definition fair (k : nat) (tr : nat -> engine) : Prop :=
  forall n, exists m, (n <= m)%nat /\ (moves k (tr m) (tr (S m)) \/ ~ exists e', moves k (tr m) e').

(** The measurement of run loop [k] can end. *)
Definition bounded (k : nat) (t : thread) (e : engine) : Prop :=
  k ∈ e_cancelled e \/ 0 < c_DurationParsed (t_cfg t).

(** The run is over. *)
Record ended (k : nat) (e : engine) : Prop := {
  en_gone : e_threads e !! k = None;
  en_closed : k ∈ e_closed e;
  en_free : e_state e = StateStopped \/ e_state e = StateError
}.

(** What one step does to a live run loop. *)
Record carried (k : nat) (t : thread) (e e' : engine) (t' : thread) : Prop := {
  ca_thread : e_threads e' !! k = Some t';
  ca_cfg : t_cfg t' = t_cfg t;
  ca_rank : (pc_rank (t_pc t') <= pc_rank (t_pc t))%nat;
  ca_moved : t' <> t -> (pc_rank (t_pc t') < pc_rank (t_pc t))%nat;
  ca_cancelled : e_cancelled e ⊆ e_cancelled e';
  ca_judged : judged (t_pc t) (e_verdict e) -> judged (t_pc t') (e_verdict e')
}.

Lemma carried_goto k t e e' p :
  e_threads e' = <[k := mkThread p (t_cfg t)]> (e_threads e) -> e_cancelled e' = e_cancelled e ->
  (pc_rank p < pc_rank (t_pc t))%nat -> (judged (t_pc t) (e_verdict e) -> judged p (e_verdict e')) ->
  carried k t e e' (mkThread p (t_cfg t)).
Proof.
  intros Ht Hc Hr Hj. split; cbn [t_pc t_cfg]; try done; [by rewrite Ht, lookup_insert_eq|lia|by rewrite Hc].
Qed.

Lemma carried_frame k t e e' :
  e_threads e !! k = Some t -> e_threads e' = e_threads e -> e_cancelled e ⊆ e_cancelled e' -> e_verdict e' = e_verdict e ->
  carried k t e e' t.
Proof. intros Hk Ht Hc Hv. split; try done; [by rewrite Ht|by rewrite Hv]. Qed.

(** A step of the loop carries it on or ends the run. *)
Lemma loop_carries e e' k t :
  inv e -> e_threads e !! k = Some t -> loop_step e e' ->
  (exists t', carried k t e e' t') \/ (ended k e' /\ (judged (t_pc t) (e_verdict e) -> is_Some (e_verdict e'))).
Proof.
  intros I Hk Hs. destruct (inv_runs e I) as [Hi|(k0 & t0 & L)].
  { destruct Hs; by edestruct (idle_at e). }
  assert (k = k0 /\ t = t0) as [-> ->].
  { rewrite (lv_threads _ _ _ L) in Hk. apply lookup_singleton_Some in Hk as [-> ->]. done. }
  destruct Hs; match goal with H : at_pc _ _ _ _ |- _ => destruct (live_at _ _ _ _ _ _ L H) as (-> & -> & Hp) end;
    try (left; eexists; apply carried_goto; [done|done|rewrite Hp; cbn; lia|rewrite Hp; done]).
  - left. unfold loop_consumers. destruct (start_groups _ _ _) as [started [err|]];
      (eexists; apply carried_goto; [done|done|rewrite Hp; cbn; lia|by rewrite Hp]).
  - left. unfold loop_ready. destruct timeout; [|case_bool_decide];
      (eexists; apply carried_goto; [done|done|rewrite Hp; cbn; lia|by rewrite Hp]).
  - left. unfold loop_warmup. cbn [e_cancelled set_groups]. case_bool_decide;
      (eexists; apply carried_goto; [done|done|rewrite Hp; cbn; lia|by rewrite Hp]).
  - left. exists t0. by apply carried_frame.
  - left. eexists. apply carried_goto; [done|done|rewrite Hp; cbn; lia|]. intros _. by eexists.
  - right. split; [|rewrite Hp; done]. unfold loop_exit. rewrite (lv_done _ _ _ L).
    split; cbn; [by rewrite lookup_delete_eq|set_solver|case_decide; auto].
Qed.

Lemma quiet_carries e e' k t :
  inv e -> e_threads e !! k = Some t -> quiet_step e e' ->
  (exists t', carried k t e e' t') \/ (ended k e' /\ (judged (t_pc t) (e_verdict e) -> is_Some (e_verdict e'))).
Proof.
  intros I Hk Hq. destruct Hq as [e e' Hl|e e' Hp|e e' Hst|e|e g _]; [by apply loop_carries|left; exists t..].
  - destruct Hp as [e k' t' _|e k' t' el _|e k' t' sys el sb _|e k' t' _|e k' t' _ _]; try by apply carried_frame.
    unfold memory_tick. case_if; by apply carried_frame.
  - unfold StopRun in Hst. destruct (e_state e); simplify_eq; destruct (e_runCancel e); apply carried_frame; try done; cbn; set_solver.
  - unfold shutdown_begin. destruct (e_state e); cbn [fst]; try (by apply carried_frame);
      destruct (e_runCancel e); apply carried_frame; try done; cbn; set_solver.
  - by apply carried_frame.
Qed.

(** A live run loop that is not in an open-ended measurement can move. *)
Lemma can_move e k t : inv e -> e_threads e !! k = Some t -> bounded k t e -> exists e', moves k e e'.
Proof.
  intros I Hk Hb.
  assert (forall p e', loop_step e e' -> e_threads e' = <[k := mkThread p (t_cfg t)]> (e_threads e) -> p <> t_pc t ->
            exists e', moves k e e') as Hm.
  { intros p e' Hs Ht Hp. exists e'. split; [done|]. rewrite Ht, lookup_insert_eq, Hk. intros E. apply (inj Some), (f_equal t_pc) in E. by apply Hp. }
  destruct (t_pc t) eqn:Hp.
  - by apply (Hm PConsumers (loop_build NewWorker k t e)); [constructor|..].
  - pose proof (s_consumers NewWorker ValueAtQuantile TotalCount e k t (fun _ _ => None) (conj Hk Hp)) as Hs.
    unfold loop_consumers in Hs. destruct (start_groups _ _ _) as [started [err|]]; [by apply (Hm PExit _ Hs)|by apply (Hm PReady _ Hs)].
  - pose proof (s_ready NewWorker ValueAtQuantile TotalCount e k t None (conj Hk Hp)) as Hs.
    unfold loop_ready in Hs. case_bool_decide; [by apply (Hm PExit _ Hs)|by apply (Hm PWarmup _ Hs)].
  - pose proof (s_warmup NewWorker ValueAtQuantile TotalCount e k t 0 [] true (conj Hk Hp) ltac:(done)) as Hs.
    unfold loop_warmup in Hs. cbn [e_cancelled set_groups] in Hs. case_bool_decide; [by apply (Hm PExit _ Hs)|by apply (Hm PMeasure _ Hs)].
  - by apply (Hm PRunning (loop_measure 0 k t e)); [constructor|..].
  - by apply (Hm PShutdown (loop_stop k t e)); [constructor|..].
  - by apply (Hm PDrain (loop_shutdown 0 [] k t e)); [constructor|..].
  - by apply (Hm PStop (loop_capture ValueAtQuantile TotalCount k t e)); [constructor|..].
  - by apply (Hm PVerdict (loop_stop_consumers 0 0 k t e)); [constructor|..].
  - by apply (Hm PExit (loop_verdict k t e)); [constructor|..].
  - exists (loop_exit 0 k e). split; [by apply (s_exit _ _ _ e k t)|]. cbn. by rewrite lookup_delete_eq, Hk.
Qed.

(** ** Schedules *)

Section schedule.
Context (tr : nat -> engine) (cfg : Config) (k : nat).
Hypothesis tr_start : calmly_reachable cfg (tr 0%nat).
Hypothesis tr_steps : forall n, calm_step (tr n) (tr (S n)).
Hypothesis tr_fair : fair k tr.

Lemma schedule_inv n : inv (tr n).
Proof.
  apply (calm_inv NewWorker ValueAtQuantile TotalCount evolves cfg). induction n as [|n IH]; [done|]. by eapply rtc_r.
Qed.

(** One step of the schedule. *)
Lemma schedule_step n t :
  e_threads (tr n) !! k = Some t ->
  (exists t', carried k t (tr n) (tr (S n)) t') \/
  (ended k (tr (S n)) /\ (judged (t_pc t) (e_verdict (tr n)) -> is_Some (e_verdict (tr (S n))))).
Proof.
  intros Hk. pose proof (schedule_inv n) as Hi.
  destruct (tr_steps n) as [e e' Hq|e e' c rid now He Hst]; [by apply quiet_carries|].
  by rewrite (start_alone e e' c rid now Hi He Hst), lookup_empty in Hk.
Qed.

(** Up to any later moment the loop is carried on, unless the run has ended. *)
Lemma schedule_until n m t :
  (n <= m)%nat -> e_threads (tr n) !! k = Some t -> bounded k t (tr n) ->
  (exists t', e_threads (tr m) !! k = Some t' /\ bounded k t' (tr m) /\ (pc_rank (t_pc t') <= pc_rank (t_pc t))%nat /\
     (judged (t_pc t) (e_verdict (tr n)) -> judged (t_pc t') (e_verdict (tr m)))) \/
  exists m', ended k (tr m') /\ (judged (t_pc t) (e_verdict (tr n)) -> is_Some (e_verdict (tr m'))).
Proof.
  intros Hnm Hk Hb. induction Hnm as [|m Hnm IH]; [left; by exists t|].
  destruct IH as [(t1 & H1 & H2 & H3 & H4)|H]; [|by right].
  destruct (schedule_step m t1 H1) as [[t2 [C1 C2 C3 C4 C5 C6]]|[He Hv]]; [|right; exists (S m); auto].
  left. exists t2. split; [done|]. split; [|split; [lia|auto]].
  destruct H2 as [H2|H2]; [left; by apply C5|right; by rewrite C2].
Qed.

Lemma run_comes_to_end r n t :
  (pc_rank (t_pc t) <= r)%nat -> e_threads (tr n) !! k = Some t -> bounded k t (tr n) ->
  exists m, ended k (tr m) /\ (judged (t_pc t) (e_verdict (tr n)) -> is_Some (e_verdict (tr m))).
Proof.
  revert n t. induction r as [|r IH]; intros n t Hr Hk Hb; [destruct (t_pc t); cbn in Hr; lia|].
  destruct (tr_fair n) as (m & Hm & Hf).
  destruct (schedule_until n m t Hm Hk Hb) as [(t1 & H1 & H2 & H3 & H4)|He]; [|done].
  destruct Hf as [[_ Hmv]|Hno]; [|exfalso; apply Hno; apply (can_move _ _ t1); [apply schedule_inv|done..]].
  destruct (schedule_step m t1 H1) as [[t2 [C1 C2 C3 C4 C5 C6]]|[He Hv]]; [|exists (S m); auto].
  assert (pc_rank (t_pc t2) < pc_rank (t_pc t1))%nat by (apply C4; congruence).
  destruct (IH (S m) t2) as (m' & He & Hj); [lia|done| |exists m'; auto].
  destruct H2 as [H2|H2]; [left; by apply C5|right; by rewrite C2].
Qed.

(** C4 (liveness).  On any infinite schedule of calm steps that is fair to run
    loop [k], whatever the API, the signals, the periodic tasks and the workers
    do in between: a run with a duration, or one whose context is cancelled,
    ends.  Its loop is gone, its channel closed, and the engine stopped or in
    error; and if it had begun its measurement, it ends stopped and with a
    verdict. *)
Theorem run_ends n t :
  e_threads (tr n) !! k = Some t -> bounded k t (tr n) ->
  exists m, ended k (tr m) /\
    (t_pc t = PRunning -> e_state (tr m) = StateStopped /\ is_Some (e_verdict (tr m))).
Proof.
  intros Hk Hb. destruct (run_comes_to_end _ n t (reflexivity _) Hk Hb) as (m & He & Hj).
  exists m. split; [done|]. destruct He as [E1 E2 E3]. intros Hp. rewrite Hp in Hj. specialize (Hj I). split; [|done].
  destruct (schedule_inv m) as [_ _ [[J1 J2 [J3|[J3 J4]]]|(k' & t' & L)]]; [by rewrite J3 in Hj; destruct Hj|done|].
  pose proof (lv_fits _ _ _ L) as F. pose proof (lv_verdict _ _ _ L) as V.
  destruct E3 as [E3|E3]; [done|]. rewrite E3 in F. destruct (t_pc t'); cbn in F, V; try naive_solver.
  destruct V as [V|[_ V]]; [|congruence]. rewrite V in Hj. by destruct Hj.
Qed.
End schedule.
End ends.

(** ** A schedule *)

(** The measured run of the other samples to its end, and then nothing but
    signals, which a stopped engine ignores. *)
Definition whole_run : list (@Engine OrderingKeysWorker -> @Engine OrderingKeysWorker) :=
  draining ++ [at_thread (loop_capture vq tc) 0; at_thread (loop_stop_consumers 4 0) 0; at_thread loop_verdict 0; loop_exit 5 0].
Definition sample_schedule (n : nat) : @Engine OrderingKeysWorker := run_steps (take n whole_run).

Lemma sample_late n : (12 <= n)%nat -> sample_schedule n = run_steps whole_run.
Proof. intros Hn. unfold sample_schedule. by rewrite take_ge. Qed.

Lemma sample_next n f : whole_run !! n = Some f -> sample_schedule (S n) = f (sample_schedule n).
Proof. intros H. unfold sample_schedule, run_steps. by rewrite (take_S_r _ _ f H), foldl_app. Qed.

Lemma calm_exit now k e : thread_at e k PExit = true -> calm_step new_one vq tc eq e (loop_exit now k e).
Proof. intros (t & Hat & _)%thread_at_pc. by eapply c_quiet, q_loop, s_exit. Qed.
Lemma calm_stopped (e : @Engine OrderingKeysWorker) : e_state e = StateStopped -> calm_step new_one vq tc eq e e.
Proof.
  intros H. assert (shutdown_begin e = (e, None)) as E by (unfold shutdown_begin; by rewrite H).
  pose proof (c_quiet new_one vq tc eq _ _ (q_signal new_one vq tc eq e)) as Hs. by rewrite E in Hs.
Qed.

(** One step of a concrete schedule. *)
Ltac calm_next c p :=
  erewrite sample_next by reflexivity; apply (calm_at_thread _ 0 p); [vm_compute; reflexivity|intros; by apply c].

Lemma sample_steps n : calm_step new_one vq tc eq (sample_schedule n) (sample_schedule (S n)).
Proof.
  do 12 try (destruct n as [|n]).
  13: { rewrite !sample_late by lia. apply calm_stopped. vm_compute. reflexivity. }
  - erewrite sample_next by reflexivity. apply (calm_start 0); vm_compute; reflexivity.
  - calm_next s_build PBuild.
  - calm_next s_consumers PConsumers.
  - calm_next s_ready PReady.
  - calm_next s_warmup PWarmup.
  - calm_next s_measure PMeasure.
  - erewrite sample_next by reflexivity. apply (calm_at_thread _ 0 PRunning); [vm_compute; reflexivity|].
    intros t Ht. apply s_stop_measure; [done|]. right. destruct Ht as [Ht _]. revert Ht. vm_compute. intros [= <-]. done.
  - calm_next s_shutdown PShutdown.
  - calm_next s_capture PDrain.
  - calm_next s_stop_consumers PStop.
  - calm_next s_verdict PVerdict.
  - erewrite sample_next by reflexivity. apply (calm_exit 5 0). vm_compute. reflexivity.
Qed.

(** Once the loop is gone it cannot move: the schedule is fair to it. *)
Lemma sample_fair : fair new_one vq tc 0 sample_schedule.
Proof.
  intros n. exists (Nat.max n 12). split; [lia|]. right. rewrite sample_late by lia. intros (e' & Hs & _).
  assert (size (e_threads (run_steps whole_run)) = 0)%nat as E%map_size_empty_inv by (vm_compute; reflexivity).
  remember (run_steps whole_run) as e eqn:He. destruct Hs; match goal with H : at_pc _ _ _ _ |- _ => destruct H as [H _] end;
    by rewrite E, lookup_empty in H.
Qed.

Lemma run_ends_witness :
  exists m, e_threads (sample_schedule m) !! 0%nat = None /\ is_Some (e_verdict (sample_schedule m)).
Proof.
  destruct (run_ends new_one vq tc eq sample_schedule one_config 0 (rtc_refl _ _) sample_steps sample_fair 6
              (mkThread PRunning one_config)) as (m & H1 & H2).
  - vm_compute. reflexivity.
  - right. reflexivity.
  - exists m. split; [exact (en_gone _ _ H1)|]. apply H2. reflexivity.
Defined.
