(* ===== verification/Shutdown.v ===== *)
(** * How long stopping takes, and whom the periodic tasks reach

    The waits of the shutdown with their clocks: a worker's [StopProducers] and
    [StopConsumers] wait for its goroutines for at most [stopWaitTimeout]; a
    group stops its channels one after the other, the groups are stopped side by
    side; between the two comes the drain; [GracefulShutdown] waits 120 seconds
    for all of it.  Then the goroutines that live beside a run: which tasks are
    started, the forced-disconnect manager and the watcher that cancels a
    receive, and the list of workers the manager was given. *)
From S2P Require Import Prelude GoFloat GoFmt Config Payload Tracker Metrics Transport Worker Verdict Report.
From S2P Require Import Handlers OrderingKeys Engine EngineProps.

(** ** Waiting with a limit *)

(** A select between an event and [time.After d]: [ready] is when the event
    comes, [None] when it never does, and [tie] is the choice when both are
    ready at once.  The result is the time spent and whether the event won. *)
Definition select_after (tie : bool) (ready : option Z) (d : Z) : Z * bool :=
  match ready with
  | Some r => if r <? d then (Z.max 0 r, true) else if r =? d then (Z.max 0 d, tie) else (Z.max 0 d, false)
  | None => (Z.max 0 d, false)
  end.

(** [sleepCtx]: [cancel] is when the context is cancelled. *)
Definition sleepCtx (tie : bool) (cancel : option Z) (d : Z) : Z * bool :=
  let '(t, cancelled) := select_after tie cancel d in (t, negb cancelled).

(** How the goroutines of a wait group unwind once their context is cancelled:
    when the last of them returns. *)
Definition waitWGTimeout (tie : bool) (unwind : option Z) (d : Z) : Z * bool := select_after tie unwind d.

(** One worker's stop: when its goroutines return, and how long the code around
    the wait takes (settling its own maps, closing its clients). *)
Record stop := mkStop { st_unwind : option Z; st_tie : bool; st_own : Z }.

(** [StopProducers] and [StopConsumers] of the base worker: the time spent and
    the warning logged when the wait gave up. *)
Definition stop_base (warning : string) (s : stop) : Z * list string :=
  let '(t, ok) := waitWGTimeout (st_tie s) (st_unwind s) stopWaitTimeout in (t, if ok then [] else [warning]).
Definition StopProducers_base : stop -> Z * list string := stop_base "producer stop timed out".
Definition StopConsumers_base : stop -> Z * list string :=
  stop_base "consumer stop timed out; receive loop will exit on teardown".
Definition stop_time (base : stop -> Z * list string) (s : stop) : Z := fst (base s) + st_own s.

(** A group stops its workers in turn. *)
Definition group_StopProducers (ws : list stop) : Z := zsum (map (stop_time StopProducers_base) ws).
Definition group_StopConsumers (ws : list stop) : Z := zsum (map (stop_time StopConsumers_base) ws).

(** The groups are stopped by goroutines of their own, and the caller waits for
    the last. *)
Definition latest (l : list Z) : Z := foldr Z.max 0 l.
Definition stopAllProducersParallel (g : gmap string (list stop)) : Z :=
  latest (map (fun e => group_StopProducers (snd e)) (map_to_list g)).
Definition stop_all_consumers (g : gmap string (list stop)) : Z :=
  latest (omap (fun name => ws ← g !! name; Some (group_StopConsumers ws)) AllWorkerNames).

(** The drain: [its] are its iterations, each with the time it takes (the sleep
    of [pollInterval] and the scan) and the total received after it. *)
Fixpoint clocked (clock : Z) (its : list (Z * Z)) : list (Z * Z) :=
  match its with [] => [] | (c, cur) :: its' => (clock, cur) :: clocked (clock + c) its' end.
Definition drain_time (maxWait received : Z) (its : list (Z * Z)) : option Z :=
  '(n, _) ← drainToQuiescence maxWait 0 received (clocked 0 its); Some (zsum (take n (map fst its))).

(** [shutdownWorkers], from the stop of the producers to the stop of the
    consumers. *)
Definition shutdownWorkers_time (cfg : Config) (producers consumers : gmap string (list stop))
    (received : Z) (its : list (Z * Z)) : option Z :=
  drain ← drain_time (to_int (sd_DrainTimeoutSeconds (c_Shutdown cfg) * Second)) received its;
  Some (stopAllProducersParallel producers + drain + stop_all_consumers consumers).

(** The wait of [GracefulShutdown] for a run that is over [finish] after the
    cancellation. *)
Definition graceful_limit : Z := 120 * Second.
Definition graceful_wait (tie : bool) (finish : option Z) : Z * bool := select_after tie finish graceful_limit.

(** [WaitForConsumerReady] of a group: channels with the time, counted from when
    the group gets to them, at which their worker is ready.  The waits add up;
    the first that is not ready in time is the error. *)
Fixpoint WaitForConsumerReady (timeout : Z) (name : string) (ws : list (string * (bool * option Z))) : Z * option string :=
  match ws with
  | [] => (0, None)
  | (channel, (tie, ready)) :: ws' =>
      let '(t, ok) := select_after tie ready timeout in
      if ok then let '(t', err) := WaitForConsumerReady timeout name ws' in (t + t', err)
      else (t, Some (Sprintf "consumer ready timeout for %s/%s" [AStr name; AStr channel]))
  end.

(** ** Beside the run *)

Inductive task := TReporter | TRates | TUptime | TMemory | TGaps | TDisconnect.
#[global] Instance task_eq_dec : EqDecision task.
Proof. solve_decision. Defined.

Definition startPeriodicTasks (cfg : Config) : list task :=
  (if 0 <? c_ReportIntervalParsed cfg then [TReporter] else []) ++ [TRates; TUptime; TMemory; TGaps] ++
  (if 0 <? c_ForcedDisconnInterval cfg then [TDisconnect] else []).

(** What a select on the context and a timer finds. *)
Inductive wake := WDone | WTick.

(** The reporter: the number of reports it writes. *)
Fixpoint periodicReporter (evs : list wake) : nat :=
  match evs with WTick :: evs' => S (periodicReporter evs') | _ => 0 end.

(** The disconnect manager: [waiting] when it is in the pause after a round.
    The targets it disconnects, round by round. *)
Record Manager (T : Type) := mkManager { m_interval : Z; m_duration : Z; m_targets : list T }.
Arguments mkManager {T}.
Arguments m_interval {T}.
Arguments m_duration {T}.
Arguments m_targets {T}.

Fixpoint manager_loop {T} (targets : list T) (waiting : bool) (evs : list wake) : list (list T) :=
  match evs with
  | [] | WDone :: _ => []
  | WTick :: evs' => if waiting then manager_loop targets false evs' else targets :: manager_loop targets true evs'
  end.
Definition Run {T} (m : Manager T) (evs : list wake) : list (list T) :=
  if m_interval m =? 0 then [] else manager_loop (m_targets m) false evs.

(** [watchDisconnect]: the generation read at each tick, [None] when the
    receive's context is done; whether it cancels the receive. *)
Fixpoint watchDisconnect (gen : Z) (evs : list (option Z)) : bool :=
  match evs with
  | [] | None :: _ => false
  | Some g :: evs' => if g =? gen then watchDisconnect gen evs' else true
  end.

Section targets.
Context {W : Type}.
(** The workers in the order of [AllWorkerNames]. *)
Definition allWorkers (g : groups (W := W)) : list W := concat (omap (fun name => g !! name) AllWorkerNames).
Definition disconnectTargets (g : groups (W := W)) : list W := allWorkers g.
Definition new_manager (cfg : Config) (g : groups (W := W)) : Manager W :=
  mkManager (c_ForcedDisconnInterval cfg) (c_ForcedDisconnDuration cfg) (disconnectTargets g).
End targets.

(** ** The waits are bounded *)

Lemma select_after_bounds tie ready d : 0 <= fst (select_after tie ready d) <= Z.max 0 d.
Proof. unfold select_after. destruct ready as [r|]; [|cbn; lia]. repeat case_if; zbool; cbn; lia. Qed.

Lemma select_after_in_time tie r d : r < d -> select_after tie (Some r) d = (Z.max 0 r, true).
Proof. intros H. unfold select_after. case_if; zbool; [done|lia]. Qed.

Lemma select_after_late tie ready d :
  0 <= d -> (forall r, ready = Some r -> d < r) -> select_after tie ready d = (d, false).
Proof.
  intros Hd H. unfold select_after. destruct ready as [r|]; [specialize (H r eq_refl)|]; repeat case_if; zbool; f_equal; lia.
Qed.

(** The time a worker's stop takes, and that of one whose goroutines hang. *)
Lemma stop_time_bounds warning s own :
  0 <= st_own s <= own -> 0 <= stop_time (stop_base warning) s <= stopWaitTimeout + own.
Proof.
  intros H. unfold stop_time, stop_base, waitWGTimeout.
  pose proof (select_after_bounds (st_tie s) (st_unwind s) stopWaitTimeout) as Hb.
  destruct (select_after _ _ _) as [t ok]. cbn [fst] in *. change (Z.max 0 stopWaitTimeout) with stopWaitTimeout in Hb. lia.
Qed.

Definition stuck (s : stop) : Prop := 0 <= st_own s /\ forall r, st_unwind s = Some r -> stopWaitTimeout < r.

Lemma stop_time_stuck warning s : stuck s -> stopWaitTimeout <= stop_time (stop_base warning) s.
Proof.
  intros [Ho Hu]. unfold stop_time, stop_base, waitWGTimeout. rewrite select_after_late by done. cbn [fst]. lia.
Qed.

Lemma zsum_bounds {A} (f : A -> Z) l b : (forall x, x ∈ l -> 0 <= f x <= b) -> 0 <= zsum (map f l) <= Z.of_nat (length l) * b.
Proof.
  induction l as [|x l IH]; intros H; [cbn; lia|]. cbn [map zsum length].
  pose proof (H x ltac:(left)). pose proof (IH ltac:(intros y Hy; apply H; by right)). lia.
Qed.
Lemma zsum_lower {A} (f : A -> Z) l b : (forall x, x ∈ l -> b <= f x) -> Z.of_nat (length l) * b <= zsum (map f l).
Proof.
  induction l as [|x l IH]; intros H; [cbn; lia|]. cbn [map zsum length].
  pose proof (H x ltac:(left)). pose proof (IH ltac:(intros y Hy; apply H; by right)). lia.
Qed.

Lemma latest_bounds l b : 0 <= b -> (forall x, x ∈ l -> x <= b) -> 0 <= latest l <= b.
Proof.
  intros Hb. induction l as [|x l IH]; intros H; [cbn; lia|]. cbn.
  pose proof (H x ltac:(left)). pose proof (IH ltac:(intros y Hy; apply H; by right)). unfold latest in *. lia.
Qed.
Lemma latest_elem l x : x ∈ l -> x <= latest l.
Proof. induction 1 as [|y z l _ IH]; cbn; unfold latest in *; lia. Qed.

(** Every group has at most [n] workers, whose own code takes at most [own]. *)
Definition stops_within (n : nat) (own : Z) (g : gmap string (list stop)) : Prop :=
  forall name ws, g !! name = Some ws -> (length ws <= n)%nat /\ forall s, s ∈ ws -> 0 <= st_own s <= own.

Lemma group_bounded warning n own ws :
  0 <= own -> (length ws <= n)%nat -> (forall s, s ∈ ws -> 0 <= st_own s <= own) ->
  zsum (map (stop_time (stop_base warning)) ws) <= Z.of_nat n * (stopWaitTimeout + own).
Proof.
  intros Ho Hl Hs. pose proof (zsum_bounds (stop_time (stop_base warning)) ws (stopWaitTimeout + own)
    ltac:(intros s Hx; by apply stop_time_bounds, Hs)) as [_ H].
  assert (0 <= stopWaitTimeout) by done. nia.
Qed.

Lemma producers_bounded n own g :
  0 <= own -> stops_within n own g -> 0 <= stopAllProducersParallel g <= Z.of_nat n * (stopWaitTimeout + own).
Proof.
  intros Ho Hg. assert (0 <= stopWaitTimeout) by done. apply latest_bounds; [nia|].
  intros x Hx. apply list_elem_of_fmap in Hx as ([name ws] & -> & Hin%elem_of_map_to_list). destruct (Hg _ _ Hin). by apply group_bounded.
Qed.
Lemma consumers_bounded n own g :
  0 <= own -> stops_within n own g -> 0 <= stop_all_consumers g <= Z.of_nat n * (stopWaitTimeout + own).
Proof.
  intros Ho Hg. assert (0 <= stopWaitTimeout) by done. apply latest_bounds; [nia|].
  intros x Hx. apply list_elem_of_omap in Hx as (name & _ & Hn). destruct (g !! name) as [ws|] eqn:E; [|done].
  apply (inj Some) in Hn as <-. destruct (Hg _ _ E). by apply group_bounded.
Qed.

(** ** The drain in time *)

Lemma clocked_lookup clock its i c r :
  its !! i = Some (c, r) -> clocked clock its !! i = Some (clock + zsum (take i (map fst its)), r).
Proof.
  revert clock i. induction its as [|[c0 r0] its IH]; intros clock i H; [done|]. destruct i as [|i].
  - injection H as -> ->. cbn. do 2 f_equal. lia.
  - cbn in H |- *. rewrite (IH _ _ H). do 2 f_equal. lia.
Qed.
Lemma clocked_length clock its : length (clocked clock its) = length its.
Proof. revert clock. induction its as [|[c r] its IH]; intros clock; cbn; [done|]. by rewrite IH. Qed.

(** Every iteration the drain makes begins before the deadline. *)
Lemma drain_begins deadline prev stable n polls m b :
  drain_loop deadline prev stable n polls = Some (m, b) ->
  (n <= m)%nat /\ forall i c r, (n + i < m)%nat -> polls !! i = Some (c, r) -> c < deadline.
Proof.
  revert prev stable n. induction polls as [|[clock cur] polls IH]; intros prev stable n H; [done|]. cbn in H.
  destruct (deadline <=? clock) eqn:Ed; zbool; [injection H as <- <-; split; [lia|intros; lia]|].
  assert (forall i c r, (i = 0)%nat -> ((clock, cur) :: polls) !! i = Some (c, r) -> c < deadline) as H0.
  { intros i c r -> [= <- <-]. done. }
  assert (forall prev stable, drain_loop deadline prev stable (S n) polls = Some (m, b) ->
    (n <= m)%nat /\ forall i c r, (n + i < m)%nat -> ((clock, cur) :: polls) !! i = Some (c, r) -> c < deadline) as Hrec.
  { intros pv st [Hle Hi]%IH. split; [lia|]. intros [|i] c r Hlt Hl; [by apply (H0 0%nat c r)|]. apply (Hi i c r); [lia|done]. }
  destruct (cur =? prev); [|by apply (Hrec cur 0)]. destruct (stablePolls <=? stable + 1); [|by apply (Hrec prev (stable + 1))].
  injection H as <- <-. split; [lia|]. intros i c r Hlt. apply H0. lia.
Qed.

Definition drain_window (maxWait : Z) : Z := if maxWait <=? 0 then Second else maxWait.

(** It returns when its iterations cover the window, and at most one iteration
    after the window. *)
Lemma drain_in_window maxWait received its c :
  (forall it, it ∈ its -> pollInterval <= fst it <= c) ->
  drain_window maxWait + pollInterval <= Z.of_nat (length its) * pollInterval ->
  exists t, drain_time maxWait received its = Some t /\ 0 <= t <= drain_window maxWait + c.
Proof.
  intros Hc Hlen. unfold drain_time, drainToQuiescence. fold (drain_window maxWait). rewrite Z.add_0_l.
  assert (0 < drain_window maxWait) as Hw by (unfold drain_window; case_if; zbool; [done|lia]).
  assert (forall i, (i <= length its)%nat -> Z.of_nat i * pollInterval <= zsum (take i (map fst its))) as Hsum.
  { intros i Hi. rewrite firstn_map. replace i with (length (take i its)) at 1 by (rewrite length_take; lia).
    apply zsum_lower. intros it Hit. apply Hc. by apply (subseteq_take i). }
  set (i := (length its - 1)%nat). destruct (lookup_lt_is_Some_2 its i) as [[ci ri] Hi].
  { unfold i. unfold pollInterval, Millisecond in *. lia. }
  destruct (drain_stops (drain_window maxWait) received 0 0 (clocked 0 its) i _ _ (clocked_lookup 0 its i ci ri Hi)) as (m & b & Hm & Hle).
  { pose proof (Hsum i ltac:(unfold i; lia)). unfold i, pollInterval, Millisecond in *. lia. }
  rewrite Hm. cbn. eexists. split; [done|]. apply drain_begins in Hm as [_ Hb].
  assert (0 <= zsum (take m (map fst its))) as H0.
  { pose proof (Hsum m ltac:(unfold i in Hle; lia)). unfold pollInterval, Millisecond in *. lia. }
  split; [done|]. destruct m as [|j]; [change (zsum (take 0 _)) with 0; pose proof (Hc _ (list_elem_of_lookup_2 _ _ _ Hi)); unfold pollInterval, Millisecond in *; lia|].
  destruct (lookup_lt_is_Some_2 its j) as [[cj rj] Hj]; [unfold i in *; lia|].
  pose proof (Hb j _ _ ltac:(lia) (clocked_lookup 0 its j cj rj Hj)) as Hlt.
  pose proof (Hc _ (list_elem_of_lookup_2 _ _ _ Hj)) as [_ Hcj]. cbn [fst] in Hcj.
  rewrite (take_S_r _ _ cj) by (rewrite list_lookup_fmap, Hj; done). rewrite zsum_app. cbn [zsum]. lia.
Qed.

(** The time from a cancellation to the end of the run: the periodic tasks
    return, the workers are stopped, the verdict is computed. *)
Definition finish_time (tasks verdict : Z) (cfg : Config) (producers consumers : gmap string (list stop))
    (received : Z) (its : list (Z * Z)) : option Z :=
  t ← shutdownWorkers_time cfg producers consumers received its; Some (tasks + t + verdict).

(** C13 (bounds).  Stopping a run always comes to its end, whatever the workers
    do: when no group has more than [n] channels and a worker's own clean-up
    takes at most [own], it takes at most [2 * n] times the wait for a worker
    and its clean-up, the drain window and one iteration of the drain.  If with
    what the periodic tasks and the verdict take this is less than the 120
    seconds of GracefulShutdown, the shutdown sees the run's end. *)
Theorem shutdown_bounded cfg producers consumers n own received its c tasks verdict tie :
  0 <= own -> 0 <= tasks -> 0 <= verdict -> stops_within n own producers -> stops_within n own consumers ->
  (forall it, it ∈ its -> pollInterval <= fst it <= c) ->
  let window := drain_window (to_int (sd_DrainTimeoutSeconds (c_Shutdown cfg) * Second)) in
  window + pollInterval <= Z.of_nat (length its) * pollInterval ->
  let most := 2 * (Z.of_nat n * (stopWaitTimeout + own)) + window + c in
  exists t, finish_time tasks verdict cfg producers consumers received its = Some t /\
    t <= tasks + most + verdict /\
    (tasks + most + verdict < graceful_limit -> graceful_wait tie (Some t) = (t, true)).
Proof.
  intros Ho Ht Hv Hp Hc Hits window Hlen most. destruct (drain_in_window _ received its c Hits Hlen) as (d & Hd & Hb). fold window in Hb.
  pose proof (producers_bounded n own producers Ho Hp) as B1. pose proof (consumers_bounded n own consumers Ho Hc) as B2.
  unfold finish_time, shutdownWorkers_time. rewrite Hd. cbn [mbind option_bind]. unfold most. eexists. split; [done|]. split; [lia|]. intros Hlim.
  unfold graceful_wait. rewrite select_after_in_time by lia. f_equal. lia.
Qed.

(** Channels of one worker that hang add up. *)
Lemma stuck_group_stacks g name ws :
  g !! name = Some ws -> (forall s, s ∈ ws -> stuck s) ->
  Z.of_nat (length ws) * stopWaitTimeout <= stopAllProducersParallel g.
Proof.
  intros Hg Hs. transitivity (group_StopProducers ws).
  - apply zsum_lower. intros s Hx. by apply stop_time_stuck, Hs.
  - apply latest_elem, list_elem_of_fmap. exists (name, ws). split; [done|]. by apply elem_of_map_to_list.
Qed.

Section grace.
Context {W : Type} {HB : HasBase W} {Wk : Worker W}.
Context (NewWorker : string -> Config -> Z -> option W).
Context (ValueAtQuantile : list Z -> float64 -> Z) (TotalCount : list Z -> Z).
Context (evolves : W -> W -> Prop).

(** The wait is not bounded by one timeout per phase as the
    groups' being stopped side by side suggests: nine channels of one worker
    whose producers hang hold the producers' stop for more than the 120 seconds
    of GracefulShutdown, whatever the rest does.  It then gives up while the
    run loop is still there, so that there is no verdict: the process reports
    the failure exit code without having judged the run. *)
Theorem stuck_channels_outlast_grace cfg producers consumers name ws received its tasks verdict tie t e k th startup :
  producers !! name = Some ws -> (forall s, s ∈ ws -> stuck s) -> (9 <= length ws)%nat ->
  (forall it, it ∈ its -> 0 <= fst it) -> (forall nm s, consumers !! nm = Some s -> forall x, x ∈ s -> 0 <= st_own x) ->
  0 <= tasks -> 0 <= verdict -> finish_time tasks verdict cfg producers consumers received its = Some t ->
  calmly_reachable NewWorker ValueAtQuantile TotalCount evolves startup e -> at_pc e k th PShutdown ->
  graceful_wait tie (Some t) = (graceful_limit, false) /\ shutdown_passed e = false /\ exit_code (e_verdict e) = 1.
Proof.
  intros Hg Hs Hn Hits Hcons Ht Hv Hf Hr Hat.
  pose proof (stuck_group_stacks producers name ws Hg Hs) as Hlow.
  unfold finish_time, shutdownWorkers_time, drain_time in Hf.
  destruct (drainToQuiescence _ _ _ _) as [[m b]|]; [|done]. cbn [mbind option_bind] in Hf. apply (inj Some) in Hf as <-.
  assert (0 <= zsum (take m (map fst its))) as Hd.
  { apply zsum_nonneg, Forall_take, Forall_fmap, Forall_forall. exact Hits. }
  assert (0 <= stop_all_consumers consumers) as Hc.
  { unfold stop_all_consumers, latest. clear. induction (omap _ AllWorkerNames); cbn; lia. }
  split.
  { unfold graceful_wait. apply select_after_late; [done|]. intros r Hr'. apply (inj Some) in Hr' as <-. unfold graceful_limit, stopWaitTimeout, Second in *. lia. }
  destruct (inv_runs e (calm_inv NewWorker ValueAtQuantile TotalCount evolves startup e Hr)) as [Hi|(k' & t' & L)];
    [by edestruct (idle_at e)|]. destruct (live_at _ _ _ _ _ _ L Hat) as (-> & -> & Hp).
  pose proof (lv_verdict _ _ _ L) as Hvd. rewrite Hp in Hvd. cbn in Hvd. unfold shutdown_passed. by rewrite Hvd.
Qed.
End grace.

(** A signal has ended the measurement of two channels' run. *)
Definition at_stop : list (@Engine OrderingKeysWorker -> @Engine OrderingKeysWorker) := take 7 draining.
Lemma at_stop_reachable : calmly_reachable new_one vq tc eq one_config (run_steps at_stop).
Proof.
  unfold calmly_reachable, run_steps, at_stop, draining. cbn [foldl take].
  eapply rtc_r; [|apply (calm_at_thread _ _ PRunning); [vm_compute; reflexivity|]].
  2: { intros t Ht. apply s_stop_measure; [done|]. right. destruct Ht as [Ht _]. revert Ht. vm_compute. intros [= <-]. done. }
  calm_undo s_measure PMeasure.
  eapply rtc_r; [|apply (calm_at_thread _ _ PWarmup); [vm_compute; reflexivity|intros; by apply s_warmup]].
  calm_undo s_ready PReady. calm_undo s_consumers PConsumers. calm_undo s_build PBuild.
  eapply rtc_r; [apply rtc_refl|]. apply calm_start; vm_compute; reflexivity.
Qed.

Definition hung : stop := mkStop None false 0.
Definition prompt : stop := mkStop (Some Second) false Second.
Definition quiet_polls : list (Z * Z) := replicate 44 (pollInterval, 7).

Lemma shutdown_bounded_witness :
  exists t, finish_time Second Second DefaultConfig {[ WorkerOrderingKeys := [prompt; prompt] ]} {[ WorkerFanOut := [hung] ]} 7 quiet_polls = Some t /\
    graceful_wait true (Some t) = (t, true).
Proof.
  destruct (shutdown_bounded DefaultConfig {[ WorkerOrderingKeys := [prompt; prompt] ]} {[ WorkerFanOut := [hung] ]} 2 Second 7
    quiet_polls pollInterval Second Second true) as (t & Ht & _ & Hg); [vm_compute; congruence|vm_compute; congruence|vm_compute; congruence|..].
  - intros name ws [<- <-]%lookup_singleton_Some. split; [cbn; lia|].
    intros s [->|[->|[]%not_elem_of_nil]%elem_of_cons]%elem_of_cons; done.
  - intros name ws [<- <-]%lookup_singleton_Some. split; [cbn; lia|]. intros s [->|[]%not_elem_of_nil]%elem_of_cons; done.
  - intros it [-> _]%elem_of_replicate. done.
  - vm_compute. congruence.
  - exists t. split; [exact Ht|]. apply Hg. vm_compute. reflexivity.
Defined.

Lemma stuck_channels_outlast_grace_witness :
  exists t, finish_time 0 0 one_config {[ WorkerOrderingKeys := replicate 9 hung ]} ∅ 7 quiet_polls = Some t /\
    graceful_wait true (Some t) = (graceful_limit, false).
Proof.
  eexists. split; [vm_compute; reflexivity|].
  apply (stuck_channels_outlast_grace new_one vq tc eq one_config {[ WorkerOrderingKeys := replicate 9 hung ]} ∅
    WorkerOrderingKeys (replicate 9 hung) 7 quiet_polls 0 0 true _ (run_steps at_stop) 0 (mkThread PShutdown one_config) one_config).
  - by rewrite lookup_singleton_eq.
  - intros s [-> _]%elem_of_replicate. split; done.
  - cbn. lia.
  - intros it [-> _]%elem_of_replicate. done.
  - intros nm s. by rewrite lookup_empty.
  - lia.
  - lia.
  - vm_compute. reflexivity.
  - exact at_stop_reachable.
  - split; vm_compute; reflexivity.
Defined.

(** ** Whom the tasks reach *)

Lemma worker_names_nodup : NoDup AllWorkerNames.
Proof. apply (bool_decide_unpack _). vm_compute. exact I. Qed.

Section reach.
Context {W : Type} {HB : HasBase W}.

(** Reading a map at all its keys, each once, reads all its values. *)
Lemma omap_lookup_perm (g : gmap string (list W)) names :
  NoDup names -> (forall n, is_Some (g !! n) -> n ∈ names) ->
  omap (fun name => g !! name) names ≡ₚ map snd (map_to_list g).
Proof.
  revert g. induction names as [|n names IH]; intros g Hnd Hdom.
  - assert (g = ∅) as ->. { apply map_eq. intros i. rewrite lookup_empty. destruct (g !! i) eqn:E; [|done]. exfalso. by eapply not_elem_of_nil, Hdom. }
    by rewrite map_to_list_empty.
  - apply NoDup_cons in Hnd as [Hn Hnd].
    assert (omap (fun name => g !! name) names = omap (fun name => delete n g !! name) names) as E.
    { clear -Hn. induction names as [|m names IH]; [done|]. apply not_elem_of_cons in Hn as [Hnm Hn]. cbn.
      rewrite IH by done. by rewrite lookup_delete_ne by done. }
    assert (omap (fun name => delete n g !! name) names ≡ₚ map snd (map_to_list (delete n g))) as Hp.
    { apply IH; [done|]. intros m [x [Hm Hx]%lookup_delete_Some]. pose proof (Hdom m ltac:(by eexists)) as [->|?]%elem_of_cons; done. }
    cbn. rewrite E. destruct (g !! n) as [ws|] eqn:Eg.
    + rewrite <- (map_to_list_delete g n ws Eg). cbn. by constructor.
    + by rewrite delete_id in Hp |- * by done.
Qed.

Lemma all_workers_perm (g : groups (W := W)) :
  (forall n, is_Some (g !! n) -> n ∈ AllWorkerNames) -> allWorkers g ≡ₚ concat (map snd (map_to_list g)).
Proof. intros H. unfold allWorkers. by rewrite (omap_lookup_perm g _ worker_names_nodup H). Qed.
End reach.

Lemma built_names {W} (NewWorker : string -> Config -> Z -> option W) cfg n :
  is_Some (build_groups NewWorker cfg !! n) -> n ∈ AllWorkerNames.
Proof.
  intros [ws H]. unfold build_groups in H. apply (elem_of_list_to_map_2 (M := gmap string)) in H.
  apply list_elem_of_fmap in H as (m & [= -> ->] & Hm). apply list_elem_of_In, filter_In in Hm as [Hm _].
  by apply list_elem_of_In.
Qed.

Section forced.
Context {W : Type} {HB : HasBase W} {Wk : Worker W}.

(** Rounds of a disconnect manager: every other tick until the context is done. *)
Fixpoint ticks (evs : list wake) : nat := match evs with WTick :: evs' => S (ticks evs') | _ => 0 end.
Lemma manager_rounds {T} (targets : list T) evs waiting :
  manager_loop targets waiting evs = replicate ((ticks evs + (if waiting then 0 else 1)) / 2) targets.
Proof.
  revert waiting. induction evs as [|[] evs IH]; intros waiting; [by destruct waiting..|]. cbn [manager_loop ticks].
  destruct waiting; rewrite IH.
  - do 2 f_equal. lia.
  - rewrite Nat.add_0_r. replace (S (ticks evs) + 1)%nat with (ticks evs + 1 * 2)%nat by lia.
    rewrite Nat.div_add by done. by rewrite Nat.add_comm.
Qed.

(** A watcher cancels at the first tick at which the generation is another,
    unless the receive is over before. *)
Lemma watch_cancels gen evs :
  watchDisconnect gen evs = true <->
  exists i g, evs !! i = Some (Some g) /\ g <> gen /\ forall j, (j < i)%nat -> evs !! j = Some (Some gen).
Proof.
  induction evs as [|[g|] evs IH]; cbn.
  - split; [done|]. intros (i & g & H & _). by rewrite lookup_nil in H.
  - destruct (g =? gen) eqn:E; zbool.
    + rewrite IH. split; intros (i & g' & H1 & H2 & H3).
      * exists (S i), g'. repeat split; [done..|]. intros [|j] Hj; [by rewrite E|]. apply H3. lia.
      * destruct i as [|i]; [cbn in H1; congruence|]. exists i, g'. repeat split; [done..|]. intros j Hj. apply (H3 (S j)). lia.
    + split; [|done]. intros _. exists 0%nat, g. repeat split; [done..|]. intros j Hj. lia.
  - split; [done|]. intros (i & g & H1 & _ & H3). destruct i as [|i]; [done|]. specialize (H3 0%nat ltac:(lia)). done.
Qed.

Lemma generation_after n (b : BaseWorker) :
  disconnectGeneration (Nat.iter n DisconnectConsumers b) = u64 (bw_disconnectGen b + Z.of_nat n) \/ n = 0%nat.
Proof.
  destruct n as [|n]; [by right|left]. induction n as [|n IH].
  - unfold disconnectGeneration. cbn. by rewrite ?Z.add_1_r.
  - rewrite Nat.iter_succ. unfold disconnectGeneration in *. cbn [bw_disconnectGen DisconnectConsumers set_ready]. rewrite IH.
    unfold uadd, u64. rewrite Zplus_mod_idemp_l. f_equal. lia.
Qed.

(** C22 (functional).  Forced disconnects: the list the manager is given holds
    each worker of the run's groups, each exactly as often as the groups hold
    it, and every round disconnects that whole list, one round for every two
    firings of its timers.  In the workers whose receive loop runs a watcher on
    the generation, a receive that was started before a disconnect is cancelled
    at the next tick of the watcher, whatever else happened in between, unless
    it was over before.  Those are nine of the twelve: the loops of
    seek_snapshot, inflight_cap and cross_protocol_interop, and the source pulls
    of dead_letter, have no watcher. *)
Theorem disconnect_cancels_watched_receives (NewWorker : string -> Config -> Z -> option W) cfg evs (b : BaseWorker) n before after :
  is_u64 (bw_disconnectGen b) -> (0 < n)%nat -> Z.of_nat n < two64 -> 0 < c_ForcedDisconnInterval cfg ->
  let g := build_groups NewWorker cfg in
  Run (new_manager cfg g) evs = replicate ((ticks evs + 1) / 2) (allWorkers g) /\
  allWorkers g ≡ₚ concat (map snd (map_to_list g)) /\
  watchDisconnect (disconnectGeneration b)
    (replicate before (Some (disconnectGeneration b)) ++ Some (disconnectGeneration (Nat.iter n DisconnectConsumers b)) :: after) = true.
Proof.
  intros Hb Hn Hw Hi g. split; [|split].
  - unfold Run, new_manager. cbn [m_interval m_targets]. destruct (_ =? 0) eqn:E; zbool; [lia|]. apply (manager_rounds _ evs false).
  - apply all_workers_perm. intros m. apply built_names.
  - apply watch_cancels. exists before. eexists. split; [|split].
    + rewrite lookup_app_r by (rewrite length_replicate; lia). by rewrite length_replicate, Nat.sub_diag.
    + destruct (generation_after n b) as [->| ->]; [|lia]. unfold disconnectGeneration. intros E.
      unfold u64, is_u64, two64 in *. destruct (Z.lt_ge_cases (bw_disconnectGen b + Z.of_nat n) 18446744073709551616).
      * rewrite Z.mod_small in E by lia. lia.
      * rewrite <- (Z_mod_plus_full _ (-1)), Z.mod_small in E by lia. lia.
    + intros j Hj. rewrite lookup_app_l by (rewrite length_replicate; lia). by apply lookup_replicate_2.
Qed.
End forced.

Definition churn_config : Config := set_c_ForcedDisconnInterval one_config Minute.

Lemma disconnect_cancels_watched_receives_witness :
  match new_one WorkerOrderingKeys churn_config 1 with
  | Some w =>
      let b := base w in
      Run (new_manager churn_config (build_groups new_one churn_config)) [WTick; WTick; WTick; WDone; WTick]
        = [allWorkers (build_groups new_one churn_config); allWorkers (build_groups new_one churn_config)] /\
      watchDisconnect (disconnectGeneration b)
        [Some (disconnectGeneration b); Some (disconnectGeneration (DisconnectConsumers b)); None] = true
  | None => False
  end.
Proof.
  destruct (new_one WorkerOrderingKeys churn_config 1) as [w|] eqn:E; [|vm_compute in E; discriminate E].
  assert (bw_disconnectGen (base w) = 0) as E0.
  { assert (bw_disconnectGen <$> (base <$> new_one WorkerOrderingKeys churn_config 1) = Some 0) as H by (vm_compute; reflexivity).
    rewrite E in H. by apply (inj Some) in H. }
  destruct (disconnect_cancels_watched_receives new_one churn_config [WTick; WTick; WTick; WDone; WTick] (base w) 1 1 [None])
    as (H1 & _ & H3); [rewrite E0; done|lia|done|done|]. split; [exact H1|exact H3].
Defined.
