(* ===== verification/ExactlyOnce.v ===== *)
(** * burnin/worker: exactly_once

    Acknowledgements with a result, retried once, and their reconciliation; the
    invalid-ack probe.  Receive callbacks run concurrently, so the counters are
    shown correct for every interleaving of the callbacks' atomic updates. *)
From S2P Require Import Prelude GoFloat GoFmt Config Payload Tracker Metrics Transport Worker Handlers.

Record ExactlyOnceWorker := mkEO {
  eo_base : BaseWorker;
  eo_topicID : string;
  eo_subID : string;
  eo_seq : Z
}.

#[global] Instance exactly_once_has_base : HasBase ExactlyOnceWorker.
Proof.
  refine {| base := eo_base; with_base := fun f w => mkEO (f (eo_base w)) (eo_topicID w) (eo_subID w) (eo_seq w) |}.
  done.
Defined.

Definition NewExactlyOnceWorker (Getenv : string -> string) (cfg : Config) (idx : Z) : option ExactlyOnceWorker :=
  let topicID := TopicName (resourcePrefix Getenv) WorkerExactlyOnce idx in
  let subID := SubscriptionName (resourcePrefix Getenv) WorkerExactlyOnce idx in
  b ← NewBaseWorker Getenv WorkerExactlyOnce (MappedTopicChannel topicID) idx cfg;
  Some (mkEO b topicID subID 0).

(** [runInvalidAckProbe]: [client] is whether the low-level client was built,
    [ackErr] the error of the unary acknowledgement of a fabricated id. *)
Definition runInvalidAckProbe (client : bool) (ackErr : option rpc_error) (w : ExactlyOnceWorker) : ExactlyOnceWorker :=
  if negb (gcp_ExactlyOnceProbe (c_GCP (bw_cfg (base w)))) then w
  else if negb client then with_base (recordError "ack_failure") w
  else
    let status := ackStatusFromError ackErr in
    let w := with_base (store_flag F_invalidAckProbeRan true) w in
    if bool_decide (status = StatusInvalidAckID) ||
       match ackErr with
       | Some e => IsFailedPrecondition e && String.eqb (AckErrorReason e) InvalidAckIDReason
       | None => false
       end
    then with_base recordExactlyOnceInvalidAckConfirmed w else w.

(** The outcome of [AckExactlyOnce]: its status and whether it returned an
    error. *)
Definition ack_outcome : Type := AcknowledgeStatus * bool.
Definition ack_ok (r : ack_outcome) : bool := bool_decide (r.1 = StatusSuccess) && negb r.2.

(** [ackWithReconciliation]; the second outcome is that of the retry, which is
    only attempted after a failure. *)
Definition ackWithReconciliation (first retry : ack_outcome) (b : BaseWorker) : BaseWorker :=
  if ack_ok first then recordAcked (recordExactlyOnceAck true b)
  else
    let b := recordExactlyOnceAck false b in
    if ack_ok retry then recordAcked (recordExactlyOnceAck true (reconcileExactlyOnce b))
    else recordError "ack_failure" b.

Definition handleMessage (now : Z) (m : Message) (consumerID : string) (first retry : ack_outcome)
    (w : ExactlyOnceWorker) : ExactlyOnceWorker :=
  let w := with_base (recordReceived (data_len m) consumerID) w in
  let w := with_base (store_flag F_confirmationsProbeRan true) w in
  let meta := extractMeta (pm_Attributes m) in
  let w :=
    if m_ok meta then
      let w := with_base (check_integrity now (pm_Data m) meta) w in
      with_base (fun b => fst (recordTracked (m_producer meta) (m_seq meta) b)) w
    else w in
  with_base (ackWithReconciliation first retry) w.

(** A delivery comes with the outcomes of the acknowledgement and of its retry. *)
Definition receive_loop (ss : list (session (Z * Message * ack_outcome * ack_outcome))) (w : ExactlyOnceWorker)
  : ExactlyOnceWorker :=
  receiveLoop (fun w '(now, m, first, retry) => handleMessage now m ("c-" +:+ bw_channelName (base w)) first retry w) ss w.

(** One iteration of [produceLoop]. *)
Definition produce_once (producerIdx : Z) (env : publish_env) (w : ExactlyOnceWorker)
  : option (Message * loop_ctl * ExactlyOnceWorker) :=
  let producerID := producer_id (base w) producerIdx in
  let seq := eo_seq w +u 1 in
  let w := mkEO (eo_base w) (eo_topicID w) (eo_subID w) seq in
  m ← build_message producerID seq env (base w);
  let '(ctl, b) := publish_outcome producerID (data_len m) env (base w) in
  Some (m, ctl, with_base (fun _ => b) w).

#[global] Instance exactly_once_worker : Worker ExactlyOnceWorker.
Proof.
  refine {| w_ResetAfterWarmup := with_base ResetAfterWarmup;
            w_DisconnectConsumers := with_base DisconnectConsumers;
            w_StopProducers := fun _ _ w => w;
            w_StopConsumers := fun _ w => w |}; done.
Defined.

(** ** Interleaved callbacks *)

(** The updates of the exactly-once counters, each one atomic. *)
Inductive eo_update := UFail | UReconcile | UConfirm.

Definition update (b : BaseWorker) (u : eo_update) : BaseWorker :=
  match u with
  | UFail => recordExactlyOnceAck false b
  | UReconcile => reconcileExactlyOnce b
  | UConfirm => recordExactlyOnceAck true b
  end.

(** What one callback performs, by the outcomes of its acknowledgements. *)
Definition callback_updates (r : ack_outcome * ack_outcome) : list eo_update :=
  if ack_ok r.1 then [UConfirm] else if ack_ok r.2 then [UFail; UReconcile; UConfirm] else [UFail].
Definition unresolved (r : ack_outcome * ack_outcome) : bool := negb (ack_ok r.1) && negb (ack_ok r.2).

(** A callback's own updates are those of [ackWithReconciliation]. *)
Lemma callback_updates_exact first retry b :
  let b' := ackWithReconciliation first retry b in
  let b'' := foldl update b (callback_updates (first, retry)) in
  bw_cnt b' C_exactlyOnceConfirmed = bw_cnt b'' C_exactlyOnceConfirmed /\
  bw_cnt b' C_exactlyOnceUnreconciled = bw_cnt b'' C_exactlyOnceUnreconciled.
Proof.
  cbv zeta. unfold ackWithReconciliation, callback_updates. cbn [fst snd].
  destruct (ack_ok first); [split; by rewrite keeps_acked|].
  destruct (ack_ok retry); cbn [foldl update]; [split; by rewrite keeps_acked|split; by rewrite keeps_error].
Qed.

(** What is left of a callback always has one of these shapes. *)
Definition shape (t : list eo_update) : Prop :=
  t = [] \/ t = [UConfirm] \/ t = [UReconcile; UConfirm] \/ t = [UFail; UReconcile; UConfirm] \/ t = [UFail].

Definition owes (t : list eo_update) : Z := match t with UReconcile :: _ => 1 | _ => 0 end.
Definition fails_left (t : list eo_update) : Z := match t with UFail :: _ => 1 | _ => 0 end.
Definition net (t : list eo_update) : Z :=
  match t with [UFail] => 1 | UReconcile :: _ => -1 | _ => 0 end.
Definition confirms (t : list eo_update) : Z := match t with [] | [UFail] => 0 | _ => 1 end.

Definition total (f : list eo_update -> Z) (ts : list (list eo_update)) : Z := zsum (f <$> ts).

Lemma total_insert f ts i x t :
  ts !! i = Some (x :: t) -> total f (<[i := t]> ts) = total f ts - f (x :: t) + f t.
Proof.
  intros H. unfold total. rewrite list_fmap_insert. apply zsum_insert. by rewrite list_lookup_fmap, H.
Qed.

Lemma shape_tail x t : shape (x :: t) -> shape t.
Proof. intros [?|[?|[?|[?|?]]]]; simplify_eq; unfold shape; auto 6. Qed.

Lemma shape_cases x t :
  shape (x :: t) ->
  (x = UConfirm /\ t = []) \/ (x = UReconcile /\ t = [UConfirm]) \/
  (x = UFail /\ t = [UReconcile; UConfirm]) \/ (x = UFail /\ t = []).
Proof. intros [?|[?|[?|[?|?]]]]; simplify_eq; auto. Qed.

Lemma cnt_confirm b : bw_cnt (recordExactlyOnceAck true b) C_exactlyOnceConfirmed = bw_cnt b C_exactlyOnceConfirmed +u 1 /\
  bw_cnt (recordExactlyOnceAck true b) C_exactlyOnceUnreconciled = bw_cnt b C_exactlyOnceUnreconciled.
Proof. done. Qed.
Lemma cnt_fail b : bw_cnt (recordExactlyOnceAck false b) C_exactlyOnceConfirmed = bw_cnt b C_exactlyOnceConfirmed /\
  bw_cnt (recordExactlyOnceAck false b) C_exactlyOnceUnreconciled = bw_cnt b C_exactlyOnceUnreconciled +u 1.
Proof. done. Qed.
Lemma cnt_reconcile b : 0 < bw_cnt b C_exactlyOnceUnreconciled ->
  bw_cnt (reconcileExactlyOnce b) C_exactlyOnceConfirmed = bw_cnt b C_exactlyOnceConfirmed /\
  bw_cnt (reconcileExactlyOnce b) C_exactlyOnceUnreconciled = bw_cnt b C_exactlyOnceUnreconciled -u 1.
Proof.
  intros H. unfold reconcileExactlyOnce. destruct (_ =? 0) eqn:E; zbool; [lia|]. done.
Qed.

Lemma total_nonneg f ts : (forall t, 0 <= f t) -> 0 <= total f ts.
Proof. intros H. apply zsum_nonneg, Forall_fmap, Forall_true. done. Qed.

(** The counters after any interleaving of what is left of the callbacks. *)
Lemma interleaved ts l b :
  interleave ts l -> Forall shape ts ->
  total owes ts <= bw_cnt b C_exactlyOnceUnreconciled ->
  bw_cnt b C_exactlyOnceUnreconciled + total fails_left ts < two64 ->
  0 <= bw_cnt b C_exactlyOnceConfirmed -> bw_cnt b C_exactlyOnceConfirmed + total confirms ts < two64 ->
  bw_cnt (foldl update b l) C_exactlyOnceUnreconciled = bw_cnt b C_exactlyOnceUnreconciled + total net ts /\
  bw_cnt (foldl update b l) C_exactlyOnceConfirmed = bw_cnt b C_exactlyOnceConfirmed + total confirms ts.
Proof.
  intros Hi. revert b. induction Hi as [ts Hd|ts i x t l Hx Hl IH]; intros b Hs H1 H2 H3 H4.
  { assert (forall f, f [] = 0 -> total f ts = 0) as Hz.
    { intros f Hf. unfold total. clear -Hd Hf. induction Hd as [|t ts <- Hd IH]; [done|]. cbn. rewrite Hf. exact IH. }
    rewrite !Hz by done. cbn. lia. }
  assert (shape (x :: t)) as Hsx by (by apply (Forall_lookup_1 _ _ _ _ Hs Hx)).
  assert (Forall shape (<[i := t]> ts)) as Hs' by (apply Forall_insert; [done|by eapply shape_tail]).
  pose proof (total_insert owes ts i x t Hx) as T1. pose proof (total_insert fails_left ts i x t Hx) as T2.
  pose proof (total_insert net ts i x t Hx) as T3. pose proof (total_insert confirms ts i x t Hx) as T4.
  pose proof (total_nonneg owes (<[i := t]> ts) ltac:(intros [|[]]; cbn; lia)) as N1.
  pose proof (total_nonneg fails_left (<[i := t]> ts) ltac:(intros [|[]]; cbn; lia)) as N2.
  pose proof (total_nonneg confirms (<[i := t]> ts) ltac:(intros [|[] []]; cbn; lia)) as N4.
  cbn [foldl]. specialize (IH (update b x) Hs').
  destruct (shape_cases x t Hsx) as [[-> ->]|[[-> ->]|[[-> ->]|[-> ->]]]]; cbn [update owes fails_left net confirms] in *.
  - destruct (cnt_confirm b) as [-> ->] in IH. rewrite uadd_small in IH by range.
    destruct IH as [-> ->]; [lia..|]. lia.
  - destruct (cnt_reconcile b ltac:(lia)) as [-> ->] in IH. rewrite usub_small in IH by range.
    destruct IH as [-> ->]; [lia..|]. lia.
  - destruct (cnt_fail b) as [-> ->] in IH. rewrite uadd_small in IH by range.
    destruct IH as [-> ->]; [lia..|]. lia.
  - destruct (cnt_fail b) as [-> ->] in IH. rewrite uadd_small in IH by range.
    destruct IH as [-> ->]; [lia..|]. lia.
Qed.

Lemma total_callbacks f g rs : (forall r, f (callback_updates r) = g r) ->
  total f (callback_updates <$> rs) = zsum (g <$> rs).
Proof. intros H. unfold total. induction rs as [|r rs IH]; [done|]. cbn. by rewrite H, IH. Qed.

Lemma zsum_le_length {A} (g : A -> Z) l : (forall x, 0 <= g x <= 1) -> 0 <= zsum (g <$> l) <= Z.of_nat (length l).
Proof. intros H. induction l as [|x l IH]; cbn; [lia|]. specialize (H x). lia. Qed.

Lemma zsum_indicator {A} (p : A -> bool) l :
  zsum ((fun x => if p x then 1 else 0) <$> l) = Z.of_nat (length (List.filter p l)).
Proof. induction l as [|x l IH]; [done|]. cbn. rewrite IH. destruct (p x); cbn; lia. Qed.

(** C14 (invariant).  For any number of receive callbacks and any interleaving
    of their counter updates, the unreconciled counter ends up at exactly the
    number of messages neither of whose two acknowledgements succeeded, and the
    confirmed counter at the number of the others: the compare-and-swap of the
    reconciliation never takes away another message's failure. *)
Theorem exactly_once_reconciled b rs l :
  interleave (callback_updates <$> rs) l -> Z.of_nat (length rs) < two64 ->
  bw_cnt b C_exactlyOnceUnreconciled = 0 -> bw_cnt b C_exactlyOnceConfirmed = 0 ->
  bw_cnt (foldl update b l) C_exactlyOnceUnreconciled = Z.of_nat (length (List.filter unresolved rs)) /\
  bw_cnt (foldl update b l) C_exactlyOnceConfirmed = Z.of_nat (length (List.filter (fun r => negb (unresolved r)) rs)).
Proof.
  intros Hi Hn H1 H2.
  pose proof (total_callbacks owes (fun _ => 0) rs) as T1.
  pose proof (total_callbacks fails_left (fun r => if ack_ok r.1 then 0 else 1) rs) as T2.
  pose proof (total_callbacks net (fun r => if unresolved r then 1 else 0) rs) as T3.
  pose proof (total_callbacks confirms (fun r => if negb (unresolved r) then 1 else 0) rs) as T4.
  assert (forall r, owes (callback_updates r) = 0) as C1
    by (intros r; unfold callback_updates; by destruct (ack_ok r.1), (ack_ok r.2)).
  assert (forall r, fails_left (callback_updates r) = if ack_ok r.1 then 0 else 1) as C2
    by (intros r; unfold callback_updates; by destruct (ack_ok r.1), (ack_ok r.2)).
  assert (forall r, net (callback_updates r) = if unresolved r then 1 else 0) as C3
    by (intros r; unfold callback_updates, unresolved; by destruct (ack_ok r.1), (ack_ok r.2)).
  assert (forall r, confirms (callback_updates r) = if negb (unresolved r) then 1 else 0) as C4
    by (intros r; unfold callback_updates, unresolved; by destruct (ack_ok r.1), (ack_ok r.2)).
  specialize (T1 C1). specialize (T2 C2). specialize (T3 C3). specialize (T4 C4).
  assert (zsum ((fun _ : ack_outcome * ack_outcome => 0) <$> rs) = 0) as Z1 by (clear; induction rs; done).
  pose proof (zsum_le_length (fun r : ack_outcome * ack_outcome => if ack_ok r.1 then 0 else 1) rs
    ltac:(intros r; cbv beta; destruct (ack_ok r.1); lia)) as Z2.
  pose proof (zsum_le_length (fun r => if negb (unresolved r) then 1 else 0) rs
    ltac:(intros r; cbv beta; destruct (unresolved r); cbn; lia)) as Z4.
  destruct (interleaved _ l b Hi) as [E1 E2].
  - apply Forall_fmap, Forall_true. intros r. unfold callback_updates, shape. cbn.
    destruct (ack_ok r.1), (ack_ok r.2); auto 6.
  - lia.
  - lia.
  - lia.
  - lia.
  - rewrite E1, E2, H1, H2, T3, T4. by rewrite !zsum_indicator.
Qed.

Lemma exactly_once_reconciled_witness :
  exists b, NewBaseWorker (fun _ => "") WorkerExactlyOnce "c" 1 DefaultConfig = Some b /\
  bw_cnt (foldl update b [UFail; UFail; UReconcile; UConfirm]) C_exactlyOnceUnreconciled = 1 /\
  bw_cnt (foldl update b [UFail; UFail; UReconcile; UConfirm]) C_exactlyOnceConfirmed = 1.
Proof.
  eexists. split; [vm_compute; reflexivity|].
  refine (exactly_once_reconciled _
    [((StatusOther, true), (StatusSuccess, false)); ((StatusOther, true), (StatusOther, true))] _ _ _ _ _).
  - apply (interleave_step _ 0 UFail [UReconcile; UConfirm]); [done|].
    apply (interleave_step _ 1 UFail []); [done|].
    apply (interleave_step _ 0 UReconcile [UConfirm]); [done|].
    apply (interleave_step _ 0 UConfirm []); [done|]. apply interleave_done. repeat constructor.
  - done.
  - reflexivity.
  - reflexivity.
Defined.
