(* ===== verification/Nack.v ===== *)
(** * burnin/worker: nack_redelivery

    Nacking a fraction of the deliveries once and acknowledging their
    redelivery: the per-message state machine, and the accounting of nacks
    against confirmed redeliveries over every sequence of deliveries. *)
From S2P Require Import Prelude GoFloat GoFmt Config Payload Tracker TrackerBits TrackerSpec TrackerProps.
From S2P Require Import Metrics Transport Worker Handlers.

Inductive nackState := stateNacked | stateRedelivered.

#[global] Instance nackState_eq_dec : EqDecision nackState.
Proof. solve_decision. Defined.

Record NackRedeliveryWorker := mkNack {
  nr_base : BaseWorker;
  nr_topicID : string;
  nr_subID : string;
  nr_seq : Z;
  nr_nackFraction : float64;
  nr_nacked : gmap string nackState
}.

#[global] Instance nack_has_base : HasBase NackRedeliveryWorker.
Proof.
  refine {| base := nr_base;
            with_base := fun f w => mkNack (f (nr_base w)) (nr_topicID w) (nr_subID w) (nr_seq w)
                                      (nr_nackFraction w) (nr_nacked w) |}.
  done.
Defined.

(** The clamp of the configured fraction; a NaN passes through it. *)
Definition clamp_fraction (nf : float64) : float64 :=
  let nf := if fltb nf f0 then f0 else nf in
  if fltb (f_of_Z 1) nf then f_of_Z 1 else nf.

Definition NewNackRedeliveryWorker (Getenv : string -> string) (cfg : Config) (idx : Z) : option NackRedeliveryWorker :=
  let topicID := TopicName (resourcePrefix Getenv) WorkerNackRedelivery idx in
  let subID := SubscriptionName (resourcePrefix Getenv) WorkerNackRedelivery idx in
  b ← NewBaseWorker Getenv WorkerNackRedelivery (MappedTopicChannel topicID) idx cfg;
  Some (mkNack b topicID subID 0 (clamp_fraction (gcp_NackFraction (c_GCP cfg))) ∅).

Definition consumerStreams (w : NackRedeliveryWorker) : Z :=
  let n := wc_ConsumersPerChannel (bw_workerCfg (base w)) in if n <? 1 then 1 else n.

Definition nack_key (producerID : string) (seq : Z) : string := producerID +:+ "#" +:+ FormatUint seq.

Definition set_nacked (w : NackRedeliveryWorker) (k : string) (s : nackState) : NackRedeliveryWorker :=
  mkNack (nr_base w) (nr_topicID w) (nr_subID w) (nr_seq w) (nr_nackFraction w) (<[k := s]> (nr_nacked w)).

(** [handleMessage]; [draw] is what [rng.Float64] returns if it is asked.  The
    result is the call made on the message handle.  The state is read and
    updated under the mutex, so the decision is atomic. *)
Definition handleMessage (now : Z) (draw : float64) (m : Message) (consumerID : string) (w : NackRedeliveryWorker)
  : NackRedeliveryWorker * ack_call :=
  let w := with_base (recordReceived (data_len m) consumerID) w in
  let meta := extractMeta (pm_Attributes m) in
  if negb (m_ok meta) then (with_base recordAcked w, CallAck)
  else
    let w := with_base (check_integrity now (pm_Data m) meta) w in
    let w := with_base (fun b => fst (recordTracked (m_producer meta) (m_seq meta) b)) w in
    let key := nack_key (m_producer meta) (m_seq meta) in
    match nr_nacked w !! key with
    | Some stateNacked =>
        let w := set_nacked w key stateRedelivered in
        (with_base recordNackRedelivered (with_base recordAcked w), CallAck)
    | Some stateRedelivered => (with_base recordAcked w, CallAck)
    | None =>
        if fltb draw (nr_nackFraction w) then (set_nacked w key stateNacked, CallNack)
        else (with_base recordAcked w, CallAck)
    end.

(** A delivery comes with the draw it would meet. *)
Definition receive_loop (ss : list (session (Z * float64 * Message))) (w : NackRedeliveryWorker) : NackRedeliveryWorker :=
  receiveLoop (fun w '(now, draw, m) => fst (handleMessage now draw m ("c-" +:+ bw_channelName (base w)) w)) ss w.

(** One iteration of [produceLoop]. *)
Definition produce_once (producerIdx : Z) (env : publish_env) (w : NackRedeliveryWorker)
  : option (Message * loop_ctl * NackRedeliveryWorker) :=
  let producerID := producer_id (base w) producerIdx in
  let seq := nr_seq w +u 1 in
  let w := mkNack (nr_base w) (nr_topicID w) (nr_subID w) seq (nr_nackFraction w) (nr_nacked w) in
  m ← build_message producerID seq env (base w);
  let '(ctl, b) := publish_outcome producerID (data_len m) env (base w) in
  Some (m, ctl, with_base (fun _ => b) w).

(** The per-message states survive the warm-up reset, which is the base one. *)
#[global] Instance nack_worker : Worker NackRedeliveryWorker.
Proof.
  refine {| w_ResetAfterWarmup := with_base ResetAfterWarmup;
            w_DisconnectConsumers := with_base DisconnectConsumers;
            w_StopProducers := fun _ _ w => w;
            w_StopConsumers := fun _ w => w |}; done.
Defined.

(** ** The accounting *)

(** A delivery: its time, the draw it would meet, and the message; the key it
    is tracked under, if it is the harness's. *)
Definition delivery : Type := Z * float64 * Message.
Definition delivery_key (m : Message) : option string :=
  let meta := extractMeta (pm_Attributes m) in
  if m_ok meta then Some (nack_key (m_producer meta) (m_seq meta)) else None.

(** The deliveries with the call each was answered by. *)
Fixpoint handle_all (w : NackRedeliveryWorker) (l : list delivery)
  : NackRedeliveryWorker * list (option string * ack_call) :=
  match l with
  | [] => (w, [])
  | (now, draw, m) :: l' =>
      let '(w, call) := handleMessage now draw m ("c-" +:+ bw_channelName (base w)) w in
      let '(w, log) := handle_all w l' in (w, (delivery_key m, call) :: log)
  end.

Definition is_nack (c : ack_call) : bool := match c with CallNack => true | CallAck => false end.

(** How often a message was nacked, all nacks, all acks; the last answer a
    message got. *)
Definition nacks_of (k : string) (log : list (option string * ack_call)) : nat :=
  length (List.filter (fun e => bool_decide (e.1 = Some k) && is_nack e.2) log).
Definition nacks (log : list (option string * ack_call)) : Z :=
  Z.of_nat (length (List.filter (fun e => is_nack e.2) log)).
Definition acks (log : list (option string * ack_call)) : Z :=
  Z.of_nat (length (List.filter (fun e => negb (is_nack e.2)) log)).
Fixpoint last_call (k : string) (log : list (option string * ack_call)) (c0 : option ack_call) : option ack_call :=
  match log with
  | [] => c0
  | (k', c) :: log' => last_call k log' (if bool_decide (k' = Some k) then Some c else c0)
  end.

(** The messages nacked and not redelivered yet. *)
Definition pending (w : NackRedeliveryWorker) : gmap string nackState :=
  filter (fun e => e.2 = stateNacked) (nr_nacked w).
Definition pending_count (w : NackRedeliveryWorker) : Z := Z.of_nat (size (pending w)).

(** The effect of one delivery, by what the message's state was. *)
Inductive effect (w : NackRedeliveryWorker) : option string -> NackRedeliveryWorker -> ack_call -> Prop :=
| EffAck k w' : match k with Some k' => nr_nacked w !! k' <> Some stateNacked | None => True end ->
    nr_nacked w' = nr_nacked w ->
    bw_cnt (base w') C_nackRedelivered = bw_cnt (base w) C_nackRedelivered ->
    bw_cnt (base w') C_acked = bw_cnt (base w) C_acked +u 1 -> effect w k w' CallAck
| EffRedelivered k w' : nr_nacked w !! k = Some stateNacked ->
    nr_nacked w' = <[k := stateRedelivered]> (nr_nacked w) ->
    bw_cnt (base w') C_nackRedelivered = bw_cnt (base w) C_nackRedelivered +u 1 ->
    bw_cnt (base w') C_acked = bw_cnt (base w) C_acked +u 1 -> effect w (Some k) w' CallAck
| EffNack k w' : nr_nacked w !! k = None ->
    nr_nacked w' = <[k := stateNacked]> (nr_nacked w) ->
    bw_cnt (base w') C_nackRedelivered = bw_cnt (base w) C_nackRedelivered ->
    bw_cnt (base w') C_acked = bw_cnt (base w) C_acked -> effect w (Some k) w' CallNack.

Lemma cnt_acked b : bw_cnt (recordAcked b) C_acked = bw_cnt b C_acked +u 1.
Proof. done. Qed.

Lemma cnt_redelivered b : bw_cnt (recordNackRedelivered b) C_nackRedelivered = bw_cnt b C_nackRedelivered +u 1.
Proof. done. Qed.
Lemma keeps_redelivered c : c <> C_nackRedelivered -> keeps c recordNackRedelivered.
Proof. intros H b. by apply (keeps_record c C_nackRedelivered 1 (fun b => IncNackRedelivered (bw_name b))). Qed.

Lemma handleMessage_effect now draw m c w :
  effect w (delivery_key m) (fst (handleMessage now draw m c w)) (snd (handleMessage now draw m c w)).
Proof.
  unfold handleMessage, delivery_key. set (meta := extractMeta (pm_Attributes m)).
  set (w1 := with_base (recordReceived (data_len m) c) w).
  assert (forall c, c <> C_received -> bw_cnt (base w1) c = bw_cnt (base w) c) as E1
    by (intros c' Hc; unfold w1; rewrite base_with_base; by apply keeps_received).
  assert (nr_nacked w1 = nr_nacked w) as En1 by done. clearbody w1.
  destruct (m_ok meta); cbn [negb fst snd].
  2: { apply EffAck; [done|done| |]; rewrite base_with_base, ?cnt_acked, ?keeps_acked, E1 by done; done. }
  set (w2 := with_base (fun b => fst (recordTracked (m_producer meta) (m_seq meta) b))
              (with_base (check_integrity now (pm_Data m) meta) w1)).
  assert (forall c, c <> C_received -> c <> C_corrupted -> c <> C_duplicated ->
    bw_cnt (base w2) c = bw_cnt (base w) c) as E2.
  { intros c' Hr Hc Hd. unfold w2. rewrite !base_with_base, (keeps_tracked c') by done.
    rewrite keeps_integrity by done. by apply E1. }
  assert (nr_nacked w2 = nr_nacked w) as En by exact En1. rewrite En.
  set (key := nack_key (m_producer meta) (m_seq meta)). clearbody w2 key.
  destruct (nr_nacked w !! key) as [[]|] eqn:Ek; cbn [fst snd].
  - apply EffRedelivered; [done|cbn; by rewrite En| |]; rewrite !base_with_base.
    + rewrite cnt_redelivered, keeps_acked by done. change (base (set_nacked _ _ _)) with (base w2). by rewrite E2.
    + rewrite keeps_redelivered, cnt_acked by done. change (base (set_nacked _ _ _)) with (base w2). by rewrite E2.
  - apply EffAck; [by rewrite Ek|done| |]; rewrite base_with_base, ?cnt_acked, ?keeps_acked, E2 by done; done.
  - destruct (fltb draw _); cbn [fst snd].
    + apply EffNack; [done|cbn; by rewrite En| |]; change (base (set_nacked _ _ _)) with (base w2); by rewrite E2.
    + apply EffAck; [by rewrite Ek|done| |]; rewrite base_with_base, ?cnt_acked, ?keeps_acked, E2 by done; done.
Qed.

Lemma pending_insert_redelivered (m : gmap string nackState) k :
  m !! k = Some stateNacked ->
  Z.of_nat (size (filter (fun e => e.2 = stateNacked) (<[k := stateRedelivered]> m)))
  = Z.of_nat (size (filter (fun e => e.2 = stateNacked) m)) - 1.
Proof.
  intros H. rewrite map_filter_insert_False by done. rewrite map_filter_delete.
  assert (filter (fun e => e.2 = stateNacked) m !! k = Some stateNacked) as Hf by (by apply map_lookup_filter_Some).
  rewrite map_size_delete, Hf.
  destruct (size _) eqn:E; [|cbn; lia]. apply map_size_empty_inv in E. by rewrite E, lookup_empty in Hf.
Qed.

Lemma pending_insert_nacked (m : gmap string nackState) k :
  m !! k = None ->
  Z.of_nat (size (filter (fun e => e.2 = stateNacked) (<[k := stateNacked]> m)))
  = Z.of_nat (size (filter (fun e => e.2 = stateNacked) m)) + 1.
Proof.
  intros H. rewrite map_filter_insert_True by done. rewrite map_size_insert.
  replace (filter _ m !! k) with (None : option nackState); [lia|].
  symmetry. apply map_lookup_filter_None. auto.
Qed.

(** What a log leaves of each message's state. *)
Definition agrees_with (w : NackRedeliveryWorker) (w' : NackRedeliveryWorker) (log : list (option string * ack_call)) : Prop :=
  forall k, (nacks_of k log <= match nr_nacked w !! k with Some _ => 0 | None => 1 end)%nat /\
  forall c0, (nr_nacked w !! k = Some stateNacked <-> c0 = Some CallNack) ->
    (nr_nacked w' !! k = Some stateNacked <-> last_call k log c0 = Some CallNack).

Lemma handle_all_accounts l w :
  let '(w', log) := handle_all w l in
  agrees_with w w' log /\
  u64 (bw_cnt (base w') C_nackRedelivered) =
    u64 (bw_cnt (base w) C_nackRedelivered + pending_count w + nacks log - pending_count w') /\
  u64 (bw_cnt (base w') C_acked) = u64 (bw_cnt (base w) C_acked + acks log).
Proof.
  revert w. induction l as [|[[now draw] m] l IH]; intros w; cbn [handle_all].
  { split; [|split; f_equal; unfold nacks, acks; cbn; lia]. intros k. split; [unfold nacks_of; cbn; lia|]. intros c0 H. exact H. }
  pose proof (handleMessage_effect now draw m ("c-" +:+ bw_channelName (base w)) w) as He.
  destruct (handleMessage _ _ _ _ _) as [w1 call]. cbn [fst snd] in He.
  specialize (IH w1). destruct (handle_all w1 l) as [w' log]. destruct IH as (Hk & Hr & Ha).
  unfold pending_count, pending in *.
  destruct He as [k w1 Hne En E1 E2|k w1 Hs En E1 E2|k w1 Hs En E1 E2]; rewrite En in *; rewrite Hr, Ha, E1, E2.
  - split.
    + intros k'. specialize (Hk k'). rewrite En in Hk. destruct Hk as [Hk1 Hk2]. split.
      * unfold nacks_of in *. cbn. by rewrite andb_false_r.
      * intros c0 H0. cbn [last_call]. apply Hk2. case_bool_decide as Hb; [|done]. subst k.
        split; [intros Hn; by rewrite Hn in Hne|done].
    + unfold nacks, acks; cbn [List.filter is_nack negb fst snd length]; split; wrap_eq.
  - split.
    + intros k'. specialize (Hk k'). rewrite En in Hk. destruct Hk as [Hk1 Hk2]. split.
      * unfold nacks_of in *. cbn. rewrite andb_false_r. destruct (decide (k = k')) as [<-|Hne].
        -- rewrite lookup_insert_eq in Hk1. by rewrite Hs.
        -- by rewrite lookup_insert_ne in Hk1.
      * intros c0 H0. cbn [last_call]. apply Hk2. case_bool_decide as Hb.
        -- injection Hb as ->. by rewrite lookup_insert_eq.
        -- rewrite lookup_insert_ne by congruence. done.
    + rewrite pending_insert_redelivered by done. unfold nacks, acks; cbn [List.filter is_nack negb fst snd length]; split; wrap_eq.
  - split.
    + intros k'. specialize (Hk k'). rewrite En in Hk. destruct Hk as [Hk1 Hk2]. split.
      * unfold nacks_of in *. cbn. rewrite andb_true_r. destruct (decide (k = k')) as [<-|Hne].
        -- rewrite lookup_insert_eq in Hk1. rewrite Hs, bool_decide_true by done. cbn. lia.
        -- rewrite lookup_insert_ne in Hk1 by done. by rewrite bool_decide_false by congruence.
      * intros c0 H0. cbn [last_call]. apply Hk2. case_bool_decide as Hb.
        -- injection Hb as ->. by rewrite lookup_insert_eq.
        -- rewrite lookup_insert_ne by congruence. done.
    + rewrite pending_insert_nacked by done. unfold nacks, acks; cbn [List.filter is_nack negb fst snd length]; split; wrap_eq.
Qed.

(** The answer a message's state stands for. *)
Definition state_call (w : NackRedeliveryWorker) (k : string) : option ack_call :=
  match nr_nacked w !! k with Some stateNacked => Some CallNack | _ => None end.

(** The receives the tracker is told of. *)
Definition tracked (l : list delivery) : list (string * Z) :=
  omap (fun '(_, _, m) => let meta := extractMeta (pm_Attributes m) in
          if m_ok meta then Some (m_producer meta, m_seq meta) else None) l.

Lemma tracked_cons now draw m l :
  tracked ((now, draw, m) :: l) =
  let meta := extractMeta (pm_Attributes m) in
  if m_ok meta then (m_producer meta, m_seq meta) :: tracked l else tracked l.
Proof. unfold tracked. cbn -[extractMeta]. by destruct (m_ok (extractMeta (pm_Attributes m))). Qed.

Lemma handleMessage_tracks now draw m c w :
  bw_trk (base (fst (handleMessage now draw m c w))) =
  let meta := extractMeta (pm_Attributes m) in
  if m_ok meta then fst (Record_ (bw_trk (base w)) (m_producer meta) (m_seq meta)) else bw_trk (base w).
Proof.
  unfold handleMessage. set (meta := extractMeta (pm_Attributes m)). cbv zeta. destruct (m_ok meta); cbn [negb]; [|done].
  match goal with |- context [match ?x with _ => _ end] => generalize x end.
  assert (forall w, bw_trk (base (with_base (fun b => fst (recordTracked (m_producer meta) (m_seq meta) b))
            (with_base (check_integrity now (pm_Data m) meta) (with_base (recordReceived (data_len m) c) w))))
          = fst (Record_ (bw_trk (base w)) (m_producer meta) (m_seq meta))) as E.
  { intros v. rewrite !base_with_base, recordTracked_trk, integrity_trk. done. }
  intros [[]|]; [exact (E w)|exact (E w)|]. case_if; exact (E w).
Qed.

Lemma handle_all_tracks l w : bw_trk (base (fst (handle_all w l))) = fst (run (bw_trk (base w)) (tracked l)).
Proof.
  revert w. induction l as [|[[now draw] m] l IH]; intros w; [done|]. cbn [handle_all].
  pose proof (handleMessage_tracks now draw m ("c-" +:+ bw_channelName (base w)) w) as E.
  destruct (handleMessage _ _ _ _ _) as [w1 call]. cbn [fst] in E.
  specialize (IH w1). destruct (handle_all w1 l) as [w' log]. cbn [fst] in *. rewrite IH, E.
  rewrite tracked_cons. cbv zeta. destruct (m_ok (extractMeta (pm_Attributes m))); [|done]. cbn [run].
  destruct (Record_ _ _ _) as [t [dup oo]]. cbn [fst]. by destruct (run t _).
Qed.

(** C23 (invariant).  Over any sequence of deliveries: no message is nacked
    twice, nor one that was nacked before; a message is awaiting its redelivery
    exactly when the last answer it got was a nack; every nack is either still
    awaiting its redelivery or was counted as redelivered, exactly once; the
    acknowledged counter is the number of deliveries that were not nacked
    (the counters modulo 2^64); and the tracker was told of every receive,
    redeliveries included. *)
Theorem nack_redelivery_accounting w l :
  let w' := fst (handle_all w l) in
  let log := snd (handle_all w l) in
  (forall k, (nacks_of k log <= match nr_nacked w !! k with Some _ => 0 | None => 1 end)%nat) /\
  (forall k, nr_nacked w' !! k = Some stateNacked <-> last_call k log (state_call w k) = Some CallNack) /\
  u64 (bw_cnt (base w') C_nackRedelivered) =
    u64 (bw_cnt (base w) C_nackRedelivered + pending_count w + nacks log - pending_count w') /\
  u64 (bw_cnt (base w') C_acked) = u64 (bw_cnt (base w) C_acked + acks log) /\
  bw_trk (base w') = fst (run (bw_trk (base w)) (tracked l)).
Proof.
  pose proof (handle_all_accounts l w) as H. pose proof (handle_all_tracks l w) as Ht.
  destruct (handle_all w l) as [w' log]. cbn [fst snd] in *.
  destruct H as (Hk & Hr & Ha). split; [intros k; apply Hk|]. split; [|done].
  intros k. apply Hk. unfold state_call. by destruct (nr_nacked w !! k) as [[]|].
Qed.
