(* ===== verification/Filtering.v ===== *)
(** * burnin/worker: filtering

    A subscription with an attribute filter: producers alternate matching and
    non-matching messages, only the matching ones are tracked, and a delivered
    message that does not match is a violation. *)
From S2P Require Import Prelude GoFloat GoFmt Config Payload Tracker TrackerBits TrackerSpec TrackerProps.
From S2P Require Import Streams Metrics Transport Worker WorkerProps Handlers Tracked.

Definition filterMatchAttr : string := "match".
Definition filterMatchYes : string := "yes".
Definition filterMatchNo : string := "no".
Definition filterExpr : string :=
  "attributes." +:+ filterMatchAttr +:+ " = " +:+ dquote +:+ filterMatchYes +:+ dquote.

Record FilteringWorker := mkFiltering {
  fl_base : BaseWorker;
  fl_topicID : string;
  fl_subID : string;
  fl_nonMatchSeq : Z
}.

#[global] Instance filtering_has_base : HasBase FilteringWorker.
Proof.
  refine {| base := fl_base;
            with_base := fun f w => mkFiltering (f (fl_base w)) (fl_topicID w) (fl_subID w) (fl_nonMatchSeq w) |}.
  done.
Defined.

Definition NewFilteringWorker (Getenv : string -> string) (cfg : Config) (idx : Z) : option FilteringWorker :=
  let topicID := TopicName (resourcePrefix Getenv) WorkerFiltering idx in
  let subID := SubscriptionName (resourcePrefix Getenv) WorkerFiltering idx in
  b ← NewBaseWorker Getenv WorkerFiltering (MappedTopicChannel topicID) idx cfg;
  Some (mkFiltering b topicID subID 0).

(** Every message is acknowledged, whatever it carries. *)
Definition handleMessage (now : Z) (m : Message) (consumerID : string) (w : FilteringWorker) : FilteringWorker :=
  let w := with_base (recordReceived (data_len m) consumerID) w in
  let matchVal := attr (pm_Attributes m) filterMatchAttr in
  if negb (String.eqb matchVal filterMatchYes) then
    with_base recordAcked (with_base recordFilterMismatch w)
  else
    let w := with_base recordFilterMatchedDelivered w in
    let meta := extractMeta (pm_Attributes m) in
    let w := if m_ok meta then
               let w := with_base (check_integrity now (pm_Data m) meta) w in
               with_base (fun b => fst (recordTracked (m_producer meta) (m_seq meta) b)) w
             else w in
    with_base recordAcked w.

Definition receive_loop (ss : list (session (Z * Message))) (w : FilteringWorker) : FilteringWorker :=
  receiveLoop (fun w '(now, m) => handleMessage now m ("c-" +:+ bw_channelName (base w)) w) ss w.

(** The locals of a producer goroutine. *)
Record producer := mkProducer { p_matchSeq : Z; p_tick : Z }.
Definition new_producer : producer := mkProducer 0 0.

(** [publishNonMatch]: under a producer id of its own, and never counted as
    sent. *)
Definition publishNonMatch (body : list Z) (crcHex : string) (env : publish_env) (w : FilteringWorker)
  : Message * FilteringWorker :=
  let seq := fl_nonMatchSeq w +u 1 in
  let w := mkFiltering (fl_base w) (fl_topicID w) (fl_subID w) seq in
  let a := stampAttrs (Sprintf "n-%s" [AStr (bw_channelName (base w))]) seq crcHex (pe_stamp env) in
  let m := mkMsg body (<[filterMatchAttr := filterMatchNo]> a) "" "" in
  match PublishMessageSync (pe_result env) with
  | inl _ => (m, w)
  | inr _ => (m, if pe_done env then w else with_base (recordError "publish_failure") w)
  end.

(** One iteration of [produceLoop]; [None] when [SelectSize] panics. *)
Definition produce_once (producerIdx : Z) (env : publish_env) (w : FilteringWorker) (p : producer)
  : option (Message * loop_ctl * FilteringWorker * producer) :=
  let matchProducerID := producer_id (base w) producerIdx in
  size ← selectMessageSize (base w) (pe_size env);
  let '(body, crcHex) := Build (pe_rand env) size in
  let matching := p_tick p mod 2 =? 0 in
  let p := mkProducer (p_matchSeq p) (p_tick p +u 1) in
  if negb matching then
    let '(m, w) := publishNonMatch body crcHex env w in Some (m, Continue, w, p)
  else
    let seq := p_matchSeq p +u 1 in
    let a := stampAttrs matchProducerID seq crcHex (pe_stamp env) in
    let m := mkMsg body (<[filterMatchAttr := filterMatchYes]> a) "" "" in
    let '(ctl, b) := publish_outcome matchProducerID (data_len m) env (base w) in
    let p := if published_ok env then mkProducer seq (p_tick p) else p in
    Some (m, ctl, with_base (fun _ => b) w, p).

#[global] Instance filtering_worker : Worker FilteringWorker.
Proof.
  refine {| w_ResetAfterWarmup := with_base ResetAfterWarmup;
            w_DisconnectConsumers := with_base DisconnectConsumers;
            w_StopProducers := fun _ _ w => w;
            w_StopConsumers := fun _ w => w |}; done.
Defined.

(** ** Receiving *)

Definition matches (m : Message) : bool := String.eqb (attr (pm_Attributes m) filterMatchAttr) filterMatchYes.

Definition handle (w : FilteringWorker) (d : Z * Message) : FilteringWorker :=
  handleMessage d.1 d.2 ("c-" +:+ bw_channelName (base w)) w.

(** What a message is tracked as, if it is. *)
Definition message_event (m : Message) : option (string * Z) :=
  let meta := extractMeta (pm_Attributes m) in
  if matches m && m_ok meta then Some (m_producer meta, m_seq meta) else None.
Definition event (d : Z * Message) : option (string * Z) := message_event d.2.

Lemma keeps_matched c : c <> C_filterMatchedDelivered -> keeps c recordFilterMatchedDelivered.
Proof. intros H b. by apply (keeps_record c C_filterMatchedDelivered 1 (fun b => IncFilterMatchedDelivered (bw_name b))). Qed.
Lemma keeps_mismatch c : c <> C_filterMismatch -> keeps c recordFilterMismatch.
Proof. intros H b. by apply (keeps_record c C_filterMismatch 1 (fun b => IncFilterMismatch (bw_name b))). Qed.

#[global] Instance filtering_tracked : TrackedHandler handle event.
Proof.
  split; intros w [now m]; unfold handle, event, message_event, handleMessage, matches; cbn [fst snd];
    set (meta := extractMeta (pm_Attributes m));
    destruct (String.eqb _ _); cbn [negb andb]; [destruct (m_ok meta)| |destruct (m_ok meta)|];
    rewrite !base_with_base; try done.
  - change (bw_trk (recordAcked ?b)) with (bw_trk b). by rewrite recordTracked_trk, integrity_trk.
  - rewrite keeps_acked, recordTracked_dup, integrity_trk, !keeps_integrity, !keeps_matched, !keeps_received by done. done.
Qed.

(** ** Producing *)

Definition producer_of (ps : gmap Z producer) (i : Z) : producer := default new_producer (ps !! i).

(** The goroutines of a channel, scheduled one iteration at a time; the
    messages the broker accepted, in order. *)
Definition produce_step (st : FilteringWorker * gmap Z producer * list Message) (x : Z * publish_env)
  : FilteringWorker * gmap Z producer * list Message :=
  let '(w, ps, sent) := st in
  match produce_once x.1 x.2 w (producer_of ps x.1) with
  | Some (m, _, w', p') => (w', <[x.1 := p']> ps, if published_ok x.2 then sent ++ [m] else sent)
  | None => st
  end.

(** An iteration's index is an [int] and its clock a representable time. *)
Definition iteration_ok (x : Z * publish_env) : Prop := is_int x.1 /\ is_int (pe_stamp x.2).

#[global] Instance iteration_ok_dec x : Decision (iteration_ok x).
Proof. unfold iteration_ok. apply _. Defined.

(** What [n] iterations over the indices [idxs] leave: each producer's accepted
    matching messages are numbered from 1 without a gap. *)
Record contiguous (w0 : FilteringWorker) (idxs : list Z) (n : Z)
    (st : FilteringWorker * gmap Z producer * list Message) : Prop := {
  ct_channel : bw_channelName (base st.1.1) = bw_channelName (base w0);
  ct_bound : forall i, 0 <= p_matchSeq (producer_of st.1.2 i) <= n;
  ct_stream : forall i, is_int i ->
    of_producer (producer_id (base w0) i) (omap message_event st.2) = seqZ 1 (p_matchSeq (producer_of st.1.2 i));
  ct_known : Forall (fun e => exists i, i ∈ idxs /\ e.1 = producer_id (base w0) i) (omap message_event st.2);
  ct_u64 : Forall (fun e => is_u64 e.2) (omap message_event st.2);
  ct_sent : u64 (bw_cnt (base st.1.1) C_sent) =
            u64 (bw_cnt (base w0) C_sent + Z.of_nat (length (omap message_event st.2)))
}.



Lemma producer_of_insert ps i j p : producer_of (<[i := p]> ps) j = if decide (i = j) then p else producer_of ps j.
Proof.
  unfold producer_of. destruct (decide (i = j)) as [->|Hne]; [by rewrite lookup_insert_eq|by rewrite lookup_insert_ne].
Qed.

Lemma event_no body a : message_event (mkMsg body (<[filterMatchAttr := filterMatchNo]> a) "" "") = None.
Proof. unfold message_event, matches, attr. cbn [pm_Attributes]. by rewrite lookup_insert_eq. Qed.

Lemma event_yes body p s crc now :
  is_u64 s -> is_int now -> p <> "" ->
  message_event (mkMsg body (<[filterMatchAttr := filterMatchYes]> (stampAttrs p s crc now)) "" "") = Some (p, s).
Proof.
  intros Hs Hn Hp. unfold message_event, matches, attr. cbn [pm_Attributes].
  rewrite lookup_insert_eq, stamp_extra by done. done.
Qed.

(** One iteration: nothing tracked is published, or the producer's next
    matching message is. *)
Lemma produce_once_cases i env w p m ctl w' p' :
  produce_once i env w p = Some (m, ctl, w', p') -> is_int (pe_stamp env) ->
  bw_channelName (base w') = bw_channelName (base w) /\
  ((p_matchSeq p' = p_matchSeq p /\ bw_cnt (base w') C_sent = bw_cnt (base w) C_sent /\
    (published_ok env = true -> message_event m = None)) \/
   (p_matchSeq p' = p_matchSeq p +u 1 /\ bw_cnt (base w') C_sent = bw_cnt (base w) C_sent +u 1 /\
    published_ok env = true /\ message_event m = Some (producer_id (base w) i, p_matchSeq p +u 1))).
Proof.
  intros H Hs. unfold produce_once in H. destruct (selectMessageSize _ _) as [sz|]; [|done].
  cbn [mbind option_bind] in H. destruct (Build (pe_rand env) sz) as [body crc].
  destruct (p_tick p mod 2 =? 0); cbn [negb] in H.
  - match type of H with context [publish_outcome ?a ?n ?e ?b] =>
      pose proof (outcome_channel a n e b) as Ec; pose proof (outcome_sent a n e b) as Es;
      destruct (publish_outcome a n e b) as [c b'] end.
    cbn [fst snd] in Ec, Es. simplify_eq. rewrite base_with_base. split; [done|].
    destruct (published_ok env); [right|left; done]. rewrite event_yes; [done|apply uadd_range|done|].
    apply String.eqb_neq, producer_id_nonempty.
  - unfold publishNonMatch in H. destruct (PublishMessageSync (pe_result env)); simplify_eq.
    + split; [done|]. left. split; [done|]. split; [done|]. intros _. apply event_no.
    + split; [by destruct (pe_done env)|]. left. split; [done|]. split; [by destruct (pe_done env)|].
      intros _. apply event_no.
Qed.

Lemma contiguous_step w0 idxs n st x :
  contiguous w0 idxs n st -> n + 1 < two64 -> iteration_ok x -> x.1 ∈ idxs -> contiguous w0 idxs (n + 1) (produce_step st x).
Proof.
  destruct st as [[w ps] sent], x as [i env]. intros [H1 H2 H3 H4 H5 H6] Hn [Hi Hs] Hin. cbn [fst snd] in *.
  unfold produce_step. cbn [fst snd]. destruct (produce_once i env w (producer_of ps i)) as [[[[m ctl] w'] p']|] eqn:E.
  2: { split; cbn [fst snd]; try done. intros j. specialize (H2 j). lia. }
  destruct (produce_once_cases _ _ _ _ _ _ _ _ E Hs) as [Ec [(Ep & Es & Em)|(Ep & Es & Eok & Em)]].
  - assert (omap message_event (if published_ok env then sent ++ [m] else sent) = omap message_event sent) as Eo.
    { destruct (published_ok env); [|done]. rewrite omap_app. cbn [omap]. cbn. rewrite Em by done. by rewrite app_nil_r. }
    split; cbn [fst snd]; rewrite ?Eo; try done; [by rewrite Ec| |..].
    + intros j. rewrite producer_of_insert. destruct (decide (i = j)) as [->|]; [rewrite Ep|]; specialize (H2 j); lia.
    + intros j Hj. rewrite producer_of_insert. destruct (decide (i = j)) as [->|]; [rewrite Ep|]; by apply H3.
    + by rewrite Es.
  - rewrite Eok. pose proof (H2 i) as Hb. rewrite uadd_small in Ep, Em by range.
    assert (omap message_event (sent ++ [m]) =
            omap message_event sent ++ [(producer_id (base w0) i, p_matchSeq (producer_of ps i) + 1)]) as Eo.
    { rewrite omap_app. f_equal. cbn. rewrite Em. by rewrite (producer_id_ext (base w) (base w0)). }
    split; cbn [fst snd]; rewrite ?Eo; [by rewrite Ec| | | | |].
    + intros j. rewrite producer_of_insert. destruct (decide (i = j)) as [->|]; [rewrite Ep|]; specialize (H2 j); lia.
    + intros j Hj. rewrite producer_of_insert, of_producer_app, of_producer_cons, H3 by done.
      destruct (decide (i = j)) as [->|Hne].
      * rewrite decide_True by done. rewrite Ep. cbn. symmetry.
        rewrite seqZ_app by lia. f_equal. rewrite (seqZ_cons _ 1) by lia. f_equal. lia.
      * rewrite decide_False by (intros F; by apply producer_id_inj in F). cbn. apply app_nil_r.
    + apply Forall_app. split; [done|]. apply Forall_singleton. by exists i.
    + apply Forall_app. split; [done|]. apply Forall_singleton. cbn. range.
    + rewrite Es, length_app. cbn [length]. destruct (uadd_quot (bw_cnt (base w) C_sent) 1) as [q ->].
      unfold u64 in *. rewrite Nat2Z.inj_add, Z.add_assoc. rewrite Z_mod_plus_full.
      rewrite <- Zplus_mod_idemp_l, H6, Zplus_mod_idemp_l. done.
Qed.

(** ** A run: iterations and deliveries in any order *)

Definition run_state : Type := FilteringWorker * gmap Z producer * list Message.

Inductive activity :=
| AProduce (x : Z * publish_env)
| ADeliver (d : Z * Message).

Definition act (st : run_state) (a : activity) : run_state :=
  match a with
  | AProduce x => produce_step st x
  | ADeliver d => (handle st.1.1 d, st.1.2, st.2)
  end.

Definition iterations (l : list activity) : list (Z * publish_env) :=
  omap (fun a => match a with AProduce x => Some x | ADeliver _ => None end) l.
Definition deliveries (l : list activity) : list (Z * Message) :=
  omap (fun a => match a with ADeliver d => Some d | AProduce _ => None end) l.
Definition activity_event (a : activity) : option (string * Z) :=
  match a with ADeliver d => event d | AProduce _ => None end.

#[global] Instance run_state_has_base : HasBase run_state.
Proof. refine {| base := fun st => base st.1.1; with_base := fun f st => (with_base f st.1.1, st.1.2, st.2) |}. done. Defined.


(** Producing leaves the tracker and the counters of the consumers alone. *)
Lemma produce_keeps st x :
  bw_trk (base (produce_step st x)) = bw_trk (base st) /\
  forall c, c <> C_sent -> c <> C_errors -> bw_cnt (base (produce_step st x)) c = bw_cnt (base st) c.
Proof.
  destruct st as [[w ps] sent], x as [i env]. cbn [base run_state_has_base fst snd]. unfold produce_step. cbn [fst snd].
  unfold produce_once. destruct (selectMessageSize _ _) as [sz|]; [|done].
  cbn [mbind option_bind]. destruct (Build (pe_rand env) sz) as [body crc].
  destruct (_ =? 0); cbn [negb].
  - match goal with |- context [publish_outcome ?a ?n ?e ?b] =>
      pose proof (outcome_trk a n e b) as Et; pose proof (fun c => keeps_outcome c a n e b) as Ek;
      destruct (publish_outcome a n e b) as [ctl b'] end.
    cbn [fst snd] in *. rewrite base_with_base. split; [done|]. intros c H1 H2. by rewrite Ek.
  - unfold publishNonMatch. destruct (PublishMessageSync (pe_result env)); cbn [fst snd]; [done|].
    destruct (pe_done env); [done|]. split; [done|]. intros c H1 H2. rewrite base_with_base. by rewrite keeps_error.
Qed.

#[global] Instance act_tracked : TrackedHandler act activity_event.
Proof.
  split; intros st [x|d]; cbn [act activity_event].
  - apply produce_keeps.
  - exact (handler_trk st.1.1 d).
  - by apply produce_keeps.
  - exact (handler_dup st.1.1 d).
Qed.

(** What a delivery does to the other counters. *)
Lemma filtering_handle_counts w d :
  bw_channelName (base (handle w d)) = bw_channelName (base w) /\
  bw_cnt (base (handle w d)) C_sent = bw_cnt (base w) C_sent /\
  bw_cnt (base (handle w d)) C_filterMismatch =
    (if matches d.2 then bw_cnt (base w) C_filterMismatch else bw_cnt (base w) C_filterMismatch +u 1) /\
  bw_cnt (base (handle w d)) C_filterMatchedDelivered =
    (if matches d.2 then bw_cnt (base w) C_filterMatchedDelivered +u 1 else bw_cnt (base w) C_filterMatchedDelivered).
Proof.
  destruct d as [now m]. unfold handle, handleMessage, matches. cbn [fst snd].
  set (meta := extractMeta (pm_Attributes m)). destruct (String.eqb _ _); cbn [negb]; [|repeat split].
  destruct (m_ok meta); rewrite !base_with_base; [|repeat split].
  change (bw_channelName (recordAcked ?b)) with (bw_channelName b). rewrite recordTracked_channel, integrity_channel.
  rewrite !keeps_acked by done. rewrite !(keeps_tracked _ (m_producer meta)) by done. rewrite !keeps_integrity by done.
  repeat split.
Qed.

Lemma contiguous_deliver w0 idxs n w ps sent d :
  contiguous w0 idxs n (w, ps, sent) -> contiguous w0 idxs n (handle w d, ps, sent).
Proof.
  intros [H1 H2 H3 H4 H5 H6]. destruct (filtering_handle_counts w d) as (E1 & E2 & _). cbn [fst snd] in *.
  split; cbn [fst snd]; try done; congruence.
Qed.

Lemma contiguous_run w0 idxs l n st :
  contiguous w0 idxs n st -> n + Z.of_nat (length (iterations l)) < two64 ->
  Forall iteration_ok (iterations l) -> Forall (fun x => x.1 ∈ idxs) (iterations l) ->
  contiguous w0 idxs (n + Z.of_nat (length (iterations l))) (foldl act st l).
Proof.
  revert n st. induction l as [|[x|d] l IH]; intros n st H Hn Hok Hin; cbn [foldl act].
  - cbn. by rewrite Z.add_0_r.
  - change (iterations (AProduce x :: l)) with (x :: iterations l) in *.
    apply Forall_cons in Hok as [Hx Hok]. apply Forall_cons in Hin as [Hi Hin]. cbn [length] in *.
    replace (n + Z.of_nat (S (length (iterations l)))) with ((n + 1) + Z.of_nat (length (iterations l))) in * by lia.
    apply IH; try done. apply contiguous_step; [done|lia|done|done].
  - change (iterations (ADeliver d :: l)) with (iterations l) in *. apply IH; try done.
    destruct st as [[w ps] sent]. by apply contiguous_deliver.
Qed.

Lemma run_counts l st :
  u64 (bw_cnt (base (foldl act st l)) C_filterMismatch) =
    u64 (bw_cnt (base st) C_filterMismatch +
         Z.of_nat (length (List.filter (fun d => negb (matches d.2)) (deliveries l)))) /\
  u64 (bw_cnt (base (foldl act st l)) C_filterMatchedDelivered) =
    u64 (bw_cnt (base st) C_filterMatchedDelivered +
         Z.of_nat (length (List.filter (fun d => matches d.2) (deliveries l)))).
Proof.
  revert st. induction l as [|[x|d] l IH]; intros st; cbn [foldl].
  - cbn. by rewrite !Z.add_0_r.
  - change (deliveries (AProduce x :: l)) with (deliveries l). destruct (IH (act st (AProduce x))) as [-> ->].
    cbn [act]. destruct (produce_keeps st x) as [_ E]. by rewrite !E.
  - change (deliveries (ADeliver d :: l)) with (d :: deliveries l). destruct (IH (act st (ADeliver d))) as [-> ->].
    cbn [act base run_state_has_base fst snd]. destruct (filtering_handle_counts st.1.1 d) as (_ & _ & -> & ->).
    cbn [List.filter]. destruct (matches d.2); cbn [negb length]; split; wrap_eq.
Qed.

Lemma filtering_events l : omap activity_event l = omap event (deliveries l).
Proof.
  induction l as [|[x|d] l IH]; [done|exact IH|].
  change (deliveries (ADeliver d :: l)) with (d :: deliveries l). rewrite !event_cons. cbn [activity_event].
  by rewrite IH.
Qed.

Lemma contiguous_start w : contiguous w [] 0 (w, ∅, []).
Proof.
  split; cbn [fst snd]; try done.
  cbn. by rewrite Z.add_0_r.
Qed.

(** More indices may be known than occur. *)
Lemma contiguous_weaken w0 idxs idxs' n st : idxs ⊆ idxs' -> contiguous w0 idxs n st -> contiguous w0 idxs' n st.
Proof.
  intros Hs [H1 H2 H3 H4 H5 H6]. split; try done. eapply Forall_impl; [exact H4|].
  intros e (i & Hi & ->). exists i. split; [by apply Hs|done].
Qed.

Lemma contiguous_streams w0 idxs n st p :
  contiguous w0 idxs n st -> Forall is_int idxs -> exists s k, of_producer p (omap message_event st.2) = seqZ s k.
Proof.
  intros H Hi. destruct (decide (p ∈ (producer_id (base w0) <$> idxs))) as [Hp|Hp].
  - apply list_elem_of_fmap in Hp as (i & -> & Hin). rewrite (ct_stream _ _ _ _ H); [eauto|].
    by apply (proj1 (Forall_forall _ _) Hi).
  - exists 0, 0. pose proof (ct_known _ _ _ _ H) as Hk. change (seqZ 0 0) with ([] : list Z).
    induction Hk as [|[q s] evs (i & Hin & E) Hk IH]; [done|]. cbn [fst] in E. rewrite of_producer_cons, IH.
    rewrite decide_False; [done|]. intros ->. apply Hp. subst. by apply list_elem_of_fmap_2.
Qed.

(** C34 (functional).  However the iterations of any number of producers and
    the deliveries interleave, and whichever publishes fail: the mismatch
    counter is the number of delivered messages that do not match and the
    matched counter that of the others; the sent counter is the number of
    accepted matching messages; and when the matching messages of each producer
    arrive complete and in order, the tracker reports neither loss nor
    duplicates, although half of what was published is never delivered. *)
Theorem filtering_end_to_end Getenv cfg idx w l :
  NewFilteringWorker Getenv cfg idx = Some w -> rw_ok (msg_ReorderWindow (c_Message cfg)) ->
  Forall iteration_ok (iterations l) -> Z.of_nat (length (iterations l)) < two64 ->
  let st := foldl act (w, ∅, []) l in
  let sent := st.2 in
  u64 (bw_cnt (base st) C_filterMismatch) =
    u64 (Z.of_nat (length (List.filter (fun d => negb (matches d.2)) (deliveries l)))) /\
  u64 (bw_cnt (base st) C_filterMatchedDelivered) =
    u64 (Z.of_nat (length (List.filter (fun d => matches d.2) (deliveries l)))) /\
  u64 (bw_cnt (base st) C_sent) = u64 (Z.of_nat (length (omap message_event sent))) /\
  ((forall p, of_producer p (omap event (deliveries l)) = of_producer p (omap message_event sent)) ->
   TotalLost (bw_trk (base st)) = 0 /\ bw_cnt (base st) C_duplicated = 0).
Proof.
  intros Hw Hrw Hok Hn st sent.
  assert (fresh_tracker (base w) /\ forall c, bw_cnt (base w) c = 0) as [Hf Hz].
  { unfold NewFilteringWorker in Hw. destruct (NewBaseWorker _ _ _ _ _) as [b|] eqn:Eb; [|done].
    cbn [mbind option_bind] in Hw. injection Hw as <-.
    split; [exact (new_fresh _ _ _ _ _ _ Eb Hrw)|]. intros c. exact (new_counters _ _ _ _ _ _ c Eb). }
  set (idxs := (fst <$> iterations l) : list Z).
  assert (contiguous w idxs (0 + Z.of_nat (length (iterations l))) st) as Hc.
  { apply contiguous_run; [|lia|done|].
    - apply (contiguous_weaken w []); [by intros ? ?%elem_of_nil|]. apply contiguous_start.
    - apply Forall_forall. intros x Hx. by apply list_elem_of_fmap_2. }
  assert (Forall is_int idxs) as Hi.
  { apply Forall_fmap. eapply Forall_impl; [exact Hok|]. by intros x [? _]. }
  destruct (run_counts l (w, ∅, [])) as [E1 E2]. fold st in E1, E2.
  change (base (w, ∅ : gmap Z producer, [] : list Message)) with (base w) in E1, E2. rewrite !Hz in *.
  split; [done|]. split; [done|]. split; [pose proof (ct_sent _ _ _ _ Hc) as Es; by rewrite Hz in Es|].
  intros Hd. apply (handled_clean act activity_event l (w, ∅, [])); [exact Hf| |]; rewrite filtering_events.
  - apply Forall_forall. intros [p s] Hin. cbn. pose proof (ct_u64 _ _ _ _ Hc) as Hu.
    assert (s ∈ of_producer p (omap event (deliveries l))) as Hs.
    { apply list_elem_of_omap. exists (p, s). cbn. by rewrite decide_True. }
    rewrite Hd in Hs. apply list_elem_of_omap in Hs as ([q s'] & Hin' & Eq). cbn in Eq.
    destruct (decide (q = p)); simplify_eq. exact (proj1 (Forall_forall _ _) Hu _ Hin').
  - intros p. rewrite Hd. by apply (contiguous_streams w idxs (0 + Z.of_nat (length (iterations l)))).
Qed.

(** Two producers, one failed publish: four accepted messages, of which the
    two matching ones are delivered. *)
Definition env_of (ok : bool) : publish_env :=
  mkEnv 0 (fun _ => 0) 0 (if ok then inl "1" else inr (mkErr OtherCode None "unavailable")) false 0 0.
Definition sample_run : list activity :=
  AProduce <$> [(0, env_of false); (0, env_of true); (0, env_of true); (1, env_of true); (1, env_of true)].

Definition sample_full (w : FilteringWorker) : list activity :=
  sample_run ++ ((fun m => ADeliver (0, m)) <$> List.filter matches (foldl act (w, ∅, []) sample_run).2).

Lemma filtering_end_to_end_witness :
  exists w, NewFilteringWorker (fun _ => "") DefaultConfig 1 = Some w /\
  length (deliveries (sample_full w)) = 2%nat /\
  TotalLost (bw_trk (base (foldl act (w, ∅, []) (sample_full w)))) = 0 /\
  u64 (bw_cnt (base (foldl act (w, ∅, []) (sample_full w))) C_sent) = 2.
Proof.
  destruct (NewFilteringWorker (fun _ => "") DefaultConfig 1) as [w|] eqn:E; [|vm_compute in E; discriminate E].
  exists w. split; [reflexivity|].
  assert (omap event (deliveries (sample_full w)) = omap message_event (foldl act (w, ∅, []) (sample_full w)).2 /\
          length (deliveries (sample_full w)) = 2%nat /\
          bool_decide (Forall iteration_ok (iterations (sample_full w))) = true /\
          length (omap message_event (foldl act (w, ∅, []) (sample_full w)).2) = 2%nat /\
          length (iterations (sample_full w)) = 5%nat) as (H1 & H2 & H3 & H4 & H5).
  { vm_compute in E. injection E as <-. vm_compute. auto. }
  split; [exact H2|].
  destruct (filtering_end_to_end (fun _ => "") DefaultConfig 1 w (sample_full w) E) as (_ & _ & Es & Hd).
  - vm_compute. auto.
  - by apply bool_decide_eq_true_1 in H3.
  - rewrite H5. reflexivity.
  - split; [|by rewrite Es, H4]. apply Hd. intros p. by rewrite H1.
Defined.
