(* ===== verification/FanOut.v ===== *)
(** * burnin/worker: fan_out

    One topic, several subscriptions: every subscriber's copy of a message is
    tracked under a key of its own, so what one subscriber misses is charged to
    it alone. *)
From S2P Require Import Prelude GoFloat GoFmt Config Payload Tracker TrackerBits TrackerSpec TrackerProps.
From S2P Require Import Streams Metrics Transport TransportProps Worker WorkerProps Handlers Tracked.
From Stdlib Require Import Ascii.

Record FanOutWorker := mkFanOut {
  fo_base : BaseWorker;
  fo_topicID : string;
  fo_subIDs : list string;
  fo_seq : Z
}.

#[global] Instance fanout_has_base : HasBase FanOutWorker.
Proof.
  refine {| base := fo_base;
            with_base := fun f w => mkFanOut (f (fo_base w)) (fo_topicID w) (fo_subIDs w) (fo_seq w) |}.
  done.
Defined.

(** The ids of the first [n] target subscriptions. *)
Definition fanout_ids (prefix : string) (idx n : Z) : list string :=
  FanoutSubscriptionName prefix WorkerFanOut idx <$> seqZ 0 n.

Definition NewFanOutWorker (Getenv : string -> string) (cfg : Config) (idx : Z) : option FanOutWorker :=
  let topicID := TopicName (resourcePrefix Getenv) WorkerFanOut idx in
  let subIDs := fanout_ids (resourcePrefix Getenv) idx (FanoutSubscriptionCount cfg) in
  b ← NewBaseWorker Getenv WorkerFanOut (MappedTopicChannel topicID) idx cfg;
  Some (mkFanOut b topicID subIDs 0).

Definition tracking_key (producerID subID : string) : string := producerID +:+ "@" +:+ subID.

Definition handleMessage (now : Z) (m : Message) (subID : string) (w : FanOutWorker) : FanOutWorker :=
  let w := with_base (recordReceived (data_len m) ("c-" +:+ subID)) w in
  let w := with_base recordFanoutDelivery w in
  let meta := extractMeta (pm_Attributes m) in
  let w := if m_ok meta then
             let w := with_base (check_integrity now (pm_Data m) meta) w in
             with_base (fun b => fst (recordTracked (tracking_key (m_producer meta) subID) (m_seq meta) b)) w
           else w in
  with_base recordAcked w.

(** One subscription's receiver. *)
Definition receive_loop (subID : string) (ss : list (session (Z * Message))) (w : FanOutWorker) : FanOutWorker :=
  receiveLoop (fun w '(now, m) => handleMessage now m subID w) ss w.

(** One iteration of [produceLoop]. *)
Definition produce_once (producerIdx : Z) (env : publish_env) (w : FanOutWorker)
  : option (Message * loop_ctl * FanOutWorker) :=
  let producerID := producer_id (base w) producerIdx in
  let seq := fo_seq w +u 1 in
  let w := mkFanOut (fo_base w) (fo_topicID w) (fo_subIDs w) seq in
  m ← build_message producerID seq env (base w);
  let '(ctl, b) := publish_outcome producerID (data_len m) env (base w) in
  Some (m, ctl, with_base (fun _ => b) w).

#[global] Instance fanout_worker : Worker FanOutWorker.
Proof.
  refine {| w_ResetAfterWarmup := with_base ResetAfterWarmup;
            w_DisconnectConsumers := with_base DisconnectConsumers;
            w_StopProducers := fun _ _ w => w;
            w_StopConsumers := fun _ w => w |}; done.
Defined.

(** ** Subscribers are accounted separately *)

(** A delivery of a message to the subscription of an index. *)
Definition delivery : Type := Z * Z * Message.

Section subscribers.
Context (prefix : string) (idx : Z).
Definition sub_id (i : Z) : string := FanoutSubscriptionName prefix WorkerFanOut idx i.

Definition handle (w : FanOutWorker) (d : delivery) : FanOutWorker :=
  let '(i, now, m) := d in handleMessage now m (sub_id i) w.

Definition event (d : delivery) : option (string * Z) :=
  let '(i, _, m) := d in
  let meta := extractMeta (pm_Attributes m) in
  if m_ok meta then Some (tracking_key (m_producer meta) (sub_id i), m_seq meta) else None.

Lemma keeps_fanout c : c <> C_fanoutDeliveries -> keeps c recordFanoutDelivery.
Proof. intros H b. by apply (keeps_record c C_fanoutDeliveries 1 (fun b => IncFanoutDelivery (bw_name b))). Qed.

#[global] Instance fanout_tracked : TrackedHandler handle event.
Proof.
  split; intros w [[i now] m]; unfold handle, event, handleMessage;
    set (meta := extractMeta (pm_Attributes m)); destruct (m_ok meta); rewrite !base_with_base; try done.
  - change (bw_trk (recordAcked ?b)) with (bw_trk b). by rewrite recordTracked_trk, integrity_trk.
  - rewrite keeps_acked, recordTracked_dup, integrity_trk, !keeps_integrity, !keeps_fanout, !keeps_received by done. done.
Qed.

Lemma sub_id_shape i : sub_id i = base_id prefix WorkerFanOut idx +:+ String "_" (String "s" (fmt_0d 2 i)).
Proof. exact (resource_id_shape prefix (RFanoutSub WorkerFanOut idx i)). Qed.

(** The keys of two deliveries coincide only for the same producer and the
    same subscription. *)
Lemma tracking_key_inj p q i j :
  index_ok i -> index_ok j -> tracking_key p (sub_id i) = tracking_key q (sub_id j) -> p = q /\ i = j.
Proof.
  intros Hi Hj. unfold tracking_key. rewrite !sub_id_shape, <- !sapp_assoc. intros E.
  apply last_sep_inj in E as [E1 E2]; [|by apply no_char_s..]. injection E2 as E2.
  split; [by apply sapp_inj_tail, sapp_inj_tail in E1|]. by apply (fmt_0d_inj 2).
Qed.

Lemma event_key_of j p d :
  index_ok j -> index_ok d.1.1 ->
  match event d with
  | Some e => e.1 = tracking_key p (sub_id j) -> d.1.1 = j
  | None => True
  end.
Proof.
  destruct d as [[i now] m]. unfold event. cbn [fst snd]. intros Hj Hi. destruct (m_ok _); [|done].
  cbn [fst]. intros E. by apply tracking_key_inj in E as [_ E].
Qed.

(** The events under a subscriber's key are those of its own deliveries. *)
Lemma own_events j p l :
  index_ok j -> Forall (fun d : delivery => index_ok d.1.1) l ->
  events_of (tracking_key p (sub_id j)) (omap event l) =
  events_of (tracking_key p (sub_id j)) (omap event (List.filter (fun d : delivery => d.1.1 =? j) l)).
Proof.
  intros Hj. induction 1 as [|d l Hd Hl IH]; [done|]. cbn [List.filter]. rewrite event_cons.
  pose proof (event_key_of j p d Hj Hd) as Hk.
  destruct (d.1.1 =? j) eqn:E; zbool; rewrite ?event_cons; destruct (event d) as [e|]; try done;
    unfold events_of in *; cbn [List.filter]; [by rewrite IH|].
  rewrite bool_decide_false by (intros F; apply E; by apply Hk). exact IH.
Qed.

Lemma deliveries_counted l w :
  u64 (bw_cnt (base (foldl handle w l)) C_fanoutDeliveries) =
  u64 (bw_cnt (base w) C_fanoutDeliveries + Z.of_nat (length l)).
Proof.
  revert w. induction l as [|[[i now] m] l IH]; intros w; cbn [foldl length]; [by rewrite Z.add_0_r|]. rewrite IH.
  assert (bw_cnt (base (handle w (i, now, m))) C_fanoutDeliveries = bw_cnt (base w) C_fanoutDeliveries +u 1) as ->;
    [|wrap_eq].
  unfold handle, handleMessage. set (meta := extractMeta (pm_Attributes m)).
  rewrite base_with_base, keeps_acked by done.
  destruct (m_ok meta); rewrite !base_with_base; [|done].
  by rewrite (keeps_tracked _ (tracking_key _ _)), keeps_integrity by done.
Qed.

(** Whatever the interleaving of the deliveries to the
    subscriptions, the tracking state of a producer at one subscription is what
    that subscription's own deliveries alone would make it: a delivery missing,
    repeated or late at another subscription changes neither its losses nor its
    duplicates.  Every delivery is counted once. *)
Theorem fanout_subscribers_independent w l j p :
  Forall (fun d : delivery => index_ok d.1.1) l -> index_ok j ->
  let own := List.filter (fun d : delivery => d.1.1 =? j) l in
  producers (bw_trk (base (foldl handle w l))) !! tracking_key p (sub_id j) =
    producers (bw_trk (base (foldl handle w own))) !! tracking_key p (sub_id j) /\
  u64 (bw_cnt (base (foldl handle w l)) C_fanoutDeliveries) =
    u64 (bw_cnt (base w) C_fanoutDeliveries + Z.of_nat (length l)).
Proof.
  intros Hl Hj own. split; [|apply deliveries_counted]. rewrite !(handled_trk handle event).
  rewrite (run_local _ (bw_trk (base w))), (own_events j p l) by done.
  symmetry. by apply run_local.
Qed.
End subscribers.

(** Subscription 1 misses sequences 2 to 5; subscription 0
    gets everything. *)
Definition sample_message (s : Z) : Message := mkMsg [] (stampAttrs "p" s "" 0) "" "".
Definition sample_deliveries : list delivery :=
  ((fun s => (0, 0, sample_message s)) <$> seqZ 1 9) ++
  ((fun s => (1, 0, sample_message s)) <$> [1; 6; 7; 8; 9]).

Lemma fanout_subscribers_independent_witness :
  exists w, NewFanOutWorker (fun _ => "") DefaultConfig 0 = Some w /\
  producers (bw_trk (base (foldl (handle "kb" 0) w sample_deliveries))) !! tracking_key "p" (sub_id "kb" 0 0) =
  producers (bw_trk (base (foldl (handle "kb" 0) w (take 9 sample_deliveries)))) !! tracking_key "p" (sub_id "kb" 0 0).
Proof.
  eexists. split; [reflexivity|].
  refine (proj1 (fanout_subscribers_independent "kb" 0 _ sample_deliveries 0 "p" _ _)).
  - repeat constructor; unfold index_ok; cbn; range.
  - unfold index_ok. range.
Defined.
