(* ===== verification/PublishPull.v ===== *)
(** * burnin/worker: publish_pull_round_trip

    Batched publishing, the batch-atomicity probe, and the round trip through a
    competing receiver. *)
From S2P Require Import Prelude GoFloat GoFmt Config Payload Tracker TrackerBits TrackerSpec TrackerProps.
From S2P Require Import Streams Metrics Transport Worker WorkerProps Handlers Tracked.

Definition batchProbeProducerID : string := "batch-probe".
Definition batchProbeGoogAttrKey : string := "goog-burnin-atomicity".

Record PublishPullWorker := mkPublishPull {
  pp_base : BaseWorker;
  pp_topicID : string;
  pp_subID : string;
  pp_seq : Z
}.

#[global] Instance publish_pull_has_base : HasBase PublishPullWorker.
Proof.
  refine {| base := pp_base;
            with_base := fun f w => mkPublishPull (f (pp_base w)) (pp_topicID w) (pp_subID w) (pp_seq w) |}.
  done.
Defined.

Definition NewPublishPullRoundTripWorker (Getenv : string -> string) (cfg : Config) (idx : Z) : option PublishPullWorker :=
  let topicID := TopicName (resourcePrefix Getenv) WorkerPublishPullRoundTrip idx in
  let subID := SubscriptionName (resourcePrefix Getenv) WorkerPublishPullRoundTrip idx in
  b ← NewBaseWorker Getenv WorkerPublishPullRoundTrip (MappedTopicChannel topicID) idx cfg;
  Some (mkPublishPull b topicID subID 0).

(** What the body and the attributes of one message are drawn from: the size
    draw, the random bytes and the clock. *)
Record draw := mkDraw { d_size : Z; d_rand : nat -> Z; d_stamp : Z }.

(** [runAtomicityProbe], with the per-message results of the probe batch: the
    two messages it publishes.  [None] when [SelectSize] panics. *)
Definition runAtomicityProbe (d : draw) (results : list (string + rpc_error)) (w : PublishPullWorker)
  : option (list Message * PublishPullWorker) :=
  size ← selectMessageSize (base w) (d_size d);
  let '(body, crcHex) := Build (d_rand d) size in
  let good := mkMsg body (stampAttrs batchProbeProducerID 1 crcHex (d_stamp d)) "" "" in
  let bad := mkMsg body (<[AttrWorkerID := batchProbeProducerID]> (<[AttrSequence := "2"]>
               (<[AttrContentHash := crcHex]> (<[batchProbeGoogAttrKey := "x"]> ∅)))) "" "" in
  Some ([good; bad],
    match PublishBatch results with
    | inl _ => with_base recordBatchAtomicityViolation w
    | inr e => if bool_decide (e_code e = InvalidArgument) then w else with_base recordBatchAtomicityViolation w
    end).

(** The probe of [Start]: only when it is configured. *)
Definition start_probe (d : draw) (results : list (string + rpc_error)) (w : PublishPullWorker)
  : option (list Message * PublishPullWorker) :=
  if gcp_BatchAtomicityProbe (c_GCP (bw_cfg (base w))) then runAtomicityProbe d results w else Some ([], w).

Definition handleMessage (now : Z) (m : Message) (consumerID : string) (w : PublishPullWorker) : PublishPullWorker :=
  let w := with_base (recordReceived (data_len m) consumerID) w in
  let meta := extractMeta (pm_Attributes m) in
  if m_ok meta && String.eqb (m_producer meta) batchProbeProducerID then
    with_base recordAcked (with_base recordBatchAtomicityViolation w)
  else
    let w := if m_ok meta then
               let w := with_base (check_integrity now (pm_Data m) meta) w in
               with_base (fun b => fst (recordTracked (m_producer meta) (m_seq meta) b)) w
             else w in
    with_base recordAcked w.

Definition receive_loop (ss : list (session (Z * Message))) (w : PublishPullWorker) : PublishPullWorker :=
  receiveLoop (fun w '(now, m) => handleMessage now m ("c-" +:+ bw_channelName (base w)) w) ss w.

(** One round of [produceLoop]: the draws of the messages for which the rate
    limiter was passed, the per-message results of the batch, whether the
    context had ended when it failed, and how long it took. *)
Record round_env := mkRound {
  re_draws : list draw;
  re_results : list (string + rpc_error);
  re_done : bool;
  re_elapsed : Z
}.

(** The inner loop; the flag is false when [waitForRate] failed before the
    batch was full. *)
Fixpoint fill (producerID : string) (n : nat) (ds : list draw) (w : PublishPullWorker)
  : option (list Message * PublishPullWorker * bool) :=
  match n, ds with
  | O, _ => Some ([], w, true)
  | S _, [] => Some ([], w, false)
  | S n', d :: ds' =>
      let seq := pp_seq w +u 1 in
      let w := mkPublishPull (pp_base w) (pp_topicID w) (pp_subID w) seq in
      size ← selectMessageSize (base w) (d_size d);
      let '(body, crcHex) := Build (d_rand d) size in
      let m := mkMsg body (stampAttrs producerID seq crcHex (d_stamp d)) "" "" in
      '(ms, w, full) ← fill producerID n' ds' w;
      Some (m :: ms, w, full)
  end.

Definition batch_size (b : BaseWorker) : Z :=
  let n := gcp_BatchSize (c_GCP (bw_cfg b)) in if n <? 1 then 1 else n.

(** The messages counted as sent once every result has resolved. *)
Definition count_sent (producerID : string) (elapsed : Z) (ms : list Message) (b : BaseWorker) : BaseWorker :=
  foldl (fun b m => recordSent (data_len m) producerID (emit (ObserveSendDuration (bw_name b) elapsed) b)) b ms.

Definition produce_round (producerIdx : Z) (env : round_env) (w : PublishPullWorker)
  : option (list Message * loop_ctl * PublishPullWorker) :=
  let producerID := producer_id (base w) producerIdx in
  '(ms, w, full) ← fill producerID (Z.to_nat (batch_size (base w))) (re_draws env) w;
  if negb full then Some ([], Return, w)
  else match PublishBatch (re_results env) with
       | inr _ => if re_done env then Some (ms, Return, w)
                  else Some (ms, Continue, with_base (recordError "publish_failure") w)
       | inl _ => Some (ms, Continue, with_base (count_sent producerID (re_elapsed env) ms) w)
       end.

#[global] Instance publish_pull_worker : Worker PublishPullWorker.
Proof.
  refine {| w_ResetAfterWarmup := with_base ResetAfterWarmup;
            w_DisconnectConsumers := with_base DisconnectConsumers;
            w_StopProducers := fun _ _ w => w;
            w_StopConsumers := fun _ w => w |}; done.
Defined.

(** ** Receiving *)

Definition is_probe (m : Message) : bool :=
  let meta := extractMeta (pm_Attributes m) in m_ok meta && String.eqb (m_producer meta) batchProbeProducerID.

Definition handle (w : PublishPullWorker) (d : Z * Message) : PublishPullWorker :=
  handleMessage d.1 d.2 ("c-" +:+ bw_channelName (base w)) w.

Definition message_event (m : Message) : option (string * Z) :=
  let meta := extractMeta (pm_Attributes m) in
  if m_ok meta && negb (is_probe m) then Some (m_producer meta, m_seq meta) else None.
Definition event (d : Z * Message) : option (string * Z) := message_event d.2.

Lemma keeps_violation c : c <> C_batchAtomicityViolations -> keeps c recordBatchAtomicityViolation.
Proof. intros H b. by apply (keeps_record c C_batchAtomicityViolations 1 (fun b => IncBatchAtomicityViolation (bw_name b))). Qed.

#[global] Instance publish_pull_tracked : TrackedHandler handle event.
Proof.
  split; intros w [now m]; unfold handle, event, message_event, is_probe, handleMessage; cbn [fst snd];
    set (meta := extractMeta (pm_Attributes m)); destruct (m_ok meta); cbn [andb]; try done;
    destruct (String.eqb _ _); cbn [negb]; rewrite !base_with_base; try done.
  - change (bw_trk (recordAcked ?b)) with (bw_trk b). by rewrite recordTracked_trk, integrity_trk.
  - rewrite keeps_acked, recordTracked_dup, integrity_trk, !keeps_integrity, !keeps_received by done. done.
Qed.

(** ** Runs *)

(** The worker and the messages of the batches the broker accepted. *)
Definition run_state : Type := PublishPullWorker * list Message.

Inductive activity :=
| ARound (i : Z) (env : round_env)
| ADeliver (d : Z * Message).

Definition accepted (env : round_env) : bool :=
  match PublishBatch (re_results env) with inl _ => true | inr _ => false end.

Definition act (st : run_state) (a : activity) : run_state :=
  match a with
  | ARound i env =>
      match produce_round i env st.1 with
      | Some (ms, _, w) => (w, if accepted env then st.2 ++ ms else st.2)
      | None => st
      end
  | ADeliver d => (handle st.1 d, st.2)
  end.

Definition deliveries (l : list activity) : list (Z * Message) :=
  omap (fun a => match a with ADeliver d => Some d | ARound _ _ => None end) l.
Definition activity_event (a : activity) : option (string * Z) :=
  match a with ADeliver d => event d | ARound _ _ => None end.

#[global] Instance run_state_has_base : HasBase run_state.
Proof. refine {| base := fun st => base st.1; with_base := fun f st => (with_base f st.1, st.2) |}. done. Defined.

(** A full round of producer [i] whose publishes all succeed. *)
Definition good_round (b : BaseWorker) (i : Z) (a : activity) : Prop :=
  match a with
  | ARound j env => j = i /\ accepted env = true /\ batch_size b <= Z.of_nat (length (re_draws env)) /\
                    Forall (fun d => is_int (d_stamp d)) (re_draws env)
  | ADeliver _ => True
  end.

(** *** Filling a batch *)

Lemma event_stamped p s crc now body :
  is_u64 s -> is_int now -> p <> "" -> p <> batchProbeProducerID ->
  message_event (mkMsg body (stampAttrs p s crc now) "" "") = Some (p, s).
Proof.
  intros Hs Hn Hp Hb. unfold message_event, is_probe. cbn [pm_Attributes]. rewrite stamp_plain by done. cbn.
  apply String.eqb_neq in Hb. by rewrite Hb.
Qed.

Lemma producer_id_not_probe b i : producer_id b i <> batchProbeProducerID.
Proof. rewrite producer_id_shape. discriminate. Qed.
Lemma producer_id_not_empty b i : producer_id b i <> "".
Proof. rewrite producer_id_shape. discriminate. Qed.

Lemma fill_base p n ds w ms w' full : fill p n ds w = Some (ms, w', full) -> base w' = base w.
Proof.
  revert ds w ms w' full. induction n as [|n IH]; intros [|d ds] w ms w' full H; cbn [fill] in H; simplify_eq; try done.
  destruct (selectMessageSize _ _); [|done]. cbn [mbind option_bind] in H. destruct (Build _ _) as [body crc].
  destruct (fill _ _ _ _) as [[[ms1 w1] f1]|] eqn:E; [|done]. cbn [mbind option_bind] in H. simplify_eq. by apply IH in E.
Qed.

Lemma fill_numbered p n ds w ms w' :
  fill p n ds w = Some (ms, w', true) -> p <> "" -> p <> batchProbeProducerID ->
  Forall (fun d => is_int (d_stamp d)) ds -> 0 <= pp_seq w -> pp_seq w + Z.of_nat n < two64 ->
  omap message_event ms = pair p <$> seqZ (pp_seq w + 1) (Z.of_nat n) /\
  pp_seq w' = pp_seq w + Z.of_nat n /\ length ms = n.
Proof.
  intros H Hp Hb. revert ds w ms w' H. induction n as [|n IH]; intros ds w ms w' H Hds H0 Hn.
  { destruct ds; cbn [fill] in H; simplify_eq; (split; [done|]; split; [lia|done]). }
  destruct ds as [|d ds]; cbn [fill] in H; [done|]. apply Forall_cons in Hds as [Hd Hds].
  destruct (selectMessageSize _ _); [|done]. cbn [mbind option_bind] in H. destruct (Build _ _) as [body crc].
  destruct (fill _ _ _ _) as [[[ms1 w1] f1]|] eqn:E; [|done]. cbn [mbind option_bind] in H. simplify_eq.
  rewrite uadd_small in * by range. apply IH in E as (E1 & E2 & E3); cbn [pp_seq] in *; [|done|lia|lia].
  split; [|split; [lia|cbn; by rewrite E3]].
  rewrite event_cons, event_stamped, E1 by (done || range).
  rewrite (seqZ_cons _ (Z.of_nat (S n))) by lia. cbn. f_equal. f_equal. f_equal; lia.
Qed.

Lemma count_sent_spec p e ms b :
  u64 (bw_cnt (count_sent p e ms b) C_sent) = u64 (bw_cnt b C_sent + Z.of_nat (length ms)) /\
  bw_trk (count_sent p e ms b) = bw_trk b /\ bw_channelName (count_sent p e ms b) = bw_channelName b /\
  bw_cfg (count_sent p e ms b) = bw_cfg b /\
  forall c, c <> C_sent -> bw_cnt (count_sent p e ms b) c = bw_cnt b c.
Proof.
  unfold count_sent. revert b. induction ms as [|m ms IH]; intros b; cbn [foldl length]; [by rewrite Z.add_0_r|].
  match goal with |- context [foldl _ ?x ms] => destruct (IH x) as (E1 & E2 & E3 & E4 & E5) end.
  rewrite E1, E2, E3, E4. split; [|split; [done|split; [done|split; [done|]]]].
  - match goal with |- u64 (?x + _) = _ => change x with (bw_cnt b C_sent +u 1) end. wrap_eq.
  - intros c Hc. rewrite E5, keeps_sent by done. done.
Qed.

(** *** The tracker and the consumers' counters across a run *)

Lemma round_keeps st i env :
  bw_trk (base (act st (ARound i env))) = bw_trk (base st) /\
  (bw_channelName (base (act st (ARound i env))) = bw_channelName (base st) /\
   bw_cfg (base (act st (ARound i env))) = bw_cfg (base st)) /\
  forall c, c <> C_sent -> c <> C_errors -> bw_cnt (base (act st (ARound i env))) c = bw_cnt (base st) c.
Proof.
  destruct st as [w ms0]. cbn [act base run_state_has_base fst]. unfold produce_round.
  destruct (fill _ _ _ _) as [[[ms w'] full]|] eqn:E; [|done]. cbn [mbind option_bind].
  apply fill_base in E. destruct full; cbn [negb]; [|cbn [fst]; by rewrite E].
  destruct (PublishBatch _).
  - cbn [fst]. rewrite base_with_base, E.
    destruct (count_sent_spec (producer_id (base w) i) (re_elapsed env) ms (base w)) as (_ & E2 & E3 & E4 & E5).
    split; [done|]. split; [by rewrite E4, E3|]. intros c H1 H2. by rewrite E5.
  - destruct (re_done env); cbn [fst]; [by rewrite E|]. rewrite base_with_base.
    rewrite E. split; [done|]. split; [done|]. intros c H1 H2. by rewrite keeps_error.
Qed.

#[global] Instance act_tracked : TrackedHandler act activity_event.
Proof.
  split; intros st [i env|d]; cbn [activity_event].
  - apply round_keeps.
  - exact (handler_trk st.1 d).
  - by apply round_keeps.
  - exact (handler_dup st.1 d).
Qed.

Lemma publish_pull_handle_counts w d :
  (bw_channelName (base (handle w d)) = bw_channelName (base w) /\ bw_cfg (base (handle w d)) = bw_cfg (base w)) /\
  pp_seq (handle w d) = pp_seq w /\
  bw_cnt (base (handle w d)) C_sent = bw_cnt (base w) C_sent /\
  bw_cnt (base (handle w d)) C_batchAtomicityViolations =
    if is_probe d.2 then bw_cnt (base w) C_batchAtomicityViolations +u 1
    else bw_cnt (base w) C_batchAtomicityViolations.
Proof.
  destruct d as [now m]. unfold handle, handleMessage, is_probe. cbn [fst snd].
  set (meta := extractMeta (pm_Attributes m)). destruct (m_ok meta); cbn [andb]; [|repeat split].
  destruct (String.eqb _ _); [repeat split|].
  rewrite !base_with_base. change (bw_channelName (recordAcked ?b)) with (bw_channelName b).
  change (bw_cfg (recordAcked ?b)) with (bw_cfg b).
  rewrite recordTracked_channel, integrity_channel, recordTracked_cfg, integrity_cfg, !keeps_acked, !(keeps_tracked _ (m_producer meta)), !keeps_integrity by done.
  repeat split.
Qed.

(** *** Numbering of a single producer *)

Record numbered (w0 : PublishPullWorker) (i : Z) (st : run_state) : Prop := {
  nb_channel : bw_channelName (base st) = bw_channelName (base w0);
  nb_cfg : bw_cfg (base st) = bw_cfg (base w0);
  nb_seq : pp_seq st.1 = Z.of_nat (length st.2);
  nb_events : omap message_event st.2 = pair (producer_id (base w0) i) <$> seqZ 1 (Z.of_nat (length st.2));
  nb_sent : u64 (bw_cnt (base st) C_sent) = u64 (bw_cnt (base w0) C_sent + Z.of_nat (length st.2))
}.

Lemma act_grows st a : (length st.2 <= length (act st a).2)%nat.
Proof.
  destruct a as [i env|d]; cbn [act]; [|done]. destruct (produce_round _ _ _) as [[[ms ctl] w]|]; cbn [snd]; [|done].
  destruct (accepted env); [rewrite length_app|]; lia.
Qed.
Lemma run_grows l st : (length st.2 <= length (foldl act st l).2)%nat.
Proof. revert st. induction l as [|a l IH]; intros st; cbn [foldl]; [done|]. pose proof (act_grows st a). specialize (IH (act st a)). lia. Qed.

Lemma fill_full p n ds w ms w' full : fill p n ds w = Some (ms, w', full) -> (n <= length ds)%nat -> full = true.
Proof.
  revert ds w ms w'. induction n as [|n IH]; intros [|d ds] w ms w' H Hn; cbn [fill length] in *; simplify_eq; try done; [lia|].
  destruct (selectMessageSize _ _); [|done]. cbn [mbind option_bind] in H. destruct (Build _ _) as [body crc].
  destruct (fill _ _ _ _) as [[[ms1 w1] f1]|] eqn:E; [|done]. cbn [mbind option_bind] in H. simplify_eq.
  apply IH in E; [done|lia].
Qed.

Lemma fill_length p n ds w ms w' : fill p n ds w = Some (ms, w', true) -> length ms = n.
Proof.
  revert ds w ms w'. induction n as [|n IH]; intros [|d ds] w ms w' H; cbn [fill] in *; simplify_eq; try done.
  destruct (selectMessageSize _ _); [|done]. cbn [mbind option_bind] in H. destruct (Build _ _) as [body crc].
  destruct (fill _ _ _ _) as [[[ms1 w1] f1]|] eqn:E; [|done]. cbn [mbind option_bind] in H. simplify_eq.
  cbn. f_equal. by apply IH in E.
Qed.

Lemma numbered_act w0 i st a :
  numbered w0 i st -> good_round (base w0) i a -> Z.of_nat (length (act st a).2) < two64 -> numbered w0 i (act st a).
Proof.
  intros [H1 H0 H2 H3 H4] Ha Hl. destruct a as [j env|d].
  2: { destruct (publish_pull_handle_counts st.1 d) as ([E1 E1'] & E2 & E3 & _).
       split; cbn [act fst snd base run_state_has_base] in *; congruence. }
  destruct Ha as (-> & Hacc & Hlen & Hds). destruct (round_keeps st i env) as (_ & [Ec Ef] & _).
  assert (producer_id (base st) i = producer_id (base w0) i) as Ep by (by apply producer_id_ext).
  assert (batch_size (base st) = batch_size (base w0)) as Eb by (unfold batch_size; by rewrite H0).
  destruct st as [w ms0]. cbn [act base run_state_has_base fst snd] in *. unfold produce_round in *.
  rewrite Ep, Eb in *.
  destruct (fill _ _ _ _) as [[[ms w'] full]|] eqn:E; [|done]. cbn [mbind option_bind] in *.
  pose proof (fill_base _ _ _ _ _ _ _ E) as Ew. pose proof E as E'. apply fill_full in E' as ->; [|lia]. cbn [negb] in *.
  unfold accepted in *. destruct (PublishBatch (re_results env)); [|done]. cbn [fst snd] in *.
  rewrite length_app in Hl. pose proof (fill_length _ _ _ _ _ _ E) as En.
  apply fill_numbered in E as (E1 & E2 & _);
    [|apply producer_id_not_empty|apply producer_id_not_probe|done|lia|lia].
  split; cbn [fst snd base run_state_has_base]; [congruence|congruence| | |].
  - rewrite length_app. cbn. lia.
  - rewrite omap_app, H3, E1, length_app, Nat2Z.inj_add, seqZ_app, fmap_app by lia. f_equal. f_equal. f_equal; lia.
  - rewrite base_with_base, Ew.
    destruct (count_sent_spec (producer_id (base w0) i) (re_elapsed env) ms (base w)) as (-> & _).
    rewrite length_app, Nat2Z.inj_add, Z.add_assoc. unfold u64 in *.
    by rewrite <- Zplus_mod_idemp_l, H4, Zplus_mod_idemp_l.
Qed.

Lemma numbered_run w0 i l st :
  numbered w0 i st -> Forall (good_round (base w0) i) l -> Z.of_nat (length (foldl act st l).2) < two64 ->
  numbered w0 i (foldl act st l).
Proof.
  revert st. induction l as [|a l IH]; intros st H Hl Hn; [done|]. apply Forall_cons in Hl as [Ha Hl]. cbn [foldl] in *.
  apply IH; [|done|done]. apply numbered_act; [done..|]. pose proof (run_grows l (act st a)). lia.
Qed.

Lemma publish_pull_events l : omap activity_event l = omap event (deliveries l).
Proof.
  induction l as [|[i env|d] l IH]; [done|exact IH|].
  change (deliveries (ADeliver d :: l)) with (d :: deliveries l). rewrite !event_cons. cbn [activity_event].
  by rewrite IH.
Qed.

Lemma run_violations l st :
  u64 (bw_cnt (base (foldl act st l)) C_batchAtomicityViolations) =
  u64 (bw_cnt (base st) C_batchAtomicityViolations +
       Z.of_nat (length (List.filter (fun d => is_probe d.2) (deliveries l)))).
Proof.
  revert st. induction l as [|[i env|d] l IH]; intros st; cbn [foldl].
  - cbn. by rewrite Z.add_0_r.
  - change (deliveries (ARound i env :: l)) with (deliveries l). rewrite IH.
    destruct (round_keeps st i env) as (_ & _ & E). by rewrite E.
  - change (deliveries (ADeliver d :: l)) with (d :: deliveries l). rewrite IH.
    destruct (publish_pull_handle_counts st.1 d) as (_ & _ & _ & E). cbn [act base run_state_has_base fst].
    change (base st) with (base st.1). rewrite E. cbn [List.filter]. destruct (is_probe d.2); cbn [length]; wrap_eq.
Qed.

(** Sent are the messages of accepted batches, whatever else happens. *)
Lemma act_sent st a :
  u64 (bw_cnt (base (act st a)) C_sent) = u64 (bw_cnt (base st) C_sent + Z.of_nat (length (act st a).2 - length st.2)).
Proof.
  destruct a as [i env|d].
  2: { destruct (publish_pull_handle_counts st.1 d) as (_ & _ & E & _). cbn [act base run_state_has_base fst snd] in *.
       by rewrite E, Nat.sub_diag, Z.add_0_r. }
  destruct st as [w ms0]. cbn [act base run_state_has_base fst snd]. unfold produce_round.
  destruct (fill _ _ _ _) as [[[ms w'] full]|] eqn:E; cbn [mbind option_bind fst snd]; [|by rewrite Nat.sub_diag, Z.add_0_r].
  apply fill_base in E. destruct full; cbn [negb fst snd].
  2: { rewrite E. destruct (accepted env); rewrite ?app_nil_r, Nat.sub_diag, Z.add_0_r; done. }
  unfold accepted. destruct (PublishBatch _) as [ids|err]; cbn [fst snd].
  - rewrite base_with_base, E. destruct (count_sent_spec (producer_id (base w) i) (re_elapsed env) ms (base w)) as (-> & _).
    rewrite length_app. do 2 f_equal. lia.
  - destruct (re_done env); cbn [fst snd]; rewrite Nat.sub_diag, Z.add_0_r; [by rewrite E|]. by rewrite base_with_base, E, keeps_error.
Qed.
Lemma run_sent l st :
  u64 (bw_cnt (base (foldl act st l)) C_sent) =
  u64 (bw_cnt (base st) C_sent + Z.of_nat (length (foldl act st l).2 - length st.2)).
Proof.
  revert st. induction l as [|a l IH]; intros st; cbn [foldl]; [by rewrite Nat.sub_diag, Z.add_0_r|].
  rewrite IH. unfold u64 in *. pose proof (act_sent st a) as E. unfold u64 in E. rewrite <- Zplus_mod_idemp_l, E, Zplus_mod_idemp_l.
  pose proof (act_grows st a). pose proof (run_grows l (act st a)). f_equal. lia.
Qed.

(** What the probe of [Start] must be answered with. *)
Definition probe_passed (b : BaseWorker) (results : list (string + rpc_error)) : bool :=
  negb (gcp_BatchAtomicityProbe (c_GCP (bw_cfg b))) ||
  match PublishBatch results with inr e => bool_decide (e_code e = InvalidArgument) | inl _ => false end.

Lemma start_probe_spec d results w ms w1 :
  start_probe d results w = Some (ms, w1) ->
  bw_cnt (base w1) C_batchAtomicityViolations =
    (if probe_passed (base w) results then bw_cnt (base w) C_batchAtomicityViolations
     else bw_cnt (base w) C_batchAtomicityViolations +u 1) /\
  pp_seq w1 = pp_seq w /\ bw_trk (base w1) = bw_trk (base w) /\
  bw_cnt (base w1) C_sent = bw_cnt (base w) C_sent /\ bw_cnt (base w1) C_duplicated = bw_cnt (base w) C_duplicated.
Proof.
  unfold start_probe, probe_passed, runAtomicityProbe. destruct (gcp_BatchAtomicityProbe _); cbn [negb orb];
    [|by intros [= _ <-]].
  destruct (selectMessageSize _ _); [|done]. cbn [mbind option_bind]. destruct (Build _ _) as [body crc].
  intros [= _ <-]. destruct (PublishBatch results) as [ids|e]; [done|]. by case_bool_decide.
Qed.

(** C21 (functional).  Whatever the interleaving of the producers' batches with
    the deliveries, batches refused, cut short or failed included: the sent
    counter is the number of messages in accepted batches, and the atomicity
    violations are the delivered probe messages plus one if the probe batch was
    not refused with [InvalidArgument] (both modulo 2^64).  When moreover there
    is one producer, every batch is full and accepted, and what was accepted is
    delivered complete and in order, the tracker reports neither loss nor
    duplicates. *)
Theorem publish_pull_round_trip Getenv cfg idx w d results ms w1 l :
  NewPublishPullRoundTripWorker Getenv cfg idx = Some w -> rw_ok (msg_ReorderWindow (c_Message cfg)) ->
  start_probe d results w = Some (ms, w1) ->
  let st := foldl act (w1, []) l in
  u64 (bw_cnt (base st) C_sent) = u64 (Z.of_nat (length st.2)) /\
  u64 (bw_cnt (base st) C_batchAtomicityViolations) =
    u64 ((if probe_passed (base w) results then 0 else 1) +
         Z.of_nat (length (List.filter (fun d => is_probe d.2) (deliveries l)))) /\
  (forall i, Forall (good_round (base w1) i) l -> Z.of_nat (length st.2) < two64 ->
   omap event (deliveries l) = omap message_event st.2 ->
   TotalLost (bw_trk (base st)) = 0 /\ bw_cnt (base st) C_duplicated = 0).
Proof.
  intros Hw Hrw Hp st.
  assert (fresh_tracker (base w) /\ (forall c, bw_cnt (base w) c = 0) /\ pp_seq w = 0) as (Hf & Hz & Hq).
  { unfold NewPublishPullRoundTripWorker in Hw. destruct (NewBaseWorker _ _ _ _ _) as [b|] eqn:Eb; [|done].
    cbn [mbind option_bind] in Hw. injection Hw as <-.
    split; [exact (new_fresh _ _ _ _ _ _ Eb Hrw)|]. split; [|done]. intros c. exact (new_counters _ _ _ _ _ _ c Eb). }
  destruct (start_probe_spec _ _ _ _ _ Hp) as (P1 & P2 & P3 & P4 & P5). split.
  { unfold st. rewrite run_sent. change (base (w1, [] : list Message)) with (base w1). rewrite P4, Hz. cbn [snd length].
    by rewrite Nat.sub_0_r. }
  split.
  { unfold st. rewrite run_violations. change (base (w1, [] : list Message)) with (base w1). rewrite P1, Hz.
    destruct (probe_passed _ _); f_equal. }
  intros i Hl Hn Hd.
  assert (numbered w1 i st) as Hb.
  { apply numbered_run; [|done|done]. split; cbn [fst snd length]; try done; [by rewrite P2|].
    by rewrite Z.add_0_r. }
  apply (handled_clean act activity_event l (w1, [])); rewrite ?publish_pull_events, ?Hd, ?(nb_events _ _ _ Hb).
  - destruct Hf as (F1 & F2 & F3). unfold fresh_tracker. change (base (w1, [] : list Message)) with (base w1).
    by rewrite P3, P5.
  - apply Forall_fmap, Forall_forall. intros s Hs. apply elem_of_seqZ in Hs. cbn in *. range.
  - intros p. apply of_single.
Qed.

(** ** Sample runs *)

Definition sample_draw : draw := mkDraw 0 (fun _ => 0) 0.
Definition sample_round (ok : bool) : round_env :=
  mkRound [sample_draw] [if ok then inl "1" else inr (mkErr OtherCode None "unavailable")] false 0.
Definition refused : list (string + rpc_error) := [inr (mkErr InvalidArgument None "goog"); inr (mkErr InvalidArgument None "goog")].

(** Rounds, then everything the broker accepted is delivered in order. *)
Definition delivered_all (w : PublishPullWorker) (rounds : list activity) : list activity :=
  rounds ++ ((fun m => ADeliver (0, m)) <$> (foldl act (w, []) rounds).2).

Lemma publish_pull_round_trip_witness :
  exists w w1 ms,
  NewPublishPullRoundTripWorker (fun _ => "") DefaultConfig 0 = Some w /\
  start_probe sample_draw refused w = Some (ms, w1) /\
  let l := delivered_all w1 (replicate 3 (ARound 0 (sample_round true))) in
  TotalLost (bw_trk (base (foldl act (w1, []) l))) = 0 /\
  u64 (bw_cnt (base (foldl act (w1, []) l)) C_batchAtomicityViolations) = 0 /\
  u64 (bw_cnt (base (foldl act (w1, []) l)) C_sent) = 3.
Proof.
  destruct (NewPublishPullRoundTripWorker (fun _ => "") DefaultConfig 0) as [w|] eqn:E; [|vm_compute in E; discriminate E].
  destruct (start_probe sample_draw refused w) as [[ms w1]|] eqn:Ep;
    [|vm_compute in E; injection E as <-; vm_compute in Ep; discriminate Ep].
  exists w, w1, ms. split; [reflexivity|]. split; [exact Ep|]. cbv zeta.
  set (l := delivered_all w1 (replicate 3 (ARound 0 (sample_round true)))).
  assert (omap event (deliveries l) = omap message_event (foldl act (w1, []) l).2 /\
          length (foldl act (w1, []) l).2 = 3%nat /\ batch_size (base w1) = 1 /\
          List.filter (fun d => is_probe d.2) (deliveries l) = [] /\ probe_passed (base w) refused = true)
    as (H1 & H2 & H3 & H4 & H5).
  { unfold l. vm_compute in E. injection E as <-. vm_compute in Ep. injection Ep as <- <-. vm_compute. auto. }
  destruct (publish_pull_round_trip (fun _ => "") DefaultConfig 0 w sample_draw refused ms w1 l E) as (Es & Ev & Hd).
  - vm_compute. auto.
  - exact Ep.
  - split; [|split; [by rewrite Ev, H4, H5|by rewrite Es, H2]]. apply (Hd 0).
    + unfold l, delivered_all. apply Forall_app. split.
      * apply Forall_replicate. unfold good_round. rewrite H3. split; [done|]. split; [reflexivity|]. split; [cbn; lia|].
        apply Forall_singleton. cbn. range.
      * apply Forall_fmap, Forall_true. done.
    + rewrite H2. reflexivity.
    + exact H1.
Defined.

Definition lost_after (cfg : Config) (rounds : list activity) : option Z :=
  w ← NewPublishPullRoundTripWorker (fun _ => "") cfg 0;
  Some (TotalLost (bw_trk (base (foldl act (w, []) (delivered_all w rounds))))).

(** Two producers of one channel draw their sequences from one counter while
    the tracker keeps a watermark per producer: with a window of 8, twelve
    alternating rounds, every message accepted and delivered in order, are
    reported with losses. *)
Theorem shared_sequence_false_loss :
  exists n, lost_after (small_window DefaultConfig 8)
    ((fun i => ARound (i mod 2) (sample_round true)) <$> seqZ 0 24) = Some n /\ 0 < n.
Proof. eexists. split; [vm_compute; reflexivity|]. reflexivity. Qed.

(** A batch the broker refuses leaves a gap in the sequence: one failed publish
    among accepted and delivered ones is reported as a loss. *)
Theorem failed_batch_false_loss :
  lost_after (small_window DefaultConfig 8)
    ((fun i => ARound 0 (sample_round (negb (i =? 3)))) <$> seqZ 0 16) = Some 1.
Proof. vm_compute. reflexivity. Qed.
