(* ===== verification/SeekSnapshot.v ===== *)
(** * burnin/worker: seek_snapshot

    The round driver: publish a baseline, take a cursor, publish the replay set,
    seek back, count what is redelivered.  What the broker answers in a round is
    a script, one entry per call; a round whose script runs out is still
    running. *)
From S2P Require Import Prelude GoFloat GoFmt Config Payload Tracker TrackerBits TrackerSpec TrackerProps.
From S2P Require Import Streams Metrics Transport Worker WorkerProps Handlers Tracked.

Definition seekReplayBoundaryPct : float64 := f_lit 1 2.
Definition drainPullBatch : Z := 250.
Definition drainQuiescentPolls : Z := 5.

Record SeekSnapshotWorker := mkSeek {
  sk_base : BaseWorker;
  sk_topicID : string;
  sk_subID : string;
  sk_snapshotID : string
}.

#[global] Instance seek_has_base : HasBase SeekSnapshotWorker.
Proof.
  refine {| base := sk_base;
            with_base := fun f w => mkSeek (f (sk_base w)) (sk_topicID w) (sk_subID w) (sk_snapshotID w) |}.
  done.
Defined.

Definition NewSeekSnapshotWorker (Getenv : string -> string) (cfg : Config) (idx : Z) : option SeekSnapshotWorker :=
  let topicID := TopicName (resourcePrefix Getenv) WorkerSeekSnapshot idx in
  let subID := SubscriptionName (resourcePrefix Getenv) WorkerSeekSnapshot idx in
  let snapshotID := SnapshotName (resourcePrefix Getenv) WorkerSeekSnapshot idx in
  b ← NewBaseWorker Getenv WorkerSeekSnapshot (MappedTopicChannel topicID) idx cfg;
  Some (mkSeek b topicID subID snapshotID).

Definition replayCount (w : SeekSnapshotWorker) : Z :=
  let n := gcp_SeekReplayCount (c_GCP (bw_cfg (base w))) in if n <? 1 then 1 else n.
Definition baselineCount (w : SeekSnapshotWorker) : Z :=
  let n := Z.quot (replayCount w) 10 in if n <? 5 then 5 else n.

(** ** Publishing *)

(** [context.Canceled.Error()]. *)
Definition canceled : string := "context canceled".

(** A stage that failed ends the round with its error wrapped. *)
Definition wrapped (stage e : string) : string := Sprintf "%s: %w" [AStr stage; AStr e].

(** One iteration of a publish loop of the round: whether the context had ended
    at its head, the error of [waitForRate], and the publish. *)
Record publish_step := mkPublish { pu_ctx : bool; pu_wait : option string; pu_env : publish_env }.

(** [publishOne]: the error it returns, if any; [None] when [SelectSize]
    panics. *)
Definition publishOne (s : publish_step) (producerID : string) (seq : Z) (w : SeekSnapshotWorker)
  : option (SeekSnapshotWorker * option string) :=
  match pu_wait s with
  | Some err => Some (w, Some err)
  | None =>
      m ← build_message producerID seq (pu_env s) (base w);
      match PublishMessageSync (pe_result (pu_env s)) with
      | inr e =>
          if pe_done (pu_env s) then Some (w, Some canceled)
          else Some (with_base (recordError "publish_failure") w, Some (e_text e))
      | inl _ =>
          let w := with_base (fun b => emit (ObserveSendDuration (bw_name b) (pe_elapsed (pu_env s))) b) w in
          Some (with_base (recordSent (data_len m) producerID) w, None)
      end
  end.

(** [n] publishes from sequence [seq + 1] on; [stage] is what the error is
    wrapped with. *)
Fixpoint publish_all (stage : string) (n : nat) (steps : list publish_step) (producerID : string) (seq : Z)
    (w : SeekSnapshotWorker) : option (SeekSnapshotWorker * Z * option string) :=
  match n, steps with
  | O, _ => Some (w, seq, None)
  | S _, [] => None
  | S n', s :: steps' =>
      if pu_ctx s then Some (w, seq, Some canceled)
      else
        let seq := seq +u 1 in
        '(w, err) ← publishOne s producerID seq w;
        match err with
        | Some e => Some (w, seq, Some (wrapped stage e))
        | None => publish_all stage n' steps' producerID seq w
        end
  end.

(** ** Draining *)

(** One iteration of a drain loop: whether the context had ended at its head,
    what the pull returned (an error comes with whether the context had ended
    by then), whether the wait after an empty one ran through, and the error of
    the acknowledgement of a non-empty one. *)
Record poll := mkPoll {
  po_ctx : bool;
  po_pull : list (Z * Message) + bool * string;
  po_slept : bool;
  po_ack : option (bool * string)
}.

Definition consumeReceived (now : Z) (m : Message) (expectedProducer consumerID : string) (w : SeekSnapshotWorker)
  : SeekSnapshotWorker :=
  let w := with_base (recordReceived (data_len m) consumerID) w in
  let meta := extractMeta (pm_Attributes m) in
  if negb (m_ok meta) then w
  else
    let w := with_base (check_integrity now (pm_Data m) meta) w in
    if String.eqb (m_producer meta) expectedProducer
    then with_base (fun b => fst (recordTracked (m_producer meta) (m_seq meta) b)) w
    else w.

Definition consume (producerID consumerID : string) (w : SeekSnapshotWorker) (d : Z * Message) : SeekSnapshotWorker :=
  consumeReceived d.1 d.2 producerID consumerID w.

(** [ack] of a non-empty batch of [n] ids. *)
Definition ack (n : nat) (err : option (bool * string)) (w : SeekSnapshotWorker) : SeekSnapshotWorker * option string :=
  match err with
  | Some (true, _) => (w, Some canceled)
  | Some (false, e) => (with_base (recordError "ack_failure") w, Some e)
  | None => (Nat.iter n (with_base recordAcked) w, None)
  end.

(** [pullOnce]: the messages, whose ack ids go with them, or the error. *)
Definition pullOnce (pull : list (Z * Message) + bool * string) (w : SeekSnapshotWorker)
  : SeekSnapshotWorker * (list (Z * Message) + string) :=
  match pull with
  | inr (true, _) => (w, inr canceled)
  | inr (false, e) => (with_base (recordError "receive_failure") w, inr e)
  | inl rms => (w, inl rms)
  end.

(** The loop of [drainAck] and [drainReplay], which differ in the test at its
    head. *)
Fixpoint drain_loop (more : Z -> bool) (producerID consumerID : string) (polls : list poll) (got emptyPolls : Z)
    (w : SeekSnapshotWorker) : option (SeekSnapshotWorker * Z * option string) :=
  if negb (more got) then Some (w, got, None)
  else match polls with
  | [] => None
  | p :: polls' =>
      if po_ctx p then Some (w, got, Some canceled)
      else match pullOnce (po_pull p) w with
      | (w, inr e) => Some (w, got, Some e)
      | (w, inl []) =>
          if drainQuiescentPolls <? emptyPolls + 1 then Some (w, got, None)
          else if po_slept p then drain_loop more producerID consumerID polls' got (emptyPolls + 1) w
          else Some (w, got, Some canceled)
      | (w, inl msgs) =>
          let w := foldl (consume producerID consumerID) w msgs in
          let got := got +u Z.of_nat (length msgs) in
          match ack (length msgs) (po_ack p) w with
          | (w, Some e) => Some (w, got, Some e)
          | (w, None) => drain_loop more producerID consumerID polls' got 0 w
          end
      end
  end.

Definition drainAck (producerID : string) (want : Z) (polls : list poll) (w : SeekSnapshotWorker) :=
  drain_loop (fun got => got <? u64 want) producerID ("c-drain-" +:+ bw_channelName (base w)) polls 0 0 w.
Definition drainReplay (producerID : string) (polls : list poll) (w : SeekSnapshotWorker) :=
  drain_loop (fun _ => true) producerID ("c-replay-" +:+ bw_channelName (base w)) polls 0 0 w.

(** ** A round *)

Definition replay_tolerance (expected : Z) : Z :=
  u64 (f_trunc (fdiv (fmul (f_of_Z expected) seekReplayBoundaryPct) f100)) +u 2.

Definition assertReplayCount (expected observed : Z) (w : SeekSnapshotWorker) : SeekSnapshotWorker :=
  let diff := if expected <=? observed then observed -u expected else expected -u observed in
  if replay_tolerance expected <? diff then with_base recordSeekReplayMismatch w else w.

(** What a round meets: the two publish loops and the three drains, whether the
    beat after the time cursor ran through, the errors of creating the snapshot
    and of the seek.  Deleting and listing snapshots is only logged. *)
Record round_script := mkRound {
  rs_baseline : list publish_step;
  rs_drain1 : list poll;
  rs_slept : bool;
  rs_create : option string;
  rs_replay : list publish_step;
  rs_drain2 : list poll;
  rs_seek : option string;
  rs_drain3 : list poll
}.

Definition round_producer (round : Z) (w : SeekSnapshotWorker) : string :=
  Sprintf "seek-r%d-%d" [AInt round; AInt (bw_channelIndex (base w))].

Definition runRound (round : Z) (useTime : bool) (s : round_script) (w : SeekSnapshotWorker)
  : option (SeekSnapshotWorker * option string) :=
  let producerID := round_producer round w in
  let baseline := baselineCount w in
  let replay := replayCount w in
  '(w, seq, err) ← publish_all "baseline publish" (Z.to_nat baseline) (rs_baseline s) producerID 0 w;
  match err with Some e => Some (w, Some e) | None =>
  '(w, _, err) ← drainAck producerID baseline (rs_drain1 s) w;
  match err with Some e => Some (w, Some (wrapped "baseline drain" e)) | None =>
  let cursor := if useTime then (if rs_slept s then None else Some canceled)
                else wrapped "create snapshot" <$> rs_create s in
  match cursor with Some e => Some (w, Some e) | None =>
  '(w, _, err) ← publish_all "replay-set publish" (Z.to_nat replay) (rs_replay s) producerID seq w;
  match err with Some e => Some (w, Some e) | None =>
  '(w, _, err) ← drainAck producerID replay (rs_drain2 s) w;
  match err with Some e => Some (w, Some (wrapped "replay-set drain" e)) | None =>
  match rs_seek s with
  | Some e => Some (w, Some (wrapped (if useTime then "seek to time" else "seek to snapshot") e))
  | None =>
  '(w, observed, err) ← drainReplay producerID (rs_drain3 s) w;
  match err with Some e => Some (w, Some (wrapped "replay drain" e)) | None =>
  let w := with_base (recordSeekReplayExpected (u64 replay)) w in
  let w := with_base (recordSeekReplayObserved observed) w in
  Some (assertReplayCount (u64 replay) observed w, None)
  end end end end end end end.

(** [roundLoop]: a round with whether the context had ended at its head, its
    script, and after a failure whether the context had ended and whether the
    back-off slept through. *)
Fixpoint round_loop (round : Z) (rs : list (bool * round_script * bool * bool)) (w : SeekSnapshotWorker)
  : option SeekSnapshotWorker :=
  match rs with
  | [] => Some w
  | (ctx, s, failedCtx, slept) :: rs' =>
      if ctx : bool then Some w
      else
        '(w, err) ← runRound round (Z.even round) s w;
        match err with
        | None => round_loop (to_int (round + 1)) rs' w
        | Some _ => if failedCtx : bool then Some w
                    else if slept : bool then round_loop (to_int (round + 1)) rs' w else Some w
        end
  end.
Definition roundLoop (rs : list (bool * round_script * bool * bool)) (w : SeekSnapshotWorker) := round_loop 1 rs w.

#[global] Instance seek_worker : Worker SeekSnapshotWorker.
Proof.
  refine {| w_ResetAfterWarmup := with_base ResetAfterWarmup;
            w_DisconnectConsumers := with_base DisconnectConsumers;
            w_StopProducers := fun _ _ w => w;
            w_StopConsumers := fun _ w => w |}; done.
Defined.

(** ** What a round leaves in the counters *)

(** The counters publishing and draining may touch. *)
Definition publish_counters : list counter := [C_sent; C_errors].
Definition drain_counters : list counter := [C_received; C_errors; C_corrupted; C_duplicated; C_acked].

(** The parts of a worker a stage leaves alone: all but the counters [T]. *)
Record framed (T : list counter) (w w' : SeekSnapshotWorker) : Prop := {
  fr_cnt : forall c, c ∉ T -> bw_cnt (base w') c = bw_cnt (base w) c;
  fr_cfg : bw_cfg (base w') = bw_cfg (base w);
  fr_idx : bw_channelIndex (base w') = bw_channelIndex (base w)
}.

#[global] Instance framed_preorder T : PreOrder (framed T).
Proof.
  split.
  - intros w. by split.
  - intros w1 w2 w3 [H1 H2 H3] [K1 K2 K3]. split; [|congruence..]. intros c Hc. by rewrite K1, H1.
Qed.

Lemma framed_weaken T T' w w' : T ⊆ T' -> framed T w w' -> framed T' w w'.
Proof. intros HT [H1 H2 H3]. split; [|done..]. intros c Hc. apply H1. set_solver. Qed.

Lemma framed_error T w t : C_errors ∈ T -> framed T w (with_base (recordError t) w).
Proof. intros HT. split; rewrite base_with_base; [|done..]. intros c Hc. apply keeps_error. by intros ->. Qed.
Lemma framed_acked w : framed drain_counters w (with_base recordAcked w).
Proof. split; rewrite base_with_base; [|done..]. intros c Hc. apply keeps_acked. intros ->. apply Hc. set_solver. Qed.
Lemma framed_sent w n p : framed publish_counters w (with_base (recordSent n p) w).
Proof. split; rewrite base_with_base; [|done..]. intros c Hc. apply keeps_sent. intros ->. apply Hc. set_solver. Qed.

Lemma consume_framed now m p cid w : framed drain_counters w (consumeReceived now m p cid w).
Proof.
  unfold consumeReceived. set (w1 := with_base (recordReceived _ _) w).
  assert (framed drain_counters w w1) as F1.
  { split; unfold w1; rewrite base_with_base; [|done..]. intros c Hc. apply keeps_received. intros ->. apply Hc. set_solver. }
  clearbody w1. set (meta := extractMeta (pm_Attributes m)). destruct (m_ok meta); cbn [negb]; [|done].
  etrans; [exact F1|]. set (w2 := with_base (check_integrity now (pm_Data m) meta) w1).
  assert (framed drain_counters w1 w2) as F2.
  { split; unfold w2; rewrite base_with_base; [|by apply integrity_cfg|unfold check_integrity; by destruct (m_sentAt meta); case_if].
    intros c Hc. apply keeps_integrity. intros ->. apply Hc. set_solver. }
  clearbody w2. etrans; [exact F2|]. destruct (String.eqb _ _); [|done].
  split; rewrite base_with_base; [|by apply recordTracked_cfg|].
  - intros c Hc. apply (keeps_tracked c). intros ->. apply Hc. set_solver.
  - unfold recordTracked. destruct (Record_ _ _ _) as [t [dup oo]]. by destruct dup, oo.
Qed.

Lemma ack_framed n err w : framed drain_counters w (fst (ack n err w)).
Proof.
  unfold ack. destruct err as [[[] e]|]; [done|apply framed_error; set_solver|]. cbn [fst].
  induction n as [|n IH]; [done|]. cbn [Nat.iter]. etrans; [exact IH|]. apply framed_acked.
Qed.

Lemma publish_framed s p seq w w' err : publishOne s p seq w = Some (w', err) -> framed publish_counters w w'.
Proof.
  unfold publishOne. destruct (pu_wait s); [by intros [= <- _]|].
  destruct (build_message _ _ _ _) as [m|]; [|done]. cbn [mbind option_bind].
  destruct (PublishMessageSync _); [|destruct (pe_done _)]; intros H; simplify_eq; [|done|apply framed_error; set_solver].
  match goal with |- framed _ _ (with_base _ ?v) => etrans; [|apply (framed_sent v)] end. by split.
Qed.

Lemma publish_all_framed st n steps p seq w w' seq' err : publish_all st n steps p seq w = Some (w', seq', err) -> framed publish_counters w w'.
Proof.
  revert steps seq w. induction n as [|n IH]; intros [|s steps] seq w H; cbn [publish_all] in H; simplify_eq; try done.
  destruct (pu_ctx s); [by injection H as <- _ _|].
  destruct (publishOne s p (seq +u 1) w) as [[w1 e1]|] eqn:E; [|done]. cbn [mbind option_bind] in H.
  apply publish_framed in E. destruct e1; [by injection H as <- _ _|]. etrans; [exact E|]. by eapply IH.
Qed.

Lemma consume_all_framed p cid (ms : list (Z * Message)) w :
  framed drain_counters w (foldl (consume p cid) w ms).
Proof.
  revert w. induction ms as [|d ms IH]; intros w; [done|]. cbn [foldl]. etrans; [|apply IH]. apply consume_framed.
Qed.

Lemma drain_framed more p cid polls got e w w' got' err :
  drain_loop more p cid polls got e w = Some (w', got', err) -> framed drain_counters w w'.
Proof.
  revert got e w. induction polls as [|po polls IH]; intros got e w H; cbn [drain_loop] in H.
  { by destruct (negb _); [injection H as <- _ _|]. }
  destruct (negb _); [by injection H as <- _ _|]. destruct (po_ctx po); [by injection H as <- _ _|].
  destruct (po_pull po) as [[|m ms]|[[] e0]]; cbn [pullOnce] in H.
  - destruct (_ <? _); [by injection H as <- _ _|]. destruct (po_slept po); [by apply IH in H|by injection H as <- _ _].
  - pose proof (consume_all_framed p cid (m :: ms) w) as F1. set (w1 := foldl _ w (m :: ms)) in *.
    pose proof (ack_framed (length (m :: ms)) (po_ack po) w1) as F2.
    destruct (ack _ _ w1) as [w2 [e2|]]; cbn [fst] in F2.
    + injection H as <- _ _. by etrans.
    + apply IH in H. etrans; [exact F1|]. by etrans.
  - by injection H as <- _ _.
  - injection H as <- _ _. apply framed_error. set_solver.
Qed.

(** ** What a round leaves in the tracker *)

Definition event (producerID : string) (d : Z * Message) : option (string * Z) :=
  let meta := extractMeta (pm_Attributes d.2) in
  if m_ok meta && String.eqb (m_producer meta) producerID then Some (m_producer meta, m_seq meta) else None.

#[global] Instance seek_tracked p cid : TrackedHandler (consume p cid) (event p).
Proof.
  split; intros w [now m]; unfold consume, event, consumeReceived; cbn [fst snd];
    set (meta := extractMeta (pm_Attributes m)); destruct (m_ok meta); cbn [negb andb]; try done;
    destruct (String.eqb _ _); rewrite ?base_with_base; rewrite ?integrity_trk; try done.
  - by rewrite recordTracked_trk, integrity_trk.
  - rewrite recordTracked_dup, integrity_trk, !keeps_integrity, !keeps_received by done. done.
  - rewrite keeps_integrity, keeps_received by done. done.
Qed.

(** The messages a drain hands out before it ends. *)
Fixpoint consumed (more : Z -> bool) (got emptyPolls : Z) (polls : list poll) : list (Z * Message) :=
  if negb (more got) then []
  else match polls with
  | [] => []
  | p :: polls' =>
      match po_pull p with
      | inl [] => if drainQuiescentPolls <? emptyPolls + 1 then [] else consumed more got (emptyPolls + 1) polls'
      | inl msgs => msgs ++ consumed more (got +u Z.of_nat (length msgs)) 0 polls'
      | inr _ => []
      end
  end.
Definition acked_messages (want : Z) (polls : list poll) : list (Z * Message) :=
  consumed (fun got => got <? u64 want) 0 0 polls.
Definition replayed_messages (polls : list poll) : list (Z * Message) := consumed (fun _ => true) 0 0 polls.

(** [w'] is [w] after the tracker saw the messages. *)
Record sees (p : string) (w : SeekSnapshotWorker) (ms : list (Z * Message)) (w' : SeekSnapshotWorker) : Prop := {
  se_trk : bw_trk (base w') = fst (run (bw_trk (base w)) (omap (event p) ms));
  se_dup : u64 (bw_cnt (base w') C_duplicated) =
           u64 (bw_cnt (base w) C_duplicated + flags (snd (run (bw_trk (base w)) (omap (event p) ms))))
}.

Lemma flags_app l1 l2 : flags (l1 ++ l2) = flags l1 + flags l2.
Proof. unfold flags. rewrite List.filter_app, length_app. lia. Qed.

Lemma sees_app p w w1 w2 ms1 ms2 : sees p w ms1 w1 -> sees p w1 ms2 w2 -> sees p w (ms1 ++ ms2) w2.
Proof.
  intros [H1 H2] [K1 K2]. split; rewrite omap_app, run_app; cbn [fst snd]; [by rewrite K1, H1|].
  rewrite K2, flags_app, <- H1, Z.add_assoc. unfold u64 in *. by rewrite <- Zplus_mod_idemp_l, H2, Zplus_mod_idemp_l.
Qed.

(** Operations that leave the tracker and the duplicates alone. *)
Definition unseen_by (w w' : SeekSnapshotWorker) : Prop :=
  bw_trk (base w') = bw_trk (base w) /\ bw_cnt (base w') C_duplicated = bw_cnt (base w) C_duplicated.

Lemma sees_nil p w w' : unseen_by w w' -> sees p w [] w'.
Proof. intros [H1 H2]. split; [done|]. change (flags _) with 0. by rewrite Z.add_0_r, H2. Qed.

Lemma sees_consume p cid ms w : sees p w ms (foldl (consume p cid) w ms).
Proof. split; [exact (handled_trk (consume p cid) (event p) ms w)|exact (handled_dups (consume p cid) (event p) ms w)]. Qed.

Lemma acked_unseen n w : unseen_by w (Nat.iter n (with_base recordAcked) w).
Proof.
  induction n as [|n [IH1 IH2]]; [done|].
  change (Nat.iter (S n) ?f w) with (f (Nat.iter n f w)). by split; rewrite base_with_base.
Qed.

Lemma drain_sees more p cid polls got e w w' got' :
  drain_loop more p cid polls got e w = Some (w', got', None) -> is_u64 got ->
  sees p w (consumed more got e polls) w' /\ got' = u64 (got + Z.of_nat (length (consumed more got e polls))).
Proof.
  revert got e w. induction polls as [|po polls IH]; intros got e w H Hg; cbn [drain_loop consumed] in *.
  { destruct (negb _); [|done]. simplify_eq. split; [by apply sees_nil|]. cbn. by rewrite Z.add_0_r, u64_small. }
  destruct (negb _); [simplify_eq; split; [by apply sees_nil|cbn; by rewrite Z.add_0_r, u64_small]|].
  destruct (po_ctx po); [done|]. destruct (po_pull po) as [[|m ms]|[[] e0]]; cbn [pullOnce] in *; [| |done..].
  - destruct (_ <? _); [simplify_eq; split; [by apply sees_nil|cbn; by rewrite Z.add_0_r, u64_small]|].
    destruct (po_slept po); [|done]. by apply IH in H.
  - pose proof (sees_consume p cid (m :: ms) w) as S1. set (w1 := foldl _ w (m :: ms)) in *. clearbody w1.
    unfold ack in H. destruct (po_ack po) as [[[] ?]|]; [done..|].
    apply IH in H as [H1 H2]; [|apply uadd_range].
    split.
    + eapply sees_app; [exact S1|]. change (consumed more (got +u Z.of_nat (length (m :: ms))) 0 polls) with
        ([] ++ consumed more (got +u Z.of_nat (length (m :: ms))) 0 polls).
      eapply sees_app; [apply sees_nil, acked_unseen|exact H1].
    + rewrite H2, length_app, Nat2Z.inj_add. wrap_eq.
Qed.

(** *** The publish loops *)

Lemma publishOne_sent s p seq w w' :
  publishOne s p seq w = Some (w', None) -> unseen_by w w' /\ bw_cnt (base w') C_sent = bw_cnt (base w) C_sent +u 1.
Proof.
  unfold publishOne. destruct (pu_wait s); [done|]. destruct (build_message _ _ _ _) as [m|]; [|done].
  cbn [mbind option_bind]. destruct (PublishMessageSync _); [|by destruct (pe_done _)].
  intros H. simplify_eq. rewrite !base_with_base. split; [|done]. unfold unseen_by. by rewrite !base_with_base.
Qed.

Lemma publish_all_sent st n steps p seq w w' seq' :
  publish_all st n steps p seq w = Some (w', seq', None) -> 0 <= seq -> seq + Z.of_nat n < two64 ->
  unseen_by w w' /\ u64 (bw_cnt (base w') C_sent) = u64 (bw_cnt (base w) C_sent + Z.of_nat n) /\ seq' = seq + Z.of_nat n.
Proof.
  revert steps seq w. induction n as [|n IH]; intros steps seq w H H0 Hn.
  { assert (w' = w /\ seq' = seq) as [-> ->] by (destruct steps; cbn in H; by simplify_eq).
    split; [done|]. rewrite Z.add_0_r. split; [done|lia]. }
  destruct steps as [|s steps]; cbn [publish_all] in H; [done|].
  destruct (pu_ctx s); [done|]. destruct (publishOne s p (seq +u 1) w) as [[w1 [e1|]]|] eqn:E; cbn [mbind option_bind] in H; [done| |done].
  apply publishOne_sent in E as [[E1 E2] E3]. rewrite uadd_small in H by range.
  apply IH in H as ([H1 H2] & H3 & H4); [|lia|lia]. split; [split; congruence|]. split; [|lia].
  rewrite H3, E3. wrap_eq.
Qed.

(** ** Rounds *)

Definition round_counters : list counter := publish_counters ++ drain_counters.

(** The stages of a round, whatever it returns: nothing but traffic is counted
    unless it reaches its end. *)
Lemma runRound_failed round useTime s w w' e :
  runRound round useTime s w = Some (w', Some e) -> framed round_counters w w'.
Proof.
  assert (forall T, T = publish_counters \/ T = drain_counters -> forall u v, framed T u v -> framed round_counters u v) as HT.
  { intros T HT u v. apply framed_weaken. destruct HT as [-> | ->]; unfold round_counters; set_solver. }
  unfold runRound. intros H.
  destruct (publish_all _ _ _ _ _ w) as [[[w1 q1] [e1|]]|] eqn:E1; cbn [mbind option_bind] in H; [| |done];
    apply publish_all_framed, (HT _ (or_introl eq_refl)) in E1; [by simplify_eq|].
  destruct (drainAck _ _ _ w1) as [[[w2 q2] [e2|]]|] eqn:E2; cbn [mbind option_bind] in H; [| |done];
    apply drain_framed, (HT _ (or_intror eq_refl)) in E2; [simplify_eq; by etrans|].
  assert (framed round_counters w w2) as F2 by (by etrans).
  destruct (if useTime then _ else _) as [ec|]; [by simplify_eq|].
  destruct (publish_all _ _ (rs_replay s) _ _ w2) as [[[w3 q3] [e3|]]|] eqn:E3; cbn [mbind option_bind] in H; [| |done];
    apply publish_all_framed, (HT _ (or_introl eq_refl)) in E3; [simplify_eq; by etrans|].
  destruct (drainAck _ _ (rs_drain2 s) w3) as [[[w4 q4] [e4|]]|] eqn:E4; cbn [mbind option_bind] in H; [| |done];
    apply drain_framed, (HT _ (or_intror eq_refl)) in E4; [simplify_eq; by repeat (etrans; [eassumption|])|].
  assert (framed round_counters w w4) as F4 by (by repeat (etrans; [eassumption|])).
  destruct (rs_seek s); [by simplify_eq|].
  destruct (drainReplay _ _ w4) as [[[w5 q5] [e5|]]|] eqn:E5; cbn [mbind option_bind] in H; [|done|done].
  apply drain_framed, (HT _ (or_intror eq_refl)) in E5. simplify_eq. by etrans.
Qed.

(** What the three drains of a round hand out. *)
Definition round_messages (s : round_script) (w : SeekSnapshotWorker) : list (Z * Message) :=
  acked_messages (baselineCount w) (rs_drain1 s) ++ acked_messages (replayCount w) (rs_drain2 s) ++
  replayed_messages (rs_drain3 s).

Lemma unseen_sees p w w1 w2 ms : unseen_by w w1 -> sees p w1 ms w2 -> sees p w ms w2.
Proof. intros [H1 H2] [K1 K2]. rewrite H1 in K1, K2. rewrite H2 in K2. by split. Qed.

Lemma counts_pos w : 5 <= baselineCount w /\ 1 <= replayCount w.
Proof. unfold baselineCount. split; [case_if; lia|]. unfold replayCount. case_if; lia. Qed.

(** A round that completes, up to the records of its replay. *)
Lemma runRound_done round useTime s w w' :
  runRound round useTime s w = Some (w', None) -> baselineCount w + replayCount w < two64 ->
  exists w5, let observed := u64 (Z.of_nat (length (replayed_messages (rs_drain3 s)))) in
  w' = assertReplayCount (u64 (replayCount w)) observed
         (with_base (recordSeekReplayObserved observed) (with_base (recordSeekReplayExpected (u64 (replayCount w))) w5)) /\
  framed round_counters w w5 /\ sees (round_producer round w) w (round_messages s w) w5 /\
  u64 (bw_cnt (base w5) C_sent) = u64 (bw_cnt (base w) C_sent + baselineCount w + replayCount w).
Proof.
  intros H Hb.
  pose proof (counts_pos w) as [B0 R0].
  unfold runRound in H.
  destruct (publish_all _ _ _ _ _ w) as [[[w1 q1] [e1|]]|] eqn:E1; cbn [mbind option_bind] in H; [done| |done].
  destruct (drainAck _ _ _ w1) as [[[w2 q2] [e2|]]|] eqn:E2; cbn [mbind option_bind] in H; [done| |done].
  destruct (if useTime then _ else _) as [ec|]; [done|].
  destruct (publish_all _ _ (rs_replay s) _ _ w2) as [[[w3 q3] [e3|]]|] eqn:E3; cbn [mbind option_bind] in H; [done| |done].
  destruct (drainAck _ _ (rs_drain2 s) w3) as [[[w4 q4] [e4|]]|] eqn:E4; cbn [mbind option_bind] in H; [done| |done].
  destruct (rs_seek s); [done|].
  destruct (drainReplay _ _ w4) as [[[w5 q5] [e5|]]|] eqn:E5; cbn [mbind option_bind] in H; [done| |done].
  pose proof (publish_all_framed _ _ _ _ _ _ _ _ _ E1) as F1. pose proof (drain_framed _ _ _ _ _ _ _ _ _ _ E2) as F2.
  pose proof (publish_all_framed _ _ _ _ _ _ _ _ _ E3) as F3. pose proof (drain_framed _ _ _ _ _ _ _ _ _ _ E4) as F4.
  pose proof (drain_framed _ _ _ _ _ _ _ _ _ _ E5) as F5.
  apply publish_all_sent in E1 as (U1 & S1 & ->); [|lia|lia]. rewrite Z2Nat.id in * by lia.
  apply publish_all_sent in E3 as (U3 & S3 & _); [|lia|rewrite Z2Nat.id by lia; lia]. rewrite Z2Nat.id in * by lia.
  apply drain_sees in E2 as [D2 _]; [|done]. apply drain_sees in E4 as [D4 _]; [|done]. apply drain_sees in E5 as [D5 ->]; [|done].
  exists w5. cbv zeta. rewrite Z.add_0_l in H. injection H as <-. split; [done|].
  assert (forall T u v, T ⊆ round_counters -> framed T u v -> framed round_counters u v) as HT
    by (intros T u v HT; by apply framed_weaken).
  split; [|split].
  - assert (publish_counters ⊆ round_counters /\ drain_counters ⊆ round_counters) as [P D]
      by (unfold round_counters; set_solver).
    etrans; [exact (HT _ _ _ P F1)|]. etrans; [exact (HT _ _ _ D F2)|]. etrans; [exact (HT _ _ _ P F3)|].
    etrans; [exact (HT _ _ _ D F4)|]. exact (HT _ _ _ D F5).
  - eapply unseen_sees; [exact U1|]. eapply sees_app; [exact D2|]. eapply unseen_sees; [exact U3|].
    eapply sees_app; [exact D4|exact D5].
  - rewrite (fr_cnt _ _ _ F5), (fr_cnt _ _ _ F4) by (unfold drain_counters; set_solver). rewrite S3.
    rewrite (fr_cnt _ _ _ F2) by (unfold drain_counters; set_solver).
    unfold u64 in *. rewrite <- Zplus_mod_idemp_l, S1, Zplus_mod_idemp_l. done.
Qed.

(** A round that ends with an error counts nothing towards
    the replay verdict.  A round that completes adds the replay-set size to the
    expected count and the redelivered messages to the observed count, and
    records a mismatch exactly when they differ by more than the tolerance; and
    it has sent exactly the baseline and the replay set. *)
Theorem seek_round_accounting round useTime s w w' err :
  runRound round useTime s w = Some (w', err) -> baselineCount w + replayCount w < two64 ->
  let n := Z.of_nat (length (replayed_messages (rs_drain3 s))) in
  let cnt c := bw_cnt (base w) c in
  match err with
  | Some _ => forall c, c ∈ [C_seekReplayExpected; C_seekReplayObserved; C_seekReplayMismatch] -> bw_cnt (base w') c = cnt c
  | None =>
      u64 (bw_cnt (base w') C_seekReplayExpected) = u64 (cnt C_seekReplayExpected + replayCount w) /\
      u64 (bw_cnt (base w') C_seekReplayObserved) = u64 (cnt C_seekReplayObserved + n) /\
      u64 (bw_cnt (base w') C_seekReplayMismatch) =
        u64 (cnt C_seekReplayMismatch +
             if replay_tolerance (replayCount w) <? Z.abs (u64 n - replayCount w) then 1 else 0) /\
      u64 (bw_cnt (base w') C_sent) = u64 (cnt C_sent + baselineCount w + replayCount w)
  end.
Proof.
  intros H Hb n cnt. destruct err as [e|].
  { intros c Hc. apply (fr_cnt _ _ _ (runRound_failed _ _ _ _ _ _ H)). unfold round_counters. set_solver. }
  destruct (runRound_done _ _ _ _ _ H Hb) as (w5 & -> & F & _ & S).
  pose proof (counts_pos w) as [B0 R0].
  fold n. rewrite (u64_small (replayCount w)) by range.
  assert (forall c, c ∈ [C_seekReplayExpected; C_seekReplayObserved; C_seekReplayMismatch] -> bw_cnt (base w5) c = cnt c) as K.
  { intros c Hc. apply (fr_cnt _ _ _ F). unfold round_counters. set_solver. }
  pose proof (K C_seekReplayExpected ltac:(set_solver)) as K1. pose proof (K C_seekReplayObserved ltac:(set_solver)) as K2.
  pose proof (K C_seekReplayMismatch ltac:(set_solver)) as K3. clear K.
  pose proof (u64_range n) as Hn. unfold assertReplayCount.
  assert ((if replayCount w <=? u64 n then u64 n -u replayCount w else replayCount w -u u64 n)
          = Z.abs (u64 n - replayCount w)) as ->.
  { case_if; rewrite usub_small by range; range. }
  set (w6 := with_base (recordSeekReplayObserved (u64 n)) (with_base (recordSeekReplayExpected (replayCount w)) w5)).
  assert (bw_cnt (base w6) C_seekReplayExpected = bw_cnt (base w5) C_seekReplayExpected +u replayCount w /\
          bw_cnt (base w6) C_seekReplayObserved = bw_cnt (base w5) C_seekReplayObserved +u u64 n /\
          bw_cnt (base w6) C_seekReplayMismatch = bw_cnt (base w5) C_seekReplayMismatch /\
          bw_cnt (base w6) C_sent = bw_cnt (base w5) C_sent) as (E1 & E2 & E3 & E4) by done.
  assert (forall c, c <> C_seekReplayMismatch -> bw_cnt (base (with_base recordSeekReplayMismatch w6)) c = bw_cnt (base w6) c) as E5.
  { intros c Hc. rewrite base_with_base.
    by apply (keeps_record c C_seekReplayMismatch 1 (fun b => IncSeekReplayMismatch (bw_name b))). }
  assert (bw_cnt (base (with_base recordSeekReplayMismatch w6)) C_seekReplayMismatch = bw_cnt (base w6) C_seekReplayMismatch +u 1)
    as E6 by done.
  clearbody w6. destruct (_ <? _); rewrite ?E6, ?E5, E1, E2, E3, E4, K1, K2, K3 by done.
  all: split; [wrap_eq|]; split; [unfold uadd, u64; by rewrite Zmod_mod, Zplus_mod_idemp_r|];
    split; [rewrite ?Z.add_0_r; first [done|wrap_eq]|exact S].
Qed.

(** When a round's messages arrive complete and in order
    before the seek, and the seek redelivers any of them any number of times,
    the tracker ends without a loss, and every redelivery counts as one
    duplicate. *)
Theorem seek_replay_not_loss round useTime s w w' replays :
  runRound round useTime s w = Some (w', None) -> baselineCount w + replayCount w < two64 -> fresh_tracker (base w) ->
  let p := round_producer round w in
  let n := baselineCount w + replayCount w in
  omap (event p) (acked_messages (baselineCount w) (rs_drain1 s) ++ acked_messages (replayCount w) (rs_drain2 s))
    = stream p (seqZ 1 n) ->
  omap (event p) (replayed_messages (rs_drain3 s)) = stream p replays -> Forall (fun s => 1 <= s <= n) replays ->
  TotalLost (bw_trk (base w')) = 0 /\ u64 (bw_cnt (base w') C_duplicated) = u64 (Z.of_nat (length replays)).
Proof.
  intros H Hb (Hp & Hrw & Hd) p n E1 E2 Hr.
  destruct (runRound_done _ _ _ _ _ H Hb) as (w5 & -> & _ & [St Sd] & _). fold p in St, Sd.
  pose proof (counts_pos w) as [B0 R0].
  destruct (complete_then_replayed (bw_trk (base w)) p n replays Hrw Hp ltac:(lia) Hr) as [T1 T2].
  unfold round_messages in St, Sd. rewrite app_assoc, omap_app, E1, E2 in St, Sd.
  match goal with |- TotalLost (bw_trk (base ?v)) = 0 /\ _ =>
    assert (bw_trk (base v) = bw_trk (base w5) /\ bw_cnt (base v) C_duplicated = bw_cnt (base w5) C_duplicated) as [-> ->]
      by (unfold assertReplayCount; by case_if) end.
  rewrite St, T1, Sd, T2, Hd, flags_app. split; [done|]. f_equal. unfold flags.
  generalize (Z.to_nat n). clear. intros k.
  assert (List.filter (fun d : bool => d) (replicate k false) = []) as -> by (induction k; done).
  cbn. induction (length replays) as [|j IH]; [done|]. cbn in *. lia.
Qed.

(** A round of five baseline messages and one more, of which the seek
    redelivers the last two. *)
Definition seek_config : Config :=
  let c := DefaultConfig in let g := c_GCP c in
  mkConfig (c_Version c) (c_Broker c) (c_Mode c) (c_Duration c) (c_RunID c) (c_WarmupDuration c)
    (mkGCP (gcp_ProjectID g) "" 10 false false "" "" 5 3 1 "avro" "json" f0 0 25000 1 true true true true false true)
    (c_Workers c) (mkMessage "fixed" 16 "" 8) (c_Metrics c) (c_Logging c) (c_ForcedDisconnect c) (c_Recovery c)
    (c_Shutdown c) (c_Output c) (c_Thresholds c) (c_Warmup c) (c_CORS c) (c_DurationParsed c)
    (c_WarmupDurationParsed c) (c_ReportIntervalParsed c) (c_ForcedDisconnInterval c)
    (c_ForcedDisconnDuration c) (c_ReconnectInterval c) (c_ReconnectMaxInterval c)
    (c_MaxDurationParsed c) (c_Warnings c).

Definition sample_publish : publish_step := mkPublish false None (mkEnv 0 (fun _ => 0) 0 (inl "1") false 0 0).
Definition sample_message (p : string) (s : Z) : Z * Message := (0, mkMsg [] (stampAttrs p s "" 0) "" "").
Definition sample_poll (ms : list (Z * Message)) : poll := mkPoll false (inl ms) true None.
Definition sample_script (p : string) : round_script :=
  mkRound (replicate 5 sample_publish) [sample_poll (sample_message p <$> [1; 2; 3; 4; 5])] true None
    [sample_publish] [sample_poll [sample_message p 6]] None
    (sample_poll (sample_message p <$> [5; 6]) :: replicate 6 (sample_poll [])).

Definition sample_facts (w : SeekSnapshotWorker) : bool :=
  let p := round_producer 1 w in let s := sample_script p in
  match runRound 1 false s w with Some (_, None) => true | _ => false end &&
  bool_decide (omap (event p) (acked_messages (baselineCount w) (rs_drain1 s) ++ acked_messages (replayCount w) (rs_drain2 s))
    = stream p (seqZ 1 (baselineCount w + replayCount w))) &&
  bool_decide (omap (event p) (replayed_messages (rs_drain3 s)) = stream p [5; 6]) &&
  (baselineCount w + replayCount w =? 6) && (replayCount w =? 1) && (replay_tolerance (replayCount w) =? 2) &&
  (bw_cnt (base w) C_seekReplayObserved =? 0) && (bw_cnt (base w) C_seekReplayMismatch =? 0) &&
  (length (replayed_messages (rs_drain3 s)) =? 2)%nat.

Lemma sample_exists :
  exists w w', NewSeekSnapshotWorker (fun _ => "") seek_config 1 = Some w /\
  runRound 1 false (sample_script (round_producer 1 w)) w = Some (w', None) /\
  sample_facts w = true /\ fresh_tracker (base w).
Proof.
  assert (match NewSeekSnapshotWorker (fun _ => "") seek_config 1 with Some w => sample_facts w | None => false end = true) as H
    by (vm_compute; reflexivity).
  destruct (NewSeekSnapshotWorker (fun _ => "") seek_config 1) as [w|] eqn:E; [|done].
  pose proof H as H'. unfold sample_facts in H'. cbv zeta in H'. repeat rewrite andb_true_iff in H'.
  destruct (runRound 1 false (sample_script (round_producer 1 w)) w) as [[w' [e|]]|] eqn:Er; [naive_solver| |naive_solver].
  exists w, w'. split; [done|]. split; [done|]. split; [exact H|].
  unfold NewSeekSnapshotWorker in E. destruct (NewBaseWorker _ _ _ _ _) as [b|] eqn:Eb; [|done].
  cbn [mbind option_bind] in E. injection E as <-. apply (new_fresh _ _ _ _ _ _ Eb). vm_compute. auto.
Qed.

Lemma seek_replay_not_loss_witness :
  exists w w', runRound 1 false (sample_script (round_producer 1 w)) w = Some (w', None) /\
  TotalLost (bw_trk (base w')) = 0 /\ u64 (bw_cnt (base w') C_duplicated) = 2.
Proof.
  destruct sample_exists as (w & w' & _ & Er & H & Hf). unfold sample_facts in H. cbv zeta in H. zbool.
  repeat match goal with H : bool_decide _ = true |- _ => apply bool_decide_eq_true_1 in H end.
  exists w, w'. split; [exact Er|].
  refine (seek_replay_not_loss 1 false _ w w' [5; 6] Er _ Hf _ _ _); try assumption.
  - range.
  - repeat constructor; lia.
Defined.

Lemma seek_round_accounting_witness :
  exists w w', runRound 1 false (sample_script (round_producer 1 w)) w = Some (w', None) /\
  u64 (bw_cnt (base w') C_seekReplayObserved) = 2 /\ u64 (bw_cnt (base w') C_seekReplayMismatch) = 0.
Proof.
  destruct sample_exists as (w & w' & _ & Er & H & Hf). unfold sample_facts in H. cbv zeta in H. zbool.
  repeat match goal with H : (_ =? _)%nat = true |- _ => apply Nat.eqb_eq in H end.
  exists w, w'. split; [exact Er|].
  assert (baselineCount w + replayCount w < two64) as Hb by range.
  destruct (seek_round_accounting 1 false _ w w' None Er Hb) as (_ & Eo & Em & _).
  split; [rewrite Eo|rewrite Em]; repeat match goal with H : _ = _ |- _ => rewrite H end; reflexivity.
Defined.
