(* ===== verification/StreamingPull.v ===== *)
(** * burnin/worker: streaming_pull

    The long-lived StreamingPull stream with its reconnects, and the three
    one-shot probes of the connector that run beside it on topics of their own.
    What a probe does is a trace of steps, so that the warm-up reset and the
    other goroutines can fall between them. *)
From S2P Require Import Prelude GoFloat GoFmt Config Payload Tracker TrackerBits TrackerSpec TrackerProps.
From S2P Require Import Streams Metrics Transport Worker WorkerProps Verdict VerdictProps Handlers Tracked.

Definition streamCloseSignature : string := "the stream has been closed".
Definition connectorMaxOutstandingCeiling : Z := 1000.
Definition flowControlProbeRequest : Z := 5000.
Definition flowControlProbeBacklog : nat := 2000.

(** [sp_subClient] is whether the low-level subscriber client was built. *)
Record StreamingPullWorker := mkStreaming {
  sp_base : BaseWorker;
  sp_topicID : string;
  sp_subID : string;
  sp_subClient : bool;
  sp_seq : Z
}.

#[global] Instance streaming_has_base : HasBase StreamingPullWorker.
Proof.
  refine {| base := sp_base;
            with_base := fun f w => mkStreaming (f (sp_base w)) (sp_topicID w) (sp_subID w) (sp_subClient w) (sp_seq w) |}.
  done.
Defined.

Definition NewStreamingPullWorker (Getenv : string -> string) (cfg : Config) (idx : Z) : option StreamingPullWorker :=
  let topicID := TopicName (resourcePrefix Getenv) WorkerStreamingPull idx in
  let subID := SubscriptionName (resourcePrefix Getenv) WorkerStreamingPull idx in
  b ← NewBaseWorker Getenv WorkerStreamingPull (MappedTopicChannel topicID) idx cfg;
  Some (mkStreaming b topicID subID false 0).

(** [Start] builds the low-level client when a probe is enabled. *)
Definition build_sub_client (w : StreamingPullWorker) : StreamingPullWorker :=
  let g := c_GCP (bw_cfg (base w)) in
  mkStreaming (sp_base w) (sp_topicID w) (sp_subID w)
    (gcp_FlowControlProbe g || gcp_LeaseExtendProbe g || gcp_CrossStreamProbe g) (sp_seq w).

(** ** Receiving *)

Definition isPeriodicClose (err : option rpc_error) : bool :=
  match err with
  | None => false
  | Some e => if negb (bool_decide (e_code e = Unavailable)) then false else Contains (e_text e) streamCloseSignature
  end.

Definition handleMessage (now : Z) (m : Message) (consumerID : string) (w : StreamingPullWorker) : StreamingPullWorker :=
  let w := with_base (recordReceived (data_len m) consumerID) w in
  let meta := extractMeta (pm_Attributes m) in
  let w := if m_ok meta then
             let w := with_base (check_integrity now (pm_Data m) meta) w in
             with_base (fun b => fst (recordTracked (m_producer meta) (m_seq meta) b)) w
           else w in
  with_base recordAcked w.

(** A delivery, with the time it is handled at. *)
Definition handle (w : StreamingPullWorker) (d : Z * Message) : StreamingPullWorker :=
  handleMessage d.1 d.2 ("c-" +:+ bw_channelName (base w)) w.

(** A session of the stream, with the error it ended with. *)
Record stream_session := mkStreamSession {
  st_messages : list (Z * Message);
  st_error : option rpc_error;
  st_done : bool;
  st_slept : bool
}.

Fixpoint stream_sessions (first : bool) (ss : list stream_session) (w : StreamingPullWorker) : StreamingPullWorker :=
  match ss with
  | [] => w
  | s :: ss' =>
      let w := if first then w else with_base recordReconnection w in
      let w := with_base signalReady w in
      let w := foldl handle w (st_messages s) in
      if st_done s then w
      else match st_error s with
      | Some _ =>
          let w := if isPeriodicClose (st_error s) then with_base recordPeriodicCloseObserved w else w in
          let w := with_base (recordError "receive_failure") w in
          if st_slept s then stream_sessions false ss' w else w
      | None => stream_sessions false ss' w
      end
  end.
Definition receiveLoop (ss : list stream_session) (w : StreamingPullWorker) : StreamingPullWorker :=
  stream_sessions true ss w.

(** One iteration of [produceLoop]. *)
Definition produce_once (producerIdx : Z) (env : publish_env) (w : StreamingPullWorker)
  : option (Message * loop_ctl * StreamingPullWorker) :=
  let producerID := producer_id (base w) producerIdx in
  let seq := sp_seq w +u 1 in
  let w := mkStreaming (sp_base w) (sp_topicID w) (sp_subID w) (sp_subClient w) seq in
  m ← build_message producerID seq env (base w);
  let '(ctl, b) := publish_outcome producerID (data_len m) env (base w) in
  Some (m, ctl, with_base (fun _ => b) w).

#[global] Instance streaming_worker : Worker StreamingPullWorker.
Proof.
  refine {| w_ResetAfterWarmup := with_base ResetAfterWarmup;
            w_DisconnectConsumers := with_base DisconnectConsumers;
            w_StopProducers := fun _ _ w => w;
            w_StopConsumers := fun _ w => w |}; done.
Defined.

(** ** Probes *)

(** What a probe does, in order: creating its topic, publishing, the low-level
    calls on its subscription, waiting, and operations on the base worker. *)
Inductive probe_step :=
| SProvision (topicID : string)
| SPublish (topicID : string) (m : Message)
| SStream (subPath : string) (maxOutstanding : Z)
| SPull (subPath : string)
| SModify (subPath ackID : string) (seconds : Z)
| SAck (subPath ackID : string)
| SHold (d : Z)
| SRec (o : worker_op).

(** The operations among the steps. *)
Definition probe_ops (steps : list probe_step) : list worker_op :=
  omap (fun s => match s with SRec o => Some o | _ => None end) steps.

Section probes.
Context (Getenv : string -> string).

(** The topic and the path of the subscription of a probe; nothing when one of
    them could not be created.  A created topic is kept for the stop. *)
Definition provisionProbe (suffix : string) (topicErr subErr : bool) (w : StreamingPullWorker)
  : list probe_step * option (string * string) :=
  let idx := bw_channelIndex (base w) in
  let topicID := TopicName (resourcePrefix Getenv) WorkerStreamingPull idx +:+ "_" +:+ suffix in
  let subID := SubscriptionName (resourcePrefix Getenv) WorkerStreamingPull idx +:+ "_" +:+ suffix in
  if topicErr then ([], None)
  else if subErr then ([SProvision topicID], None)
  else ([SProvision topicID], Some (topicID, SubscriptionPath (ps_ProjectID (bw_psCfg (base w))) subID)).

(** *** Flow control *)

(** A publish of the backlog: whether the context had ended before it, its
    time stamp and its outcome. *)
Definition backlog_publish : Type := bool * Z * (string + rpc_error).

(** The backlog loop: the publishes made and whether all of them were; [None]
    when the list is too short. *)
Fixpoint backlog (topicID : string) (body : list Z) (crcHex : string) (i : Z) (n : nat) (ps : list backlog_publish)
  : option (list probe_step * bool) :=
  match n with
  | O => Some ([], true)
  | S n' =>
      match ps with
      | [] => None
      | (ctx, stamp, r) :: ps' =>
          if ctx : bool then Some ([], false)
          else
            let step := SPublish topicID (mkMsg body (stampAttrs "fcprobe" (u64 (i + 1)) crcHex stamp) "" "") in
            match PublishMessageSync r with
            | inr _ => Some ([step], false)
            | inl _ => '(steps, ok) ← backlog topicID body crcHex (i + 1) n' ps'; Some (step :: steps, ok)
            end
      end
  end.

(** The draws and outcomes a probe meets. *)
Record flow_env := mkFlow {
  fc_topicErr : bool; fc_subErr : bool;
  fc_size : Z; fc_rand : nat -> Z;
  fc_publishes : list backlog_publish;
  fc_open : option string; fc_send : option string; fc_events : list probe_event
}.

Definition flowControlProbe (e : flow_env) (w : StreamingPullWorker) : option (list probe_step) :=
  let '(s1, sub) := provisionProbe "fcprobe" (fc_topicErr e) (fc_subErr e) w in
  match sub with
  | None => Some s1
  | Some (topicID, subPath) =>
      size ← selectMessageSize (base w) (fc_size e);
      let '(body, crcHex) := Build (fc_rand e) size in
      '(s2, ok) ← backlog topicID body crcHex 0 flowControlProbeBacklog (fc_publishes e);
      if negb ok then Some (s1 ++ s2)
      else
        let s3 := s1 ++ s2 ++ [SStream subPath flowControlProbeRequest] in
        '(peakUnacked, err) ← FlowControlClampProbe (fc_open e) (fc_send e) (fc_events e);
        match err with
        | Some _ => Some s3
        | None =>
            Some (s3 ++ [SRec (OpMarkProbeRan F_flowControlProbeRan); SRec (OpOutstanding (f_of_Z peakUnacked))] ++
                  if connectorMaxOutstandingCeiling <? peakUnacked then [SRec OpFlowControlViolation] else [])
        end
  end.

(** A unary pull of at most one message: the ack ids it brought, or that it
    failed.  Either way there is no ack id when there is no message. *)
Definition pullOneAckID (r : option (list string)) : option string :=
  match r with
  | Some (ackID :: _) => Some ackID
  | Some [] => None
  | None => None
  end.

(** *** Lease extension *)

(** [le_first] and [le_second] are what the two pulls return, [le_reject] and
    [le_extend] the errors of the two deadline changes, [le_slept] whether the
    hold was not cut short. *)
Record lease_env := mkLease {
  le_topicErr : bool; le_subErr : bool;
  le_size : Z; le_rand : nat -> Z; le_stamp : Z; le_publish : string + rpc_error;
  le_first : option (list string);
  le_reject : option rpc_error;
  le_extend : option rpc_error;
  le_slept : bool;
  le_second : option (list string)
}.

Definition lease_deadline (cfg : Config) : Z :=
  let d := gcp_AckDeadlineSeconds (c_GCP cfg) in if d <? 10 then 10 else d.
Definition extend_seconds (ackDeadline : Z) : Z :=
  let s := to_int (ackDeadline + 30) in if 600 <? s then 600 else s.
Definition hold_for (ackDeadline : Z) : Z := to_int (to_int (ackDeadline * Second) + 3 * Second).

(** Whether the out-of-range deadline was refused as it must be. *)
Definition refused (e : option rpc_error) : bool :=
  match e with Some err => IsInvalidArgument err | None => false end.

Definition leaseExtendProbe (e : lease_env) (w : StreamingPullWorker) : option (list probe_step) :=
  let ackDeadline := lease_deadline (bw_cfg (base w)) in
  let '(s1, sub) := provisionProbe "leprobe" (le_topicErr e) (le_subErr e) w in
  match sub with
  | None => Some s1
  | Some (topicID, subPath) =>
      size ← selectMessageSize (base w) (le_size e);
      let '(body, crcHex) := Build (le_rand e) size in
      let s2 := s1 ++ [SPublish topicID (mkMsg body (stampAttrs "leprobe" 1 crcHex (le_stamp e)) "" "")] in
      match PublishMessageSync (le_publish e) with
      | inr _ => Some s2
      | inl _ =>
          let s3 := s2 ++ [SPull subPath] in
          match pullOneAckID (le_first e) with
          | None => Some s3
          | Some ackID =>
              let s4 := s3 ++ [SRec (OpMarkProbeRan F_leaseExtendProbeRan); SModify subPath ackID 5] ++
                        (if refused (le_reject e) then [SRec OpLeaseExtendRejectConfirmed] else []) ++
                        [SModify subPath ackID (extend_seconds ackDeadline)] in
              match le_extend e with
              | Some _ => Some s4
              | None =>
                  let s5 := s4 ++ [SHold (hold_for ackDeadline)] in
                  if negb (le_slept e) then Some s5
                  else match pullOneAckID (le_second e) with
                  | Some again =>
                      Some (s5 ++ [SPull subPath; SRec (OpError "receive_failure"); SAck subPath again; SAck subPath ackID])
                  | None => Some (s5 ++ [SPull subPath; SAck subPath ackID; SRec OpLeaseExtendConfirmed])
                  end
              end
          end
      end
  end.

(** *** Cross-stream acknowledgement *)

(** A receive on the stream: whether the context had ended before it, and the
    ack ids it brought or that it failed. *)
Definition stream_recv : Type := bool * option (list string).

(** At most ten receives for the first ack id; [None] when the list is too
    short. *)
Fixpoint stream_one (n : nat) (rs : list stream_recv) : option (option string) :=
  match n with
  | O => Some None
  | S n' =>
      match rs with
      | [] => None
      | (ctx, r) :: rs' =>
          if ctx : bool then Some None
          else match r with
          | None => Some None
          | Some [] => stream_one n' rs'
          | Some (ackID :: _) => Some (Some ackID)
          end
      end
  end.
Definition streamOneAckID (openErr sendErr : bool) (rs : list stream_recv) : option (option string) :=
  if openErr || sendErr then Some None else stream_one 10 rs.

Record cross_env := mkCross {
  cs_topicErr : bool; cs_subErr : bool;
  cs_size : Z; cs_rand : nat -> Z; cs_stamp : Z; cs_publish : string + rpc_error;
  cs_open : bool; cs_send : bool; cs_recvs : list stream_recv;
  cs_ack : option rpc_error;
  cs_second : option (list string)
}.

Definition crossStreamAckProbe (e : cross_env) (w : StreamingPullWorker) : option (list probe_step) :=
  let '(s1, sub) := provisionProbe "csprobe" (cs_topicErr e) (cs_subErr e) w in
  match sub with
  | None => Some s1
  | Some (topicID, subPath) =>
      size ← selectMessageSize (base w) (cs_size e);
      let '(body, crcHex) := Build (cs_rand e) size in
      let s2 := s1 ++ [SPublish topicID (mkMsg body (stampAttrs "csprobe" 1 crcHex (cs_stamp e)) "" "")] in
      match PublishMessageSync (cs_publish e) with
      | inr _ => Some s2
      | inl _ =>
          let s3 := s2 ++ [SStream subPath 0] in
          got ← streamOneAckID (cs_open e) (cs_send e) (cs_recvs e);
          match got with
          | None => Some s3
          | Some ackID =>
              let s4 := s3 ++ [SRec (OpMarkProbeRan F_crossStreamAckProbeRan); SAck subPath ackID] in
              match cs_ack e with
              | Some _ => Some s4
              | None =>
                  match pullOneAckID (cs_second e) with
                  | Some again => Some (s4 ++ [SPull subPath; SAck subPath again])
                  | None => Some (s4 ++ [SPull subPath; SRec OpCrossStreamAckConfirmed])
                  end
              end
          end
      end
  end.

(** *** All of them *)

Record probes_env := mkProbes { pe_flow : flow_env; pe_lease : lease_env; pe_cross : cross_env }.

Definition when (b : bool) (p : option (list probe_step)) : option (list probe_step) := if b then p else Some [].

Definition runProbes (e : probes_env) (w : StreamingPullWorker) : option (list probe_step) :=
  if negb (sp_subClient w) then Some []
  else
    let g := c_GCP (bw_cfg (base w)) in
    s1 ← when (gcp_FlowControlProbe g) (flowControlProbe (pe_flow e) w);
    s2 ← when (gcp_LeaseExtendProbe g) (leaseExtendProbe (pe_lease e) w);
    s3 ← when (gcp_CrossStreamProbe g) (crossStreamAckProbe (pe_cross e) w);
    Some (s1 ++ s2 ++ s3).
End probes.

(** ** The stream across its reconnects *)

(** The sessions the loop runs before it returns. *)
Definition failed (s : stream_session) : bool := negb (st_done s) && bool_decide (is_Some (st_error s)).
Fixpoint ran (ss : list stream_session) : list stream_session :=
  match ss with
  | [] => []
  | s :: ss' => s :: if st_done s || (failed s && negb (st_slept s)) then [] else ran ss'
  end.

(** The producer and sequence a delivery is tracked under. *)
Definition event (d : Z * Message) : option (string * Z) :=
  let meta := extractMeta (pm_Attributes d.2) in
  if m_ok meta then Some (m_producer meta, m_seq meta) else None.

#[global] Instance streaming_tracked : TrackedHandler handle event.
Proof.
  split; intros w [now m]; unfold handle, event, handleMessage; cbn [fst snd];
    set (meta := extractMeta (pm_Attributes m)); destruct (m_ok meta); rewrite !base_with_base; try done.
  - change (bw_trk (recordAcked ?b)) with (bw_trk b). by rewrite recordTracked_trk, integrity_trk.
  - rewrite keeps_acked, recordTracked_dup, integrity_trk, !keeps_integrity, !keeps_received by done. done.
Qed.

(** [b1] counts [n] more than [b0]. *)
Definition counts (c : counter) (n : Z) (b0 b1 : BaseWorker) : Prop := u64 (bw_cnt b1 c) = u64 (bw_cnt b0 c + n).

Lemma counts_trans c n1 n2 b0 b1 b2 : counts c n1 b0 b1 -> counts c n2 b1 b2 -> counts c (n1 + n2) b0 b2.
Proof.
  unfold counts, u64. intros H1 H2. rewrite H2, <- Zplus_mod_idemp_l, H1, Zplus_mod_idemp_l. f_equal. lia.
Qed.

Lemma counts_same c b0 b1 : bw_cnt b1 c = bw_cnt b0 c -> counts c 0 b0 b1.
Proof. unfold counts. intros ->. f_equal. lia. Qed.

Lemma counts_one c b0 b1 : bw_cnt b1 c = bw_cnt b0 c +u 1 -> counts c 1 b0 b1.
Proof. unfold counts. intros ->. wrap_eq. Qed.

(** What a delivery adds to a counter. *)
Definition delivery_adds (c : counter) : Z := match c with C_received | C_acked => 1 | _ => 0 end.

Lemma handle_adds c w d : c <> C_corrupted -> c <> C_duplicated -> counts c (delivery_adds c) (base w) (base (handle w d)).
Proof.
  intros H1 H2. destruct d as [now m]. unfold handle, handleMessage. cbn [fst snd].
  set (meta := extractMeta (pm_Attributes m)). rewrite base_with_base.
  set (w1 := if m_ok meta then _ else _).
  assert (bw_cnt (base w1) c = bw_cnt (recordReceived (data_len m) ("c-" +:+ bw_channelName (base w)) (base w)) c) as E.
  { unfold w1. destruct (m_ok meta); rewrite !base_with_base; [|done].
    by rewrite (keeps_tracked _ (m_producer meta)), keeps_integrity by done. }
  clearbody w1. destruct (decide (c = C_acked)) as [->|Ha].
  - apply counts_one. change (bw_cnt (base w1) C_acked +u 1 = bw_cnt (base w) C_acked +u 1). by rewrite E, keeps_received.
  - destruct (decide (c = C_received)) as [->|Hr].
    + apply counts_one. by rewrite keeps_acked, E by done.
    + assert (delivery_adds c = 0) as -> by (by destruct c). apply counts_same. by rewrite keeps_acked, E, keeps_received by done.
Qed.

Lemma handled_adds c l w :
  c <> C_corrupted -> c <> C_duplicated -> counts c (delivery_adds c * Z.of_nat (length l)) (base w) (base (foldl handle w l)).
Proof.
  intros H1 H2. revert w. induction l as [|d l IH]; intros w; [rewrite Z.mul_0_r; by apply counts_same|].
  replace (delivery_adds c * Z.of_nat (length (d :: l))) with (delivery_adds c + delivery_adds c * Z.of_nat (length l))
    by (cbn [length]; lia).
  eapply counts_trans; [by apply (handle_adds c w d)|]. apply IH.
Qed.

(** What a session adds to the counters of the loop. *)
Definition session_adds (c : counter) (first : bool) (s : stream_session) : Z :=
  delivery_adds c * Z.of_nat (length (st_messages s)) +
  match c with
  | C_reconnections => if first then 0 else 1
  | C_errors => if failed s then 1 else 0
  | C_periodicCloseObserved => if failed s && isPeriodicClose (st_error s) then 1 else 0
  | _ => 0
  end.

Lemma session_opens c (first : bool) w :
  counts c (match c with C_reconnections => if first then 0 else 1 | _ => 0 end) (base w)
    (base (with_base signalReady (if first then w else with_base recordReconnection w))).
Proof.
  rewrite base_with_base. change (bw_cnt (signalReady ?b)) with (bw_cnt b).
  destruct first; [by destruct c; apply counts_same|]. rewrite base_with_base.
  destruct (decide (c = C_reconnections)) as [->|Hc]; [by apply counts_one|].
  assert (bw_cnt (recordReconnection (base w)) c = bw_cnt (base w) c) as E
    by by apply (keeps_record c C_reconnections 1 (fun b => IncReconnection (bw_name b))).
  destruct c; done || by apply counts_same.
Qed.

Lemma session_fails c err w :
  counts c (match c with C_errors => 1 | C_periodicCloseObserved => if isPeriodicClose err then 1 else 0 | _ => 0 end) (base w)
    (base (with_base (recordError "receive_failure") (if isPeriodicClose err then with_base recordPeriodicCloseObserved w else w))).
Proof.
  rewrite base_with_base. set (w1 := if isPeriodicClose err then with_base _ _ else _).
  assert (counts c (match c with C_periodicCloseObserved => if isPeriodicClose err then 1 else 0 | _ => 0 end) (base w) (base w1)) as H1.
  { unfold w1. destruct (isPeriodicClose err); [rewrite base_with_base|by destruct c; apply counts_same].
    destruct (decide (c = C_periodicCloseObserved)) as [->|Hc]; [by apply counts_one|].
    assert (bw_cnt (recordPeriodicCloseObserved (base w)) c = bw_cnt (base w) c) as E
      by by apply (keeps_record c C_periodicCloseObserved 1 (fun b => IncPeriodicCloseObserved (bw_name b))).
    destruct c; done || by apply counts_same. }
  clearbody w1. destruct (decide (c = C_errors)) as [->|Hc].
  - apply (counts_trans C_errors 0 1 _ _ _ H1). by apply counts_one.
  - pose proof (counts_trans c _ 0 _ _ (recordError "receive_failure" (base w1)) H1
      (counts_same c _ _ (keeps_error c "receive_failure" Hc (base w1)))) as H.
    rewrite Z.add_0_r in H. by destruct c.
Qed.

(** The loop adds up its sessions. *)
Fixpoint loop_adds (c : counter) (first : bool) (l : list stream_session) : Z :=
  match l with [] => 0 | s :: l' => session_adds c first s + loop_adds c false l' end.

Lemma loop_counts c ss : c <> C_corrupted -> c <> C_duplicated -> forall first w,
  counts c (loop_adds c first (ran ss)) (base w) (base (stream_sessions first ss w)).
Proof.
  intros H1 H2. induction ss as [|s ss IH]; intros first w; [by apply counts_same|]. cbn [stream_sessions ran loop_adds].
  pose proof (counts_trans c _ _ _ _ _ (session_opens c first w) (handled_adds c (st_messages s) _ H1 H2)) as H.
  revert H. generalize (foldl handle (with_base signalReady (if first then w else with_base recordReconnection w)) (st_messages s)).
  intros w2 H. unfold failed, session_adds, failed. destruct (st_done s); cbn [orb negb andb loop_adds].
  { eapply (eq_rect _ (fun n => counts c n _ _)); [exact H|]. destruct c; lia. }
  destruct (st_error s) as [e|] eqn:Ee.
  - rewrite (bool_decide_true (is_Some (Some e))) by done. cbn [andb].
    pose proof (counts_trans c _ _ _ _ _ H (session_fails c (Some e) w2)) as H'.
    destruct (st_slept s); cbn [negb].
    + pose proof (counts_trans c _ _ _ _ _ H' (IH false _)) as H''. eapply (eq_rect _ (fun n => counts c n _ _)); [exact H''|].
      destruct c; lia.
    + eapply (eq_rect _ (fun n => counts c n _ _)); [exact H'|]. cbn [loop_adds]. destruct c; lia.
  - rewrite (bool_decide_false (is_Some None)) by (by intros [? ?]). cbn [andb].
    pose proof (counts_trans c _ _ _ _ _ H (IH false w2)) as H'. eapply (eq_rect _ (fun n => counts c n _ _)); [exact H'|].
    destruct c; lia.
Qed.

(** The sums of the counters the theorem names. *)
Lemma loop_adds_messages c first l :
  c = C_received \/ c = C_acked -> loop_adds c first l = Z.of_nat (length (concat (st_messages <$> l))).
Proof.
  intros Hc. revert first. induction l as [|s l IH]; intros first; [done|]. cbn [loop_adds fmap list_fmap concat].
  rewrite IH, length_app. unfold session_adds. destruct Hc as [-> | ->]; cbn [delivery_adds]; lia.
Qed.

Lemma loop_adds_reconnections first l :
  loop_adds C_reconnections first l = Z.of_nat (length l - if first then 1 else 0).
Proof.
  revert first. induction l as [|s l IH]; intros first; [by destruct first|]. cbn [loop_adds length]. rewrite IH.
  unfold session_adds. cbn [delivery_adds]. destruct first; lia.
Qed.

Lemma loop_adds_filter c first l (P : stream_session -> bool) :
  (forall first s, session_adds c first s = if P s then 1 else 0) ->
  loop_adds c first l = Z.of_nat (length (List.filter P l)).
Proof.
  intros Hc. revert first. induction l as [|s l IH]; intros first; [done|]. cbn [loop_adds List.filter]. rewrite IH, Hc.
  destruct (P s); cbn [length]; lia.
Qed.

(** The tracker sees the deliveries of all the sessions as one stream. *)
Definition received_messages (ss : list stream_session) : list (Z * Message) := concat (st_messages <$> ran ss).

Lemma stream_trk first ss w :
  bw_trk (base (stream_sessions first ss w)) = bw_trk (base (foldl handle w (received_messages ss))) /\
  bw_cnt (base (stream_sessions first ss w)) C_duplicated = bw_cnt (base (foldl handle w (received_messages ss))) C_duplicated.
Proof.
  unfold received_messages. revert first w.
  assert (forall (f : bool) w, bw_trk (base (with_base signalReady (if f then w else with_base recordReconnection w))) = bw_trk (base w) /\
    bw_cnt (base (with_base signalReady (if f then w else with_base recordReconnection w))) C_duplicated = bw_cnt (base w) C_duplicated)
    as Hopen by (intros [] w; done).
  assert (forall l w v, bw_trk (base w) = bw_trk (base v) -> bw_cnt (base w) C_duplicated = bw_cnt (base v) C_duplicated ->
    bw_trk (base (foldl handle w l)) = bw_trk (base (foldl handle v l)) /\
    bw_cnt (base (foldl handle w l)) C_duplicated = bw_cnt (base (foldl handle v l)) C_duplicated) as Hext.
  { intros l. induction l as [|d l IH]; intros w v Ht Hd; [done|]. cbn [foldl]. apply IH.
    - by rewrite !(handler_trk (handle := handle) (event := event)), Ht.
    - by rewrite !(handler_dup (handle := handle) (event := event)), Ht, Hd. }
  induction ss as [|s ss IH]; intros first w; [done|]. cbn [stream_sessions ran fmap list_fmap concat].
  rewrite foldl_app. destruct (Hopen first w) as [Ho1 Ho2].
  destruct (Hext (st_messages s) _ w Ho1 Ho2) as [E1 E2]. revert E1 E2.
  generalize (foldl handle (with_base signalReady (if first then w else with_base recordReconnection w)) (st_messages s)).
  generalize (foldl handle w (st_messages s)). intros v u E1 E2. unfold failed.
  destruct (st_done s); cbn [orb negb andb fmap list_fmap concat foldl]; [done|].
  destruct (st_error s) as [e|] eqn:Ee.
  - rewrite (bool_decide_true (is_Some (Some e))) by done. cbn [andb].
    set (u' := with_base (recordError "receive_failure") _).
    assert (bw_trk (base u') = bw_trk (base v) /\ bw_cnt (base u') C_duplicated = bw_cnt (base v) C_duplicated) as [F1 F2].
    { unfold u'. destruct (isPeriodicClose (Some e)); done. }
    clearbody u'. destruct (st_slept s); cbn [negb fmap list_fmap concat foldl]; [|done].
    destruct (IH false u') as [G1 G2]. rewrite G1, G2. by apply Hext.
  - rewrite (bool_decide_false (is_Some None)) by (by intros [? ?]). cbn [andb].
    destruct (IH false u) as [G1 G2]. rewrite G1, G2. by apply Hext.
Qed.

(** However often the stream is closed and re-opened: every
    delivery is counted as received and acknowledged once, every session but the
    first as a reconnection, every session that failed as an error, and as a
    periodic close exactly when its error is the connector's; and when the
    deliveries of all the sessions together are complete and in order for each
    producer, the tracker reports neither loss nor duplicates, wherever the
    stream was cut. *)
Theorem streaming_receive_accounting w ss :
  let w' := receiveLoop ss w in
  let cnt c := bw_cnt (base w) c in
  let n := Z.of_nat (length (received_messages ss)) in
  u64 (bw_cnt (base w') C_received) = u64 (cnt C_received + n) /\
  u64 (bw_cnt (base w') C_acked) = u64 (cnt C_acked + n) /\
  u64 (bw_cnt (base w') C_reconnections) = u64 (cnt C_reconnections + Z.of_nat (length (ran ss) - 1)) /\
  u64 (bw_cnt (base w') C_errors) = u64 (cnt C_errors + Z.of_nat (length (List.filter failed (ran ss)))) /\
  u64 (bw_cnt (base w') C_periodicCloseObserved) =
    u64 (cnt C_periodicCloseObserved +
         Z.of_nat (length (List.filter (fun s => failed s && isPeriodicClose (st_error s)) (ran ss)))) /\
  (fresh_tracker (base w) -> Forall (fun e => is_u64 e.2) (omap event (received_messages ss)) ->
   (forall p, exists s n, of_producer p (omap event (received_messages ss)) = seqZ s n) ->
   TotalLost (bw_trk (base w')) = 0 /\ bw_cnt (base w') C_duplicated = 0).
Proof.
  cbv zeta. unfold receiveLoop.
  assert (forall c, c <> C_corrupted -> c <> C_duplicated ->
    u64 (bw_cnt (base (stream_sessions true ss w)) c) = u64 (bw_cnt (base w) c + loop_adds c true (ran ss))) as H
    by (intros c H1 H2; by apply loop_counts).
  split; [rewrite H, loop_adds_messages by auto; done|]. split; [rewrite H, loop_adds_messages by auto; done|].
  split; [by rewrite H, loop_adds_reconnections|].
  split; [rewrite H, (loop_adds_filter _ _ _ failed) by done; done|].
  split; [rewrite H, (loop_adds_filter _ _ _ (fun s => failed s && isPeriodicClose (st_error s))) by done; done|].
  intros Hf Hu Ho. destruct (stream_trk true ss w) as [E1 E2]. rewrite E1, E2. by apply (handled_clean handle event).
Qed.

(** ** The probes and their gates *)


(** What a probe met, from its environment: the peak of a flow-control probe
    that ran to its end; whether a lease probe got hold of a message, whether
    the extension was accepted and the pull after the hold came back without the
    message (a pull that fails counts as one that found nothing), and whether
    the hold ran through; the same for the cross-stream probe. *)
Definition is_published (r : string + rpc_error) : bool := match r with inl _ => true | inr _ => false end.

Definition lease_live (e : lease_env) : bool :=
  negb (le_topicErr e) && negb (le_subErr e) && is_published (le_publish e) && bool_decide (is_Some (pullOneAckID (le_first e))).
Definition lease_kept (e : lease_env) : bool :=
  bool_decide (le_extend e = None) && bool_decide (pullOneAckID (le_second e) = None).
Definition lease_confirmed (e : lease_env) : bool := le_slept e && lease_kept e.



(** The operations among the steps that the gates read. *)
Definition if_list {A} (b : bool) (l : list A) : list A := if b then l else [].
Definition lease_trace (e : lease_env) : list worker_op :=
  if_list (lease_live e)
    (OpMarkProbeRan F_leaseExtendProbeRan :: if_list (refused (le_reject e)) [OpLeaseExtendRejectConfirmed] ++
     if_list (lease_confirmed e) [OpLeaseExtendConfirmed]).




























(** A connector that behaves, on the default configuration; the flow-control
    probe could not create its topic. *)
Definition sample_worker : option StreamingPullWorker :=
  build_sub_client <$> NewStreamingPullWorker (fun _ => "") DefaultConfig 0.
Definition sample_lease (slept : bool) : lease_env :=
  mkLease false false 0 (fun _ => 0) 0 (inl "1") (Some ["ack"]) (Some (mkErr InvalidArgument None "deadline")) None slept (Some []).
Definition sample_probes (slept : bool) : probes_env :=
  mkProbes (mkFlow true false 0 (fun _ => 0) [] None None []) (sample_lease slept)
    (mkCross false false 0 (fun _ => 0) 0 (inl "1") false false [(false, Some []); (false, Some ["ack"])] None (Some [])).


(** *** Where the lease probe fails without a fault of the connector *)

(** The probe holds the message for three seconds more than the original
    deadline, and extends the lease to thirty more but at most 600 seconds: the
    hold ends within the extended lease only up to a deadline of 596 seconds,
    while the configuration admits 600. *)
Theorem lease_hold_window a :
  10 <= a <= 600 -> (hold_for a < extend_seconds a * Second <-> a <= 596).
Proof.
  intros Ha. unfold hold_for, extend_seconds.
  assert (forall z, -1000000000000000 <= z <= 1000000000000000 -> to_int z = z) as Hi
    by (intros z Hz; apply to_int_small; unfold is_int, two63; lia).
  unfold Second, Millisecond, Microsecond, Nanosecond in *. rewrite !Hi by (rewrite ?Hi; lia).
  destruct (600 <? a + 30) eqn:E; zbool; lia.
Qed.

(** A stop during the hold leaves the probe marked as run and unconfirmed, and
    the run fails. *)
Theorem interrupted_hold_fails_run :
  exists w steps, sample_worker = Some w /\ runProbes (fun _ => "") (sample_probes false) w = Some steps /\
    let s := capture_group (fun _ _ => 0) (fun l => Z.of_nat (length l)) WorkerStreamingPull
               [run_ops (ResetAfterWarmup (base w)) (probe_ops steps)] in
    v_Passed (computeVerdict DefaultConfig 0 0 0 [(WorkerStreamingPull, s)]) = false.
Proof. eexists _, _. split; [vm_compute; reflexivity|]. split; [vm_compute; reflexivity|]. vm_compute. reflexivity. Qed.

(** The gates read the sums of a group: with two channels, the confirmation of
    one hides that the other's connector redelivered a leased message. *)
Theorem confirmation_masks_other_channel :
  exists w, sample_worker = Some w /\
    let confirmed := run_ops (ResetAfterWarmup (base w)) (lease_trace (sample_lease true)) in
    let unconfirmed := run_ops (ResetAfterWarmup (base w)) (lease_trace (sample_lease false)) in
    let gates bs := coverage_gates WorkerStreamingPull
                      (capture_group (fun _ _ => 0) (fun l => Z.of_nat (length l)) WorkerStreamingPull bs) in
    gates [unconfirmed] <> [] /\ gates [confirmed; unconfirmed] = [].
Proof. eexists. split; [vm_compute; reflexivity|]. vm_compute. split; [discriminate|reflexivity]. Qed.

(** A pull that fails counts as one that found nothing: a lease whose second
    pull never reached the connector is confirmed all the same. *)
Theorem failed_pull_confirms_lease (Getenv : string -> string) :
  exists w steps, sample_worker = Some w /\
    leaseExtendProbe Getenv
      (mkLease false false 0 (fun _ => 0) 0 (inl "1") (Some ["ack"]) (Some (mkErr InvalidArgument None "deadline")) None true None) w
    = Some steps /\ OpLeaseExtendConfirmed ∈ probe_ops steps.
Proof.
  eexists _, _. split; [vm_compute; reflexivity|]. split; [reflexivity|].
  cbn [probe_ops omap list_omap app]. repeat first [apply list_elem_of_here | apply list_elem_of_further].
Qed.
