(* ===== verification/SchemaEnforce.v ===== *)
(** * burnin/worker: schema_enforce

    A topic bound to a schema: the instrumentation travels in a JSON body that
    conforms to it, and a probe publishes one body that does not.  The body that
    is written is the one that is read back, and the probe's gate. *)
From S2P Require Import Prelude GoFloat GoFmt GoTime GoJson Config Payload Tracker TrackerBits TrackerSpec TrackerProps.
From S2P Require Import Streams Metrics Transport Worker WorkerProps Verdict VerdictProps Handlers Tracked.
From Stdlib Require Import Ascii.

Inductive SchemaEncoding := EncodingJSON | EncodingBinary.

Record SchemaEnforceWorker := mkSchema {
  se_base : BaseWorker;
  se_topicID : string;
  se_subID : string;
  se_schemaID : string;
  se_schemaType : string;
  se_encoding : SchemaEncoding;
  se_encodingString : string;
  se_seq : Z
}.

#[global] Instance schema_has_base : HasBase SchemaEnforceWorker.
Proof.
  refine {| base := se_base;
            with_base := fun f w => mkSchema (f (se_base w)) (se_topicID w) (se_subID w) (se_schemaID w) (se_schemaType w)
                                      (se_encoding w) (se_encodingString w) (se_seq w) |}.
  done.
Defined.

Definition schemaEncodingOf (enc : string) : SchemaEncoding :=
  if String.eqb enc "binary" then EncodingBinary else EncodingJSON.

Definition NewSchemaEnforceWorker (Getenv : string -> string) (cfg : Config) (idx : Z) : option SchemaEnforceWorker :=
  let topicID := TopicName (resourcePrefix Getenv) WorkerSchemaEnforce idx in
  let subID := SubscriptionName (resourcePrefix Getenv) WorkerSchemaEnforce idx in
  let schemaID := SchemaName (resourcePrefix Getenv) WorkerSchemaEnforce idx in
  b ← NewBaseWorker Getenv WorkerSchemaEnforce (MappedTopicChannel topicID) idx cfg;
  Some (mkSchema b topicID subID schemaID (gcp_SchemaType (c_GCP cfg)) (schemaEncodingOf (gcp_SchemaEncoding (c_GCP cfg)))
          (gcp_SchemaEncoding (c_GCP cfg)) 0).

(** ** The body *)

Record schemaBody := mkBody {
  sb_WorkerID : string;
  sb_Seq : Z;
  sb_ContentHash : string;
  sb_TsNS : Z;
  sb_Pad : string
}.
Definition zero_body : schemaBody := mkBody "" 0 "" 0 "".

(** [json.Marshal]: the fields in order; it does not fail on them. *)
Definition marshal_body (sb : schemaBody) : string :=
  String "{"
    (json_string "worker_id" +:+ String ":" (json_string (sb_WorkerID sb) +:+ String ","
    (json_string "seq" +:+ String ":" (FormatUint (sb_Seq sb) +:+ String ","
    (json_string "content_hash" +:+ String ":" (json_string (sb_ContentHash sb) +:+ String ","
    (json_string "ts_ns" +:+ String ":" (Itoa (sb_TsNS sb) +:+ String ","
    (json_string "pad" +:+ String ":" (json_string (sb_Pad sb) +:+ String "}" "")))))))))).

(** The field a key is for: the one of that name, or else of that name up to
    letter case. *)
Inductive field := FWorkerID | FSeq | FContentHash | FTsNS | FPad.
Definition field_names : list (string * field) :=
  [("worker_id", FWorkerID); ("seq", FSeq); ("content_hash", FContentHash); ("ts_ns", FTsNS); ("pad", FPad)].
Definition field_of (k : string) : option field :=
  match List.find (fun e => String.eqb k e.1) field_names with
  | Some e => Some e.2
  | None => snd <$> List.find (fun e => String.eqb (fold_name k) (fold_name e.1)) field_names
  end.

Definition assign (sb : schemaBody) (m : string * json) : option schemaBody :=
  let v := m.2 in
  match field_of m.1 with
  | None => Some sb
  | Some FWorkerID =>
      x ← to_string_field v (sb_WorkerID sb); Some (mkBody x (sb_Seq sb) (sb_ContentHash sb) (sb_TsNS sb) (sb_Pad sb))
  | Some FSeq => x ← to_uint64_field v (sb_Seq sb); Some (mkBody (sb_WorkerID sb) x (sb_ContentHash sb) (sb_TsNS sb) (sb_Pad sb))
  | Some FContentHash =>
      x ← to_string_field v (sb_ContentHash sb); Some (mkBody (sb_WorkerID sb) (sb_Seq sb) x (sb_TsNS sb) (sb_Pad sb))
  | Some FTsNS => x ← to_int64_field v (sb_TsNS sb); Some (mkBody (sb_WorkerID sb) (sb_Seq sb) (sb_ContentHash sb) x (sb_Pad sb))
  | Some FPad => x ← to_string_field v (sb_Pad sb); Some (mkBody (sb_WorkerID sb) (sb_Seq sb) (sb_ContentHash sb) (sb_TsNS sb) x)
  end.
Fixpoint assign_all (sb : schemaBody) (l : list (string * json)) : option schemaBody :=
  match l with [] => Some sb | m :: l' => sb ← assign sb m; assign_all sb l' end.

(** [json.Unmarshal] into a zero body. *)
Definition unmarshal_body (s : string) : option schemaBody :=
  v ← parse_json s;
  match v with
  | JObj l => assign_all zero_body l
  | JNull => Some zero_body
  | _ => None
  end.

(** ** The probe *)

(** The non-conforming text, put together as in the source. *)
Definition q : string := str1 quote_c.
Definition buildNonConformingBody (w : SchemaEnforceWorker) : string :=
  "{" +:+ q +:+ "worker_id" +:+ q +:+ ":" +:+ q +:+ "probe-" +:+ bw_channelName (base w) +:+ q +:+ "," +:+
  q +:+ "seq" +:+ q +:+ ":" +:+ q +:+ "not-a-number" +:+ q +:+ "," +:+
  q +:+ "content_hash" +:+ q +:+ ":" +:+ q +:+ "00000000" +:+ q +:+ "," +:+
  q +:+ "ts_ns" +:+ q +:+ ":0," +:+ q +:+ "pad" +:+ q +:+ ":" +:+ q +:+ "x" +:+ q +:+ "}".

(** [ctx] and [ctxAfter] are whether the producer context had ended before the
    probe and after its publish, [r] the outcome of the publish.  What the
    validation call says is only logged. *)
Definition runNonConformingProbe (ctx : bool) (r : string + rpc_error) (ctxAfter : bool) (w : SchemaEnforceWorker)
  : SchemaEnforceWorker :=
  if ctx then w
  else
    let w := with_base (store_flag F_schemaEnforceProbeRan true) w in
    match PublishMessageSync r with
    | inl _ => with_base recordSchemaRejectViolation w
    | inr e =>
        if ctxAfter then w
        else if bool_decide (e_code e = InvalidArgument) then with_base recordSchemaEnforceConfirmed w
        else with_base (recordError "schema_probe_failure") w
    end.

(** ** Receiving and publishing *)

Definition handleMessage (now : Z) (m : Message) (consumerID : string) (w : SchemaEnforceWorker) : SchemaEnforceWorker :=
  let w := with_base (recordReceived (data_len m) consumerID) w in
  match unmarshal_body (string_of (pm_Data m)) with
  | None => with_base recordAcked (with_base recordCorrupted w)
  | Some sb =>
      if String.eqb (sb_WorkerID sb) "" then with_base recordAcked (with_base recordCorrupted w)
      else
        let w := if nonempty (sb_ContentHash sb) && negb (VerifyCRC (bytes_of (sb_Pad sb)) (sb_ContentHash sb))
                 then with_base recordCorrupted w else w in
        let w := if 0 <? sb_TsNS sb then with_base (recordLatency (time_Sub now (sb_TsNS sb))) w else w in
        let w := with_base (fun b => fst (recordTracked (sb_WorkerID sb) (sb_Seq sb) b)) w in
        with_base recordAcked w
  end.

Definition receive_loop (ss : list (session (Z * Message))) (w : SchemaEnforceWorker) : SchemaEnforceWorker :=
  receiveLoop (fun w '(now, m) => handleMessage now m ("c-" +:+ bw_channelName (base w)) w) ss w.

(** [pe_stamp] is the time the body carries. *)
Definition buildConformingBody (producerID : string) (seq : Z) (env : publish_env) (b : BaseWorker) : option (list Z) :=
  size ← selectMessageSize b (pe_size env);
  let '(pad, crcHex) := Build (pe_rand env) size in
  Some (bytes_of (marshal_body (mkBody producerID seq crcHex (pe_stamp env) (string_of pad)))).

(** One iteration of [produceLoop]; the attributes are nil. *)
Definition produce_once (producerIdx : Z) (env : publish_env) (w : SchemaEnforceWorker)
  : option (Message * loop_ctl * SchemaEnforceWorker) :=
  let producerID := producer_id (base w) producerIdx in
  let seq := se_seq w +u 1 in
  let w := mkSchema (se_base w) (se_topicID w) (se_subID w) (se_schemaID w) (se_schemaType w) (se_encoding w)
             (se_encodingString w) seq in
  body ← buildConformingBody producerID seq env (base w);
  let m := mkMsg body ∅ "" "" in
  let '(ctl, b) := publish_outcome producerID (data_len m) env (base w) in
  Some (m, ctl, with_base (fun _ => b) w).

#[global] Instance schema_worker : Worker SchemaEnforceWorker.
Proof.
  refine {| w_ResetAfterWarmup := with_base ResetAfterWarmup;
            w_DisconnectConsumers := with_base DisconnectConsumers;
            w_StopProducers := fun _ _ w => w;
            w_StopConsumers := fun _ w => w |}; done.
Defined.

(** ** What is written is what is read *)

Lemma string_of_bytes s : string_of (bytes_of s) = s.
Proof.
  induction s as [|c s IH]; [done|]. cbn [bytes_of string_of]. rewrite IH. f_equal.
  unfold char_of, char_code. rewrite N2Z.id. apply ascii_N_embedding.
Qed.

Lemma bytes_of_string bs : Forall is_byte bs -> bytes_of (string_of bs) = bs.
Proof. induction 1 as [|b bs Hb _ IH]; [done|]. cbn [string_of bytes_of]. rewrite char_code_of, IH by exact Hb. done. Qed.

(** A body as the text of its members. *)
Lemma marshal_members sb :
  marshal_body sb = String "{" (members_text
    [("worker_id", json_string (sb_WorkerID sb)); ("seq", FormatUint (sb_Seq sb));
     ("content_hash", json_string (sb_ContentHash sb)); ("ts_ns", Itoa (sb_TsNS sb)); ("pad", json_string (sb_Pad sb))]).
Proof. reflexivity. Qed.

(** The text of a body and the text of its fields made UTF-8. *)
Definition readable (sb : schemaBody) : schemaBody :=
  mkBody (valid_utf8 (sb_WorkerID sb)) (sb_Seq sb) (valid_utf8 (sb_ContentHash sb)) (sb_TsNS sb) (valid_utf8 (sb_Pad sb)).

Lemma assign_seq sb u :
  is_u64 u -> assign sb ("seq", JNum (FormatUint u)) = Some (mkBody (sb_WorkerID sb) u (sb_ContentHash sb) (sb_TsNS sb) (sb_Pad sb)).
Proof. intros H. unfold assign, fst, snd. change (field_of "seq") with (Some FSeq). cbv beta iota zeta. unfold to_uint64_field. by rewrite ParseUint_FormatUint. Qed.
Lemma assign_ts sb t :
  is_int t -> assign sb ("ts_ns", JNum (Itoa t)) = Some (mkBody (sb_WorkerID sb) (sb_Seq sb) (sb_ContentHash sb) t (sb_Pad sb)).
Proof.
  intros H. unfold assign, fst, snd. change (field_of "ts_ns") with (Some FTsNS). cbv beta iota zeta. unfold to_int64_field.
  change (ParseInt (Itoa t)) with (Atoi (Itoa t)). by rewrite Atoi_Itoa.
Qed.

(** The members a parser finds in a body. *)
Definition members_of (sb : schemaBody) : list (string * json) :=
  [("worker_id", JStr (valid_utf8 (sb_WorkerID sb))); ("seq", JNum (FormatUint (sb_Seq sb)));
   ("content_hash", JStr (valid_utf8 (sb_ContentHash sb))); ("ts_ns", JNum (Itoa (sb_TsNS sb))); ("pad", JStr (valid_utf8 (sb_Pad sb)))].

Lemma marshal_parses sb : is_u64 (sb_Seq sb) -> is_int (sb_TsNS sb) -> parse_json (marshal_body sb) = Some (JObj (members_of sb)).
Proof.
  intros Hs Ht. rewrite marshal_members.
  rewrite (object_parses _ [JStr (valid_utf8 (sb_WorkerID sb)); JNum (FormatUint (sb_Seq sb));
             JStr (valid_utf8 (sb_ContentHash sb)); JNum (Itoa (sb_TsNS sb)); JStr (valid_utf8 (sb_Pad sb))]);
    [|done|repeat (apply Forall2_cons; split; [by (apply written_string || apply written_uint || apply written_int)|]); by apply Forall2_nil].
  cbn [fmap list_fmap fst zip zip_with].
  by rewrite (valid_ascii "worker_id"), (valid_ascii "seq"), (valid_ascii "content_hash"), (valid_ascii "ts_ns"), (valid_ascii "pad")
    by reflexivity.
Qed.

Lemma unmarshal_marshal sb :
  is_u64 (sb_Seq sb) -> is_int (sb_TsNS sb) -> unmarshal_body (marshal_body sb) = Some (readable sb).
Proof.
  intros Hs Ht. unfold unmarshal_body. rewrite marshal_parses by done. cbn [mbind option_bind]. unfold members_of.
  cbn [assign_all].
  assert (forall sb x, assign sb ("worker_id", JStr x) = Some (mkBody x (sb_Seq sb) (sb_ContentHash sb) (sb_TsNS sb) (sb_Pad sb))) as -> by done.
  cbn [mbind option_bind]. rewrite assign_seq by done. cbn [mbind option_bind].
  assert (forall sb x, assign sb ("content_hash", JStr x) = Some (mkBody (sb_WorkerID sb) (sb_Seq sb) x (sb_TsNS sb) (sb_Pad sb))) as -> by done.
  cbn [mbind option_bind]. rewrite assign_ts by done. done.
Qed.

(** Whatever the fields, what [handleMessage] decodes of a
    body is that body with its texts made valid UTF-8, and the body itself
    when its texts are ASCII, as a producer's are when the channel name is. *)
Theorem schema_body_roundtrip sb :
  is_u64 (sb_Seq sb) -> is_int (sb_TsNS sb) ->
  unmarshal_body (string_of (bytes_of (marshal_body sb))) = Some (readable sb) /\
  (is_ascii (sb_WorkerID sb) && is_ascii (sb_ContentHash sb) && is_ascii (sb_Pad sb) = true ->
   unmarshal_body (string_of (bytes_of (marshal_body sb))) = Some sb).
Proof.
  intros Hs Ht. rewrite string_of_bytes, unmarshal_marshal by done. split; [done|].
  intros [[Hw Hc]%andb_true_iff Hp]%andb_true_iff. unfold readable. rewrite !valid_ascii by done. by destruct sb.
Qed.

Definition sample_body : schemaBody := mkBody ("p-" +:+ str1 quote_c) 18446744073709551615 "00ff00ff" (-5) (str1 (char_of 200)).
Lemma schema_body_roundtrip_witness :
  unmarshal_body (string_of (bytes_of (marshal_body sample_body))) =
  Some (mkBody ("p-" +:+ str1 quote_c) 18446744073709551615 "00ff00ff" (-5) replacement).
Proof.
  destruct (schema_body_roundtrip sample_body) as [H _]; [cbn; range|cbn; range|]. rewrite H. vm_compute. reflexivity.
Defined.

(** ** Bodies of the producers *)

Lemma hex_char_ascii d : 0 <= d < 16 -> 0 <= char_code (hex_char d) < 128.
Proof.
  intros H. unfold hex_char. case_if; zbool; rewrite char_code_of by lia; lia.
Qed.

Lemma ascii_bytes bs : Forall (fun b => 0 <= b < 128) bs -> is_ascii (string_of bs) = true.
Proof.
  induction 1 as [|b bs Hb _ IH]; [done|]. cbn [string_of is_ascii]. rewrite char_code_of by lia.
  rewrite IH, (proj2 (Z.ltb_lt b 128)) by lia. done.
Qed.

Lemma randomHex_ascii rand n : Forall (fun b => 0 <= b < 128) (randomHex rand n).
Proof.
  assert (forall k v, Forall (fun b => 0 <= b < 128) (hex_nibbles k v)) as Hn.
  { intros k. induction k as [|k IH]; intros v; [constructor|]. cbn [hex_nibbles]. apply Forall_cons. split; [|apply IH].
    apply hex_char_ascii. change 15 with (Z.ones 4). rewrite Z.land_ones by lia. apply Z.mod_pos_bound. lia. }
  unfold randomHex. generalize (Z.to_nat n) at 2. generalize 0%nat. induction (Z.to_nat n) as [|f IH]; intros i m; [constructor|].
  cbn [randomHex_loop]. case_if; [constructor|]. apply Forall_app. split; [apply Hn|apply IH].
Qed.

Lemma hex_pad_ascii w n acc : is_ascii acc = true -> is_ascii (hex_pad w n acc) = true.
Proof.
  revert n acc. induction w as [|w IH]; intros n acc Ha; [done|]. cbn [hex_pad]. apply IH. cbn [is_ascii].
  rewrite Ha, (proj2 (Z.ltb_lt _ 128)); [done|]. apply hex_char_ascii. apply Z.mod_pos_bound. lia.
Qed.

Lemma crc_hex_shape body : is_ascii (crc_hex body) = true.
Proof. 
  unfold crc_hex. change (is_ascii (hex_pad 8 (ChecksumIEEE body) "" +:+ "") = true). rewrite sapp_nil_r. by apply hex_pad_ascii.
Qed.

(** What a producer's body is decoded to. *)
Lemma conforming_decodes p s env b body :
  buildConformingBody p s env b = Some body -> is_u64 s -> is_int (pe_stamp env) ->
  exists pad, unmarshal_body (string_of body) =
    Some (mkBody (valid_utf8 p) s (crc_hex pad) (pe_stamp env) (string_of pad)) /\ Forall (fun b => 0 <= b < 128) pad.
Proof.
  intros H Hs Ht. unfold buildConformingBody in H. destruct (selectMessageSize _ _) as [n|]; [|done].
  cbn [mbind option_bind Build] in H. cbv zeta in H. apply (inj Some) in H as <-.
  rewrite string_of_bytes, unmarshal_marshal by done.
  set (pad := randomHex _ _). exists pad. assert (Forall (fun b => 0 <= b < 128) pad) as Hp by apply randomHex_ascii.
  split; [|done]. unfold readable. cbn [sb_WorkerID sb_Seq sb_ContentHash sb_TsNS sb_Pad].
  by rewrite (valid_ascii (crc_hex pad)), (valid_ascii (string_of pad)) by (apply crc_hex_shape || by apply ascii_bytes).
Qed.

Lemma valid_ascii_cons c s : char_code c < 128 -> valid_utf8 (String c s) = String c (valid_utf8 s).
Proof.
  intros H. unfold valid_utf8, runes_of. cbn [String.length runes take_rune].
  rewrite (proj2 (Z.ltb_lt _ _) H). done.
Qed.

Lemma producer_id_readable b i : String.eqb (valid_utf8 (producer_id b i)) "" = false.
Proof. rewrite producer_id_shape. cbn [String.append]. rewrite valid_ascii_cons by (vm_compute; done). done. Qed.

(** ** Receiving *)

Definition handle (w : SchemaEnforceWorker) (d : Z * Message) : SchemaEnforceWorker :=
  handleMessage d.1 d.2 ("c-" +:+ bw_channelName (base w)) w.

Definition message_event (m : Message) : option (string * Z) :=
  match unmarshal_body (string_of (pm_Data m)) with
  | Some sb => if String.eqb (sb_WorkerID sb) "" then None else Some (sb_WorkerID sb, sb_Seq sb)
  | None => None
  end.
Definition event (d : Z * Message) : option (string * Z) := message_event d.2.

(** Counted as corrupted: unreadable, anonymous, or with another checksum. *)
Definition corrupt (m : Message) : bool :=
  match unmarshal_body (string_of (pm_Data m)) with
  | Some sb => String.eqb (sb_WorkerID sb) "" ||
               (nonempty (sb_ContentHash sb) && negb (VerifyCRC (bytes_of (sb_Pad sb)) (sb_ContentHash sb)))
  | None => true
  end.

Lemma keeps_corrupted c : c <> C_corrupted -> keeps c recordCorrupted.
Proof. intros H b. by apply (keeps_record c C_corrupted 1 (fun b => IncCorrupted (bw_name b))). Qed.

Lemma seq_with_base f (w : SchemaEnforceWorker) : se_seq (with_base f w) = se_seq w.
Proof. done. Qed.
Lemma cnt_latency c d b : bw_cnt (recordLatency d b) c = bw_cnt b c.
Proof. done. Qed.

#[global] Instance schema_tracked : TrackedHandler handle event.
Proof.
  split; intros w [now m]; unfold handle, event, message_event, handleMessage; cbn [fst snd];
    destruct (unmarshal_body _) as [sb|]; try done;
    destruct (String.eqb (sb_WorkerID sb) ""); try done; cbv zeta; rewrite !base_with_base.
  - change (bw_trk (recordAcked ?b)) with (bw_trk b). rewrite recordTracked_trk.
    destruct (_ && _), (0 <? sb_TsNS sb); rewrite ?base_with_base; done.
  - rewrite keeps_acked, recordTracked_dup by done.
    destruct (_ && _), (0 <? sb_TsNS sb); rewrite ?base_with_base; done.
Qed.

(** What a delivery leaves alone, and the corruption it counts. *)
Lemma schema_handle_counts w d :
  let w' := handle w d in
  (bw_channelName (base w') = bw_channelName (base w) /\ bw_cfg (base w') = bw_cfg (base w) /\ se_seq w' = se_seq w) /\
  (forall f, bw_flag (base w') f = bw_flag (base w) f) /\
  (forall c, c <> C_received -> c <> C_acked -> c <> C_corrupted -> c <> C_duplicated ->
     bw_cnt (base w') c = bw_cnt (base w) c) /\
  bw_cnt (base w') C_corrupted =
    if corrupt d.2 then bw_cnt (base w) C_corrupted +u 1 else bw_cnt (base w) C_corrupted.
Proof.
  destruct d as [now m]. unfold handle, handleMessage, corrupt. cbn [fst snd].
  assert (forall b p s f, bw_flag (fst (recordTracked p s b)) f = bw_flag b f) as Hfl
    by (intros b p s f; unfold recordTracked; destruct (Record_ (bw_trk b) p s) as [t [dup oo]]; by destruct dup, oo).
  destruct (unmarshal_body _) as [sb|];
    [destruct (String.eqb (sb_WorkerID sb) ""); [|cbn [orb]]|]; cbv zeta; rewrite !base_with_base, !seq_with_base.
  2: { change (bw_channelName (recordAcked ?b)) with (bw_channelName b). change (bw_cfg (recordAcked ?b)) with (bw_cfg b).
       change (bw_flag (recordAcked ?b)) with (bw_flag b).
       rewrite recordTracked_channel, recordTracked_cfg.
       destruct (_ && _), (0 <? sb_TsNS sb); rewrite ?base_with_base, ?seq_with_base; (split; [done|]); (split; [intros f; by rewrite Hfl|]);
         (split; [intros c H1 H2 H3 H4; rewrite keeps_acked, (keeps_tracked c) by done|
                  rewrite keeps_acked, (keeps_tracked C_corrupted) by done; done]);
         rewrite ?cnt_latency, ?(keeps_corrupted c) by done; by rewrite (keeps_received c). }
  all: split; [done|]; split; [done|]; split; [|done].
  all: intros c H1 H2 H3 H4; by rewrite keeps_acked, keeps_corrupted, keeps_received.
Qed.

(** ** Runs *)

(** The worker and the bodies the connector accepted. *)
Definition run_state : Type := SchemaEnforceWorker * list Message.

Inductive activity :=
| APublish (i : Z) (env : publish_env)
| ADeliver (d : Z * Message).

Definition act (st : run_state) (a : activity) : run_state :=
  match a with
  | APublish i env =>
      match produce_once i env st.1 with
      | Some (m, _, w) => (w, if published_ok env then st.2 ++ [m] else st.2)
      | None => st
      end
  | ADeliver d => (handle st.1 d, st.2)
  end.

Definition deliveries (l : list activity) : list (Z * Message) :=
  omap (fun a => match a with ADeliver d => Some d | APublish _ _ => None end) l.
Definition activity_event (a : activity) : option (string * Z) :=
  match a with ADeliver d => event d | APublish _ _ => None end.

#[global] Instance run_state_has_base : HasBase run_state.
Proof. refine {| base := fun st => base st.1; with_base := fun f st => (with_base f st.1, st.2) |}. done. Defined.

(** An accepted publish of producer [i]. *)
Definition good_publish (i : Z) (a : activity) : Prop :=
  match a with
  | APublish j env => j = i /\ published_ok env = true
  | ADeliver _ => True
  end.

(** One iteration: the body that is published, and what it does to the worker. *)
Lemma produce_once_spec i env w m ctl w' :
  produce_once i env w = Some (m, ctl, w') ->
  (exists b, b = base w /\ buildConformingBody (producer_id b i) (se_seq w +u 1) env b = Some (pm_Data m)) /\
  se_seq w' = se_seq w +u 1 /\
  exists n, base w' = snd (publish_outcome (producer_id (base w) i) n env (base w)).
Proof.
  unfold produce_once. set (w1 := mkSchema _ _ _ _ _ _ _ _). change (base w1) with (base w).
  destruct (buildConformingBody _ _ _ _) as [body|] eqn:E; [|done]. cbn [mbind option_bind].
  destruct (publish_outcome _ _ _ _) as [c b] eqn:Eo. intros H. apply (inj Some) in H. simplify_eq.
  split; [eauto|]. split; [done|]. exists (data_len (mkMsg body ∅ "" "")). rewrite base_with_base. by rewrite Eo.
Qed.

Lemma publish_keeps st i env :
  let st' := act st (APublish i env) in
  bw_trk (base st') = bw_trk (base st) /\ bw_channelName (base st') = bw_channelName (base st) /\
  (forall f, bw_flag (base st') f = bw_flag (base st) f) /\
  (forall c, c <> C_sent -> c <> C_errors -> bw_cnt (base st') c = bw_cnt (base st) c).
Proof.
  cbn [act]. destruct (produce_once i env st.1) as [[[m ctl] w]|] eqn:E; [|done].
  apply produce_once_spec in E as (_ & _ & n & Eb). cbn [base run_state_has_base fst]. rewrite Eb, outcome_trk, outcome_channel.
  split; [done|]. split; [done|]. split; [|intros c; by apply keeps_outcome].
  intros f. unfold publish_outcome. destruct (PublishMessageSync _); [done|]. by case_if.
Qed.

#[global] Instance act_tracked : TrackedHandler act activity_event.
Proof.
  split; intros st [i env|d]; cbn [activity_event].
  - apply publish_keeps.
  - exact (handler_trk st.1 d).
  - by apply publish_keeps.
  - exact (handler_dup st.1 d).
Qed.

Lemma schema_events l : omap activity_event l = omap event (deliveries l).
Proof.
  induction l as [|[i env|d] l IH]; [done|exact IH|].
  change (deliveries (ADeliver d :: l)) with (d :: deliveries l). rewrite !event_cons. cbn [activity_event].
  by rewrite IH.
Qed.

Lemma run_corrupted l st :
  u64 (bw_cnt (base (foldl act st l)) C_corrupted) =
  u64 (bw_cnt (base st) C_corrupted + Z.of_nat (length (List.filter (fun d => corrupt d.2) (deliveries l)))).
Proof.
  revert st. induction l as [|[i env|d] l IH]; intros st; cbn [foldl].
  - cbn. by rewrite Z.add_0_r.
  - change (deliveries (APublish i env :: l)) with (deliveries l). rewrite IH.
    destruct (publish_keeps st i env) as (_ & _ & _ & E). by rewrite E.
  - change (deliveries (ADeliver d :: l)) with (d :: deliveries l). rewrite IH.
    destruct (schema_handle_counts st.1 d) as (_ & _ & _ & E). cbn [act base run_state_has_base fst].
    change (base st) with (base st.1). rewrite E. cbn [List.filter]. destruct (corrupt d.2); cbn [length]; wrap_eq.
Qed.

(** *** Numbering *)

(** A publish whose size draw is one the distribution has, stamped with an [int64]. *)
Definition drawn (b : BaseWorker) (a : activity) : Prop :=
  match a with
  | APublish _ env => is_Some (selectMessageSize b (pe_size env)) /\ is_int (pe_stamp env)
  | ADeliver _ => True
  end.

(** Who and which number each accepted body should carry when [n] is the last
    number used: a failed publish uses up its number. *)
Fixpoint accepted_events (b : BaseWorker) (n : Z) (l : list activity) : list (string * Z) :=
  match l with
  | [] => []
  | APublish i env :: l =>
      (if published_ok env then [(valid_utf8 (producer_id b i), n + 1)] else []) ++ accepted_events b (n + 1) l
  | ADeliver _ :: l => accepted_events b n l
  end.

Lemma handle_size w d r : selectMessageSize (base (handle w d)) r = selectMessageSize (base w) r.
Proof.
  destruct d as [now m]. unfold handle, handleMessage, selectMessageSize. cbn [fst snd].
  destruct (unmarshal_body _) as [sb|]; [|done]. destruct (String.eqb (sb_WorkerID sb) ""); [done|]. cbv zeta.
  rewrite !base_with_base. change (bw_cfg (recordAcked ?b)) with (bw_cfg b).
  change (bw_sizeDistrib (recordAcked ?b)) with (bw_sizeDistrib b). rewrite recordTracked_cfg.
  unfold recordTracked. destruct (Record_ _ _ _) as [t [dup oo]].
  destruct dup, oo, (_ && _), (0 <? sb_TsNS sb); rewrite ?base_with_base; done.
Qed.

Lemma outcome_size p n env b r : selectMessageSize (snd (publish_outcome p n env b)) r = selectMessageSize b r.
Proof. unfold publish_outcome. destruct (PublishMessageSync _); [done|]. by case_if. Qed.

Lemma schema_run_grows l st : (length st.2 <= length (foldl act st l).2)%nat.
Proof.
  revert st. induction l as [|a l IH]; intros st; cbn [foldl]; [done|]. etransitivity; [|apply IH].
  destruct a as [i env|d]; cbn [act]; [|done]. destruct (produce_once _ _ _) as [[[m ctl] w]|]; cbn [snd]; [|done].
  destruct (published_ok env); [rewrite length_app|]; lia.
Qed.

(** What a published body is delivered as. *)
Lemma published_whole p s env b body :
  buildConformingBody p s env b = Some body -> is_u64 s -> is_int (pe_stamp env) -> String.eqb (valid_utf8 p) "" = false ->
  forall m, pm_Data m = body -> message_event m = Some (valid_utf8 p, s) /\ corrupt m = false.
Proof.
  intros Hb Hs Ht Hp m <-. destruct (conforming_decodes _ _ _ _ _ Hb Hs Ht) as (pad & E & Ha).
  unfold message_event, corrupt. rewrite E. cbn [sb_WorkerID sb_Seq sb_ContentHash sb_Pad]. rewrite Hp. split; [done|].
  rewrite bytes_of_string by (eapply Forall_impl; [exact Ha|]; unfold is_byte; cbn; lia).
  unfold VerifyCRC. rewrite String.eqb_refl. cbn [negb orb]. apply andb_false_r.
Qed.

(** What a run keeps: [evs] are the events of the bodies accepted so far, [n] the
    last number used. *)
Record numbered (b0 : BaseWorker) (n : Z) (evs : list (string * Z)) (st : run_state) : Prop := {
  nb_channel : bw_channelName (base st) = bw_channelName b0;
  nb_size : forall r, selectMessageSize (base st) r = selectMessageSize b0 r;
  nb_seq : se_seq st.1 = n;
  nb_events : omap message_event st.2 = evs;
  nb_whole : Forall (fun m => corrupt m = false) st.2
}.

Lemma numbered_publish b0 n evs st i env :
  numbered b0 n evs st -> drawn b0 (APublish i env) -> 0 <= n -> n + 1 < two64 ->
  numbered b0 (n + 1) (evs ++ (if published_ok env then [(valid_utf8 (producer_id b0 i), n + 1)] else []))
    (act st (APublish i env)).
Proof.
  intros [H1 H2 H3 H4 H5] [[sz Hsz] Ht] H0 Hn. destruct (publish_keeps st i env) as (_ & Ec & _).
  assert (producer_id (base st.1) i = producer_id b0 i) as Ep by (by apply producer_id_ext).
  assert (is_Some (produce_once i env st.1)) as [[[m ctl] w] E].
  { change (base st) with (base st.1) in H2. unfold produce_once, buildConformingBody. cbn [base schema_has_base se_base].
    change (se_base st.1) with (base st.1). rewrite H2, Hsz. cbn [mbind option_bind]. destruct (Build _ _).
    cbn [mbind option_bind]. destruct (publish_outcome _ _ _ _). eauto. }
  cbn [act] in *. rewrite E in Ec |- *. cbn [fst snd base run_state_has_base] in *.
  apply produce_once_spec in E as ((b & -> & Eb) & Es & k & Ew). rewrite Ep in Eb. rewrite H3, uadd_small in Eb, Es by range.
  destruct (published_whole _ _ _ _ _ Eb ltac:(range) Ht (producer_id_readable _ _) m eq_refl) as [Em Ew'].
  split; cbn [fst snd base run_state_has_base].
  - congruence.
  - intros r. by rewrite Ew, outcome_size.
  - done.
  - destruct (published_ok env); [|by rewrite app_nil_r]. by rewrite omap_app, H4, event_cons, Em.
  - destruct (published_ok env); [|done]. apply Forall_app. split; [done|]. by apply Forall_singleton.
Qed.

Lemma numbered_deliver b0 n evs st d : numbered b0 n evs st -> numbered b0 n evs (act st (ADeliver d)).
Proof.
  intros [H1 H2 H3 H4 H5]. destruct (schema_handle_counts st.1 d) as ((E1 & _ & E2) & _).
  split; cbn [act fst snd base run_state_has_base] in *; try congruence. intros r. by rewrite handle_size.
Qed.

Lemma schema_numbered_run b0 l : forall n evs st,
  numbered b0 n evs st -> Forall (drawn b0) l -> 0 <= n -> n + Z.of_nat (length l) < two64 ->
  exists n', numbered b0 n' (evs ++ accepted_events b0 n l) (foldl act st l).
Proof.
  induction l as [|a l IH]; intros n evs st H Hl H0 Hn; cbn [foldl accepted_events]; [rewrite app_nil_r; eauto|].
  apply Forall_cons in Hl as [Ha Hl]. cbn [length] in Hn. destruct a as [i env|d].
  - rewrite app_assoc. apply IH; [apply numbered_publish; (done || lia)|done|lia|lia].
  - apply IH; [by apply numbered_deliver|done|lia|lia].
Qed.

(** One producer whose publishes are all accepted numbers them consecutively. *)
Lemma good_publish_events b i l n :
  Forall (good_publish i) l ->
  exists k : nat, (k <= length l)%nat /\ accepted_events b n l = pair (valid_utf8 (producer_id b i)) <$> seqZ (n + 1) (Z.of_nat k).
Proof.
  intros H. revert n. induction H as [|[j env|d] l Ha H IH]; intros n; cbn [accepted_events length].
  - exists 0%nat. done.
  - destruct Ha as [-> Hok], (IH (n + 1)) as (k & Hk & ->). exists (S k). split; [lia|].
    rewrite Hok, (seqZ_cons _ (Z.of_nat (S k))) by lia. cbn [app fmap list_fmap]. do 3 f_equal; lia.
  - destruct (IH n) as (k & Hk & ->). exists k. split; [lia|done].
Qed.

(** The counter of what was sent follows the accepted bodies, whoever produced. *)
Lemma run_schema_sent l : forall st,
  u64 (bw_cnt (base (foldl act st l)) C_sent) =
  u64 (bw_cnt (base st) C_sent + Z.of_nat (length (foldl act st l).2 - length st.2)).
Proof.
  induction l as [|a l IH]; intros st; cbn [foldl]; [by rewrite Nat.sub_diag, Z.add_0_r|]. rewrite IH.
  pose proof (schema_run_grows l (act st a)) as Hg. pose proof (schema_run_grows [a] st) as Ha. cbn [foldl] in Ha.
  assert (u64 (bw_cnt (base (act st a)) C_sent) = u64 (bw_cnt (base st) C_sent + Z.of_nat (length (act st a).2 - length st.2))) as E.
  { destruct a as [i env|d]; cbn [act base run_state_has_base fst snd].
    - destruct (produce_once i env st.1) as [[[m ctl] w]|] eqn:E; cbn [fst snd]; [|by rewrite Nat.sub_diag, Z.add_0_r].
      apply produce_once_spec in E as (_ & _ & n & ->). rewrite outcome_sent.
      destruct (published_ok env); [|by rewrite Nat.sub_diag, Z.add_0_r].
      rewrite length_app, Nat.add_sub_swap, Nat.sub_diag by lia. cbn [length]. wrap_eq.
    - destruct (schema_handle_counts st.1 d) as (_ & _ & E3 & _). by rewrite E3, Nat.sub_diag, Z.add_0_r. }
  unfold u64 in *. rewrite <- Zplus_mod_idemp_l, E, Zplus_mod_idemp_l. f_equal. lia.
Qed.

Lemma accepted_events_ext b b' l : bw_channelName b = bw_channelName b' -> forall n, accepted_events b n l = accepted_events b' n l.
Proof.
  intros H. induction l as [|[i env|d] l IH]; intros n; cbn [accepted_events]; [done| |done].
  by rewrite IH, (producer_id_ext b b' i H).
Qed.

Lemma none_corrupt (l : list (Z * Message)) :
  Forall (fun m => corrupt m = false) (snd <$> l) -> List.filter (fun d => corrupt d.2) l = [].
Proof.
  induction l as [|d l IH]; [done|]. cbn [fmap list_fmap]. intros H. apply Forall_cons in H as [Hd Hk].
  cbn [List.filter]. rewrite Hd. by apply IH.
Qed.

(** ** The measured window *)

(** The measurement begins with the reset and the probe. *)
Definition measured (ctx : bool) (r : string + rpc_error) (ctxAfter : bool) (w : SchemaEnforceWorker) : SchemaEnforceWorker :=
  runNonConformingProbe ctx r ctxAfter (with_base ResetAfterWarmup w).

Definition refused (r : string + rpc_error) : bool :=
  match r with inr e => bool_decide (e_code e = InvalidArgument) | inl _ => false end.

Lemma probe_base ctx r ctxAfter w :
  let w1 := runNonConformingProbe ctx r ctxAfter w in
  se_seq w1 = se_seq w /\
  base w1 =
    if ctx then base w
    else
      let b := store_flag F_schemaEnforceProbeRan true (base w) in
      match r with
      | inl _ => recordSchemaRejectViolation b
      | inr _ => if ctxAfter then b else if refused r then recordSchemaEnforceConfirmed b else recordError "schema_probe_failure" b
      end.
Proof.
  unfold runNonConformingProbe, PublishMessageSync, refused. destruct ctx; [done|].
  destruct r as [id|e]; [by rewrite !base_with_base|]. destruct ctxAfter; [by rewrite base_with_base|].
  change (e_code (wrap ?f ?x)) with (e_code x). case_bool_decide; by rewrite !base_with_base.
Qed.

Lemma measured_spec ctx r ctxAfter w :
  let w1 := measured ctx r ctxAfter w in
  (bw_channelName (base w1) = bw_channelName (base w) /\ se_seq w1 = se_seq w /\
   bw_trk (base w1) = New (reorderWindow (bw_trk (base w)))) /\
  (forall f, bw_flag (base w1) f = bool_decide (f = F_schemaEnforceProbeRan) && negb ctx) /\
  (forall c, c <> C_errors -> c <> C_schemaRejectViolations -> c <> C_schemaEnforceConfirmed -> bw_cnt (base w1) c = 0) /\
  bw_cnt (base w1) C_schemaRejectViolations = (match r with inl _ => if ctx then 0 else 1 | inr _ => 0 end) /\
  bw_cnt (base w1) C_schemaEnforceConfirmed = (if refused r && negb ctx && negb ctxAfter then 1 else 0).
Proof.
  destruct (reset_spec (base w)) as (_ & _ & Ht & _ & _ & _ & Hz & Hn).
  assert (bw_channelName (ResetAfterWarmup (base w)) = bw_channelName (base w)) as Hc by reflexivity.
  unfold measured. destruct (probe_base ctx r ctxAfter (with_base ResetAfterWarmup w)) as [Hs Hb]. cbv zeta.
  rewrite Hb, Hs, base_with_base, seq_with_base. clear Hs Hb. generalize dependent (ResetAfterWarmup (base w)). intros b Ht Hz Hn Hc.
  assert (forall f, bw_flag (store_flag F_schemaEnforceProbeRan true b) f = bool_decide (f = F_schemaEnforceProbeRan)) as Hf.
  { intros f. transitivity (if decide (f = F_schemaEnforceProbeRan) then true else bw_flag b f); [done|].
    rewrite Hn. case_bool_decide; [by rewrite decide_True|by rewrite decide_False]. }
  destruct ctx; cbn [negb].
  { split; [done|]. split; [intros f; by rewrite Hn, andb_false_r|]. rewrite andb_false_r. split; [intros; apply Hz|].
    rewrite !Hz. by destruct r. }
  destruct r as [id|e]; [|destruct ctxAfter; [|destruct (refused (inr e))]]; cbn [negb refused andb]; rewrite ?andb_false_r, ?andb_true_r;
    (split; [done|]); (split; [intros f; rewrite ?andb_true_r; apply Hf|]); cbv zeta;
    (split; [intros c H1 H2 H3; etransitivity; [|apply (Hz c)]|]);
    unfold recordSchemaRejectViolation, recordSchemaEnforceConfirmed, recordError;
    rewrite ?cnt_emit, ?cnt_add_counter, ?decide_False by done; try done;
    change (bw_cnt (store_flag _ _ _)) with (bw_cnt b); rewrite !Hz; done.
Qed.

(** C17 (functional).  A measured window, from any state the warm-up left and
    however the probe came out, with publishes of any producers, accepted or
    not, and deliveries interleaved in any way (fewer than 2^64 numbers used in
    all): the sent counter is the number of accepted bodies and the corrupted
    counter the number of unreadable or mismatching deliveries (modulo 2^64);
    every accepted body is readable, carries its producer's id and the number of
    its attempt counted from the warm-up's last, a failed publish using up its
    number.  When there is one producer and every one of its publishes is
    accepted (a failed one is reported lost later, see
    [failed_publish_false_loss]), and what was accepted is what is delivered, in
    order, nothing is reported lost, duplicated or corrupted. *)
Theorem schema_measured_window w ctx r ctxAfter l :
  rw_ok (reorderWindow (bw_trk (base w))) -> 0 <= se_seq w -> se_seq w + Z.of_nat (length l) < two64 ->
  Forall (drawn (base (measured ctx r ctxAfter w))) l ->
  let st := foldl act (measured ctx r ctxAfter w, []) l in
  u64 (bw_cnt (base st) C_sent) = u64 (Z.of_nat (length st.2)) /\
  u64 (bw_cnt (base st) C_corrupted) = u64 (Z.of_nat (length (List.filter (fun d => corrupt d.2) (deliveries l)))) /\
  omap message_event st.2 = accepted_events (base w) (se_seq w) l /\
  (forall i, Forall (good_publish i) l -> snd <$> deliveries l = st.2 ->
   TotalLost (bw_trk (base st)) = 0 /\ bw_cnt (base st) C_duplicated = 0 /\ u64 (bw_cnt (base st) C_corrupted) = 0).
Proof.
  intros Hrw H0 Hn Hl st. destruct (measured_spec ctx r ctxAfter w) as ((M1 & M2 & M3) & _ & M4 & _).
  set (w1 := measured ctx r ctxAfter w) in *.
  destruct (schema_numbered_run (base w1) l (se_seq w1) [] (w1, [])) as (n' & [_ _ _ He Hw]);
    [done|done|by rewrite M2|by rewrite M2|]. fold st in He, Hw. cbn [app] in He.
  assert (u64 (bw_cnt (base st) C_corrupted) = u64 (Z.of_nat (length (List.filter (fun d => corrupt d.2) (deliveries l))))) as Hc.
  { unfold st. rewrite run_corrupted. change (base (w1, [] : list Message)) with (base w1). by rewrite M4. }
  split. { unfold st. rewrite run_schema_sent. change (base (w1, [] : list Message)) with (base w1). rewrite M4 by done.
    cbn [snd length]. by rewrite Nat.sub_0_r. }
  split; [done|]. split. { rewrite He, M2. by apply accepted_events_ext. }
  intros i Hg Hd. destruct (good_publish_events (base w1) i l (se_seq w1) Hg) as (k & Hk & Ek). rewrite Ek in He.
  assert (omap event (deliveries l) = omap message_event st.2) as Hev
    by (rewrite <- Hd; clear; induction (deliveries l) as [|d k IH]; [done|]; cbn; by rewrite IH).
  assert (TotalLost (bw_trk (base st)) = 0 /\ bw_cnt (base st) C_duplicated = 0) as [H1 H2].
  { apply (handled_clean act activity_event l (w1, [])); rewrite ?schema_events, ?Hev, ?He.
    - change (base (w1, [] : list Message)) with (base w1). unfold fresh_tracker. by rewrite M3, M4.
    - apply Forall_fmap, Forall_forall. intros s Hs. apply elem_of_seqZ in Hs. cbn in *. range.
    - intros p. apply of_single. }
  split; [done|]. split; [done|]. rewrite Hc, none_corrupt; [done|]. by rewrite Hd.
Qed.

Definition sample_env : publish_env := mkEnv 0 (fun _ => 0) 7 (inl "1") false 0 0.
Definition sample_refusal : string + rpc_error := inr (mkErr InvalidArgument None "schema").

(** Three publishes, then their deliveries. *)
Definition sample_window (w : SchemaEnforceWorker) : list activity :=
  let publishes := replicate 3 (APublish 0 sample_env) in
  publishes ++ ((fun m => ADeliver (9, m)) <$> (foldl act (w, []) publishes).2).

Lemma schema_measured_window_witness :
  exists w, NewSchemaEnforceWorker (fun _ => "") DefaultConfig 0 = Some w /\
    let w1 := measured false sample_refusal false w in
    let st := foldl act (w1, []) (sample_window w1) in
    TotalLost (bw_trk (base st)) = 0 /\ u64 (bw_cnt (base st) C_corrupted) = 0 /\ u64 (bw_cnt (base st) C_sent) = 3.
Proof.
  destruct (NewSchemaEnforceWorker (fun _ => "") DefaultConfig 0) as [w|] eqn:E; [|vm_compute in E; discriminate E].
  exists w. split; [reflexivity|]. cbv zeta. set (w1 := measured false sample_refusal false w).
  assert (rw_ok (reorderWindow (bw_trk (base w))) /\ se_seq w = 0) as (Hrw & Hq)
    by (vm_compute in E; injection E as <-; vm_compute; auto).
  assert (snd <$> deliveries (sample_window w1) = (foldl act (w1, []) (sample_window w1)).2 /\
          length (foldl act (w1, []) (sample_window w1)).2 = 3%nat /\ length (sample_window w1) = 6%nat) as (H1 & H2 & H3)
    by (unfold w1; vm_compute in E; injection E as <-; vm_compute; auto).
  assert (Forall (drawn (base w1)) (sample_window w1)) as Hdr.
  { unfold sample_window. apply Forall_app. split; [|apply Forall_fmap, Forall_true; done].
    apply Forall_replicate. split; [|cbn; range]. unfold w1. vm_compute in E. injection E as <-. vm_compute. eauto. }
  destruct (schema_measured_window w false sample_refusal false (sample_window w1) Hrw) as (Es & _ & _ & Hd).
  - rewrite Hq. done.
  - rewrite Hq, H3. reflexivity.
  - exact Hdr.
  - fold w1 in Es, Hd. destruct (Hd 0) as (L & _ & C); [|exact H1|].
    + unfold sample_window. apply Forall_app. split; [by apply Forall_replicate|]. apply Forall_fmap, Forall_true. done.
    + split; [exact L|]. split; [exact C|]. rewrite Es, H2. reflexivity.
Defined.

(** ** The gate of the probe *)

(** Counters and flags the coverage gates of this worker read. *)
Definition gate_counters : list counter :=
  [C_batchAtomicityViolations; C_schemaRejectViolations; C_schemaEnforceConfirmed; C_flowControlViolations].

Lemma act_gates l st :
  (forall f, bw_flag (base (foldl act st l)) f = bw_flag (base st) f) /\
  (forall c, c ∈ gate_counters -> bw_cnt (base (foldl act st l)) c = bw_cnt (base st) c).
Proof.
  revert st. induction l as [|a l IH]; intros st; [done|]. cbn [foldl]. destruct (IH (act st a)) as [H1 H2].
  assert ((forall f, bw_flag (base (act st a)) f = bw_flag (base st) f) /\
          (forall c, c ∈ gate_counters -> bw_cnt (base (act st a)) c = bw_cnt (base st) c)) as [E1 E2].
  { assert (forall c, c ∈ gate_counters -> c <> C_sent /\ c <> C_errors /\ c <> C_received /\ c <> C_acked /\
              c <> C_corrupted /\ c <> C_duplicated) as Hg
      by (intros c Hc; unfold gate_counters in Hc; repeat (apply elem_of_cons in Hc as [-> | Hc]; [done|]);
          by apply not_elem_of_nil in Hc).
    destruct a as [i env|d].
    - destruct (publish_keeps st i env) as (_ & _ & H3 & H4). split; [done|]. intros c Hc. apply Hg in Hc. apply H4; tauto.
    - destruct (schema_handle_counts st.1 d) as (_ & H3 & H4 & _). split; [done|]. intros c Hc. apply Hg in Hc. apply H4; tauto. }
  split; [intros f; by rewrite H1|]. intros c Hc. by rewrite H2, E2.
Qed.

Lemma schema_gates s :
  coverage_gates WorkerSchemaEnforce s = [] <->
  (0 <? sn_cnt s C_batchAtomicityViolations) = false /\ (0 <? sn_cnt s C_schemaRejectViolations) = false /\
  (sn_flag s F_schemaEnforceProbeRan && (sn_cnt s C_schemaEnforceConfirmed =? 0)) = false /\
  (0 <? sn_cnt s C_flowControlViolations) = false /\
  (sn_flag s F_leaseExtendProbeRan = true ->
     (sn_cnt s C_leaseExtendConfirmed =? 0) = false /\ (sn_cnt s C_leaseExtendRejectConfirmed =? 0) = false) /\
  (sn_flag s F_crossStreamAckProbeRan && (sn_cnt s C_crossStreamAckConfirmed =? 0)) = false.
Proof.
  unfold coverage_gates. cbv zeta.
  change (IsFilteringWorker WorkerSchemaEnforce) with false. change (IsSchemaEnforceWorker WorkerSchemaEnforce) with true.
  change (IsSeekSnapshotWorker WorkerSchemaEnforce) with false. change (IsInflightCapWorker WorkerSchemaEnforce) with false.
  change (IsExactlyOnceWorker WorkerSchemaEnforce) with false. change (IsDeadLetterWorker WorkerSchemaEnforce) with false.
  cbn [andb]. rewrite !app_nil, !gate_nil. destruct (sn_flag s F_leaseExtendProbeRan); rewrite ?app_nil, ?gate_nil; naive_solver.
Qed.

(** The probe never asked, or it was answered as it should be. *)
Definition probe_passed (ctx : bool) (r : string + rpc_error) (ctxAfter : bool) : bool :=
  ctx || (refused r && negb ctxAfter).

(** C18 (safety).  For a schema_enforce group of one channel, whatever the
    warm-up, its own probe and the traffic of the window left behind: the
    coverage gates (those of the probes, not the loss, duplicate, corruption and
    latency gates, which read the traffic) are silent on the snapshot exactly
    when the probe of the measured window was refused with [InvalidArgument]
    while its context was alive, or did not get to ask.  With several channels
    the gates read the sums, and one channel's confirmation can stand for
    another's. *)
Theorem schema_probe_gate ValueAtQuantile TotalCount w ctx r ctxAfter l :
  coverage_gates WorkerSchemaEnforce
    (capture_group ValueAtQuantile TotalCount WorkerSchemaEnforce [base (foldl act (measured ctx r ctxAfter w, []) l)]) = []
  <-> probe_passed ctx r ctxAfter = true.
Proof.
  set (b := base (foldl act _ l)).
  destruct (capture_single ValueAtQuantile TotalCount WorkerSchemaEnforce b eq_refl) as [Hs Hf].
  destruct (measured_spec ctx r ctxAfter w) as (_ & M1 & M2 & M3 & M4).
  destruct (act_gates l (measured ctx r ctxAfter w, [])) as [G1 G2]. fold b in G1, G2.
  change (base (measured ctx r ctxAfter w, [] : list Message)) with (base (measured ctx r ctxAfter w)) in G1, G2.
  assert (forall c, c ∈ gate_counters -> summed c = true ->
    sn_cnt (capture_group ValueAtQuantile TotalCount WorkerSchemaEnforce [b]) c = u64 (bw_cnt (base (measured ctx r ctxAfter w)) c)) as Hc
    by (intros c H1 H2; by rewrite Hs, G2).
  rewrite schema_gates, !Hf, !G1, !M1.
  rewrite (Hc C_batchAtomicityViolations), (Hc C_schemaRejectViolations), (Hc C_schemaEnforceConfirmed), (Hc C_flowControlViolations)
    by (done || unfold gate_counters; set_solver).
  rewrite M3, M4, (M2 C_batchAtomicityViolations), (M2 C_flowControlViolations) by done.
  change (bool_decide (F_schemaEnforceProbeRan = F_schemaEnforceProbeRan)) with true.
  change (bool_decide (F_leaseExtendProbeRan = F_schemaEnforceProbeRan)) with false.
  change (bool_decide (F_crossStreamAckProbeRan = F_schemaEnforceProbeRan)) with false.
  cbn [andb]. unfold probe_passed. set (s := capture_group _ _ _ _).
  generalize (sn_cnt s C_leaseExtendConfirmed =? 0), (sn_cnt s C_leaseExtendRejectConfirmed =? 0). clear. intros x y.
  destruct ctx, ctxAfter, r as [id|e]; cbn [refused andb orb negb];
    try destruct (bool_decide _); vm_compute; intuition discriminate.
Qed.

(** The members a parser finds in the probe's body, for a channel name that needs
    no escape. *)
Definition probe_members (channel : string) : list (string * json) :=
  [("worker_id", JStr (valid_utf8 ("probe-" +:+ channel))); ("seq", JStr "not-a-number"); ("content_hash", JStr "00000000");
   ("ts_ns", JNum "0"); ("pad", JStr "x")].
Lemma probe_parses w :
  quote_body_of ("probe-" +:+ bw_channelName (base w)) = "probe-" +:+ bw_channelName (base w) ->
  parse_json (buildNonConformingBody w) = Some (JObj (probe_members (bw_channelName (base w)))).
Proof.
  intros Hq.
  assert (buildNonConformingBody w = String "{" (members_text
    [("worker_id", json_string ("probe-" +:+ bw_channelName (base w))); ("seq", json_string "not-a-number");
     ("content_hash", json_string "00000000"); ("ts_ns", Itoa 0); ("pad", json_string "x")])) as ->.
  { unfold buildNonConformingBody. cbn [members_text]. unfold json_string at 2. rewrite Hq.
    cbn [String.append q str1]. rewrite !sapp_assoc. reflexivity. }
  rewrite (object_parses _ [JStr (valid_utf8 ("probe-" +:+ bw_channelName (base w))); JStr "not-a-number"; JStr "00000000";
             JNum "0"; JStr "x"]); [done|done|].
  repeat (apply Forall2_cons; split; [first [exact (written_string _ 1)|exact (written_int 0 ltac:(range) 1)]|]). by apply Forall2_nil.
Qed.

(** It does not decode: delivered all the same, it would be counted as corrupted
    and not tracked. *)
Theorem probe_body_unreadable w a k o :
  quote_body_of ("probe-" +:+ bw_channelName (base w)) = "probe-" +:+ bw_channelName (base w) ->
  let m := mkMsg (bytes_of (buildNonConformingBody w)) a k o in
  message_event m = None /\ corrupt m = true.
Proof.
  intros Hq. cbv zeta. unfold message_event, corrupt. cbn [pm_Data]. rewrite string_of_bytes.
  assert (unmarshal_body (buildNonConformingBody w) = None) as ->; [|done]. unfold unmarshal_body. by rewrite probe_parses.
Qed.

(** A conforming publish that fails is not counted as sent, but it has used up
    its sequence number: among accepted and delivered ones it is reported as a
    loss. *)
Theorem failed_publish_false_loss :
  exists w, NewSchemaEnforceWorker (fun _ => "") (small_window DefaultConfig 8) 0 = Some w /\
    let fails i := if i =? 3 then inr (mkErr Unavailable None "down") else inl "1" in
    let publishes := (fun i => APublish 0 (mkEnv 0 (fun _ => 0) 7 (fails i) false 0 0)) <$> seqZ 0 16 in
    let st := foldl act (w, []) publishes in
    TotalLost (bw_trk (base (foldl act st ((fun m => ADeliver (9, m)) <$> st.2)))) = 1.
Proof. eexists. split; [reflexivity|]. vm_compute. reflexivity. Qed.
