(* ===== verification/SchemaConform.v ===== *)
(** * burnin/worker/schema_enforce.go: the schema and the bodies

    The record the topic is bound to, and that the producers' bodies conform to
    it while the probe's does not.  The registry that validates a message is not
    part of the program: it is the parameter [accepts], with what the worker's
    comments say of it as hypotheses. *)
From S2P Require Import Prelude GoFloat GoFmt GoTime GoJson Config Payload Tracker TrackerBits TrackerSpec TrackerProps.
From S2P Require Import Streams Metrics Transport Worker WorkerProps Verdict VerdictProps Handlers Tracked SchemaEnforce.
From Stdlib Require Import Ascii.

Definition newline : string := str1 (char_of 10).
(** A quoted word; the lines of a text. *)
Definition qw (s : string) : string := q +:+ s +:+ q.
Definition unlines (l : list string) : string := String.concat newline l.

Definition avro_field (name type : string) : string :=
  "    {" +:+ qw "name" +:+ ": " +:+ qw name +:+ ", " +:+ qw "type" +:+ ": " +:+ qw type +:+ "}".
Definition avroSchemaDefinition : string := unlines
  ["{"; "  " +:+ qw "type" +:+ ": " +:+ qw "record" +:+ ","; "  " +:+ qw "name" +:+ ": " +:+ qw "BurninSchemaEnforce" +:+ ",";
   "  " +:+ qw "namespace" +:+ ": " +:+ qw "kubemq.burnin" +:+ ","; "  " +:+ qw "fields" +:+ ": [";
   avro_field "worker_id" "string" +:+ ","; avro_field "seq" "long" +:+ ","; avro_field "content_hash" "string" +:+ ",";
   avro_field "ts_ns" "long" +:+ ","; avro_field "pad" "string"; "  ]"; "}"].
Definition protoSchemaDefinition : string := unlines
  ["syntax = " +:+ qw "proto3" +:+ ";"; "package kubemq.burnin;"; "message BurninSchemaEnforce {"; "  string worker_id = 1;";
   "  int64 seq = 2;"; "  string content_hash = 3;"; "  int64 ts_ns = 4;"; "  string pad = 5;"; "}"].
(** The definition [Start] registers. *)
Definition definition_of (w : SchemaEnforceWorker) : string :=
  if String.eqb (se_schemaType w) "protobuf" then protoSchemaDefinition else avroSchemaDefinition.

(** ** A record schema *)

Definition member (l : list (string * json)) (k : string) : option json := snd <$> List.find (fun e => String.eqb (fst e) k) l.
Definition text_of (l : list (string * json)) (k : string) : option string :=
  v ← member l k; match v with JStr s => Some s | _ => None end.
Definition field_decl (v : json) : option (string * string) :=
  match v with JObj l => n ← text_of l "name"; t ← text_of l "type"; Some (n, t) | _ => None end.

(** The fields a definition declares, each with its type. *)
Definition record_fields (definition : string) : option (list (string * string)) :=
  match parse_json definition with
  | Some (JObj l) =>
      t ← text_of l "type";
      match member l "fields" with
      | Some (JArr fs) => if String.eqb t "record" then mapM field_decl fs else None
      | _ => None
      end
  | _ => None
  end.

(** A JSON value of a field type: a text, or an integer of 64 bits. *)
Definition of_type (type : string) (v : json) : bool :=
  match v with
  | JStr _ => String.eqb type "string"
  | JNum n => String.eqb type "long" && (if ParseInt n is Some _ then true else false)
  | _ => false
  end.

Lemma avro_fields : record_fields avroSchemaDefinition =
  Some [("worker_id", "string"); ("seq", "long"); ("content_hash", "string"); ("ts_ns", "long"); ("pad", "string")].
Proof. vm_compute. reflexivity. Qed.

Lemma avro_names_nodup : NoDup ["worker_id"; "seq"; "content_hash"; "ts_ns"; "pad"].
Proof. apply (bool_decide_unpack _). reflexivity. Qed.

Section registry.
(** Whether a message passes the schema of a definition under the topic's
    encoding. *)
Context (accepts : SchemaEncoding -> string -> string -> bool).

(** Under the JSON encoding a JSON object with the declared fields, each of its
    type, passes. *)
Context (accepts_conforming : forall d body fields l,
  record_fields d = Some fields -> NoDup (map fst fields) -> parse_json body = Some (JObj l) -> map fst l = map fst fields ->
  Forall2 (fun f m => of_type (snd f) (snd m) = true) fields l ->
  accepts EncodingJSON d body = true).
(** One in which a field of an integer type holds a text does not. *)
Context (refuses_text : forall d body fields k s l,
  record_fields d = Some fields -> (k, "long") ∈ fields -> parse_json body = Some (JObj l) -> (k, JStr s) ∈ l ->
  accepts EncodingJSON d body = false).

(** C19 (functional).  Under the JSON encoding (the default) and the Avro schema
    type, the schema tells the producers' bodies from the probe's.  Every body a
    producer writes has exactly the fields the registered Avro record declares,
    in its order and with values of their types, so that a registry accepts it,
    as long as the number fits the record's signed 64-bit field; the probe's
    body, for a channel whose name needs no JSON escape, is well-formed JSON with
    a text where the record asks for a number, so that it is refused.  Nothing is
    claimed for the binary encoding, under which the worker still writes JSON, nor
    for the protobuf definition. *)
Theorem schema_separates_bodies sb w :
  is_u64 (sb_Seq sb) -> sb_Seq sb < 2 ^ 63 -> is_int (sb_TsNS sb) ->
  se_encoding w = EncodingJSON -> se_schemaType w <> "protobuf" ->
  quote_body_of ("probe-" +:+ bw_channelName (base w)) = "probe-" +:+ bw_channelName (base w) ->
  accepts (se_encoding w) (definition_of w) (marshal_body sb) = true /\
  accepts (se_encoding w) (definition_of w) (buildNonConformingBody w) = false.
Proof.
  intros Hs Hlt Ht He Hp Hq. unfold definition_of. rewrite He, (proj2 (String.eqb_neq _ _) Hp). split.
  - apply (accepts_conforming _ _ _ _ avro_fields avro_names_nodup (marshal_parses _ Hs Ht)); [done|].
    assert (ParseInt (FormatUint (sb_Seq sb)) = Some (sb_Seq sb)) as E.
    { rewrite <- (Atoi_Itoa (sb_Seq sb)) by range. unfold Atoi, Itoa. by rewrite (proj2 (Z.ltb_ge (sb_Seq sb) 0)) by range. }
    assert (ParseInt (Itoa (sb_TsNS sb)) = Some (sb_TsNS sb)) as E' by (by apply Atoi_Itoa).
    repeat (apply Forall2_cons; split; [cbn [of_type fst snd]; rewrite ?E, ?E'; reflexivity|]). by apply Forall2_nil.
  - apply (refuses_text _ _ _ "seq" "not-a-number" (probe_members (bw_channelName (base w))) avro_fields); [set_solver|by apply probe_parses|set_solver].
Qed.
End registry.

(** A registry that reads JSON messages only and checks their fields and nothing
    else. *)
Definition checks_fields (e : SchemaEncoding) (d body : string) : bool :=
  match e, record_fields d, parse_json body with
  | EncodingJSON, Some fields, Some (JObj l) =>
      bool_decide (map fst l = map fst fields) &&
      forallb (fun f => forallb (fun m => negb (String.eqb (fst m) (fst f)) || of_type (snd f) (snd m)) l) fields
  | _, _, _ => false
  end.

Lemma pair_of_names (fields : list (string * string)) (l : list (string * json)) f m :
  NoDup (map fst fields) -> map fst l = map fst fields -> Forall2 (fun f m => of_type (snd f) (snd m) = true) fields l ->
  f ∈ fields -> m ∈ l -> fst m = fst f -> of_type (snd f) (snd m) = true.
Proof.
  intros Hn Hl H Hf Hm E. apply list_elem_of_lookup in Hf as [i Hi]. apply list_elem_of_lookup in Hm as [j Hj].
  assert (i = j) as <-.
  { apply (NoDup_lookup (map fst fields) i j (fst f)); [done|by rewrite list_lookup_fmap, Hi|].
    rewrite <- Hl. change (map fst l) with (fst <$> l). by rewrite list_lookup_fmap, Hj, <- E. }
  by apply (Forall2_lookup_lr _ _ _ i f m H).
Qed.

Lemma checks_accepts d body fields l :
  record_fields d = Some fields -> NoDup (map fst fields) -> parse_json body = Some (JObj l) -> map fst l = map fst fields ->
  Forall2 (fun f m => of_type (snd f) (snd m) = true) fields l -> checks_fields EncodingJSON d body = true.
Proof.
  intros E Hn Hb Hl H. unfold checks_fields. rewrite E, Hb, bool_decide_eq_true_2 by done. cbn [andb].
  apply forallb_forall. intros f Hf. apply forallb_forall. intros m Hm. destruct (String.eqb_spec (fst m) (fst f)) as [Ek|]; [|done].
  cbn [negb orb]. by apply (pair_of_names fields l); [..|apply list_elem_of_In|apply list_elem_of_In|].
Qed.
Lemma checks_refuses d body fields k s l :
  record_fields d = Some fields -> (k, "long") ∈ fields -> parse_json body = Some (JObj l) -> (k, JStr s) ∈ l ->
  checks_fields EncodingJSON d body = false.
Proof.
  intros E Hf Hb Hm. unfold checks_fields. rewrite E, Hb. apply andb_false_intro2. apply not_true_iff_false. rewrite forallb_forall. intros H.
  specialize (H (k, "long") (proj1 (list_elem_of_In _ _) Hf)). rewrite forallb_forall in H.
  specialize (H (k, JStr s) (proj1 (list_elem_of_In _ _) Hm)). cbn [fst snd] in H. by rewrite String.eqb_refl in H.
Qed.

Lemma schema_separates_bodies_witness :
  match NewSchemaEnforceWorker (fun _ => "") DefaultConfig 0 with
  | Some w => checks_fields (se_encoding w) (definition_of w) (marshal_body (mkBody "p-0" 1 "00ff00ff" 5 "x")) = true /\
              checks_fields (se_encoding w) (definition_of w) (buildNonConformingBody w) = false
  | None => False
  end.
Proof.
  destruct (NewSchemaEnforceWorker (fun _ => "") DefaultConfig 0) as [w|] eqn:E; [|vm_compute in E; discriminate].
  set (facts w := (se_encoding w, se_schemaType w, bw_channelName (base w))).
  assert (facts <$> Some w = Some (EncodingJSON, "avro", "pubsub.gcp_burnin_schema_enforce_0000")) as H
    by (rewrite <- E; vm_compute; reflexivity).
  injection H as H0 H1 H2.
  apply (schema_separates_bodies checks_fields checks_accepts checks_refuses); cbn [sb_Seq sb_TsNS]; [range|lia|range|exact H0|by rewrite H1|].
  change (bw_channelName (base w)) with (bw_channelName (se_base w)). rewrite H2. vm_compute. reflexivity.
Defined.
