(* ===== verification/Commands.v ===== *)
(** * burnin/cmd: cleanup and verify

    The two commands beside the harness.  [cleanup] deletes what carries a
    resource prefix, kind by kind; the connector it works on is an interface,
    with what the command relies on as laws.  [verify] is a one-shot check of
    a round trip and of the bridge to the native side, with an exit code. *)
From S2P Require Import Prelude GoFloat GoFmt Config Transport.
From Stdlib Require Import Ascii.

(** ** cmd/cleanup *)

Inductive kind := KSubscription | KSnapshot | KTopic | KSchema.
#[global] Instance kind_eq_dec : EqDecision kind.
Proof. solve_decision. Defined.

(** The connector: the ids of each kind, the subscriptions and snapshots that
    hang on a topic, and the delete calls. *)
Class Connector (St : Type) := {
  con_ids : kind -> St -> gset string;
  con_dependents : string -> St -> gset string;
  con_delete : kind -> string -> St -> St * option string
}.

(** A call that succeeds removes its id and nothing else, one that fails
    removes nothing; neither adds a dependent; dependents are subscriptions or
    snapshots.  What is there can be deleted, a topic when nothing hangs on
    it. *)
Class ConnectorLaws (St : Type) {C : Connector St} := {
  con_deleted : forall k id s k', (con_delete k id s).2 = None ->
    con_ids k' (con_delete k id s).1 = if decide (k' = k) then con_ids k s ∖ {[ id ]} else con_ids k' s;
  con_failed : forall k id s k', (con_delete k id s).2 <> None -> con_ids k' (con_delete k id s).1 = con_ids k' s;
  con_uses : forall k id s t, con_dependents t (con_delete k id s).1 ⊆ con_dependents t s;
  con_users : forall t s, con_dependents t s ⊆ con_ids KSubscription s ∪ con_ids KSnapshot s;
  con_present : forall k id s, id ∈ con_ids k s -> (k = KTopic -> con_dependents id s = ∅) -> (con_delete k id s).2 = None
}.

(** What [it.Next] yields: a resource, a snapshot entry without a snapshot, or
    an error that ends the loop. *)
Inductive item := Item (id : string) | ItemNil | ItemErr (err : string).

Section cleanup.
Context {St : Type} {C : Connector St}.

(** The loop the four functions share: the state, [deleted] and [failed]. *)
Fixpoint cleanup_loop (k : kind) (prefix : string) (items : list item) (s : St) (deleted failed : Z) : St * (Z * Z) :=
  match items with
  | [] => (s, (deleted, failed))
  | ItemErr _ :: _ => (s, (deleted, failed))
  | ItemNil :: items' => cleanup_loop k prefix items' s deleted failed
  | Item id :: items' =>
      if negb (HasPrefix id prefix) then cleanup_loop k prefix items' s deleted failed
      else
        let '(s, err) := con_delete k id s in
        match err with
        | Some _ => cleanup_loop k prefix items' s deleted (failed + 1)
        | None => cleanup_loop k prefix items' s (deleted + 1) failed
        end
  end.

Definition cleanupSubscriptions (prefix : string) (items : list item) (s : St) := cleanup_loop KSubscription prefix items s 0 0.
Definition cleanupSnapshots (prefix : string) (items : list item) (s : St) := cleanup_loop KSnapshot prefix items s 0 0.
Definition cleanupTopics (prefix : string) (items : list item) (s : St) := cleanup_loop KTopic prefix items s 0 0.

(** The text after the last slash. *)
Definition LastIndexSlash (name : string) : option string :=
  let parts := Split name "/" in
  if (1 <? length parts)%nat then last parts else None.
Definition schemaID (name : string) : string := default name (LastIndexSlash name).

(** Schemas are listed by their full name.  [client] is the error of
    [NewSchemaClient], if any. *)
Definition cleanupSchemas (client : option string) (prefix : string) (items : list item) (s : St) : St * (Z * Z) :=
  match client with
  | Some _ => (s, (0, 0))
  | None =>
      cleanup_loop KSchema prefix
        (map (fun i => match i with Item name => Item (schemaID name) | i => i end) items) s 0 0
  end.

Definition envOr (Getenv : string -> string) (key def : string) : string :=
  let v := TrimSpace (Getenv key) in if nonempty v then v else def.

Definition cleanup_prefix (Getenv : string -> string) (prefix : string) : string :=
  if nonempty prefix then prefix else envOr Getenv ResourcePrefixEnv "gcp_burnin".

(** [main] with its clients built: [list k s] is what the iterator over kind
    [k] yields when it is opened in state [s].  The counts are in the order of
    the deletions. *)
Definition cleanup_main (Getenv : string -> string) (prefixFlag : string) (list_ : kind -> St -> list item)
    (schemaClient : option string) (s : St) : St * list (Z * Z) :=
  let pfx := cleanup_prefix Getenv prefixFlag in
  let '(s, subs) := cleanupSubscriptions pfx (list_ KSubscription s) s in
  let '(s, snaps) := cleanupSnapshots pfx (list_ KSnapshot s) s in
  let '(s, topics) := cleanupTopics pfx (list_ KTopic s) s in
  let '(s, schemas) := cleanupSchemas schemaClient pfx (list_ KSchema s) s in
  (s, [subs; snaps; topics; schemas]).

(** *** What it deletes *)

Context {L : ConnectorLaws St}.

Definition prefixed (prefix : string) (X : gset string) : gset string := filter (fun id => HasPrefix id prefix = true) X.
Definition foreign (prefix : string) (X : gset string) : gset string := filter (fun id => HasPrefix id prefix = false) X.

Lemma prefixed_split prefix X id : id ∈ X <-> id ∈ prefixed prefix X \/ id ∈ foreign prefix X.
Proof.
  unfold prefixed, foreign. rewrite !elem_of_filter. destruct (HasPrefix id prefix); naive_solver.
Qed.

Lemma foreign_delete prefix X id : HasPrefix id prefix = true -> foreign prefix (X ∖ {[ id ]}) = foreign prefix X.
Proof.
  intros Hp. apply set_eq. intros x. unfold foreign. rewrite !elem_of_filter, elem_of_difference, elem_of_singleton.
  split; [tauto|]. intros [Hx Hin]. split; [done|]. split; [done|]. intros ->. congruence.
Qed.

(** Whatever is listed and however the calls end, resources without the prefix
    and those of the other kinds stay, and nothing hangs on a topic that did
    not before. *)
Lemma loop_keeps k prefix items s d f :
  let s' := (cleanup_loop k prefix items s d f).1 in
  (forall k', k' <> k -> con_ids k' s' = con_ids k' s) /\
  foreign prefix (con_ids k s') = foreign prefix (con_ids k s) /\ con_ids k s' ⊆ con_ids k s /\
  (forall t, con_dependents t s' ⊆ con_dependents t s).
Proof.
  revert s d f. induction items as [|[id| |err] items IH]; intros s d f; cbn [cleanup_loop]; [done|..|apply IH|done].
  destruct (HasPrefix id prefix) eqn:Hp; cbn [negb]; [|apply IH].
  pose proof (con_deleted k id s) as Hd. pose proof (con_failed k id s) as Hf. pose proof (con_uses k id s) as Hu.
  destruct (con_delete k id s) as [s1 [err|]]; cbn [fst snd] in *.
  - destruct (IH s1 d (f + 1)) as (H1 & H2 & H3 & H4). specialize (Hf k ltac:(done)) as E.
    split; [intros k' Hk; rewrite H1, Hf by done; done|]. split; [by rewrite H2, E|]. split; [by rewrite <- E|].
    intros t. etransitivity; [apply H4|apply Hu].
  - destruct (IH s1 (d + 1) f) as (H1 & H2 & H3 & H4). specialize (Hd k eq_refl) as E. rewrite decide_True in E by done.
    split; [intros k' Hk; rewrite H1, Hd, decide_False by done; done|].
    split; [rewrite H2, E; by apply foreign_delete|]. split; [rewrite E in H3; etransitivity; [exact H3|apply subseteq_difference_l; done]|].
    intros t. etransitivity; [apply H4|apply Hu].
Qed.

(** A listing that names every resource of the kind once, and resources that
    can be deleted: all with the prefix are, and none fails. *)
Lemma loop_complete k prefix ids s d f :
  NoDup ids -> (forall x, HasPrefix x prefix = true -> x ∈ con_ids k s <-> x ∈ ids) ->
  (k = KTopic -> forall x, x ∈ ids -> HasPrefix x prefix = true -> con_dependents x s = ∅) ->
  let r := cleanup_loop k prefix (Item <$> ids) s d f in
  prefixed prefix (con_ids k r.1) = ∅ /\
  r.2 = (d + Z.of_nat (length (List.filter (fun x => HasPrefix x prefix) ids)), f).
Proof.
  intros Hnd. revert s d f. induction Hnd as [|id ids Hid Hnd IH]; intros s d f Hin Hdep; cbn [fmap list_fmap cleanup_loop].
  - split; [|by rewrite Z.add_0_r]. cbn [fst]. apply set_eq. intros x. unfold prefixed. rewrite elem_of_filter.
    split; [|set_solver]. intros [Hx Hi]. apply Hin in Hi; [|done]. by apply not_elem_of_nil in Hi.
  - cbn [List.filter]. destruct (HasPrefix id prefix) eqn:Hp; cbn [negb].
    2: { apply IH; [|intros Hk x Hx; apply Hdep; [done|by right]].
         intros x Hx. rewrite Hin, elem_of_cons by done. split; [|by right]. intros [->|?]; [congruence|done]. }
    assert ((con_delete k id s).2 = None) as Hok.
    { apply con_present; [apply Hin; [done|left]|]. intros Hk. apply Hdep; [done|left|done]. }
    pose proof (con_deleted k id s k Hok) as E. rewrite decide_True in E by done. pose proof (con_uses k id s) as Hu.
    destruct (con_delete k id s) as [s1 err]. cbn [fst snd] in *. subst err.
    destruct (IH s1 (d + 1) f) as [H1 H2].
    + intros x Hx. rewrite E, elem_of_difference, elem_of_singleton, Hin, elem_of_cons by done. split; [tauto|].
      intros Hi. split; [by right|]. by intros ->.
    + intros Hk x Hx Hpx. specialize (Hu x). rewrite (Hdep Hk x) in Hu by (by right || done). set_solver.
    + split; [done|]. rewrite H2. cbn [length]. f_equal. lia.
Qed.

Lemma prefixed_size prefix (X : gset string) ids :
  NoDup ids -> (forall x, x ∈ ids <-> x ∈ X) ->
  length (List.filter (fun x => HasPrefix x prefix) ids) = size (prefixed prefix X).
Proof.
  intros Hnd Hin.
  assert (NoDup (List.filter (fun x => HasPrefix x prefix) ids)) as Hf.
  { apply NoDup_ListNoDup, List.NoDup_filter, NoDup_ListNoDup. done. }
  rewrite <- (size_list_to_set (C := gset string)) by done. f_equal. apply set_eq. intros x.
  unfold prefixed. rewrite elem_of_list_to_set, elem_of_filter, list_elem_of_In, filter_In, <- list_elem_of_In, Hin. tauto.
Qed.

(** *** Schema names *)

Lemma split_app (a b : string) :
  exists ws, ws <> [] /\ Split (a +:+ String "/" b) "/" = ws ++ Split b "/".
Proof.
  induction a as [|c a (ws & Hn & E)]; cbn [String.append Split].
  - exists [""]. split; [done|]. by rewrite Ascii.eqb_refl.
  - rewrite E. destruct (Ascii.eqb c "/"); [by exists ("" :: ws)|]. destruct ws as [|w ws]; [done|].
    by exists (String c w :: ws).
Qed.

Lemma schemaID_full a id : Split id "/" = [id] -> schemaID (a +:+ String "/" id) = id.
Proof.
  intros H. unfold schemaID, LastIndexSlash. destruct (split_app a id) as (ws & Hn & ->). rewrite H.
  destruct ws as [|w ws]; [done|]. rewrite length_app. cbn [length].
  assert ((1 <? S (length ws) + 1)%nat = true) as -> by (apply Nat.ltb_lt; lia). by rewrite last_snoc.
Qed.

(** A listing by [project] of everything there is. *)
Definition item_name (project : string) (k : kind) (id : string) : string :=
  match k with KSchema => "projects/" +:+ project +:+ "/schemas" +:+ String "/" id | _ => id end.
Definition lists_all (project : string) (list_ : kind -> St -> list item) : Prop :=
  forall k s, exists ids, NoDup ids /\ (forall x, x ∈ ids <-> x ∈ con_ids k s) /\
    list_ k s = Item <$> (item_name project k <$> ids).

(** One of the four passes over a complete listing. *)
Definition pass (k : kind) (client : option string) (prefix : string) (items : list item) (s : St) : St * (Z * Z) :=
  match k with
  | KSubscription => cleanupSubscriptions prefix items s
  | KSnapshot => cleanupSnapshots prefix items s
  | KTopic => cleanupTopics prefix items s
  | KSchema => cleanupSchemas client prefix items s
  end.

Lemma pass_keeps k client prefix items s :
  let s' := (pass k client prefix items s).1 in
  (forall k', k' <> k -> con_ids k' s' = con_ids k' s) /\ foreign prefix (con_ids k s') = foreign prefix (con_ids k s) /\
  con_ids k s' ⊆ con_ids k s /\ (forall t, con_dependents t s' ⊆ con_dependents t s).
Proof. destruct k; try apply loop_keeps. cbn [pass cleanupSchemas]. destruct client; [done|apply loop_keeps]. Qed.

Lemma pass_complete k project list_ prefix s :
  lists_all project list_ -> (forall x, x ∈ con_ids KSchema s -> Split x "/" = [x]) ->
  (k = KTopic -> forall x, x ∈ con_ids k s -> HasPrefix x prefix = true -> con_dependents x s = ∅) ->
  let r := pass k None prefix (list_ k s) s in
  prefixed prefix (con_ids k r.1) = ∅ /\ r.2 = (Z.of_nat (size (prefixed prefix (con_ids k s))), 0).
Proof.
  intros Hl Hs Hdep. destruct (Hl k s) as (ids & Hnd & Hin & ->).
  assert (pass k None prefix (Item <$> (item_name project k <$> ids)) s = cleanup_loop k prefix (Item <$> ids) s 0 0) as ->.
  { destruct k; cbn [pass item_name]; unfold cleanupSubscriptions, cleanupSnapshots, cleanupTopics, cleanupSchemas;
      rewrite ?list_fmap_id; try done. f_equal. rewrite <- !list_fmap_compose.
    apply list_fmap_ext. intros i id Hi.
    change (Item (schemaID (item_name project KSchema id)) = Item id). f_equal. unfold item_name. rewrite <- !sapp_assoc.
    apply schemaID_full, Hs, Hin. by eapply list_elem_of_lookup_2. }
  destruct (loop_complete k prefix ids s 0 0 Hnd) as [H1 H2].
  - intros x _. by rewrite Hin.
  - intros Hk x Hx. apply Hdep; [done|]. by apply Hin.
  - split; [done|]. by rewrite H2, (prefixed_size prefix (con_ids k s)).
Qed.

(** The states between the passes. *)
Lemma main_passes Getenv flag list_ client s :
  let pfx := cleanup_prefix Getenv flag in
  let r1 := pass KSubscription client pfx (list_ KSubscription s) s in
  let r2 := pass KSnapshot client pfx (list_ KSnapshot r1.1) r1.1 in
  let r3 := pass KTopic client pfx (list_ KTopic r2.1) r2.1 in
  let r4 := pass KSchema client pfx (list_ KSchema r3.1) r3.1 in
  cleanup_main Getenv flag list_ client s = (r4.1, [r1.2; r2.2; r3.2; r4.2]).
Proof.
  cbv zeta. unfold cleanup_main. cbn [pass].
  destruct (cleanupSubscriptions _ _ _) as [s1 c1]. cbn [fst snd]. destruct (cleanupSnapshots _ _ _) as [s2 c2]. cbn [fst snd].
  destruct (cleanupTopics _ _ _) as [s3 c3]. cbn [fst snd]. by destruct (cleanupSchemas _ _ _ _) as [s4 c4].
Qed.

(** Four passes, each on its own kind, act on that kind alone. *)
Section passes.
Context (pfx : string) (client : option string) (items : kind -> St -> list item) (s : St).
Let r1 := pass KSubscription client pfx (items KSubscription s) s.
Let r2 := pass KSnapshot client pfx (items KSnapshot r1.1) r1.1.
Let r3 := pass KTopic client pfx (items KTopic r2.1) r2.1.
Let r4 := pass KSchema client pfx (items KSchema r3.1) r3.1.

Lemma passes_ids :
  con_ids KSubscription r4.1 = con_ids KSubscription r1.1 /\ con_ids KSnapshot r4.1 = con_ids KSnapshot r2.1 /\
  con_ids KTopic r4.1 = con_ids KTopic r3.1 /\ con_ids KSnapshot r1.1 = con_ids KSnapshot s /\
  con_ids KSubscription r2.1 = con_ids KSubscription r1.1 /\
  con_ids KTopic r2.1 = con_ids KTopic s /\ con_ids KSchema r3.1 = con_ids KSchema s /\
  con_ids KSchema r1.1 = con_ids KSchema s /\ con_ids KSchema r2.1 = con_ids KSchema s.
Proof.
  destruct (pass_keeps KSubscription client pfx (items KSubscription s) s) as [H1 _]. fold r1 in H1.
  destruct (pass_keeps KSnapshot client pfx (items KSnapshot r1.1) r1.1) as [H2 _]. fold r2 in H2.
  destruct (pass_keeps KTopic client pfx (items KTopic r2.1) r2.1) as [H3 _]. fold r3 in H3.
  destruct (pass_keeps KSchema client pfx (items KSchema r3.1) r3.1) as [H4 _]. fold r4 in H4.
  split_and!; rewrite ?H4 by done; rewrite ?H3 by done; rewrite ?H2 by done; rewrite ?H1 by done; done.
Qed.

Lemma passes_foreign k : foreign pfx (con_ids k r4.1) = foreign pfx (con_ids k s).
Proof.
  destruct passes_ids as (E1 & E2 & E3 & E4 & _ & E5 & E6 & _).
  destruct k; [rewrite E1|rewrite E2, <- E4|rewrite E3, <- E5|rewrite <- E6]; apply pass_keeps.
Qed.

(** The topics' dependents once subscriptions and snapshots are gone. *)
Lemma passes_free t :
  prefixed pfx (con_ids KSubscription r1.1) = ∅ -> prefixed pfx (con_ids KSnapshot r2.1) = ∅ ->
  (forall x, x ∈ con_dependents t s -> HasPrefix x pfx = true) -> con_dependents t r2.1 = ∅.
Proof.
  intros H1 H2 Hd. destruct passes_ids as (_ & _ & _ & _ & E & _). apply elem_of_equiv_empty_L. intros x Hx.
  assert (HasPrefix x pfx = true) as Hp.
  { apply Hd. destruct (pass_keeps KSubscription client pfx (items KSubscription s) s) as (_ & _ & _ & K1).
    destruct (pass_keeps KSnapshot client pfx (items KSnapshot r1.1) r1.1) as (_ & _ & _ & K2). by apply K1, K2. }
  apply con_users in Hx as [Hx|Hx]%elem_of_union.
  - rewrite E in Hx. apply (not_elem_of_empty (C := gset string) x). rewrite <- H1. by apply elem_of_filter.
  - apply (not_elem_of_empty (C := gset string) x). rewrite <- H2. by apply elem_of_filter.
Qed.
End passes.

(** Complete listings, and topics on which only resources with the prefix
    hang. *)
Lemma main_complete Getenv flag list_ project s :
  let pfx := cleanup_prefix Getenv flag in
  let r := cleanup_main Getenv flag list_ None s in
  lists_all project list_ -> (forall x, x ∈ con_ids KSchema s -> Split x "/" = [x]) ->
  (forall t x, t ∈ con_ids KTopic s -> HasPrefix t pfx = true -> x ∈ con_dependents t s -> HasPrefix x pfx = true) ->
  (forall k, con_ids k r.1 = foreign pfx (con_ids k s)) /\
  r.2 = (fun k => (Z.of_nat (size (prefixed pfx (con_ids k s))), 0)) <$> [KSubscription; KSnapshot; KTopic; KSchema].
Proof.
  cbv zeta. rewrite main_passes. set (pfx := cleanup_prefix Getenv flag). cbn [fst snd]. intros Hl Hs Hd.
  pose proof (passes_ids pfx None list_ s) as (E1 & E2 & E3 & E4 & _ & E5 & E6 & E7 & E8).
  pose proof (passes_foreign pfx None list_ s) as Hf. pose proof (fun t => passes_free pfx None list_ s t) as Hfree.
  set (r1 := pass KSubscription None pfx (list_ KSubscription s) s) in *.
  set (r2 := pass KSnapshot None pfx (list_ KSnapshot r1.1) r1.1) in *.
  set (r3 := pass KTopic None pfx (list_ KTopic r2.1) r2.1) in *.
  set (r4 := pass KSchema None pfx (list_ KSchema r3.1) r3.1) in *.
  destruct (pass_complete KSubscription project list_ pfx s Hl Hs ltac:(done)) as [P1 C1]. fold r1 in P1, C1.
  destruct (pass_complete KSnapshot project list_ pfx r1.1 Hl ltac:(by rewrite E7) ltac:(done)) as [P2 C2]. fold r2 in P2, C2.
  destruct (pass_complete KTopic project list_ pfx r2.1 Hl ltac:(by rewrite E8)) as [P3 C3].
  { intros _ x Hx Hp. apply Hfree; [done..|]. intros y. apply Hd; [by rewrite <- E5|done]. }
  fold r3 in P3, C3.
  destruct (pass_complete KSchema project list_ pfx r3.1 Hl ltac:(by rewrite E6) ltac:(done)) as [P4 C4]. fold r4 in P4, C4.
  split.
  - intros k. rewrite <- Hf. apply set_eq. intros x. rewrite (prefixed_split pfx).
    assert (prefixed pfx (con_ids k r4.1) = ∅) as ->; [destruct k; [by rewrite E1|by rewrite E2|by rewrite E3|done]|].
    set_solver.
  - rewrite C1, C2, C3, C4, E4, E5, E6. done.
Qed.

(** C28 (safety).  Whatever the iterators yield and however the calls end, the
    clean-up deletes nothing whose id lacks the prefix.  On complete listings,
    when what hangs on the topics with the prefix has the prefix too, it
    deletes everything with the prefix, in one run and without a failed call:
    subscriptions and snapshots go before the topics they block. *)
Theorem cleanup_deletes_prefix Getenv flag list_ client s :
  let pfx := cleanup_prefix Getenv flag in
  let r := cleanup_main Getenv flag list_ client s in
  (forall k, foreign pfx (con_ids k r.1) = foreign pfx (con_ids k s)) /\
  (forall project, lists_all project list_ -> client = None ->
   (forall x, x ∈ con_ids KSchema s -> Split x "/" = [x]) ->
   (forall t x, t ∈ con_ids KTopic s -> HasPrefix t pfx = true -> x ∈ con_dependents t s -> HasPrefix x pfx = true) ->
   (forall k, con_ids k r.1 = foreign pfx (con_ids k s)) /\
   r.2 = (fun k => (Z.of_nat (size (prefixed pfx (con_ids k s))), 0)) <$> [KSubscription; KSnapshot; KTopic; KSchema]).
Proof.
  cbv zeta. split; [intros k; rewrite main_passes; apply passes_foreign|].
  intros project Hl -> Hs Hd. by apply (main_complete Getenv flag list_ project).
Qed.
End cleanup.

(** *** Names of the agents *)

(** The names a worker builds begin with its agent's prefix, and so with every
    prefix of it: an agent's clean-up also takes the resources of any agent
    whose prefix extends its own. *)
Theorem longer_prefix_is_matched p x worker idx :
  HasPrefix (TopicName (p +:+ x) worker idx) p = true /\ HasPrefix (SubscriptionName (p +:+ x) worker idx) p = true /\
  HasPrefix (SnapshotName (p +:+ x) worker idx) p = true /\ HasPrefix (SchemaName (p +:+ x) worker idx) p = true.
Proof.
  unfold TopicName, SubscriptionName, SnapshotName, SchemaName. cbn [Sprintf fmt_s].
  rewrite !sapp_assoc. split_and!; apply HasPrefix_app.
Qed.

(** The harness takes the prefix from the environment as it is, the clean-up
    trims it: a prefix of blanks is replaced by the default one, which is
    another agent's. *)
Theorem blank_prefix_is_another_agents Getenv :
  Getenv ResourcePrefixEnv = " " ->
  resourcePrefix Getenv = " " /\ cleanup_prefix Getenv "" = "gcp_burnin".
Proof. intros H. unfold resourcePrefix, cleanup_prefix, envOr. rewrite H. split; reflexivity. Qed.

(** *** A connector *)

(** Subscriptions and snapshots with their topics, topics and schemas; a topic
    that is in use is not deleted. *)
Record memory := mkMemory {
  m_subs : gmap string string; m_snaps : gmap string string; m_topics : gset string; m_schemas : gset string
}.
Definition users (t : string) (m : gmap string string) : gset string := dom (filter (fun e => e.2 = t) m).

#[global] Instance memory_connector : Connector memory := {|
  con_ids k m := match k with KSubscription => dom (m_subs m) | KSnapshot => dom (m_snaps m)
                            | KTopic => m_topics m | KSchema => m_schemas m end;
  con_dependents t m := users t (m_subs m) ∪ users t (m_snaps m);
  con_delete k id m :=
    match k with
    | KSubscription => (mkMemory (base.delete id (m_subs m)) (m_snaps m) (m_topics m) (m_schemas m), None)
    | KSnapshot => (mkMemory (m_subs m) (base.delete id (m_snaps m)) (m_topics m) (m_schemas m), None)
    | KTopic => if decide (users id (m_subs m) ∪ users id (m_snaps m) = ∅)
                then (mkMemory (m_subs m) (m_snaps m) (m_topics m ∖ {[ id ]}) (m_schemas m), None)
                else (m, Some "topic in use")
    | KSchema => (mkMemory (m_subs m) (m_snaps m) (m_topics m) (m_schemas m ∖ {[ id ]}), None)
    end
|}.

Lemma users_elem t m x : x ∈ users t m <-> m !! x = Some t.
Proof.
  unfold users. rewrite elem_of_dom. split.
  - intros [v [H Ht]%map_lookup_filter_Some]. cbn in Ht. by subst.
  - intros H. exists t. by apply map_lookup_filter_Some.
Qed.

Lemma users_delete t m id : users t (base.delete id m) ⊆ users t m.
Proof. intros x. rewrite !users_elem. intros [_ H]%lookup_delete_Some. done. Qed.
Lemma users_dom t m : users t m ⊆ dom m.
Proof. intros x. rewrite users_elem, elem_of_dom. eauto. Qed.

#[global] Instance memory_laws : ConnectorLaws memory.
Proof.
  split.
  - intros k id s k' H. destruct k, k'; cbn in *; try done; try (by rewrite dom_delete_L); by case_decide.
  - intros k id s k' H. destruct k; cbn in *; try done. by case_decide.
  - intros k id s t. destruct k; cbn; try done.
    + pose proof (users_delete t (m_subs s) id). set_solver.
    + pose proof (users_delete t (m_snaps s) id). set_solver.
    + by case_decide.
  - intros t s. cbn. pose proof (users_dom t (m_subs s)). pose proof (users_dom t (m_snaps s)). set_solver.
  - intros k id s Hid Ht. destruct k; cbn in *; try done. rewrite decide_True; [done|]. by apply Ht.
Qed.

Definition memory_list (k : kind) (m : memory) : list item := Item <$> (item_name "p" k <$> elements (con_ids k m)).
Lemma memory_lists : lists_all "p" memory_list.
Proof. intros k s. exists (elements (con_ids k s)). split; [apply NoDup_elements|]. split; [intros x; apply elem_of_elements|done]. Qed.

(** Two agents share a connector. *)
Definition sample_memory : memory :=
  mkMemory {[ "go_t_sub" := "go_t"; "py_t_sub" := "py_t" ]} {[ "go_t_snap" := "go_t" ]} {[ "go_t"; "py_t" ]} {[ "go_s" ]}.

Lemma cleanup_deletes_prefix_witness :
  let r := cleanup_main (fun _ => "") "go" memory_list None sample_memory in
  (forall k, con_ids k r.1 = foreign "go" (con_ids k sample_memory)) /\ r.2 = [(1, 0); (1, 0); (1, 0); (1, 0)].
Proof.
  destruct (cleanup_deletes_prefix (fun _ => "") "go" memory_list None sample_memory) as [_ H].
  destruct (H "p" memory_lists eq_refl) as [H1 H2].
  - intros x Hx. change (x ∈ ({[ "go_s" ]} : gset string)) in Hx. apply elem_of_singleton in Hx. subst. reflexivity.
  - intros t x Ht Hp. change (t ∈ ({[ "go_t"; "py_t" ]} : gset string)) in Ht.
    apply elem_of_union in Ht as [Ht|Ht]; apply elem_of_singleton in Ht; subst t; [|discriminate Hp].
    assert (con_dependents "go_t" sample_memory = {[ "go_t_sub"; "go_t_snap" ]}) as -> by (vm_compute; reflexivity).
    intros [Hx|Hx]%elem_of_union; apply elem_of_singleton in Hx; subst; reflexivity.
  - split; [exact H1|]. rewrite H2. vm_compute. reflexivity.
Defined.

(** ** cmd/verify *)

(** What is torn down at the end: the function a resource registers. *)
Inductive teardown := TopicTeardown (id : string) | SubTeardown (id : string).

Record harness := mkHarness {
  h_prefix : string;
  h_checkNat : bool;
  h_resources : list teardown;
  h_failures : Z;
  h_passes : Z
}.
Definition add_resource (r : teardown) (h : harness) : harness :=
  mkHarness (h_prefix h) (h_checkNat h) (h_resources h ++ [r]) (h_failures h) (h_passes h).

(** What [transport.Receive] did in [pullOne]: the bodies its callback saw, and
    its error. *)
Record pull_outcome := mkPull { po_bodies : list string; po_err : option string }.

Definition pullOne (budget : string) (o : pull_outcome) : result string :=
  match po_bodies o, po_err o with
  | body :: _, _ => Ok body
  | [], Some e => Err (Sprintf "receive: %w" [AStr e])
  | [], None => Err (Sprintf "no message received within %s" [AStr budget])
  end.

(** [rnd]: four random bytes. *)
Definition rnd (bytes : list Z) : string := hex_bytes bytes.

Section verify.
Context {St : Type} {api : PubSubAPI St}.

(** The topic and the subscription of [role], and their teardown. *)
Definition provision (role : string) (random : list Z) (h : harness) (s : St)
  : result (string * string) * harness * St :=
  let id := Sprintf "%s_%s_%s" [AStr (h_prefix h); AStr role; AStr (rnd random)] in
  let '(s, t) := EnsureTopic id s in
  match t with
  | inr e => (Err (e_text e), h, s)
  | inl topic =>
      let h := add_resource (TopicTeardown topic) h in
      let '(s, r) := EnsureSubscription (id +:+ "_sub") (plain_subscription topic (AckDeadline 10)) s in
      match r with
      | inr e => (Err (e_text e), h, s)
      | inl sub => (Ok (topic, sub), add_resource (SubTeardown sub) h, s)
      end
  end.

(** The outside of [checkRoundTrip]: random bytes, the publish, the pull. *)
Record roundtrip_env := mkRoundTrip {
  rt_idRandom : list Z; rt_probeRandom : list Z; rt_publish : string + rpc_error; rt_pull : pull_outcome
}.
Definition roundtrip_probe (e : roundtrip_env) : string := Sprintf "verify-probe-%s" [AStr (rnd (rt_probeRandom e))].

Definition checkRoundTrip (e : roundtrip_env) (h : harness) (s : St) : result unit * harness * St :=
  let '(r, h, s) := provision "rt" (rt_idRandom e) h s in
  match r with
  | Err m => (Err m, h, s)
  | Ok _ =>
      let probe := roundtrip_probe e in
      (match PublishMessageSync (rt_publish e) with
       | inr err => Err (Sprintf "publish: %w" [AStr (e_text err)])
       | inl _ =>
           match pullOne "20s" (rt_pull e) with
           | Err m => Err m
           | Ok got => if String.eqb got probe then Ok tt
                       else Err (Sprintf "round-trip mismatch: want %q got %q" [AStr probe; AStr got])
           end
       end, h, s)
  end.

(** The pull that drains the subscription has no say.  The polls of
    [checkInterop]: the clock at the loop test and the bodies the
    native side has seen by then; [None] while the loop is still running. *)
Fixpoint interop_loop (deadline : Z) (channel probe : string) (polls : list (Z * list string)) : option (result unit) :=
  match polls with
  | [] => None
  | (clock, seen) :: polls' =>
      if deadline <=? clock
      then Some (Err (Sprintf "native Events Store %s did not observe probe %q within budget" [AStr channel; AStr probe]))
      else if existsb (String.eqb probe) seen then Some (Ok tt)
      else interop_loop deadline channel probe polls'
  end.

Record interop_env := mkInterop {
  ie_idRandom : list Z; ie_probeRandom : list Z; ie_subscribe : option string; ie_publish : string + rpc_error;
  ie_start : Z; ie_polls : list (Z * list string)
}.
Definition interop_probe (e : interop_env) : string := Sprintf "verify-interop-%s" [AStr (rnd (ie_probeRandom e))].

(** [None] when the polls end before the loop does. *)
Definition checkInterop (e : interop_env) (h : harness) (s : St) : option (result unit * harness * St) :=
  let '(r, h, s) := provision "interop" (ie_idRandom e) h s in
  match r with
  | Err m => Some (Err m, h, s)
  | Ok (topic, _) =>
      let channel := MappedTopicChannel topic in
      match ie_subscribe e with
      | Some err => Some (Err (Sprintf "native subscribe %s: %w" [AStr channel; AStr err]), h, s)
      | None =>
          match PublishMessageSync (ie_publish e) with
          | inr err => Some (Err (Sprintf "publish: %w" [AStr (e_text err)]), h, s)
          | inl _ =>
              r ← interop_loop (ie_start e + 15 * Second) channel (interop_probe e) (ie_polls e);
              Some (r, h, s)
          end
      end
  end.

(** [run]: the outcome of a check is counted. *)
Definition run_check (r : result unit) (h : harness) : harness :=
  match r with
  | Err _ => mkHarness (h_prefix h) (h_checkNat h) (h_resources h) (h_failures h + 1) (h_passes h)
  | Ok _ => mkHarness (h_prefix h) (h_checkNat h) (h_resources h) (h_failures h) (h_passes h + 1)
  end.

(** The teardowns in the order [cleanup] makes them. *)
Definition verify_cleanup (h : harness) : list teardown := rev (h_resources h).

(** [main]: the flags [-prefix] and [-no-interop], the errors of building the
    client and of dialling the native side.  The result is the exit code, the
    counts, and the teardowns. *)
Definition verify_main (prefix : string) (noInterop : bool) (client dial : option string) (rt : roundtrip_env)
    (ie : interop_env) (s : St) : option (Z * (Z * Z) * list teardown * St) :=
  match client with
  | Some _ => Some (2, (0, 0), [], s)
  | None =>
      let checkNat := negb noInterop && match dial with Some _ => false | None => true end in
      let h := mkHarness prefix checkNat [] 0 0 in
      let '(r, h, s) := checkRoundTrip rt h s in
      let h := run_check r h in
      '(h, s) ← (if h_checkNat h then '(r, h, s) ← checkInterop ie h s; Some (run_check r h, s) else Some (h, s));
      Some ((if 0 <? h_failures h then 1 else 0), (h_passes h, h_failures h), verify_cleanup h, s)
  end.

(** *** What the exit code says *)

Definition provisioned (role : string) (random : list Z) (prefix : string) (s : St) : bool :=
  is_ok (provision role random (mkHarness prefix false [] 0 0) s).1.1.
Definition published (r : string + rpc_error) : bool := match r with inl _ => true | inr _ => false end.

(** The probe came back as the first message. *)
Definition roundtrip_ok (e : roundtrip_env) (prefix : string) (s : St) : bool :=
  provisioned "rt" (rt_idRandom e) prefix s && published (rt_publish e) &&
  bool_decide (head (po_bodies (rt_pull e)) = Some (roundtrip_probe e)).

(** The native side saw the probe at a poll before the deadline. *)
Definition interop_ok (e : interop_env) (prefix : string) (s : St) : Prop :=
  provisioned "interop" (ie_idRandom e) prefix s = true /\ ie_subscribe e = None /\ published (ie_publish e) = true /\
  exists i clock seen, ie_polls e !! i = Some (clock, seen) /\ interop_probe e ∈ seen /\
    forall j c l, (j <= i)%nat -> ie_polls e !! j = Some (c, l) -> c < ie_start e + 15 * Second.

(** What a check leaves to tear down, in that order. *)
Inductive check_teardown : list teardown -> Prop :=
| td_none : check_teardown []
| td_topic id : check_teardown [TopicTeardown id]
| td_both id : check_teardown [SubTeardown (id +:+ "_sub"); TopicTeardown id].

Lemma EnsureTopic_id id s topic : (EnsureTopic id s).2 = inl topic -> topic = id.
Proof. unfold EnsureTopic. destruct (api_CreateTopic id s) as [s' [e|]]; [|naive_solver]. case_if; naive_solver. Qed.
Lemma EnsureSubscription_id id c s sub : (EnsureSubscription id c s).2 = inl sub -> sub = id.
Proof. unfold EnsureSubscription. destruct (api_CreateSubscription id c s) as [s' [e|]]; [|naive_solver]. case_if; naive_solver. Qed.

(** [provision] adds its resources and nothing else to the harness; only the
    prefix decides on it. *)
Lemma provision_spec role random h s :
  let '(r, h', s') := provision role random h s in
  (exists l, h_resources h' = h_resources h ++ l /\ check_teardown (rev l)) /\
  h_failures h' = h_failures h /\ h_passes h' = h_passes h /\ h_prefix h' = h_prefix h /\ h_checkNat h' = h_checkNat h /\
  is_ok r = provisioned role random (h_prefix h) s.
Proof.
  unfold provisioned, provision. cbn [h_prefix]. set (id := Sprintf _ _). clearbody id.
  pose proof (EnsureTopic_id id s) as Ht. destruct (EnsureTopic id s) as [s1 [topic|e]]; cbn [snd] in Ht.
  2: { cbn. split; [|done]. exists []. split; [by rewrite app_nil_r|constructor]. }
  specialize (Ht topic eq_refl) as ->.
  pose proof (EnsureSubscription_id (id +:+ "_sub") (plain_subscription id (AckDeadline 10)) s1) as Hs.
  destruct (EnsureSubscription _ _ _) as [s2 [sub|e]]; cbn [snd] in Hs; cbn.
  - specialize (Hs sub eq_refl) as ->. split; [|done]. exists [TopicTeardown id; SubTeardown (id +:+ "_sub")].
    split; [by rewrite <- app_assoc|constructor].
  - split; [|done]. exists [TopicTeardown id]. split; [done|constructor].
Qed.

Lemma roundtrip_spec e h s :
  let '(r, h', s') := checkRoundTrip e h s in
  (exists l, h_resources h' = h_resources h ++ l /\ check_teardown (rev l)) /\
  h_failures h' = h_failures h /\ h_passes h' = h_passes h /\ h_prefix h' = h_prefix h /\ h_checkNat h' = h_checkNat h /\
  is_ok r = roundtrip_ok e (h_prefix h) s.
Proof.
  unfold checkRoundTrip, roundtrip_ok. pose proof (provision_spec "rt" (rt_idRandom e) h s) as Hp.
  destruct (provision _ _ _ _) as [[r h'] s']. destruct Hp as (H1 & H2 & H3 & H4 & H5 & <-).
  destruct r as [ids|m]; [|by split_and!]. split_and!; try done. cbn [is_ok andb].
  unfold PublishMessageSync, published. destruct (rt_publish e); [|done]. cbn [andb]. unfold pullOne.
  destruct (po_bodies (rt_pull e)) as [|b bs]; [by destruct (po_err _)|]. cbn [head].
  destruct (String.eqb_spec b (roundtrip_probe e)) as [->|Hne]; [by rewrite bool_decide_eq_true_2|].
  symmetry. apply bool_decide_eq_false. intros E. by apply (inj Some) in E.
Qed.

Lemma interop_loop_ok deadline channel probe polls :
  interop_loop deadline channel probe polls = Some (Ok tt) <->
  exists i clock seen, polls !! i = Some (clock, seen) /\ probe ∈ seen /\
    forall j c l, (j <= i)%nat -> polls !! j = Some (c, l) -> c < deadline.
Proof.
  induction polls as [|[clock seen] polls IH]; cbn [interop_loop]; [split; [done|]; by intros (i & ? & ? & ? & _)|].
  destruct (deadline <=? clock) eqn:Ed; zbool.
  { split; [done|]. intros (i & c & l & _ & _ & H). specialize (H 0%nat clock seen ltac:(lia) eq_refl). lia. }
  destruct (existsb (String.eqb probe) seen) eqn:Es.
  - split; [intros _|done]. apply existsb_exists in Es as (b & Hb & <-%String.eqb_eq).
    exists 0%nat, clock, seen. split; [done|]. split; [by apply list_elem_of_In|]. intros [|j] c l Hj Hl; [|lia]. cbn in Hl. simplify_eq. done.
  - rewrite IH. split.
    + intros (i & c & l & H1 & H2 & H3). exists (S i), c, l. split; [done|]. split; [done|].
      intros [|j] c' l' Hj Hl; cbn in Hl; [by simplify_eq|]. apply (H3 j c' l'); [lia|done].
    + intros ([|i] & c & l & H1 & H2 & H3).
      * cbn in H1. simplify_eq. apply list_elem_of_In in H2. assert (existsb (String.eqb probe) l = true) as Ex; [|congruence].
        apply existsb_exists. exists probe. split; [done|]. apply String.eqb_refl.
      * exists i, c, l. split; [done|]. split; [done|]. intros j c' l' Hj Hl. apply (H3 (S j) c' l'); [lia|done].
Qed.

Lemma interop_spec e h s r h' s' :
  checkInterop e h s = Some (r, h', s') ->
  (exists l, h_resources h' = h_resources h ++ l /\ check_teardown (rev l)) /\
  h_failures h' = h_failures h /\ h_passes h' = h_passes h /\ (is_ok r = true <-> interop_ok e (h_prefix h) s).
Proof.
  unfold checkInterop, interop_ok. pose proof (provision_spec "interop" (ie_idRandom e) h s) as Hp.
  destruct (provision _ _ _ _) as [[rp hp] sp]. destruct Hp as (H1 & H2 & H3 & H4 & H5 & <-).
  destruct rp as [[topic sub]|m]; [|intros [= <- <- <-]; split_and!; try done; cbn; naive_solver].
  destruct (ie_subscribe e); [intros [= <- <- <-]; split_and!; try done; cbn; naive_solver|].
  unfold PublishMessageSync, published. destruct (ie_publish e) as [id|err];
    [|intros [= <- <- <-]; split_and!; try done; cbn; naive_solver].
  destruct (interop_loop _ _ _ _) as [r0|] eqn:El; [|done]. cbn [mbind option_bind]. intros [= <- <- <-].
  split_and!; try done. rewrite <- (interop_loop_ok (ie_start e + 15 * Second) (MappedTopicChannel topic)), El.
  destruct r0 as [[]|m]; cbn; naive_solver.
Qed.

(** The exit code of [verify] is 2 exactly when no client
    could be built, and otherwise 0 exactly when the probe came back as the
    first message and, if the native side was dialled, was seen there in time;
    every check that was made is counted once; and what was provisioned is torn
    down, whatever the outcome, subscriptions before their topics. *)
Theorem verify_exit_code prefix noInterop client dial rt ie s code passes failures tds s' :
  verify_main prefix noInterop client dial rt ie s = Some (code, (passes, failures), tds, s') ->
  let native := negb noInterop && match dial with Some _ => false | None => true end in
  let s1 := (checkRoundTrip rt (mkHarness prefix native [] 0 0) s).2 in
  (code = 2 <-> client <> None) /\
  (code = 0 <-> client = None /\ roundtrip_ok rt prefix s = true /\ (native = true -> interop_ok ie prefix s1)) /\
  (client = None -> passes + failures = if native then 2 else 1) /\
  (exists later earlier, tds = later ++ earlier /\ check_teardown later /\ check_teardown earlier).
Proof.
  intros H native s1. unfold verify_main in H. destruct client as [err|].
  { simplify_eq. split_and!; try done; [naive_solver..|]. exists [], []. split; [done|]. split; constructor. }
  fold native in H. pose proof (roundtrip_spec rt (mkHarness prefix native [] 0 0) s) as Hr. unfold s1. clear s1.
  destruct (checkRoundTrip rt _ s) as [[r h1] s1]. cbn [h_prefix h_resources h_failures h_passes h_checkNat snd] in *.
  destruct Hr as ((l1 & E1 & T1) & F1 & P1 & X1 & N1 & <-). cbn [app] in E1.
  assert (exists h2, (if h_checkNat (run_check r h1) then '(r, h, s) ← checkInterop ie (run_check r h1) s1; Some (run_check r h, s)
            else Some (run_check r h1, s1)) = Some (h2, s') /\
          code = (if 0 <? h_failures h2 then 1 else 0) /\ passes = h_passes h2 /\ failures = h_failures h2 /\
          tds = rev (h_resources h2)) as (h2 & Eh & -> & -> & -> & ->).
  { destruct (if h_checkNat (run_check r h1) then _ else _) as [[h2 s2]|]; [|done]. cbn in H. simplify_eq. by exists h2. }
  clear H. assert (h_checkNat (run_check r h1) = native) as En by (by destruct r).
  assert (h_resources (run_check r h1) = l1) as Er by (by destruct r).
  assert (h_prefix (run_check r h1) = prefix) as Ep by (by destruct r).
  assert (h_failures (run_check r h1) = (if is_ok r then 0 else 1) /\ h_passes (run_check r h1) = if is_ok r then 1 else 0) as [Ef Eo]
    by (destruct r; cbn; rewrite F1, P1; done).
  rewrite En in Eh. destruct native; cbn [negb].
  - destruct (checkInterop _ _ _) as [[[r2 h3] s3]|] eqn:Ei; [|done]. cbn in Eh. simplify_eq.
    apply interop_spec in Ei as ((l2 & E2 & T2) & F2 & P2 & O2). rewrite Ep in O2. rewrite Ef in F2. rewrite Eo in P2.
    assert (h_failures (run_check r2 h3) = h_failures h3 + (if is_ok r2 then 0 else 1) /\
            h_passes (run_check r2 h3) = h_passes h3 + (if is_ok r2 then 1 else 0) /\
            h_resources (run_check r2 h3) = h_resources h3) as (-> & -> & ->) by (destruct r2; cbn; split_and!; lia || done).
    rewrite F2, P2, E2. split_and!.
    + split; [|done]. destruct (is_ok r), (is_ok r2); done.
    + rewrite <- O2. destruct (is_ok r), (is_ok r2); cbn; naive_solver.
    + by destruct (is_ok r), (is_ok r2).
    + exists (rev l2), (rev (h_resources h1)). split; [|done]. rewrite rev_app_distr. by destruct r.
  - simplify_eq. rewrite Ef, Eo. split_and!.
    + split; [|done]. by destruct (is_ok r).
    + destruct (is_ok r); cbn; naive_solver.
    + by destruct (is_ok r).
    + exists (rev (h_resources (run_check r h1))), []. rewrite app_nil_r. split; [done|]. split; [|constructor]. by destruct r; cbn in *; subst.
Qed.
End verify.

(** A broker on which every call succeeds. *)
#[global] Instance always_ok : PubSubAPI unit := {|
  api_CreateTopic := fun _ s => (s, None);
  api_CreateSubscription := fun _ _ s => (s, None);
  api_DeleteSnapshot := fun _ s => (s, None);
  api_DeleteSchema := fun _ s => (s, None)
|}.
Definition sample_roundtrip : roundtrip_env := mkRoundTrip [1; 2; 3; 4] [255; 0; 16; 1] (inl "1") (mkPull ["verify-probe-ff001001"] None).
Definition sample_interop : interop_env :=
  mkInterop [5; 6; 7; 8] [0; 0; 0; 9] None (inl "2") 0 [(0, []); (200000000, ["verify-interop-00000009"])].

Lemma verify_exit_code_witness :
  exists passes failures tds,
    verify_main "verify" false None None sample_roundtrip sample_interop tt = Some (0, (passes, failures), tds, tt) /\
    passes + failures = 2 /\ interop_ok sample_interop "verify" tt.
Proof.
  assert (exists passes failures tds, verify_main "verify" false None None sample_roundtrip sample_interop tt =
            Some (0, (passes, failures), tds, tt)) as (p & f & l & H) by (eexists _, _, _; vm_compute; reflexivity).
  destruct (verify_exit_code "verify" false None None sample_roundtrip sample_interop tt 0 p f l tt H) as (_ & [H1 _] & H2 & _).
  exists p, f, l. split; [exact H|]. split; [exact (H2 eq_refl)|]. destruct (H1 eq_refl) as (_ & _ & H3). exact (H3 eq_refl).
Defined.
