(* ===== verification/Workers.v ===== *)
(** * burnin/worker: the twelve workers together

    The worker of each name as one type with the interface of the engine (the
    switch of [NewWorkerGroup]), and what [Start], [StartProducers] and
    [StopConsumers] do with clients, resources and goroutines: a [Start] that
    fails has launched nothing, one that succeeds will signal readiness, what
    it opened is what [StopConsumers] closes, and every resource it creates
    carries the agent's prefix. *)
From S2P Require Import Prelude GoFloat GoFmt Config Payload Tracker Metrics Transport TransportProps Worker Handlers.
From S2P Require Import PublishPull OrderingKeys ExactlyOnce DeadLetter FanOut Interop Nack Filtering SeekSnapshot InflightCap.
From S2P Require Import StreamingPull SchemaEnforce Commands.
From Stdlib Require Import Ascii.

(** ** A worker of any type *)

Inductive any_worker :=
| WPublishPull (w : PublishPullWorker)
| WStreamingPull (w : StreamingPullWorker)
| WOrderingKeys (w : OrderingKeysWorker)
| WExactlyOnce (w : ExactlyOnceWorker)
| WDeadLetter (w : DeadLetterWorker)
| WFanOut (w : FanOutWorker)
| WInterop (w : InteropWorker)
| WNack (w : NackRedeliveryWorker)
| WFiltering (w : FilteringWorker)
| WSchemaEnforce (w : SchemaEnforceWorker)
| WSeekSnapshot (w : SeekSnapshotWorker)
| WInflightCap (w : InflightCapWorker).

(** The switch of [NewWorkerGroup]. *)
Definition new_worker (Getenv : string -> string) (name : string) (cfg : Config) (i : Z) : option any_worker :=
  if String.eqb name WorkerPublishPullRoundTrip then WPublishPull <$> NewPublishPullRoundTripWorker Getenv cfg i
  else if String.eqb name WorkerStreamingPull then WStreamingPull <$> NewStreamingPullWorker Getenv cfg i
  else if String.eqb name WorkerOrderingKeys then WOrderingKeys <$> NewOrderingKeysWorker Getenv cfg i
  else if String.eqb name WorkerExactlyOnce then WExactlyOnce <$> NewExactlyOnceWorker Getenv cfg i
  else if String.eqb name WorkerDeadLetter then WDeadLetter <$> NewDeadLetterWorker Getenv cfg i
  else if String.eqb name WorkerFanOut then WFanOut <$> NewFanOutWorker Getenv cfg i
  else if String.eqb name WorkerCrossProtocol then WInterop <$> NewCrossProtocolInteropWorker Getenv cfg i
  else if String.eqb name WorkerNackRedelivery then WNack <$> NewNackRedeliveryWorker Getenv cfg i
  else if String.eqb name WorkerFiltering then WFiltering <$> NewFilteringWorker Getenv cfg i
  else if String.eqb name WorkerSchemaEnforce then WSchemaEnforce <$> NewSchemaEnforceWorker Getenv cfg i
  else if String.eqb name WorkerSeekSnapshot then WSeekSnapshot <$> NewSeekSnapshotWorker Getenv cfg i
  else if String.eqb name WorkerInflightCap then WInflightCap <$> NewInflightCapWorker Getenv cfg i
  else None.

(** An operation of the interface, dispatched. *)
Definition dispatch (f : forall W (HB : HasBase W), Worker W -> W -> W) (a : any_worker) : any_worker :=
  match a with
  | WPublishPull w => WPublishPull (f _ _ _ w) | WStreamingPull w => WStreamingPull (f _ _ _ w)
  | WOrderingKeys w => WOrderingKeys (f _ _ _ w) | WExactlyOnce w => WExactlyOnce (f _ _ _ w)
  | WDeadLetter w => WDeadLetter (f _ _ _ w) | WFanOut w => WFanOut (f _ _ _ w)
  | WInterop w => WInterop (f _ _ _ w) | WNack w => WNack (f _ _ _ w)
  | WFiltering w => WFiltering (f _ _ _ w) | WSchemaEnforce w => WSchemaEnforce (f _ _ _ w)
  | WSeekSnapshot w => WSeekSnapshot (f _ _ _ w) | WInflightCap w => WInflightCap (f _ _ _ w)
  end.
Definition any_base (a : any_worker) : BaseWorker :=
  match a with
  | WPublishPull w => base w | WStreamingPull w => base w | WOrderingKeys w => base w | WExactlyOnce w => base w
  | WDeadLetter w => base w | WFanOut w => base w | WInterop w => base w | WNack w => base w
  | WFiltering w => base w | WSchemaEnforce w => base w | WSeekSnapshot w => base w | WInflightCap w => base w
  end.

#[global] Instance any_has_base : HasBase any_worker.
Proof.
  refine {| base := any_base; with_base := fun f => dispatch (fun W HB Wk => with_base f) |}.
  intros f [w|w|w|w|w|w|w|w|w|w|w|w]; exact (base_with_base f w).
Defined.

#[global] Instance any_worker_worker : Worker any_worker.
Proof.
  refine {| w_ResetAfterWarmup := dispatch (fun W HB Wk => w_ResetAfterWarmup);
            w_DisconnectConsumers := dispatch (fun W HB Wk => w_DisconnectConsumers);
            w_StopProducers := fun now fs => dispatch (fun W HB Wk => w_StopProducers now fs);
            w_StopConsumers := fun now => dispatch (fun W HB Wk => w_StopConsumers now) |}.
  - intros [w|w|w|w|w|w|w|w|w|w|w|w]; exact (reset_base w).
  - intros [w|w|w|w|w|w|w|w|w|w|w|w]; exact (disconnect_base w).
  - intros now fs [w|w|w|w|w|w|w|w|w|w|w|w]; exact (stop_producers_keeps now fs w).
  - intros now fs [w|w|w|w|w|w|w|w|w|w|w|w]; exact (stop_producers_tracker now fs w).
  - intros now [w|w|w|w|w|w|w|w|w|w|w|w]; exact (stop_keeps_tracker now w).
Defined.

(** ** Starting *)

(** What a [Start] does: it opens clients and streams, creates schemas, topics
    and subscriptions, sets a topic or a subscription up, runs a probe, signals
    that it is ready, and launches the goroutines of the consumer group. *)
Inductive call :=
| CClient | CSubscriber | CSchemaClient | CNative
| CNativeSubscribe (channel : string)
| CSchema (id : string) (protobuf : bool)
| CTopic (id : string)
| CSchemaTopic (id schema : string) (encoding : SchemaEncoding)
| CSubscription (id : string) (cfg : SubscriptionConfig)
| COrdering (topic : string)
| CReceive (sub : string) (streams bytes : Z)
| CProbe (probe : string)
| CReady
| CGo (loop : string).
#[global] Instance encoding_eq_dec : EqDecision SchemaEncoding.
Proof. solve_decision. Defined.
#[global] Instance call_eq_dec : EqDecision call.
Proof. solve_decision. Defined.

(** The text a [Start] wraps the error of a call in. *)
Definition call_error (c : call) (err : string) : string :=
  match c with
  | CClient => Sprintf "build pubsub client: %w" [AStr err]
  | CSubscriber => Sprintf "build apiv1 subscriber client: %w" [AStr err]
  | CSchemaClient => Sprintf "build schema client: %w" [AStr err]
  | CNative => Sprintf "dial native kubemq: %w" [AStr err]
  | CNativeSubscribe channel => Sprintf "native subscribe %s: %w" [AStr channel; AStr err]
  | CSchema id _ => Sprintf "register schema %q: %w" [AStr id; AStr err]
  | _ => err
  end.

(** A [Start] against an environment that says which calls fail and how: the
    calls that took effect, and its error. *)
Definition start (A : Type) : Type := (call -> option string) -> list call * (A + string).
#[global] Instance start_ret : MRet start := fun A a _ => ([], inl a).
#[global] Instance start_bind : MBind start := fun A B k m fail =>
  let '(l, r) := m fail in
  match r with
  | inl a => let '(l', r') := k a fail in (l ++ l', r')
  | inr e => (l, inr e)
  end.

(** A call whose error is returned. *)
Definition try_ (c : call) : start unit := fun fail =>
  match fail c with None => ([c], inl tt) | Some e => ([], inr (call_error c e)) end.
(** One that cannot fail. *)
Definition does (c : call) : start unit := fun _ => ([c], inl tt).
(** One without which the step after it is skipped. *)
Definition attempt (c : call) (m : start unit) : start unit := fun fail =>
  match fail c with None => (try_ c ;; m) fail | Some _ => ([], inl tt) end.

Definition new_client : start unit := try_ CClient.
Definition new_subscriber : start unit := try_ CSubscriber.
Definition configured_deadline (b : BaseWorker) : Z := AckDeadline (gcp_AckDeadlineSeconds (c_GCP (bw_cfg b))).
(** [ConfigureReceive] asks for at least one stream. *)
Definition receive_with (sub : string) (streams bytes : Z) : call :=
  CReceive sub (NumGoroutines (ConfigureReceiveWithBytes (mkReceive 0 0 0) streams bytes)) bytes.

Definition publish_pull_start (w : PublishPullWorker) : start unit :=
  let b := base w in
  new_client ;;
  try_ (CTopic (pp_topicID w)) ;;
  try_ (CSubscription (pp_subID w) (plain_subscription (pp_topicID w) (configured_deadline b))) ;;
  does (receive_with (pp_subID w) (wc_ConsumersPerChannel (bw_workerCfg b)) 0) ;;
  does (CGo "receiveLoop") ;;
  if gcp_BatchAtomicityProbe (c_GCP (bw_cfg b)) then does (CProbe "runAtomicityProbe") else mret tt.

Definition streaming_pull_start (w : StreamingPullWorker) : start unit :=
  let b := base w in
  let g := c_GCP (bw_cfg b) in
  new_client ;;
  try_ (CTopic (sp_topicID w)) ;;
  try_ (CSubscription (sp_subID w) (plain_subscription (sp_topicID w) (configured_deadline b))) ;;
  does (receive_with (sp_subID w) 1 (gcp_MaxOutstandingBytes g)) ;;
  (if gcp_FlowControlProbe g || gcp_LeaseExtendProbe g || gcp_CrossStreamProbe g then new_subscriber else mret tt) ;;
  does (CGo "receiveLoop") ;;
  does (CGo "runProbes").

Definition ordering_keys_start (w : OrderingKeysWorker) : start unit :=
  new_client ;;
  try_ (CTopic (ok_topicID w)) ;;
  does (COrdering (ok_topicID w)) ;;
  try_ (CSubscription (ok_subID w) (OrderingSubscriptionConfig (ok_topicID w) (gcp_AckDeadlineSeconds (c_GCP (bw_cfg (base w)))))) ;;
  does (receive_with (ok_subID w) 1 0) ;;
  does (CGo "receiveLoop").

(** The probe builds a low-level client; if that fails, only the probe is
    skipped. *)
Definition exactly_once_start (w : ExactlyOnceWorker) : start unit :=
  let b := base w in
  new_client ;;
  try_ (CTopic (eo_topicID w)) ;;
  try_ (CSubscription (eo_subID w) (mkSubCfg (eo_topicID w) (configured_deadline b) "" false true None None)) ;;
  does (receive_with (eo_subID w) 1 0) ;;
  (if gcp_ExactlyOnceProbe (c_GCP (bw_cfg b)) then
     attempt CSubscriber (does (CProbe "runInvalidAckProbe"))
   else mret tt) ;;
  does (CGo "receiveLoop").

Definition dead_letter_start (w : DeadLetterWorker) : start unit :=
  let b := base w in
  let g := c_GCP (bw_cfg b) in
  new_client ;;
  try_ (CTopic (dl_srcTopicID w)) ;;
  try_ (CTopic (dl_dltTopicID w)) ;;
  try_ (CSubscription (dl_srcSubID w) (mkSubCfg (dl_srcTopicID w) (configured_deadline b) "" false false
    (Some (Sprintf "projects/%s/topics/%s" [AStr (ps_ProjectID (bw_psCfg b)); AStr (dl_dltTopicID w)], max_attempts (bw_cfg b)))
    (Some (10 * Millisecond, 50 * Millisecond)))) ;;
  try_ (CSubscription (dl_dltSubID w) (plain_subscription (dl_dltTopicID w) (configured_deadline b))) ;;
  new_subscriber ;;
  does (receive_with (dl_dltSubID w) 1 0) ;;
  does (CGo "dlqConsumeLoop") ;;
  does (CGo "sourceDriveLoop") ;;
  if gcp_RetryBackoffProbe g then does (CGo "retryBackoffProbe") else mret tt.

(** The loops over the subscriptions of a fan-out topic. *)
Fixpoint fan_out_subscribe (topic : string) (deadline : Z) (subIDs : list string) : start unit :=
  match subIDs with
  | [] => mret tt
  | subID :: subIDs' =>
      try_ (CSubscription subID (plain_subscription topic deadline)) ;;
      does (receive_with subID 1 0) ;;
      fan_out_subscribe topic deadline subIDs'
  end.
Fixpoint fan_out_launch (subIDs : list string) : start unit :=
  match subIDs with [] => mret tt | _ :: subIDs' => does (CGo "receiveLoop") ;; fan_out_launch subIDs' end.
Definition fan_out_start (w : FanOutWorker) : start unit :=
  new_client ;;
  try_ (CTopic (fo_topicID w)) ;;
  fan_out_subscribe (fo_topicID w) (configured_deadline (base w)) (fo_subIDs w) ;;
  fan_out_launch (fo_subIDs w).

Definition interop_start (w : InteropWorker) : start unit :=
  new_client ;;
  try_ (CTopic (iw_topicID w)) ;;
  try_ CNative ;;
  try_ (CNativeSubscribe (iw_channel w)) ;;
  does CReady.

Definition nack_start (w : NackRedeliveryWorker) : start unit :=
  new_client ;;
  try_ (CTopic (nr_topicID w)) ;;
  try_ (CSubscription (nr_subID w) (plain_subscription (nr_topicID w) (configured_deadline (base w)))) ;;
  does (receive_with (nr_subID w) (consumerStreams w) 0) ;;
  does (CGo "receiveLoop").

Definition filtering_start (w : FilteringWorker) : start unit :=
  let b := base w in
  new_client ;;
  try_ (CTopic (fl_topicID w)) ;;
  try_ (CSubscription (fl_subID w) (FilteredSubscriptionConfig (fl_topicID w) (gcp_AckDeadlineSeconds (c_GCP (bw_cfg b))) filterExpr)) ;;
  does (receive_with (fl_subID w) (wc_ConsumersPerChannel (bw_workerCfg b)) 0) ;;
  does (CGo "receiveLoop").

Definition SchemaSettings (projectID schemaID : string) : string :=
  Sprintf "projects/%s/schemas/%s" [AStr (if nonempty projectID then projectID else "burnin"); AStr schemaID].

Definition schema_enforce_start (w : SchemaEnforceWorker) : start unit :=
  let b := base w in
  try_ CSchemaClient ;;
  try_ (CSchema (se_schemaID w) (String.eqb (se_schemaType w) "protobuf")) ;;
  new_client ;;
  try_ (CSchemaTopic (se_topicID w) (SchemaSettings (ps_ProjectID (bw_psCfg b)) (se_schemaID w)) (se_encoding w)) ;;
  try_ (CSubscription (se_subID w) (plain_subscription (se_topicID w) (configured_deadline b))) ;;
  does (receive_with (se_subID w) (wc_ConsumersPerChannel (bw_workerCfg b)) 0) ;;
  does (CGo "receiveLoop").

Definition seek_snapshot_start (w : SeekSnapshotWorker) : start unit :=
  new_client ;;
  try_ (CTopic (sk_topicID w)) ;;
  try_ (CSubscription (sk_subID w) (plain_subscription (sk_topicID w) (configured_deadline (base w)))) ;;
  new_subscriber ;;
  does CReady.

Definition inflight_cap_start (w : InflightCapWorker) : start unit :=
  new_client ;;
  try_ (CTopic (ic_topicID w)) ;;
  try_ (CSubscription (ic_subID w) (plain_subscription (ic_topicID w) (AckDeadline maxAckDeadlineSeconds))) ;;
  new_subscriber ;;
  does (CGo "pullLoop").

Definition Start (a : any_worker) : start unit :=
  match a with
  | WPublishPull w => publish_pull_start w | WStreamingPull w => streaming_pull_start w
  | WOrderingKeys w => ordering_keys_start w | WExactlyOnce w => exactly_once_start w
  | WDeadLetter w => dead_letter_start w | WFanOut w => fan_out_start w
  | WInterop w => interop_start w | WNack w => nack_start w
  | WFiltering w => filtering_start w | WSchemaEnforce w => schema_enforce_start w
  | WSeekSnapshot w => seek_snapshot_start w | WInflightCap w => inflight_cap_start w
  end.

(** ** The resources of the probes *)

(** A probe's topic and its subscription; the probe ends if one cannot be
    created. *)
Definition provision_probe (topicID subID : string) (cfg : SubscriptionConfig) : start unit :=
  try_ (CTopic topicID) ;; try_ (CSubscription subID cfg).
Definition backoff_probe_provision (w : DeadLetterWorker) : start unit :=
  provision_probe (dl_probeTopicID w) (dl_probeSubID w)
    (mkSubCfg (dl_probeTopicID w) (AckDeadline 10) "" false false None (Some (1 * Second, 8 * Second))).
Definition streaming_probe_provision (Getenv : string -> string) (suffix : string) (ackDeadlineSeconds : Z)
    (w : StreamingPullWorker) : start unit :=
  let idx := bw_channelIndex (base w) in
  let topicID := TopicName (resourcePrefix Getenv) WorkerStreamingPull idx +:+ "_" +:+ suffix in
  let subID := SubscriptionName (resourcePrefix Getenv) WorkerStreamingPull idx +:+ "_" +:+ suffix in
  provision_probe topicID subID (plain_subscription topicID (AckDeadline ackDeadlineSeconds)).

(** What the probes a worker can run create. *)
Definition probe_calls (Getenv : string -> string) (fail : call -> option string) (a : any_worker) : list call :=
  match a with
  | WDeadLetter w => (backoff_probe_provision w fail).1
  | WStreamingPull w =>
      let cfg := bw_cfg (base w) in
      (streaming_probe_provision Getenv "fcprobe" (gcp_AckDeadlineSeconds (c_GCP cfg)) w fail).1 ++
      (streaming_probe_provision Getenv "leprobe" (lease_deadline cfg) w fail).1 ++
      (streaming_probe_provision Getenv "csprobe" (gcp_AckDeadlineSeconds (c_GCP cfg)) w fail).1
  | _ => []
  end.

(** ** Producing *)

(** [StartProducers]: a produce loop per configured producer, at least one; the
    seek worker has its round loop, the schema worker probes first. *)
Definition launch_producers (b : BaseWorker) : list call := replicate (Z.to_nat (producer_count b)) (CGo "produceLoop").
Definition seek_start_producers (w : SeekSnapshotWorker) : list call := [CGo "roundLoop"].
Definition schema_start_producers (w : SchemaEnforceWorker) : list call :=
  CProbe "runNonConformingProbe" :: launch_producers (base w).
Definition streaming_start_producers (w : StreamingPullWorker) : list call := launch_producers (base w).
Definition ordering_start_producers (w : OrderingKeysWorker) : list call := launch_producers (base w).
Definition exactly_once_start_producers (w : ExactlyOnceWorker) : list call := launch_producers (base w).
Definition dead_letter_start_producers (w : DeadLetterWorker) : list call := launch_producers (base w).
Definition fan_out_start_producers (w : FanOutWorker) : list call := launch_producers (base w).
Definition interop_start_producers (w : InteropWorker) : list call := launch_producers (base w).
Definition nack_start_producers (w : NackRedeliveryWorker) : list call := launch_producers (base w).
Definition filtering_start_producers (w : FilteringWorker) : list call := launch_producers (base w).
Definition inflight_start_producers (w : InflightCapWorker) : list call := launch_producers (base w).
Definition StartProducers (a : any_worker) : list call :=
  match a with
  | WPublishPull w => launch_producers (base w)
  | WStreamingPull w => streaming_start_producers w
  | WOrderingKeys w => ordering_start_producers w
  | WExactlyOnce w => exactly_once_start_producers w
  | WDeadLetter w => dead_letter_start_producers w
  | WFanOut w => fan_out_start_producers w
  | WInterop w => interop_start_producers w
  | WNack w => nack_start_producers w
  | WFiltering w => filtering_start_producers w
  | WSchemaEnforce w => schema_start_producers w
  | WSeekSnapshot w => seek_start_producers w
  | WInflightCap w => inflight_start_producers w
  end.

(** ** Stopping *)

(** What is open, and what a [StopConsumers] does: it cancels the consumers and
    waits for them, closes or stops a handle, deletes a schema or a snapshot. *)
Inductive handle := HClient | HSubscriber | HSchemaClient | HNative | HNativeSub | HTopic (id : string).
#[global] Instance handle_eq_dec : EqDecision handle.
Proof. solve_decision. Defined.
Inductive closing := SWait (joined : bool) | SClose (h : handle) | SDeleteSchema (id : string) | SDeleteSnapshot (id : string).

Definition handle_of (c : call) : option handle :=
  match c with
  | CClient => Some HClient | CSubscriber => Some HSubscriber | CSchemaClient => Some HSchemaClient
  | CNative => Some HNative | CNativeSubscribe _ => Some HNativeSub
  | CTopic id | CSchemaTopic id _ _ => Some (HTopic id)
  | _ => None
  end.
Definition handles (l : list call) : list handle := omap handle_of l.

(** [hs] are the handles that are not nil; [joined] says whether the consumer
    goroutines ended within the fifteen seconds [BaseWorker.StopConsumers] waits
    for them ([waitWGTimeout]); [probes] are the topics the probes of the run have
    opened when they are closed. *)
Section stop.
Context (hs : list handle) (joined : bool) (probes : list string).

Definition with_handle (h : handle) (l : list closing) : list closing := if decide (h ∈ hs) then l else [].
Definition close (h : handle) : list closing := with_handle h [SClose h].

Definition publish_pull_stop (w : PublishPullWorker) : list closing :=
  [SWait joined] ++ close (HTopic (pp_topicID w)) ++ close HClient.
Definition streaming_pull_stop (w : StreamingPullWorker) : list closing :=
  [SWait joined] ++ close HSubscriber ++ close (HTopic (sp_topicID w)) ++ map (fun t => SClose (HTopic t)) probes ++ close HClient.
Definition ordering_keys_stop (w : OrderingKeysWorker) : list closing :=
  [SWait joined] ++ close (HTopic (ok_topicID w)) ++ close HClient.
Definition exactly_once_stop (w : ExactlyOnceWorker) : list closing :=
  [SWait joined] ++ close (HTopic (eo_topicID w)) ++ close HSubscriber ++ close HClient.
Definition dead_letter_stop (w : DeadLetterWorker) : list closing :=
  [SWait joined] ++ close HSubscriber ++ close (HTopic (dl_srcTopicID w)) ++ close (HTopic (dl_dltTopicID w)) ++
  map (fun t => SClose (HTopic t)) probes ++ close HClient.
Definition fan_out_stop (w : FanOutWorker) : list closing :=
  [SWait joined] ++ close (HTopic (fo_topicID w)) ++ close HClient.
Definition interop_stop (w : InteropWorker) : list closing :=
  close HNativeSub ++ [SWait joined] ++ close HNative ++ close (HTopic (iw_topicID w)) ++ close HClient.
Definition nack_stop (w : NackRedeliveryWorker) : list closing :=
  [SWait joined] ++ close (HTopic (nr_topicID w)) ++ close HClient.
Definition filtering_stop (w : FilteringWorker) : list closing :=
  [SWait joined] ++ close (HTopic (fl_topicID w)) ++ close HClient.
Definition schema_enforce_stop (w : SchemaEnforceWorker) : list closing :=
  [SWait joined] ++ with_handle HSchemaClient [SDeleteSchema (se_schemaID w); SClose HSchemaClient] ++
  close (HTopic (se_topicID w)) ++ close HClient.
Definition seek_snapshot_stop (w : SeekSnapshotWorker) : list closing :=
  [SWait joined] ++ with_handle HClient [SDeleteSnapshot (sk_snapshotID w)] ++ close HSubscriber ++
  close (HTopic (sk_topicID w)) ++ close HClient.
Definition inflight_cap_stop (w : InflightCapWorker) : list closing :=
  [SWait joined] ++ close HSubscriber ++ close (HTopic (ic_topicID w)) ++ close HClient.

Definition stop_consumers (a : any_worker) : list closing :=
  match a with
  | WPublishPull w => publish_pull_stop w | WStreamingPull w => streaming_pull_stop w
  | WOrderingKeys w => ordering_keys_stop w | WExactlyOnce w => exactly_once_stop w
  | WDeadLetter w => dead_letter_stop w | WFanOut w => fan_out_stop w
  | WInterop w => interop_stop w | WNack w => nack_stop w
  | WFiltering w => filtering_stop w | WSchemaEnforce w => schema_enforce_stop w
  | WSeekSnapshot w => seek_snapshot_stop w | WInflightCap w => inflight_cap_stop w
  end.
End stop.

(** What a worker can have open, in the order it is closed in. *)
Definition owned (a : any_worker) : list handle :=
  match a with
  | WPublishPull w => [HTopic (pp_topicID w); HClient]
  | WStreamingPull w => [HSubscriber; HTopic (sp_topicID w); HClient]
  | WOrderingKeys w => [HTopic (ok_topicID w); HClient]
  | WExactlyOnce w => [HTopic (eo_topicID w); HSubscriber; HClient]
  | WDeadLetter w => [HSubscriber; HTopic (dl_srcTopicID w); HTopic (dl_dltTopicID w); HClient]
  | WFanOut w => [HTopic (fo_topicID w); HClient]
  | WInterop w => [HNativeSub; HNative; HTopic (iw_topicID w); HClient]
  | WNack w => [HTopic (nr_topicID w); HClient]
  | WFiltering w => [HTopic (fl_topicID w); HClient]
  | WSchemaEnforce w => [HSchemaClient; HTopic (se_topicID w); HClient]
  | WSeekSnapshot w => [HSubscriber; HTopic (sk_topicID w); HClient]
  | WInflightCap w => [HSubscriber; HTopic (ic_topicID w); HClient]
  end.

(** ** What a start does *)

Definition launches (c : call) : bool := match c with CReady | CGo _ => true | _ => false end.
(** The calls that return an error. *)
Definition fallible (c : call) : bool :=
  match c with COrdering _ | CReceive _ _ _ | CProbe _ | CReady | CGo _ => false | _ => true end.

(** The kind and id of the resource a call creates. *)
Definition created (c : call) : option (kind * string) :=
  match c with
  | CSchema id _ => Some (KSchema, id)
  | CTopic id | CSchemaTopic id _ _ => Some (KTopic, id)
  | CSubscription id _ => Some (KSubscription, id)
  | _ => None
  end.

Section starting.
Context (fail : call -> option string) (pfx project : string) (own : list handle).

Definition topic_path (id : string) : string := Sprintf "projects/%s/topics/%s" [AStr project; AStr id].
Definition has_topic (l : list call) (id : string) : Prop := (KTopic, id) ∈ omap created l.

(** What a call needs of those before it: a client, for a subscription its
    topic and the topic of its dead-letter policy, for a topic with a schema
    the schema. *)
Definition needs (l : list call) (c : call) : Prop :=
  match c with
  | CSchema _ _ => CSchemaClient ∈ l
  | CTopic _ => CClient ∈ l
  | CSchemaTopic _ s _ => CClient ∈ l /\ exists id p, s = SchemaSettings project id /\ CSchema id p ∈ l
  | CSubscription _ cfg =>
      CClient ∈ l /\ has_topic l (sc_Topic cfg) /\
      (forall path n, sc_DeadLetter cfg = Some (path, n) -> exists id, path = topic_path id /\ has_topic l id)
  | CNativeSubscribe _ => CNative ∈ l
  | CReceive sub _ _ => (KSubscription, sub) ∈ omap created l
  | COrdering topic => has_topic l topic
  | _ => True
  end.

(** A call that can be made after [l]: it succeeds, what it creates carries the
    prefix, what it needs is there, and it opens a handle of the worker, for the
    first time. *)
Record ok (l : list call) (c : call) : Prop := {
  ok_effect : fallible c = true -> fail c = None;
  ok_prefix : forall k id, created c = Some (k, id) -> HasPrefix id pfx = true;
  ok_needs : needs l c;
  ok_handle : forall h, handle_of c = Some h -> h ∈ own /\ h ∉ handles l
}.

(** The calls of a set-up, up to some point. *)
Inductive setup : list call -> Prop :=
| setup_nil : setup []
| setup_snoc l c : setup l -> ok l c -> launches c = false -> setup (l ++ [c]).

(** What a [Start] that has made the calls [t] does from there. *)
Definition starts (m : start unit) (t : list call) : Prop :=
  match m fail with
  | (l, inr err) => setup (t ++ l) /\ exists c e, fail c = Some e /\ err = call_error c e /\ fallible c = true
  | (l, inl _) =>
      exists l1 c l2, t ++ l = l1 ++ c :: l2 /\ setup l1 /\ launches c = true /\
        Forall (fun c => launches c || match c with CProbe _ => true | _ => false end = true) l2
  end.

Lemma starts_try c m t :
  setup t -> fallible c = true -> (fail c = None -> ok t c) ->
  (setup (t ++ [c]) -> starts m (t ++ [c])) -> starts (try_ c ;; m) t.
Proof.
  intros Ht Hc Hok Hm. unfold starts, mbind, start_bind, try_ in *. destruct (fail c) as [e|] eqn:E.
  - rewrite app_nil_r. split; [done|]. by exists c, e.
  - assert (setup (t ++ [c])) as Hs; [apply setup_snoc; [done|by apply Hok|by destruct c]|].
    specialize (Hm Hs). destruct (m fail) as [l [[]|err]]; by rewrite <- app_assoc in Hm.
Qed.

Lemma starts_does c m t :
  setup t -> launches c = false -> ok t c -> (setup (t ++ [c]) -> starts m (t ++ [c])) -> starts (does c ;; m) t.
Proof.
  intros Ht Hc Hok Hm. specialize (Hm (setup_snoc _ _ Ht Hok Hc)). unfold starts, mbind, start_bind, does in *.
  destruct (m fail) as [l [[]|err]]; by rewrite <- app_assoc in Hm.
Qed.

Lemma starts_attempt c p m t :
  (fail c = None -> starts (try_ c ;; (does p ;; m)) t) -> starts m t -> starts (attempt c (does p) ;; m) t.
Proof.
  intros H1 H2. unfold starts, mbind, start_bind, attempt, try_, does, start_bind, mbind in *.
  destruct (fail c) as [e|] eqn:E; [by destruct (m fail) as [l [[]|err]]|].
  specialize (H1 eq_refl). cbn [app] in *. destruct (m fail) as [l [[]|err]]; exact H1.
Qed.

Lemma starts_skip m t : starts m t -> starts (mret tt ;; m) t.
Proof. unfold starts, mbind, start_bind, mret, start_ret. by destruct (m fail) as [l [[]|err]]. Qed.

Lemma starts_assoc (m1 m2 m3 : start unit) t : starts (m1 ;; (m2 ;; m3)) t -> starts ((m1 ;; m2) ;; m3) t.
Proof.
  unfold starts, mbind, start_bind. destruct (m1 fail) as [l1 [[]|e1]]; [|done].
  destruct (m2 fail) as [l2 [[]|e2]]; [|done]. destruct (m3 fail) as [l3 [[]|e3]]; by rewrite <- app_assoc.
Qed.

(** From the first launch on nothing fails. *)
Definition launch_only (m : start unit) : Prop :=
  exists l, m fail = (l, inl tt) /\
    Forall (fun c => launches c || match c with CProbe _ => true | _ => false end = true) l.

Lemma starts_launch c m t : setup t -> launches c = true -> launch_only m -> starts (does c ;; m) t.
Proof.
  intros Ht Hc (l & E & Hl). unfold starts, mbind, start_bind, does. rewrite E. exists t, c, l. done.
Qed.
Lemma starts_last c t : setup t -> launches c = true -> starts (does c) t.
Proof. intros Ht Hc. exists t, c, []. done. Qed.
Lemma launch_ret : launch_only (mret tt).
Proof. by exists []. Qed.
Lemma launch_does c :
  launches c || match c with CProbe _ => true | _ => false end = true -> launch_only (does c).
Proof. intros Hc. exists [c]. auto. Qed.
Lemma launch_bind c m :
  launches c || match c with CProbe _ => true | _ => false end = true -> launch_only m -> launch_only (does c ;; m).
Proof.
  intros Hc (l & E & Hl). exists (c :: l). unfold mbind, start_bind, does. rewrite E. auto.
Qed.
Lemma launch_fan_out ids : launch_only (fan_out_launch ids).
Proof. induction ids as [|id ids IH]; [apply launch_ret|]. cbn [fan_out_launch]. by apply launch_bind. Qed.

(** The subscriptions of a fan-out topic, one after the other. *)
Lemma starts_fan_out topic d ids m t :
  setup t -> CClient ∈ t -> has_topic t topic -> Forall (fun id => HasPrefix id pfx = true) ids ->
  (forall t', setup t' -> starts m t') -> starts (fan_out_subscribe topic d ids ;; m) t.
Proof.
  intros Ht Hc Htop Hids Hm. revert t Ht Hc Htop.
  induction Hids as [|id ids Hid Hids IH]; intros t Ht Hc Htop; cbn [fan_out_subscribe]; [by apply starts_skip, Hm|].
  apply starts_assoc, starts_try; [done|done| |intros Hs; apply starts_assoc, starts_does; [done|done| |intros Hs'; apply IH; [done|..]]].
  - intros Hf. split; [done|by intros k id' [= <- <-]|done|done].
  - split; [done..| |done]. cbn [needs receive_with]. rewrite omap_app. apply elem_of_app. right. left.
  - rewrite !elem_of_app. auto.
  - unfold has_topic. rewrite !omap_app, !elem_of_app. auto.
Qed.
End starting.

(** ** Every worker's start *)

Lemma TopicName_prefix p w i : HasPrefix (TopicName p w i) p = true.
Proof. unfold TopicName. cbn [Sprintf fmt_s]. apply HasPrefix_app. Qed.
Lemma SubscriptionName_prefix p w i : HasPrefix (SubscriptionName p w i) p = true.
Proof. unfold SubscriptionName. cbn [Sprintf fmt_s]. apply HasPrefix_app. Qed.
Lemma SchemaName_prefix p w i : HasPrefix (SchemaName p w i) p = true.
Proof. unfold SchemaName. cbn [Sprintf fmt_s]. apply HasPrefix_app. Qed.
Lemma FanoutSubscriptionName_prefix p w i j : HasPrefix (FanoutSubscriptionName p w i j) p = true.
Proof. unfold FanoutSubscriptionName. cbn [Sprintf fmt_s]. apply HasPrefix_app. Qed.
Lemma DeadLetterTopicName_prefix p w i : HasPrefix (DeadLetterTopicName p w i) p = true.
Proof. unfold DeadLetterTopicName. cbn [Sprintf fmt_s]. apply HasPrefix_app. Qed.
Lemma DeadLetterSubscriptionName_prefix p w i : HasPrefix (DeadLetterSubscriptionName p w i) p = true.
Proof. unfold DeadLetterSubscriptionName. cbn [Sprintf fmt_s]. apply HasPrefix_app. Qed.
Create HintDb names.
#[export] Hint Resolve TopicName_prefix SubscriptionName_prefix SchemaName_prefix FanoutSubscriptionName_prefix
  DeadLetterTopicName_prefix DeadLetterSubscriptionName_prefix : names.

Lemma HasPrefix_extend s p x : HasPrefix s p = true -> HasPrefix (s +:+ x) p = true.
Proof.
  revert s. induction p as [|c p IH]; intros s H; [by destruct (s +:+ x)|]. destruct s as [|d s]; [done|].
  cbn [HasPrefix String.append] in *. apply andb_true_iff in H as [-> H]. by rewrite IH.
Qed.

(** The dead-letter topic is another than the source topic. *)
Lemma dead_letter_topic_other p w i : DeadLetterTopicName p w i <> TopicName p w i.
Proof.
  change (resource_id p (RDeadLetterTopic w i) <> resource_id p (RTopic w i)). rewrite !resource_id_shape. intros E.
  apply (f_equal String.length) in E. rewrite slen_app in E. cbn [String.length] in E. lia.
Qed.

Ltac lists := cbn [app omap list_omap created handle_of handles sc_Topic sc_DeadLetter plain_subscription
  FilteredSubscriptionConfig OrderingSubscriptionConfig].
Ltac fields := cbn [pp_topicID pp_subID sp_topicID sp_subID ok_topicID ok_subID
  eo_topicID eo_subID dl_srcTopicID dl_dltTopicID dl_srcSubID dl_dltSubID fo_topicID fo_subIDs iw_topicID iw_channel
  nr_topicID nr_subID fl_topicID fl_subID se_topicID se_subID se_schemaID sk_topicID sk_subID ic_topicID ic_subID].
Ltac among := unfold has_topic, handles, receive_with; lists; repeat first [left; reflexivity | right]; done.
Ltac not_among := unfold handles; lists; rewrite ?not_elem_of_cons; split_and?;
  first [done | apply not_elem_of_nil | intros [= ?]; by eapply dead_letter_topic_other].
Ltac call_ok :=
  split; [done | intros ? ? [= <- <-]; lists; auto with names
         | cbn [needs]; lists; split_and?; first [done | among | intros ? ? [=]; eexists; split; [by subst|among] | eexists _, _; split; [done|among]]
         | intros ? [= <-]; (split; [cbn [owned]; fields; among|not_among]) ].
Ltac start_step :=
  lazymatch goal with
  | |- starts _ _ _ _ (try_ _ ;; _) _ => apply starts_try; [done|done|intros; call_ok|intros]
  | |- starts _ _ _ _ (does ?c ;; _) _ =>
     lazymatch c with CGo _ => apply starts_launch; [done|done|] | CReady => apply starts_launch; [done|done|]
     | _ => apply starts_does; [done|done|call_ok|intros] end
  | |- starts _ _ _ _ (does _) _ => apply starts_last; [done|done]
  | |- starts _ _ _ _ (attempt _ _ ;; _) _ => apply starts_attempt; [intros|]
  | |- starts _ _ _ _ (mret _ ;; _) _ => apply starts_skip
  | |- starts _ _ _ _ ((if ?b then _ else _) ;; _) _ => destruct b
  | |- launch_only _ (if ?b then _ else _) => destruct b
  | |- launch_only _ (mret _) => apply launch_ret
  | |- launch_only _ (does _) => apply launch_does; done
  | |- launch_only _ (does _ ;; _) => apply launch_bind; [done|]
  | |- starts _ _ _ _ (fan_out_subscribe _ _ _ ;; _) _ => apply starts_fan_out; [done|among|among| |intros]
  end.

Lemma start_worker Getenv name cfg i a fail :
  new_worker Getenv name cfg i = Some a ->
  starts fail (resourcePrefix Getenv) (ps_ProjectID (bw_psCfg (base a))) (owned a) (Start a) [].
Proof.
  unfold new_worker. intros H. pose proof (setup_nil fail (resourcePrefix Getenv) (ps_ProjectID (bw_psCfg (base a))) (owned a)) as H0.
  repeat case_match; try done.
  all: apply fmap_Some in H as (w & Hw & ->); apply bind_Some in Hw as (b & Hb & [= <-]); cbn [Start];
    unfold publish_pull_start, streaming_pull_start, ordering_keys_start, exactly_once_start, dead_letter_start, fan_out_start,
    interop_start, nack_start, filtering_start, schema_enforce_start, seek_snapshot_start, inflight_cap_start,
    new_client, new_subscriber, receive_with; fields.
  all: repeat start_step.
  - apply Forall_fmap, Forall_true. intros j. apply FanoutSubscriptionName_prefix.
  - assert (exists n, FanoutSubscriptionCount cfg = Z.of_nat (S n)) as [n ->].
    { exists (Z.to_nat (FanoutSubscriptionCount cfg - 1)). enough (0 < FanoutSubscriptionCount cfg) by lia.
      unfold FanoutSubscriptionCount. repeat case_match; zbool; lia. }
    unfold fanout_ids. rewrite seqZ_cons by lia. cbn [fmap list_fmap fan_out_launch].
    apply starts_launch; [done|done|apply launch_fan_out].
Qed.

(** *** What a set-up guarantees *)

Section setups.
Context {fail : call -> option string} {pfx project : string} {own : list handle}.
Notation setup := (setup fail pfx project own).

(** Each call was possible after those before it. *)
Lemma setup_split l1 c l2 : setup (l1 ++ c :: l2) -> ok fail pfx project own l1 c /\ launches c = false.
Proof.
  remember (l1 ++ c :: l2) as l eqn:E. intros H. revert l2 E. induction H as [|l c' Hl IH Hok Hc]; intros l2 E.
  - by destruct l1.
  - destruct l2 as [|c2 l2 _] using rev_ind.
    + apply app_inj_tail in E as [-> ->]. done.
    + rewrite app_comm_cons, app_assoc in E. apply app_inj_tail in E as [-> _]. by apply (IH l2).
Qed.

Lemma setup_elem l c : setup l -> c ∈ l -> exists l1, ok fail pfx project own l1 c /\ launches c = false.
Proof. intros H (l1 & l2 & ->)%list_elem_of_split. exists l1. by eapply setup_split. Qed.

Lemma setup_handles l : setup l -> NoDup (handles l).
Proof.
  induction 1 as [|l c Hl IH Hok Hc]; [constructor|]. unfold handles in *. rewrite omap_app. cbn [omap list_omap].
  pose proof (ok_handle _ _ _ _ _ _ Hok) as Hh. destruct (handle_of c) as [h|]; [|by rewrite app_nil_r].
  apply NoDup_app. split_and!; [done| |apply NoDup_singleton]. intros x Hx ->%list_elem_of_singleton. by apply (Hh h).
Qed.
End setups.

(** The set-up part of what a [Start] did. *)
Lemma start_setup Getenv name cfg i a fail :
  new_worker Getenv name cfg i = Some a ->
  exists l1 l2, (Start a fail).1 = l1 ++ l2 /\ setup fail (resourcePrefix Getenv) (ps_ProjectID (bw_psCfg (base a))) (owned a) l1 /\
    Forall (fun c => launches c || match c with CProbe _ => true | _ => false end = true) l2.
Proof.
  intros H. apply (start_worker _ _ _ _ _ fail) in H. unfold starts in H.
  destruct (Start a fail) as [l [[]|err]]; cbn [fst]; [|exists l, []; rewrite app_nil_r; by destruct H].
  destruct H as (l1 & c & l2 & E & Hs & Hc & Hf). exists l1, (c :: l2). split_and!; [done..|].
  constructor; [by rewrite Hc|done].
Qed.

(** C16 (error).  A worker's [Start] is all or nothing for its goroutines.  If it
    returns an error, the error is that of a call that failed, wrapped, and no
    goroutine was launched and no readiness signalled; if it does not, one or
    the other was.  Whatever the outcome, every call it made came after what
    the call depends on: a topic after its client, a subscription after its
    topic and after the topic of its dead-letter policy, a topic with a schema
    after the schema. *)
Theorem start_all_or_nothing Getenv name cfg i a fail :
  new_worker Getenv name cfg i = Some a ->
  match Start a fail with
  | (l, inr err) =>
      (exists c e, fail c = Some e /\ err = call_error c e /\ c ∉ l) /\ Forall (fun c => launches c = false) l
  | (l, inl _) => Exists (fun c => launches c = true) l
  end /\
  forall l1 c l2, (Start a fail).1 = l1 ++ c :: l2 ->
    needs (ps_ProjectID (bw_psCfg (base a))) l1 c /\ (fallible c = true -> fail c = None).
Proof.
  intros H. split.
  - apply (start_worker _ _ _ _ _ fail) in H. unfold starts in H. destruct (Start a fail) as [l [[]|err]].
    + destruct H as (l1 & c & l2 & E & _ & Hc & _). cbn [app] in E. subst l. apply Exists_app. right. by left.
    + destruct H as (Hs & c & e & Hf & He & Hc). split.
      * exists c, e. split_and!; [done..|]. intros Hin. destruct (setup_elem _ _ Hs Hin) as (l1 & Hok & _).
        pose proof (ok_effect _ _ _ _ _ _ Hok Hc). congruence.
      * apply Forall_forall. intros x Hin. by destruct (setup_elem _ _ Hs Hin) as (l1 & _ & Hl).
  - intros l1 c l2 E. destruct (start_setup _ _ _ _ _ fail H) as (s1 & s2 & E' & Hs & Hl). rewrite E in E'.
    assert (c ∈ s2 -> needs (ps_ProjectID (bw_psCfg (base a))) l1 c /\ (fallible c = true -> fail c = None)) as Hin.
    { intros Hc. rewrite Forall_forall in Hl. apply Hl in Hc. by destruct c. }
    apply app_eq_inv in E' as [(k & -> & ->)|(k & -> & E2)]; [apply Hin, elem_of_app; right; left|].
    destruct k as [|c' k]; cbn [app] in E2; [apply Hin; rewrite <- E2; left|].
    injection E2 as <- ->. destruct (setup_split _ _ _ Hs) as [Hok _]. split; apply Hok.
Qed.

(** Every worker has a producer, whatever its configuration says. *)
Theorem start_producers_launches a : Exists (fun c => launches c = true) (StartProducers a).
Proof.
  assert (forall b, Exists (fun c => launches c = true) (launch_producers b)) as H.
  { intros b. unfold launch_producers. destruct (Z.to_nat (producer_count b)) eqn:E; [|by left].
    unfold producer_count in E. exfalso. cbv zeta in E. case_match; zbool; lia. }
  destruct a; try apply H; [right; apply H|by left].
Qed.

(** *** What is closed *)

Definition closed (l : list closing) : list handle :=
  omap (fun s => match s with SClose h => Some h | _ => None end) l.
(** The probes that register a topic. *)
Definition probes_ok (a : any_worker) (probes : list string) : Prop :=
  match a with
  | WStreamingPull _ => True
  | WDeadLetter _ => (length probes <= 1)%nat
  | _ => probes = []
  end.

Lemma closed_app l1 l2 : closed (l1 ++ l2) = closed l1 ++ closed l2.
Proof. apply omap_app. Qed.
Lemma closed_close hs h : closed (close hs h) = filter (.∈ hs) [h].
Proof. unfold close, with_handle. rewrite filter_cons. by case_decide. Qed.
Lemma closed_probes probes : closed (map (fun t => SClose (HTopic t)) probes) = HTopic <$> probes.
Proof. induction probes as [|t probes IH]; [done|]. cbn. by rewrite <- IH. Qed.

Ltac unfold_stops := unfold publish_pull_stop, streaming_pull_stop, ordering_keys_stop,
  exactly_once_stop, dead_letter_stop, fan_out_stop, interop_stop, nack_stop,
  filtering_stop, schema_enforce_stop, seek_snapshot_stop, inflight_cap_stop.

(** The handles [StopConsumers] closes are those of the worker that are open,
    and the probes' topics. *)
Lemma closed_stop hs joined probes a :
  probes_ok a probes -> closed (stop_consumers hs joined probes a) ≡ₚ filter (.∈ hs) (owned a) ++ (HTopic <$> probes).
Proof.
  destruct a; cbn [probes_ok stop_consumers owned]; intros H; try subst probes; unfold_stops;
    rewrite !closed_app, ?closed_close, ?closed_probes; unfold with_handle.
  all: rewrite ?filter_cons, ?filter_nil; repeat case_decide; cbn [closed omap list_omap app fmap list_fmap];
    rewrite ?app_nil_r; first [done | solve_Permutation].
Qed.

(** The order of the steps. *)
Lemma stop_waits hs joined probes a :
  exists before after, stop_consumers hs joined probes a = before ++ [SWait joined] ++ after ++ close hs HClient /\
    (before = [] \/ before = [SClose HNativeSub]) /\ HClient ∉ closed after.
Proof.
  assert (forall h, h <> HClient -> HClient ∉ closed (close hs h)) as Hne.
  { intros h Hh. rewrite closed_close, list_elem_of_filter, list_elem_of_singleton. naive_solver. }
  destruct a; cbn [stop_consumers]; unfold_stops.
  7: exists (close hs HNativeSub). 1-6, 8-12: exists [].
  all: eexists; split; [try apply (f_equal (app (close hs HNativeSub))); apply (f_equal (cons (SWait joined))); rewrite ?app_assoc; reflexivity|].
  all: split; [unfold close, with_handle; first [by left | case_decide; by auto]|].
  all: rewrite ?closed_app, ?closed_probes, ?not_elem_of_app; split_and?; try (by apply Hne); try (by unfold with_handle; case_decide; cbn; set_solver).
  all: intros (t & [=] & _)%list_elem_of_fmap.
Qed.

Lemma probes_ok_prefix a probes late : probes_ok a (probes ++ late) -> probes_ok a probes.
Proof.
  destruct a; cbn [probes_ok]; try done; first [rewrite length_app; lia | by intros [-> _]%app_eq_nil].
Qed.

Lemma owned_NoDup Getenv name cfg i a : new_worker Getenv name cfg i = Some a -> NoDup (owned a).
Proof.
  unfold new_worker. intros H. repeat case_match; try done.
  all: apply fmap_Some in H as (w & Hw & ->); apply bind_Some in Hw as (b & Hb & [= <-]); cbn [owned]; fields.
  all: repeat (apply NoDup_cons; split; [not_among|]); apply NoDup_nil_2.
Qed.

Lemma start_owns Getenv name cfg i a fail :
  new_worker Getenv name cfg i = Some a ->
  let hs := handles (Start a fail).1 in NoDup hs /\ forall h, h ∈ hs -> h ∈ owned a.
Proof.
  intros H. destruct (start_setup _ _ _ _ _ fail H) as (l1 & l2 & -> & Hs & Hl). unfold handles.
  rewrite omap_app. assert (omap handle_of l2 = []) as ->.
  { induction Hl as [|c l2 Hc Hl IH]; [done|]. cbn [omap list_omap]. by destruct c. }
  rewrite app_nil_r. split; [by eapply setup_handles|].
  intros h (c & Hc & Hh)%list_elem_of_omap. destruct (setup_elem _ _ Hs Hc) as (l0 & Hok & _).
  by apply (ok_handle _ _ _ _ _ _ Hok).
Qed.

(** C30 (safety).  [StopConsumers] closes what [Start], successful or not, and
    the probes have opened.  It waits at most fifteen seconds for the consumer
    goroutines.  If they end in time, everything that was opened is closed, every
    client, stream and topic once and nothing twice.  If they do not, every handle
    of [Start] is closed once all the same, under the goroutines that still run,
    and so are the topics a probe had opened by then; exactly the topics a probe
    opens after that stay open.  Either way the wait comes before anything but the
    native subscription is closed, and the Pub/Sub client, on which the others are
    built, goes last. *)
Theorem stop_closes_what_was_opened Getenv name cfg i a fail joined probes late :
  new_worker Getenv name cfg i = Some a -> probes_ok a (probes ++ late) -> (joined = true -> late = []) ->
  let hs := handles (Start a fail).1 in
  let s := stop_consumers hs joined probes a in
  let opened := hs ++ (HTopic <$> probes ++ late) in
  opened ≡ₚ closed s ++ (HTopic <$> late) /\ (joined = true -> closed s ≡ₚ opened) /\
  exists before after, s = before ++ [SWait joined] ++ after ++ close hs HClient /\
    (before = [] \/ before = [SClose HNativeSub]) /\ HClient ∉ closed after.
Proof.
  intros H Hp Hj hs s opened. destruct (start_owns _ _ _ _ _ fail H) as [Hnd Hin].
  assert (closed s ≡ₚ hs ++ (HTopic <$> probes)) as Hc.
  { subst s. rewrite closed_stop by (by eapply probes_ok_prefix). apply Permutation_app_tail, NoDup_Permutation; [|done|].
    + by apply NoDup_filter, (owned_NoDup Getenv name cfg i).
    + intros h. rewrite list_elem_of_filter. split; [tauto|]. auto. }
  unfold opened. split; [by rewrite Hc, fmap_app, app_assoc|]. split; [|by apply stop_waits].
  intros Ej. by rewrite Hc, (Hj Ej), app_nil_r.
Qed.

(** ** With the clean-up *)

Lemma start_prefix Getenv name cfg i a fail c k id :
  new_worker Getenv name cfg i = Some a -> c ∈ (Start a fail).1 -> created c = Some (k, id) ->
  HasPrefix id (resourcePrefix Getenv) = true.
Proof.
  intros H Hc Hk. destruct (start_setup _ _ _ _ _ fail H) as (l1 & l2 & E & Hs & Hl). rewrite E in Hc.
  apply elem_of_app in Hc as [Hc|Hc].
  - destruct (setup_elem _ _ Hs Hc) as (l0 & Hok & _). by eapply (ok_prefix _ _ _ _ _ _ Hok).
  - rewrite Forall_forall in Hl. apply Hl in Hc. by destruct c.
Qed.

Lemma provision_created topic sub cfg fail c k id :
  c ∈ (provision_probe topic sub cfg fail).1 -> created c = Some (k, id) -> id = topic \/ id = sub.
Proof.
  unfold provision_probe, mbind, start_bind, try_. intros Hc Hk.
  destruct (fail (CTopic topic)); [by apply not_elem_of_nil in Hc|].
  destruct (fail (CSubscription sub cfg)); cbn [fst app] in Hc;
    repeat (apply elem_of_cons in Hc as [->|Hc]; [injection Hk as <- <-; auto|]); by apply not_elem_of_nil in Hc.
Qed.

Lemma probe_prefix Getenv name cfg i a fail c k id :
  new_worker Getenv name cfg i = Some a -> c ∈ probe_calls Getenv fail a -> created c = Some (k, id) ->
  HasPrefix id (resourcePrefix Getenv) = true.
Proof.
  intros H Hc Hk. destruct a; try (by apply not_elem_of_nil in Hc); cbn [probe_calls] in Hc.
  - rewrite !elem_of_app in Hc. unfold streaming_probe_provision in Hc.
    destruct Hc as [Hc|[Hc|Hc]]; destruct (provision_created _ _ _ _ _ _ _ Hc Hk) as [->| ->];
      apply HasPrefix_extend; auto with names.
  - destruct (provision_created _ _ _ _ _ _ _ Hc Hk) as [->| ->]; clear Hc Hk c;
      unfold new_worker in H; repeat case_match; try done;
      apply fmap_Some in H as (w' & Hw & [= ->]); apply bind_Some in Hw as (b & Hb & [= <-]);
      apply HasPrefix_extend; auto with names.
Qed.

(** The harness and the clean-up agree on a prefix without blanks around it. *)
Lemma prefixes_agree Getenv :
  TrimSpace (Getenv ResourcePrefixEnv) = Getenv ResourcePrefixEnv -> cleanup_prefix Getenv "" = resourcePrefix Getenv.
Proof. intros H. unfold cleanup_prefix, envOr, resourcePrefix. by rewrite H. Qed.

(** C29 (safety).  Every topic, subscription and schema that the [Start] of any
    worker or one of its probes creates, whether it then succeeds or fails, is
    one that a clean-up run in the same environment removes, under these
    conditions: the schema client is built; every listing is complete (a
    connector without ListSchemas keeps the schemas); what is there can
    be deleted, a topic once nothing hangs on it; what hangs on the topics to
    be removed carries the prefix itself; and the prefix has no blanks around it.
    For the names the harness builds and the prefix the command matches are the
    same. *)
Theorem cleanup_covers_workers {St} {C : Connector St} {L : ConnectorLaws St} Getenv name cfg i a fail list_ project s :
  new_worker Getenv name cfg i = Some a ->
  TrimSpace (Getenv ResourcePrefixEnv) = Getenv ResourcePrefixEnv ->
  lists_all project list_ -> (forall x, x ∈ con_ids KSchema s -> Split x "/" = [x]) ->
  (forall t x, t ∈ con_ids KTopic s -> HasPrefix t (resourcePrefix Getenv) = true -> x ∈ con_dependents t s ->
     HasPrefix x (resourcePrefix Getenv) = true) ->
  forall c k id, c ∈ (Start a fail).1 ++ probe_calls Getenv fail a -> created c = Some (k, id) ->
    id ∉ con_ids k (cleanup_main Getenv "" list_ None s).1.
Proof.
  intros Ha Ht Hl Hs Hd c k id Hc Hk. rewrite <- (prefixes_agree Getenv Ht) in Hd.
  destruct (main_complete Getenv "" list_ project s Hl Hs Hd) as [-> _]. unfold foreign.
  rewrite elem_of_filter, (prefixes_agree Getenv Ht). intros [Hf _].
  apply elem_of_app in Hc as [Hc|Hc];
    [rewrite (start_prefix _ _ _ _ _ _ _ _ _ Ha Hc Hk) in Hf|rewrite (probe_prefix _ _ _ _ _ _ _ _ _ Ha Hc Hk) in Hf]; done.
Qed.

(** ** Concrete runs *)

Definition no_env (_ : string) : string := "".
Definition sample_dead_letter : option any_worker := new_worker no_env WorkerDeadLetter DefaultConfig 1.
(** The low-level client cannot be built. *)
Definition no_subscriber (c : call) : option string := match c with CSubscriber => Some "refused" | _ => None end.

Lemma start_all_or_nothing_witness :
  exists a l, sample_dead_letter = Some a /\ Start a no_subscriber = (l, inr "build apiv1 subscriber client: refused") /\
    Forall (fun c => launches c = false) l /\ length l = 5%nat.
Proof.
  destruct sample_dead_letter as [a|] eqn:Ha; [|by vm_compute in Ha].
  destruct (start_all_or_nothing no_env WorkerDeadLetter DefaultConfig 1 a no_subscriber Ha) as [H _].
  assert ((Start a no_subscriber).2 = inr "build apiv1 subscriber client: refused" /\
          length (Start a no_subscriber).1 = 5%nat) as [E1 E2].
  { vm_compute in Ha. injection Ha as <-. vm_compute. done. }
  destruct (Start a no_subscriber) as [l r] eqn:Es. cbn [fst snd] in *. subst r. exists a, l.
  split; [done|]. split; [done|]. split; [exact (proj2 H)|exact E2].
Defined.

Lemma stop_closes_what_was_opened_witness :
  exists a, sample_dead_letter = Some a /\
    let hs := handles (Start a no_subscriber).1 in
    closed (stop_consumers hs true ["probe"] a) ≡ₚ hs ++ [HTopic "probe"] /\
    hs ++ [HTopic "probe"] ≡ₚ closed (stop_consumers hs false [] a) ++ [HTopic "probe"] /\ length hs = 3%nat.
Proof.
  destruct sample_dead_letter as [a|] eqn:Ha; [|by vm_compute in Ha]. exists a. split; [done|].
  assert (probes_ok a ["probe"] /\ length (handles (Start a no_subscriber).1) = 3%nat) as [Hp E].
  { vm_compute in Ha. injection Ha as <-. vm_compute. auto. }
  destruct (stop_closes_what_was_opened no_env WorkerDeadLetter DefaultConfig 1 a no_subscriber true ["probe"] [] Ha Hp
    (fun _ => eq_refl)) as (_ & H & _).
  destruct (stop_closes_what_was_opened no_env WorkerDeadLetter DefaultConfig 1 a no_subscriber false [] ["probe"] Ha Hp
    ltac:(discriminate)) as (H' & _).
  split; [exact (H eq_refl)|]. split; [exact H'|exact E].
Defined.

(** What the source topic and its subscription leave in a connector. *)
Definition left_over : memory :=
  mkMemory {[ "gcp_burnin_dead_letter_0001_sub" := "gcp_burnin_dead_letter_0001" ]} ∅
    {[ "gcp_burnin_dead_letter_0001"; "py_topic" ]} ∅.

Lemma cleanup_covers_workers_witness :
  let after := (cleanup_main no_env "" memory_list None left_over).1 in
  "gcp_burnin_dead_letter_0001" ∉ m_topics after /\ "py_topic" ∈ m_topics after.
Proof.
  destruct sample_dead_letter as [a|] eqn:Ha; [|by vm_compute in Ha]. split; [|vm_compute; done].
  apply (cleanup_covers_workers no_env WorkerDeadLetter DefaultConfig 1 a no_subscriber memory_list "p" left_over
    Ha eq_refl memory_lists) with (c := CTopic "gcp_burnin_dead_letter_0001") (k := KTopic).
  - intros x Hx. change (x ∈ (∅ : gset string)) in Hx. by apply not_elem_of_empty in Hx.
  - intros t x Ht Hp Hx.
    change (t ∈ ({[ "gcp_burnin_dead_letter_0001"; "py_topic" ]} : gset string)) in Ht.
    apply elem_of_union in Ht as [Ht|Ht]; apply elem_of_singleton in Ht; subst t; [|discriminate Hp].
    assert (con_dependents "gcp_burnin_dead_letter_0001" left_over = {[ "gcp_burnin_dead_letter_0001_sub" ]}) as E
      by (vm_compute; reflexivity).
    rewrite E in Hx. apply elem_of_singleton in Hx as ->. reflexivity.
  - vm_compute in Ha. injection Ha as <-. vm_compute. right. left.
  - reflexivity.
Defined.
