(* ===== verification/LateGates.v ===== *)
(** * Gates whose counters are written too late

    [shutdownWorkers] captures the snapshots before it stops the consumers, but
    three workers write the counters of their gates while they are stopped.  The
    order is the engine's: what only [StopConsumers] can break holds in every
    snapshot a reachable engine carries. *)
From S2P Require Import Prelude GoFloat GoFmt Config Payload Tracker Metrics Transport Worker WorkerProps Verdict Report.
From S2P Require Import Handlers Interop DeadLetter InflightCap Engine EngineProps Workers.

(** ** What holds until the consumers are stopped *)

Section order.
Context {W : Type} {HB : HasBase W} {Wk : Worker W}.
Context (NewWorker : string -> Config -> Z -> option W).
Context (ValueAtQuantile : list Z -> float64 -> Z) (TotalCount : list Z -> Z).
Context (evolves : W -> W -> Prop).
Local Notation engine := (@Engine W).
Local Notation loop_step := (loop_step NewWorker ValueAtQuantile TotalCount).
Local Notation quiet_step := (quiet_step NewWorker ValueAtQuantile TotalCount evolves).
Local Notation calmly_reachable := (calmly_reachable NewWorker ValueAtQuantile TotalCount evolves).
Local Notation capture := (capture ValueAtQuantile TotalCount).

(** A property of the workers of a group that everything the engine does keeps,
    except stopping the consumers. *)
Context (P : string -> W -> Prop).
Context (P_new : forall name cfg i w, NewWorker name cfg i = Some w -> P name w).
Context (P_evolves : forall name w w', evolves w w' -> P name w -> P name w').
Context (P_stop_producers : forall name now fs w, P name w -> P name (w_StopProducers now fs w)).
Context (P_reset : forall name w, P name w -> P name (w_ResetAfterWarmup w)).
Context (P_disconnect : forall name w, P name w -> P name (w_DisconnectConsumers w)).
Context (P_detect : forall name w, P name w -> P name (detect_worker w)).
Context (P_advance : forall name w, P name w -> P name (with_base AdvanceRateWindows w)).

Definition all_P (g : groups) : Prop := map_Forall (fun name ws => Forall (P name) ws) g.

(** The run loop has built the groups and not yet stopped the consumers. *)
Definition built (p : pc) : bool :=
  match p with PBuild | PVerdict | PExit => false | _ => true end.

Record ordered (e : engine) : Prop := {
  or_groups : forall k t, e_threads e !! k = Some t -> built (t_pc t) = true -> all_P (e_groups e);
  or_snapshots : forall sn, e_snapshots e = Some sn -> exists g, all_P g /\ sn = capture g
}.

Lemma all_map f g : (forall name w, P name w -> P name (f w)) -> all_P g -> all_P (map_workers f g).
Proof.
  intros Hf Hg name ws H. unfold map_workers, groups in *. apply lookup_fmap_Some in H as (ws0 & <- & E).
  apply Forall_fmap. eapply Forall_impl; [exact (Hg _ _ E)|]. intros w. apply Hf.
Qed.

Lemma all_build cfg : all_P (build_groups NewWorker cfg).
Proof.
  intros name ws H. unfold build_groups, groups in *. apply elem_of_list_to_map_2 in H. apply list_elem_of_fmap in H as (n & [= -> ->] & _).
  apply Forall_forall. intros w (i & _ & Hi)%list_elem_of_omap. by eapply P_new.
Qed.

Lemma all_evolve g g' : groups_evolve evolves g g' -> all_P g -> all_P g'.
Proof.
  intros He Hg name ws' E'. unfold groups_evolve, map_relation, groups in *. specialize (He name). rewrite E' in He. destruct (g !! name) as [ws|] eqn:E; cbn in He; [|done].
  specialize (Hg name ws E). cbn in Hg. clear E E'. induction He as [|w w' ws ws' Hw _ IH]; [constructor|].
  apply Forall_cons in Hg as [H1 H2]. constructor; [by eapply P_evolves|by apply IH].
Qed.

(** A step of the live run loop to [p]. *)
Lemma ordered_goto (e e' : engine) k t p c :
  live e k t -> e_threads e' = <[k := mkThread p c]> (e_threads e) ->
  (built p = true -> all_P (e_groups e')) ->
  (forall sn, e_snapshots e' = Some sn -> exists g, all_P g /\ sn = capture g) -> ordered e'.
Proof.
  intros L Ht Hp Hs. split; [|done]. intros k' t'. rewrite Ht, (lv_threads _ _ _ L), insert_singleton_eq.
  intros [-> <-]%lookup_singleton_Some. done.
Qed.

(** A change of the groups that keeps the property. *)
Lemma ordered_frame (e e' : engine) :
  ordered e -> e_threads e' = e_threads e -> e_snapshots e' = e_snapshots e ->
  (all_P (e_groups e) -> all_P (e_groups e')) -> ordered e'.
Proof. intros [H1 H2] Ht Hs Hg. split; [|by rewrite Hs]. intros k t. rewrite Ht. eauto. Qed.

Lemma ordered_loop e e' : inv e -> ordered e -> loop_step e e' -> ordered e'.
Proof.
  intros I Ho Hs. destruct (inv_runs e I) as [Hi|(k0 & t0 & L)].
  { destruct Hs; by edestruct (idle_at e). }
  pose proof (or_snapshots e Ho) as Sn.
  assert (built (t_pc t0) = true -> all_P (e_groups e)) as G.
  { intros Hb. apply (or_groups e Ho k0 t0); [|done]. rewrite (lv_threads _ _ _ L). apply lookup_singleton_eq. }
  destruct Hs;
    match goal with H : at_pc _ _ _ _ |- _ => destruct (live_at _ _ _ _ _ _ L H) as (-> & -> & Hp) end;
    rewrite Hp in G; cbn [built] in G; try specialize (G eq_refl).
  - apply (ordered_goto e _ k0 t0 PConsumers (t_cfg t0) L); [done| |done]. intros _. apply all_build.
  - unfold loop_consumers. destruct (start_groups _ _ _) as [started [err|]];
      [by apply (ordered_goto e _ k0 t0 PExit (t_cfg t0) L)|by apply (ordered_goto e _ k0 t0 PReady (t_cfg t0) L)].
  - unfold loop_ready. destruct timeout; [by apply (ordered_goto e _ k0 t0 PExit (t_cfg t0) L)|].
    by eapply (ordered_goto e _ k0 t0 _ (t_cfg t0) L).
  - eapply (ordered_goto e _ k0 t0 _ (t_cfg t0) L); [done| |done]. intros _. cbn.
    assert (all_P (map_workers (w_StopProducers now failures) (e_groups e))) by (apply all_map; [|done]; intros; by apply P_stop_producers).
    destruct drained; [by apply all_map|done].
  - by apply (ordered_goto e _ k0 t0 PRunning (t_cfg t0) L).
  - by apply (ordered_goto e _ k0 t0 PShutdown (t_cfg t0) L).
  - apply (ordered_goto e _ k0 t0 PDrain (t_cfg t0) L); [done| |done]. intros _. apply all_map; [|done].
    intros. by apply P_stop_producers.
  - apply (ordered_frame e); [done..|]. intros _. by apply all_map.
  - assert (all_P (map_workers detect_worker (e_groups e))) by (by apply all_map).
    apply (ordered_goto e _ k0 t0 PStop (t_cfg t0) L); [done|done|]. intros sn [= <-]. by eexists.
  - by apply (ordered_goto e _ k0 t0 PVerdict (t_cfg t0) L).
  - by apply (ordered_goto e _ k0 t0 PExit (t_cfg t0) L).
  - split; [|done]. intros k t. cbn. rewrite (lv_threads _ _ _ L), delete_singleton_eq, lookup_empty. done.
Qed.

Lemma all_rate (e : engine) : all_P (e_groups e) -> all_P (e_groups (rate_tick e)).
Proof.
  intros H name ws. cbn. unfold groups in *. rewrite map_lookup_imap. intros (ws0 & E & [= <-])%bind_Some.
  apply Forall_fmap. eapply Forall_impl; [exact (H _ _ E)|]. intros w. apply P_advance.
Qed.

Lemma ordered_quiet e e' : inv e -> ordered e -> quiet_step e e' -> ordered e'.
Proof.
  intros I Ho Hq. destruct Hq as [e e' Hl|e e' Hp|e e' Hst|e|e g Hg].
  - by eapply ordered_loop.
  - destruct Hp as [e k t _|e k t el _|e k t sys el sb _|e k t _|e k t _ _]; try (apply (ordered_frame e); done).
    + apply (ordered_frame e); [done..|]. apply all_rate.
    + unfold memory_tick. case_if; by apply (ordered_frame e).
    + apply (ordered_frame e); [done..|]. by apply all_map.
    + apply (ordered_frame e); [done..|]. by apply all_map.
  - unfold StopRun in Hst. destruct (e_state e); simplify_eq; destruct (e_runCancel e); try done; by apply (ordered_frame e).
  - unfold shutdown_begin. destruct (e_state e); cbn [fst]; try done; destruct (e_runCancel e); try done; by apply (ordered_frame e).
  - apply (ordered_frame e); [done..|]. by apply all_evolve.
Qed.

(** Every snapshot an engine carries was captured from workers that have the
    property. *)
Lemma captured_before_stop cfg e sn :
  calmly_reachable cfg e -> e_snapshots e = Some sn -> exists g, all_P g /\ sn = capture g.
Proof.
  intros Hr. assert (ordered e) as Ho; [|apply Ho]. revert e Hr.
  refine (rtc_ind_r ordered (New cfg) _ _); [by split|]. intros x y Hr Hs Ho.
  pose proof (calm_inv NewWorker ValueAtQuantile TotalCount evolves cfg x Hr) as I.
  destruct Hs as [x y Hq|x y c rid now He Hst]; [by eapply ordered_quiet|].
  pose proof (start_alone x y c rid now I He Hst) as Ht. unfold StartRunFromConfig in Hst.
  split; destruct (e_state x); simplify_eq; try done; cbn; rewrite Ht;
    intros k t [<- <-]%lookup_singleton_Some; done.
Qed.
End order.

(** ** The twelve workers *)

Definition kind (a : any_worker) : string :=
  match a with
  | WPublishPull _ => WorkerPublishPullRoundTrip | WStreamingPull _ => WorkerStreamingPull
  | WOrderingKeys _ => WorkerOrderingKeys | WExactlyOnce _ => WorkerExactlyOnce
  | WDeadLetter _ => WorkerDeadLetter | WFanOut _ => WorkerFanOut
  | WInterop _ => WorkerCrossProtocol | WNack _ => WorkerNackRedelivery
  | WFiltering _ => WorkerFiltering | WSchemaEnforce _ => WorkerSchemaEnforce
  | WSeekSnapshot _ => WorkerSeekSnapshot | WInflightCap _ => WorkerInflightCap
  end.

(** The counter a worker writes only while it is stopped. *)
Definition late_counter (a : any_worker) : option counter :=
  match a with
  | WInterop _ => Some C_interopDiverged
  | WDeadLetter _ => Some C_deadLetterLost
  | WInflightCap _ => Some C_inflightCapLost
  | _ => None
  end.

(** What the goroutines of a worker do: any sequence of the activities of the
    three workers, and anything at all for the others. *)
Inductive works : any_worker -> any_worker -> Prop :=
| wk_interop w l : works (WInterop w) (WInterop (Interop.run w l))
| wk_dead_letter w l : works (WDeadLetter w) (WDeadLetter (DeadLetter.run w l))
| wk_backoff_probe w start rs : works (WDeadLetter w) (WDeadLetter (retryBackoffProbe start rs w))
| wk_inflight w l : works (WInflightCap w) (WInflightCap (InflightCap.run w l))
| wk_other a a' : kind a' = kind a -> late_counter a = None -> works a a'.

Definition not_charged (name : string) (a : any_worker) : Prop :=
  kind a = name /\ forall c, late_counter a = Some c -> bw_cnt (base a) c = 0.

Lemma new_not_charged Getenv name cfg i a : new_worker Getenv name cfg i = Some a -> not_charged name a.
Proof.
  unfold new_worker.
  repeat match goal with |- (if String.eqb name ?n then _ else _) = _ -> _ =>
    destruct (String.eqb_spec name n) as [->|_]; [intros (w & Hw & ->)%fmap_Some|] end; [..|done];
    (split; [reflexivity|]); intros c; try done; intros [= <-].
  all: unfold NewDeadLetterWorker, NewCrossProtocolInteropWorker, NewInflightCapWorker, NewBaseWorker in Hw; cbv zeta in Hw;
    destruct (GetWorkerConfig _ _); [|done]; cbn [mbind option_bind] in Hw; injection Hw as <-; done.
Qed.

Lemma works_not_charged name a a' : works a a' -> not_charged name a -> not_charged name a'.
Proof.
  intros Hw [Hk Hc]. destruct Hw as [w l|w l|w start rs|w l|a a' Hk' Hl].
  - split; [done|]. intros c [= <-]. specialize (Hc _ eq_refl). cbn [base any_has_base any_base] in *. by rewrite Interop.run_diverged.
  - split; [done|]. intros c [= <-]. specialize (Hc _ eq_refl). cbn [base any_has_base any_base] in *. by rewrite DeadLetter.run_charges_nothing.
  - split; [done|]. intros c [= <-]. specialize (Hc _ eq_refl). cbn [base any_has_base any_base] in *. by rewrite DeadLetter.probe_lost.
  - split; [done|]. intros c [= <-]. specialize (Hc _ eq_refl). cbn [base any_has_base any_base] in *. by rewrite InflightCap.run_lost.
  - split; [congruence|]. intros c Hc'. exfalso. revert Hl Hk' Hc'. clear. by destruct a, a'.
Qed.

(** An operation of the interface that keeps the counters, or clears them. *)
Lemma dispatch_not_charged (f : forall W (HB : HasBase W), Worker W -> W -> W) name a :
  (forall W (HB : HasBase W) (Wk : Worker W) (w : W) c, c <> C_acked -> c <> C_errors ->
     bw_cnt (base (f W HB Wk w)) c = bw_cnt (base w) c \/ bw_cnt (base (f W HB Wk w)) c = 0) ->
  not_charged name a -> not_charged name (dispatch f a).
Proof.
  intros Hf [Hk Hc]. split; [by destruct a|]. intros c Hl.
  assert (late_counter a = Some c) as Hl' by (by destruct a). specialize (Hc c Hl').
  assert (c <> C_acked /\ c <> C_errors) as [H1 H2] by (destruct a; cbn in Hl'; try done; injection Hl' as <-; done).
  destruct a as [w|w|w|w|w|w|w|w|w|w|w|w]; cbn [dispatch base any_has_base any_base] in *;
    destruct (Hf _ _ _ w c H1 H2) as [E|E]; congruence.
Qed.

Lemma reset_clears b c : bw_cnt (ResetAfterWarmup b) c = 0.
Proof. destruct (reset_spec b) as (_ & _ & _ & _ & _ & _ & H & _). apply H. Qed.

(** ** Snapshots without the late counters *)

Section capture.
Context (ValueAtQuantile : list Z -> float64 -> Z) (TotalCount : list Z -> Z).

Lemma capture_worker_zero acc w c :
  summed c = true -> sn_cnt (fst (fst acc)) c = 0 -> bw_cnt w c = 0 ->
  sn_cnt (fst (fst (capture_worker TotalCount acc w))) c = 0.
Proof.
  destruct acc as [[s bl] n]. intros Hc H1 H2. unfold capture_worker. cbv zeta.
  case_if; cbn [fst sn_cnt]; rewrite Hc; cbn [fst sn_cnt] in H1; by rewrite H1, H2.
Qed.

(** A counter that is zero in every worker is zero in the group's snapshot. *)
Lemma capture_group_zero name ws c :
  IsFanoutWorker name = false -> summed c = true -> Forall (fun w => bw_cnt w c = 0) ws ->
  sn_cnt (capture_group ValueAtQuantile TotalCount name ws) c = 0.
Proof.
  intros Hn Hc Hws. unfold capture_group.
  assert (sn_cnt (fst (fst (foldl (capture_worker TotalCount) (zero_snapshot, None, 0) ws))) c = 0) as H.
  { assert (sn_cnt (fst (fst (zero_snapshot, @None LatencyAccumulator, 0))) c = 0) as H0 by done.
    revert H0. generalize (zero_snapshot, @None LatencyAccumulator, 0).
    induction Hws as [|w ws Hw _ IH]; intros acc Hacc; [done|]. cbn [foldl]. apply IH. by apply capture_worker_zero. }
  destruct (foldl _ _ _) as [[snap best] k]. rewrite Hn. cbn [fst] in H.
  destruct best as [a|]; [|done]. unfold set_latency. by destruct (Percentiles ValueAtQuantile a) as [[[? ?] ?] ?].
Qed.

(** C32 (safety).  The divergence, dead-letter-loss and in-flight-loss gates
    cannot fire: in every reachable engine of the twelve workers, whatever was
    published, delivered or lost, and whether or not a warm-up was reset or cut
    short, the counters these gates read are zero in every snapshot the engine
    carries, because the engine captures it before it stops the consumers and
    the workers write them only then.  Reachable excludes a start between a
    failed run's error state and the return of its run loop. *)
Theorem late_gates_never_fire Getenv cfg e sn name s :
  calmly_reachable (new_worker Getenv) ValueAtQuantile TotalCount works cfg e ->
  e_snapshots e = Some sn -> (name, s) ∈ sn ->
  (IsInteropWorker name && (0 <? sn_cnt s C_interopDiverged)) = false /\
  (IsDeadLetterWorker name && (0 <? sn_cnt s C_deadLetterLost)) = false /\
  (IsInflightCapWorker name && (0 <? sn_cnt s C_inflightCapLost)) = false.
Proof.
  intros Hr Hsn Hin.
  destruct (captured_before_stop (new_worker Getenv) ValueAtQuantile TotalCount works not_charged
    (new_not_charged Getenv) works_not_charged) with (cfg := cfg) (e := e) (sn := sn) as (g & Hg & ->); try done.
  - intros n now fs w. apply dispatch_not_charged. intros W HB Wk w' c H1 H2. left. by apply stop_producers_keeps.
  - intros n w. apply dispatch_not_charged. intros W HB Wk w' c _ _. right. rewrite reset_base. apply reset_clears.
  - intros n w. apply dispatch_not_charged. intros W HB Wk w' c _ _. left. by rewrite disconnect_base.
  - intros n w. apply dispatch_not_charged. intros W HB Wk w' c _ _. left. by rewrite base_with_base.
  - intros n w. apply dispatch_not_charged. intros W HB Wk w' c _ _. left. by rewrite base_with_base.
  - unfold capture, captureWorkerSnapshots in Hin. rewrite map_map in Hin. apply list_elem_of_fmap in Hin as ([n ws] & [= -> ->] & Hin).
    unfold groups, all_P in *. apply elem_of_map_to_list in Hin. specialize (Hg n ws Hin). cbn [fst snd] in *.
    assert (forall c, summed c = true -> IsFanoutWorker n = false ->
      (forall a, kind a = n -> late_counter a = Some c) ->
      sn_cnt (capture_group ValueAtQuantile TotalCount n (map base ws)) c = 0) as Hz.
    { intros c Hs Hf Hk. apply capture_group_zero; [done..|]. apply Forall_fmap. eapply Forall_impl; [exact Hg|].
      intros a [Ha Hc]. apply Hc, Hk, Ha. }
    unfold IsInteropWorker, IsDeadLetterWorker, IsInflightCapWorker. split_and!.
    + destruct (String.eqb_spec n WorkerCrossProtocol) as [->|]; [|done]. rewrite Hz; [done..|]. by intros [].
    + destruct (String.eqb_spec n WorkerDeadLetter) as [->|]; [|done]. rewrite Hz; [done..|]. by intros [].
    + destruct (String.eqb_spec n WorkerInflightCap) as [->|]; [|done]. rewrite Hz; [done..|]. by intros [].
Qed.
End capture.

(** ** A run whose only message is lost *)

(** One interop channel, measured for a minute. *)
Definition interop_config : Config :=
  let off n c := match GetWorkerConfig c n with Some wc => set_worker c n (set_wc_Enabled wc false) | None => c end in
  set_c_DurationParsed
    (foldl (fun c n => if String.eqb n WorkerCrossProtocol then c else off n c) DefaultConfig AllWorkerNames) Minute.
Definition new_any : string -> Config -> Z -> option any_worker := new_worker (fun _ => "").
Local Notation any_engine := (@Engine any_worker).

(** A message the native side never sees. *)
Definition publish_one (a : any_worker) : any_worker :=
  match a with
  | WInterop w => WInterop (Interop.run w [Interop.APublish 0 (mkEnv 0 (fun _ => 0) 0 (inl "1") false 0 0)])
  | _ => a
  end.
Definition publish_all (e : any_engine) : any_engine := set_groups e (map_workers publish_one (e_groups e)) [].

Definition diverging : list (any_engine -> any_engine) :=
  [(fun e => match StartRunFromConfig interop_config "r" 0 e with Ok e' => e' | Err _ => e end);
   at_thread (loop_build new_any) 0; at_thread (loop_consumers accept) 0; at_thread (loop_ready None) 0;
   at_thread (loop_warmup 1 [] true) 0; at_thread (loop_measure 2) 0; publish_all; at_thread loop_stop 0;
   at_thread (loop_shutdown 3 []) 0; at_thread (loop_capture vq tc) 0].
Definition diverged_engine : any_engine := foldl (fun e f => f e) (New interop_config) diverging.

Lemma publish_all_step e : calm_step new_any vq tc works e (publish_all e).
Proof.
  apply c_quiet, q_activity. generalize (e_groups e). unfold groups_evolve, map_relation, map_workers, groups.
  intros g name. rewrite lookup_fmap. destruct (g !! name) as [ws|]; cbn; [|exact I]. induction ws as [|a ws IH]; [constructor|]. cbn. constructor; [|done].
  destruct a; cbn [publish_one]; first [apply wk_interop | apply (wk_dead_letter _ []) | apply (wk_inflight _ []) | by apply wk_other].
Qed.

Lemma diverged_reachable : calmly_reachable new_any vq tc works interop_config diverged_engine.
Proof.
  unfold calmly_reachable, diverged_engine, diverging. cbn [foldl].
  calm_undo s_capture PDrain. calm_undo s_shutdown PShutdown.
  eapply rtc_r; [|apply (calm_at_thread _ _ PRunning); [vm_compute; reflexivity|]].
  2: { intros t Ht. apply s_stop_measure; [done|]. right. destruct Ht as [Ht _]. revert Ht. vm_compute. intros [= <-]. done. }
  eapply rtc_r; [|apply publish_all_step]. calm_undo s_measure PMeasure.
  eapply rtc_r; [|apply (calm_at_thread _ _ PWarmup); [vm_compute; reflexivity|intros; by apply s_warmup]].
  calm_undo s_ready PReady. calm_undo s_consumers PConsumers. calm_undo s_build PBuild.
  eapply rtc_r; [apply rtc_refl|]. by eapply c_start.
Qed.

Lemma diverged_snapshot : exists sn s, e_snapshots diverged_engine = Some sn /\ (WorkerCrossProtocol, s) ∈ sn.
Proof.
  assert (bool_decide (WorkerCrossProtocol ∈ (default [] (e_snapshots diverged_engine)).*1) = true) as Hin%bool_decide_eq_true
    by (vm_compute; reflexivity).
  destruct (e_snapshots diverged_engine) as [sn|]; [|by apply elem_of_nil in Hin].
  apply list_elem_of_fmap in Hin as ([n s] & E & Hin). cbn in E. subst n. by exists sn, s.
Qed.

Lemma late_gates_never_fire_witness :
  exists sn s, e_snapshots diverged_engine = Some sn /\ (WorkerCrossProtocol, s) ∈ sn /\
    (IsInteropWorker WorkerCrossProtocol && (0 <? sn_cnt s C_interopDiverged)) = false.
Proof.
  destruct diverged_snapshot as (sn & s & Hsn & Hin). exists sn, s. split; [exact Hsn|]. split; [exact Hin|].
  apply (late_gates_never_fire vq tc (fun _ => "") interop_config diverged_engine sn _ s diverged_reachable Hsn Hin).
Defined.

(** The message that diverged: the worker charges it when it is stopped, an hour
    later, and the run passes with exit code 0. *)
Definition diverged_worker : option InteropWorker :=
  w ← NewCrossProtocolInteropWorker (fun _ => "") DefaultConfig 1;
  Some (Interop.run (Interop.w_reset w) [Interop.APublish 0 (mkEnv 0 (fun _ => 0) 0 (inl "1") false 0 0)]).
Theorem divergence_is_not_gated :
  exists w, diverged_worker = Some w /\
    bw_cnt (base (Interop.StopConsumers (3600 * Second) w)) C_interopDiverged = 1 /\
    let snap := capture_group (fun _ _ => 0) (fun l => Z.of_nat (length l)) WorkerCrossProtocol [base w] in
    exit_code (Some (computeVerdict DefaultConfig (20 * Millisecond) 0 0 [(WorkerCrossProtocol, snap)])) = 0.
Proof. eexists. split; [reflexivity|]. split; vm_compute; reflexivity. Qed.
