(* ===== verification/Clients.v ===== *)
(** * burnin/transport: the clients

    How the harness builds its clients and where they dial: the Pub/Sub, schema
    and low-level subscriber clients, the native KubeMQ client, the environment
    variable the first of them sets for the process, the requests of the
    low-level calls.  What the libraries do with a request is an argument. *)
From S2P Require Import Prelude GoFloat GoFmt Config Metrics Transport Worker.
From S2P Require Import Tracker Payload StreamingPull SchemaEnforce Workers.
From Stdlib Require Import Ascii.

(** ** The environment of the process *)

Definition environment : Type := string -> string.
Definition Setenv (key value : string) (env : environment) : environment :=
  fun k => if String.eqb k key then value else env k.

(** ** Google's clients *)

(** The options of a client: an endpoint reached without authentication, or
    those of the library. *)
Inductive client_options := Insecure (endpoint : string) | LibraryDefaults.
#[global] Instance client_options_eq_dec : EqDecision client_options.
Proof. solve_decision. Defined.
Record dial := mkDial { d_project : string; d_options : client_options }.

Definition default_project (projectID : string) : string := if nonempty projectID then projectID else "burnin".

Section build.
(** The error of the library's constructor, if any. *)
Context (build : dial -> option string).

Definition NewPubSubClient (cfg : PubSubConfig) (env : environment) : environment * result dial :=
  let host := EmulatorHost env (ps_EmulatorHost cfg) "" in
  let env := if nonempty (env EmulatorEnv) then env else Setenv EmulatorEnv host env in
  let d := mkDial (default_project (ps_ProjectID cfg)) (Insecure host) in
  (env, match build d with
        | None => Ok d
        | Some err => Err (Sprintf "create pubsub client (emulator %s): %w" [AStr host; AStr err])
        end).

Definition NewSchemaClient (cfg : PubSubConfig) (env : environment) : result dial :=
  let host := EmulatorHost env (ps_EmulatorHost cfg) "" in
  let d := mkDial (default_project (ps_ProjectID cfg)) (Insecure host) in
  match build d with
  | None => Ok d
  | Some err => Err (Sprintf "create schema client (emulator %s): %w" [AStr host; AStr err])
  end.

Definition EmulatorClientOptions (emulatorHost : string) : client_options :=
  if nonempty emulatorHost then Insecure emulatorHost else LibraryDefaults.
(** The variant of the dead-letter and seek workers. *)
Definition emulatorClientOptions (emulatorHost : string) (env : environment) : client_options :=
  let host := if nonempty emulatorHost then emulatorHost else env EmulatorEnv in
  if nonempty host then Insecure host else LibraryDefaults.

(** The low-level client has no project. *)
Definition NewSubscriberClient (cfg : PubSubConfig) (env : environment) : result dial :=
  let host := EmulatorHost env (ps_EmulatorHost cfg) "" in
  let d := mkDial "" (EmulatorClientOptions host) in
  match build d with
  | None => Ok d
  | Some err => Err (Sprintf "create apiv1 subscriber client (emulator %s): %w" [AStr host; AStr err])
  end.
End build.

(** ** The native client *)

Record native_dial := mkNativeDial { nd_host : string; nd_port : Z; nd_clientID : string }.

Definition DialNative (SplitHostPort : string -> result (string * string)) (connect : native_dial -> option string)
    (cfg : NativeConfig) (env : environment) : result native_dial :=
  '(host, port) ← wrap_err (fun e => Sprintf "parse grpc address: %w" [AStr e])
                   (splitHostPort SplitHostPort (GRPCAddress env (nc_Address cfg)));
  let clientID := if nonempty (nc_ClientID cfg) then nc_ClientID cfg else "burnin-gcp-interop" in
  let d := mkNativeDial host port clientID in
  match connect d with
  | None => Ok d
  | Some err => Err (Sprintf "dial native kubemq: %w" [AStr err])
  end.

(** The client, if it is connected; closing it twice is the library's matter. *)
Record NativeClient (C : Type) := mkNativeClient { nv_client : option C }.
Arguments nv_client {C} _.
Definition NativeClient_Close {C} (close : C -> option string) (n : NativeClient C) : option string :=
  match nv_client n with None => None | Some c => close c end.

Record NativeEvent := mkEvent { ne_Body : list Z; ne_Tags : gmap string string; ne_Sequence : Z }.

(** The callbacks [SubscribeEventsStoreFromNew] registers: a nil event and a
    nil error are dropped, and so is an error without a callback. *)
Definition on_receive {S} (onEvent : NativeEvent -> S -> S) (e : option NativeEvent) (s : S) : S :=
  match e with None => s | Some ev => onEvent ev s end.
Definition on_error {S} (onError : option (string -> S -> S)) (err : option string) (s : S) : S :=
  match onError, err with Some f, Some e => f e s | _, _ => s end.
Definition SubscribeEventsStoreFromNew (channel : string) (subscribe : option string) : option string :=
  (fun err => Sprintf "subscribe events store %s: %w" [AStr channel; AStr err]) <$> subscribe.

(** The outcome of a send: the error of the call, or a response (which may be
    nil) with an error of its own. *)
Definition SendEventStore (outcome : option (option string) + string) : option string :=
  match outcome with
  | inr err => Some (Sprintf "native send event store: %w" [AStr err])
  | inl (Some (Some err)) => Some (Sprintf "native send event store error: %w" [AStr err])
  | inl _ => None
  end.

(** ** Messages *)

(** What the Pub/Sub library does with a message, a topic and a subscription;
    its state is its own.  A callback of [Receive] may use the library too. *)
Record outgoing := mkOutgoing { og_Data : list Z; og_Attributes : gmap string string; og_OrderingKey : string }.
Class SDK (St Msg Topic Sub : Type) := {
  sdk_Publish : Topic -> outgoing -> St -> St * (string + rpc_error);
  sdk_EnableMessageOrdering : Topic -> bool -> St -> St;
  sdk_Receive : Sub -> (Msg -> St -> St) -> St -> St * option rpc_error;
  sdk_Ack : Msg -> St -> St;
  sdk_Nack : Msg -> St -> St;
  sdk_AckWithResult : Msg -> St -> St * (AcknowledgeStatus * option rpc_error)
}.

Section messages.
Context {St Msg Topic Sub : Type} {sdk : SDK St Msg Topic Sub}.

Definition PublishMessage (topic : Topic) (m : outgoing) (s : St) : St * (string + rpc_error) :=
  let '(s', r) := sdk_Publish topic m s in (s', PublishMessageSync r).
Definition PublishSync (topic : Topic) (body : list Z) (attrs : gmap string string) : St -> St * (string + rpc_error) :=
  PublishMessage topic (mkOutgoing body attrs "").
Definition EnableTopicOrdering (topic : Topic) : St -> St := sdk_EnableMessageOrdering topic true.
Definition Receive (sub : Sub) (handler : Msg -> St -> St) : St -> St * option rpc_error := sdk_Receive sub handler.
Definition Ack (m : Msg) : St -> St := sdk_Ack m.
Definition Nack (m : Msg) : St -> St := sdk_Nack m.
Definition AckExactlyOnce (m : Msg) : St -> St * (AcknowledgeStatus * option rpc_error) := sdk_AckWithResult m.

(** A publish without a key takes effect as the library's, its id is kept, and
    its error keeps the code and the reason behind the prefix. *)
Lemma publish_sync_outcome topic body attrs (s : St) :
  let '(s1, r1) := sdk_Publish topic (mkOutgoing body attrs "") s in
  let '(s2, r2) := PublishSync topic body attrs s in
  s2 = s1 /\
  match r1, r2 with
  | inl id, inl id' => id' = id
  | inr e, inr e' => e_code e' = e_code e /\ e_reason e' = e_reason e
  | _, _ => False
  end.
Proof. unfold PublishSync, PublishMessage. destruct (sdk_Publish _ _ s) as [s1 [id|e]]; done. Qed.
End messages.

(** ** Schemas *)

Inductive SchemaType := SchemaAvro | SchemaProtocolBuffer.
Class SchemaAPI (St : Type) := {
  api_CreateSchema : string -> SchemaType -> string -> St -> St * option rpc_error;
  (* a topic bound to a schema by name and encoding *)
  api_CreateTopicWithConfig : string -> string * SchemaEncoding -> St -> St * option rpc_error
}.

Section schemas.
Context {St : Type} {api : SchemaAPI St}.

(** The result is the error; [AlreadyExists] is none. *)
Definition createSchema (schemaID : string) (t : SchemaType) (definition : string) (s : St) : St * option rpc_error :=
  let '(s', err) := api_CreateSchema schemaID t definition s in
  match err with
  | None => (s', None)
  | Some e =>
      if IsAlreadyExists e then (s', None)
      else (s', Some (wrap (fun x => Sprintf "create schema %q: %w" [AStr schemaID; AStr x]) e))
  end.
Definition CreateAvroSchema (schemaID definition : string) := createSchema schemaID SchemaAvro definition.
Definition CreateProtobufSchema (schemaID definition : string) := createSchema schemaID SchemaProtocolBuffer definition.

Definition EnsureTopicWithSchema (topicID : string) (settings : string * SchemaEncoding) (s : St) : St * (string + rpc_error) :=
  let '(s', err) := api_CreateTopicWithConfig topicID settings s in
  match err with
  | None => (s', inl topicID)
  | Some e =>
      if negb (IsAlreadyExists e)
      then (s', inr (wrap (fun x => Sprintf "create topic %q with schema: %w" [AStr topicID; AStr x]) e))
      else (s', inl topicID)
  end.
End schemas.

Definition ValidateMessage (schemaID : string) (err : option rpc_error) : option rpc_error :=
  wrap (fun x => Sprintf "validate message against schema %q: %w" [AStr schemaID; AStr x]) <$> err.

(** ** Seeking; [at_] is the time as RFC 3339 text *)

Definition SeekToTime (subID at_ : string) (err : option rpc_error) : option rpc_error :=
  wrap (fun x => Sprintf "seek %q to time %s: %w" [AStr subID; AStr at_; AStr x]) <$> err.
Definition CreateSnapshot {C} (subID snapshotID : string) (r : C + rpc_error) : C + rpc_error :=
  match r with
  | inl cfg => inl cfg
  | inr e => inr (wrap (fun x => Sprintf "create snapshot %q on %q: %w" [AStr snapshotID; AStr subID; AStr x]) e)
  end.
Definition SeekToSnapshot (subID snapID : string) (err : option rpc_error) : option rpc_error :=
  wrap (fun x => Sprintf "seek %q to snapshot %q: %w" [AStr subID; AStr snapID; AStr x]) <$> err.

(** ** Low-level requests *)

Definition two32 : Z := 2 ^ 32.
(** [int32(n)]. *)
Definition to_int32 (n : Z) : Z := let m := n mod two32 in if m <? 2 ^ 31 then m else m - two32.

Record AcknowledgeRequest := mkAck { ak_Subscription : string; ak_AckIds : list string }.
Record ModifyAckDeadlineRequest := mkModify {
  md_Subscription : string; md_AckIds : list string; md_AckDeadlineSeconds : Z
}.
Definition ModifyAckDeadline (subPath ackID : string) (seconds : Z) : ModifyAckDeadlineRequest :=
  mkModify subPath [ackID] (to_int32 seconds).
Definition CrossStreamAckProbe (subPath ackID : string) : AcknowledgeRequest := mkAck subPath [ackID].
Definition UnaryAckInvalid (Acknowledge : AcknowledgeRequest -> option rpc_error) (subPath ackID : string)
  : AcknowledgeStatus * option rpc_error :=
  let err := Acknowledge (mkAck subPath [ackID]) in (ackStatusFromError err, err).

(** ** Where the clients dial *)

Lemma emulator_host_wins env host addr : nonempty host = true -> EmulatorHost env host addr = host.
Proof. intros H. unfold EmulatorHost. by rewrite H. Qed.

Lemma emulator_host_nonempty env host addr : nonempty (EmulatorHost env host addr) = true.
Proof. unfold EmulatorHost. by repeat case_match. Qed.

Lemma new_client_env build cfg env k :
  k <> EmulatorEnv -> (NewPubSubClient build cfg env).1 k = env k.
Proof.
  intros Hk. unfold NewPubSubClient. cbn [fst]. case_match; [done|]. unfold Setenv.
  by rewrite (proj2 (String.eqb_neq k EmulatorEnv)) by done.
Qed.

(** What the four ways of building a client dial to. *)
Definition endpoints (build : dial -> option string) (cfg : PubSubConfig) (env : environment) : list (result client_options) :=
  [d_options <$> (NewPubSubClient build cfg env).2; d_options <$> NewSchemaClient build cfg env;
   d_options <$> NewSubscriberClient build cfg env; Ok (emulatorClientOptions (ps_EmulatorHost cfg) env)].

(** What is built dials to the host. *)
Definition dials (host : string) (r : result client_options) : Prop :=
  match r with Ok o => o = Insecure host | Err _ => True end.

Lemma configured_endpoints build cfg env :
  nonempty (ps_EmulatorHost cfg) = true -> Forall (dials (ps_EmulatorHost cfg)) (endpoints build cfg env).
Proof.
  intros H. unfold endpoints, NewPubSubClient, NewSchemaClient, NewSubscriberClient, emulatorClientOptions, EmulatorClientOptions.
  rewrite (emulator_host_wins _ _ _ H), H. cbn [snd]. repeat constructor; try case_match; done.
Qed.

(** A worker's clients, high and low level, all dial the host its configuration
    resolved to, whatever has happened to the environment of the process since:
    a client that another worker built, and the variable it set, redirects
    none.  A build changes no other variable, and only the first sets this
    one. *)
Theorem worker_clients_share_endpoint Getenv name channel idx cfg b build env :
  NewBaseWorker Getenv name channel idx cfg = Some b ->
  let ps := bw_psCfg b in
  ps_EmulatorHost ps = EmulatorHost Getenv (gcp_EmulatorHost (c_GCP cfg)) (br_Address (c_Broker cfg)) /\
  Forall (dials (ps_EmulatorHost ps)) (endpoints build ps env) /\
  (forall k, nonempty (env EmulatorEnv) = true \/ k <> EmulatorEnv -> (NewPubSubClient build ps env).1 k = env k) /\
  nonempty ((NewPubSubClient build ps env).1 EmulatorEnv) = true.
Proof.
  intros H. unfold NewBaseWorker in H. apply bind_Some in H as (wc & _ & [= <-]). cbv zeta.
  split; [done|]. split; [apply configured_endpoints, emulator_host_nonempty|]. split.
  - intros k [Hk|Hk]; [|by apply new_client_env]. unfold NewPubSubClient. cbn [fst]. by rewrite Hk.
  - unfold NewPubSubClient. cbn [fst ps_EmulatorHost]. case_match eqn:E; [done|]. apply emulator_host_nonempty.
Qed.

(** Without a configured host, as in the commands, the first client of the
    process resolves one and the variable fixes it for those built later. *)
Theorem first_client_fixes_host build project env :
  let host := EmulatorHost env "" "" in
  let env' := (NewPubSubClient build (mkPubSub project "") env).1 in
  Forall (dials host) (endpoints build (mkPubSub project "") env').
Proof.
  set (host := EmulatorHost env "" "").
  assert (forall e, nonempty (e EmulatorEnv) = true -> e EmulatorEnv = host ->
          Forall (dials host) (endpoints build (mkPubSub project "") e)) as H.
  { intros e Hne He. assert (EmulatorHost e "" "" = host) as E by (unfold EmulatorHost; cbn [nonempty]; by rewrite Hne).
    unfold endpoints, NewPubSubClient, NewSchemaClient, NewSubscriberClient, emulatorClientOptions, EmulatorClientOptions.
    cbn [ps_EmulatorHost ps_ProjectID]. rewrite E. change (nonempty "") with false. cbn iota. rewrite Hne, He.
    assert (nonempty host = true) as -> by apply emulator_host_nonempty.
    cbn [snd]. repeat constructor; try case_match; done. }
  cbv zeta. apply H; unfold NewPubSubClient; cbn [fst ps_EmulatorHost]; case_match eqn:E; try done.
  - apply emulator_host_nonempty.
  - subst host. unfold EmulatorHost. cbn [nonempty]. change (nonempty "") with false. by rewrite E.
Qed.

(** A deadline the connector admits is sent as it is. *)
Lemma to_int32_small n : 0 <= n < 2 ^ 31 -> to_int32 n = n.
Proof. intros H. unfold to_int32, two32. rewrite Z.mod_small by lia. by rewrite (proj2 (Z.ltb_lt n (2 ^ 31))) by lia. Qed.

(** ** Client ids *)

Definition client_id_char (c : ascii) : bool :=
  let n := char_code c in
  ((97 <=? n) && (n <=? 122)) || ((65 <=? n) && (n <=? 90)) || ((48 <=? n) && (n <=? 57)) || Ascii.eqb c "_" || Ascii.eqb c "-".
Fixpoint valid_client_id (s : string) : bool :=
  match s with EmptyString => true | String c s' => client_id_char c && valid_client_id s' end.

Lemma sanitize_valid s : valid_client_id (sanitizeClientID s) = true.
Proof.
  induction s as [|c s IH]; [done|]. cbn [sanitizeClientID valid_client_id]. rewrite IH, andb_true_r.
  unfold client_char. case_match eqn:E; [exact E|reflexivity].
Qed.

(** The native client of a worker has an id the broker admits, so the fallback
    id of [DialNative] is for the commands only. *)
Theorem worker_client_id_valid Getenv name channel idx cfg b SplitHostPort connect env d :
  NewBaseWorker Getenv name channel idx cfg = Some b ->
  DialNative SplitHostPort connect (bw_nativeCfg b) env = Ok d ->
  valid_client_id (nd_clientID d) = true /\ nd_clientID d = nc_ClientID (bw_nativeCfg b) /\ nonempty (nd_clientID d) = true.
Proof.
  intros H. unfold NewBaseWorker in H. apply bind_Some in H as (wc & _ & H).
  apply (inj Some) in H as <-. unfold DialNative.
  cbn [bw_nativeCfg nc_Address nc_ClientID]. destruct (splitHostPort _ _) as [[host port]|e]; cbn [wrap_err mbind result_bind]; [|done].
  assert (nonempty (sanitizeClientID (br_ClientIDPrefix (c_Broker cfg) +:+ "-" +:+ channel)) = true) as Hn.
  { destruct (br_ClientIDPrefix (c_Broker cfg)); reflexivity. }
  rewrite Hn. destruct (connect _); [done|]. intros [= <-]. cbn [nd_clientID]. split; [apply sanitize_valid|done].
Qed.
