(* ===== verification/Api.v ===== *)
(** * burnin/api, burnin/server and the adapter of main.go

    The run request and its overlay on the startup configuration, the control
    handlers with the engine behind them, the read models, and how the process
    ends.  HTTP and the JSON codec are Go's: a handler is a function from the
    decoded request to a status code, the error or state it reports, and the
    engine it leaves. *)
From S2P Require Import Prelude GoFloat GoFmt Config ConfigProps Payload Tracker Metrics Transport Worker.
From S2P Require Import Verdict Report Handlers Engine.
From Stdlib Require Import SpecFloat Ascii.

(** ** The overlay (api/models.go) *)

Record RunConfig := mkRunConfig {
  rq_Duration : string;
  rq_Mode : string;
  rq_GCP : option GCPConfig;
  rq_Workers : option WorkersConfig;
  rq_Message : option MessageConfig;
  rq_Thresholds : option ThresholdsConfig;
  rq_ForcedDisconnect : option ForcedDisconnConfig
}.

(** [encoding/json] refuses a float that is not finite, with its text. *)
Definition unsupported (x : float64) : option string :=
  match x with
  | S754_nan => Some "NaN"
  | S754_infinity false => Some "+Inf"
  | S754_infinity true => Some "-Inf"
  | _ => None
  end.
Definition threshold_floats (t : ThresholdsConfig) : list float64 :=
  [th_MaxLossPct t; th_MaxDuplicationPct t; th_MaxP50LatencyMS t; th_MaxP95LatencyMS t; th_MaxP99LatencyMS t;
   th_MaxP999LatencyMS t; th_MinThroughputPct t; th_MaxErrorRatePct t; th_MaxMemoryGrowthFactor t; th_MaxDowntimePct t].
(** The floats of a configuration in the order of its fields. *)
Definition config_floats (c : Config) : list float64 :=
  [gcp_NackFraction (c_GCP c); rc_ReconnectMultiplier (c_Recovery c)] ++ threshold_floats (c_Thresholds c).
Definition request_floats (r : RunConfig) : list float64 :=
  match rq_GCP r with Some g => [gcp_NackFraction g] | None => [] end ++
  match rq_Thresholds r with Some t => threshold_floats t | None => [] end.
Definition marshal (label : string) (fs : list float64) : result () :=
  match omap unsupported fs with
  | [] => Ok ()
  | t :: _ => Err (Sprintf "%s: json: unsupported value: %s" [AStr label; AStr t])
  end.

(** A configuration through JSON and back: the fields tagged [json:"-"] are
    lost, the others kept (strings are UTF-8). *)
Definition json_copy (c : Config) : Config :=
  mkConfig (c_Version c) (c_Broker c) (c_Mode c) (c_Duration c) (c_RunID c) (c_WarmupDuration c) (c_GCP c) (c_Workers c)
    (c_Message c) (c_Metrics c) (c_Logging c) (c_ForcedDisconnect c) (c_Recovery c) (c_Shutdown c) (c_Output c)
    (c_Thresholds c) (c_Warmup c) (c_CORS c) 0 0 0 0 0 0 0 0 [].

(** A request through JSON onto a configuration: what is empty or nil is
    omitted, a block that is there replaces all of the base's. *)
Definition overlay (r : RunConfig) (c : Config) : Config :=
  mkConfig (c_Version c) (c_Broker c) (if nonempty (rq_Mode r) then rq_Mode r else c_Mode c)
    (if nonempty (rq_Duration r) then rq_Duration r else c_Duration c) (c_RunID c) (c_WarmupDuration c)
    (default (c_GCP c) (rq_GCP r)) (default (c_Workers c) (rq_Workers r)) (default (c_Message c) (rq_Message r))
    (c_Metrics c) (c_Logging c) (default (c_ForcedDisconnect c) (rq_ForcedDisconnect r)) (c_Recovery c) (c_Shutdown c)
    (c_Output c) (default (c_Thresholds c) (rq_Thresholds r)) (c_Warmup c) (c_CORS c)
    (c_DurationParsed c) (c_WarmupDurationParsed c) (c_ReportIntervalParsed c) (c_ForcedDisconnInterval c)
    (c_ForcedDisconnDuration c) (c_ReconnectInterval c) (c_ReconnectMaxInterval c) (c_MaxDurationParsed c) (c_Warnings c).

(** [random4] are the bytes [RandomRunID] draws. *)
Definition ToInternalConfig (r : RunConfig) (base : Config) (random4 : list Z) : result Config :=
  _ ← marshal "marshal base config" (config_floats base);
  let cfg := json_copy base in
  _ ← marshal "marshal run config" (request_floats r);
  let cfg := overlay r cfg in
  cfg ← wrap_err (fun e => Sprintf "parse durations: %w" [AStr e]) (parseDurations cfg);
  let cfg := if nonempty (c_RunID cfg) then cfg else set_c_RunID cfg (RandomRunID random4) in
  match hard_errors cfg with
  | e :: _ => Err (Sprintf "config validation: %v" [AStr e])
  | [] => Ok cfg
  end.

(** ** Starting and stopping (main.go's adapter, server.go) *)

Definition set_emulator (c : Config) (host : string) : Config :=
  let g := c_GCP c in
  mkConfig (c_Version c) (c_Broker c) (c_Mode c) (c_Duration c) (c_RunID c) (c_WarmupDuration c)
    (mkGCP (gcp_ProjectID g) host (gcp_AckDeadlineSeconds g) (gcp_EnableMessageOrdering g) (gcp_EnableExactlyOnce g)
       (gcp_Filter g) (gcp_DeadLetterTopic g) (gcp_MaxDeliveryAttempts g) (gcp_FanoutSubscriptions g) (gcp_BatchSize g)
       (gcp_SchemaType g) (gcp_SchemaEncoding g) (gcp_NackFraction g) (gcp_MaxOutstandingBytes g)
       (gcp_InflightBacklogTarget g) (gcp_SeekReplayCount g) (gcp_ExactlyOnceProbe g) (gcp_LeaseExtendProbe g)
       (gcp_CrossStreamProbe g) (gcp_FlowControlProbe g) (gcp_RetryBackoffProbe g) (gcp_BatchAtomicityProbe g))
    (c_Workers c) (c_Message c) (c_Metrics c) (c_Logging c) (c_ForcedDisconnect c) (c_Recovery c) (c_Shutdown c) (c_Output c)
    (c_Thresholds c) (c_Warmup c) (c_CORS c) (c_DurationParsed c) (c_WarmupDurationParsed c) (c_ReportIntervalParsed c)
    (c_ForcedDisconnInterval c) (c_ForcedDisconnDuration c) (c_ReconnectInterval c) (c_ReconnectMaxInterval c)
    (c_MaxDurationParsed c) (c_Warnings c).

(** The endpoint is filled in when the configuration has none. *)
Definition resolve_emulator (Getenv : string -> string) (c : Config) : Config :=
  if nonempty (gcp_EmulatorHost (c_GCP c)) then c
  else set_emulator c (EmulatorHost Getenv "" (br_Address (c_Broker c))).

Section control.
Context {W : Type} {HB : HasBase W} (Getenv : string -> string).
Notation engine := (@Engine W).

(** [random4] and [rid] are the ids that would be drawn by the overlay and by
    the engine. *)
Definition StartRun (r : RunConfig) (startup : Config) (random4 : list Z) (rid : string) (now : Z) (e : engine)
  : result engine :=
  cfg ← wrap_err (fun t => Sprintf "convert run config: %w" [AStr t]) (ToInternalConfig r startup random4);
  StartRunFromConfig (resolve_emulator Getenv cfg) rid now e.

(** A reply: the status and the text of its [error] or [state] entry. *)
Definition reply : Type := Z * string.

Definition startable (s : run_state) : bool :=
  match s with StateIdle | StateStopped | StateError => true | _ => false end.

(** [seen] is the state [State] returned; the engine may have moved on since. *)
Definition handleRunStart (post : bool) (seen : run_state) (r : RunConfig) (startup : Config) (random4 : list Z)
    (rid : string) (now : Z) (e : engine) : reply * engine :=
  if negb post then ((405, "method not allowed"), e)
  else if negb (startable seen) then ((409, Sprintf "cannot start run in state %q" [AStr (state_name seen)]), e)
  else match StartRun r startup random4 rid now e with
  | Err t => ((500, t), e)
  | Ok e' => ((202, "starting"), e')
  end.

Definition handleRunStop (post : bool) (e : engine) : reply * engine :=
  if negb post then ((405, "method not allowed"), e)
  else match StopRun e with
  | Err t => ((409, t), e)
  | Ok e' => ((202, "stopping"), e')
  end.

Definition handleRunConfig (e : engine) : Z * option Config :=
  match e_runCfg e with None => (404, None) | Some c => (200, Some c) end.

(** ** The read models *)

Record WorkerStatus := mkStatus { ws_Sent : Z; ws_Received : Z; ws_Errors : Z; ws_Rate : float64 }.
Record RunStatus_ := mkRunStatus {
  rs_State : string; rs_RunID : string; rs_Uptime : float64; rs_Workers : gmap string WorkerStatus
}.

Definition total_of (c : counter) (ws : list W) : Z := u64 (zsum ((fun w => bw_cnt (base w) c) <$> ws)).

Definition status_of (ws : list W) : WorkerStatus :=
  mkStatus (total_of C_sent ws) (total_of C_received ws) (total_of C_errors ws)
    (foldl (fun r w => fadd r (sw_Rate (bw_rate (base w)))) f0 ws).

Definition uptime (now : Z) (e : engine) : float64 :=
  match e_runStartedAt e with Some t => Seconds (time_Sub now t) | None => f0 end.

Definition RunStatus (now : Z) (e : engine) : RunStatus_ :=
  mkRunStatus (state_name (e_state e)) (e_runID e) (uptime now e) (status_of <$> e_groups e).

Record WorkerSnapshot_ := mkSnapshot_ {
  wk_ID : string; wk_Worker : string; wk_Channel : string; wk_Sent : Z; wk_Received : Z; wk_Errors : Z; wk_Rate : float64
}.
Record MetricsSnapshot := mkMetricsSnapshot {
  ms_TotalSent : Z; ms_TotalReceived : Z; ms_TotalErrors : Z; ms_TotalLost : Z; ms_TotalCorrupted : Z;
  ms_TotalDuplicated : Z; ms_FanoutDeliveries : Z; ms_FanoutDropped : Z; ms_UptimeSeconds : float64
}.

Definition instance_of (w : W) : WorkerSnapshot_ :=
  let b := base w in
  mkSnapshot_ (Sprintf "%s/%s" [AStr (bw_name b); AStr (bw_channelName b)]) (bw_name b) (bw_channelName b)
    (bw_cnt b C_sent) (bw_cnt b C_received) (bw_cnt b C_errors) (sw_Rate (bw_rate b)).

(** Every worker, in the order Go happens to range over the groups. *)
Definition all_workers (g : groups (W := W)) : list W := concat (snd <$> map_to_list g).

Definition run_metrics (now : Z) (e : engine) : MetricsSnapshot :=
  let ws := all_workers (e_groups e) in
  mkMetricsSnapshot (total_of C_sent ws) (total_of C_received ws) (total_of C_errors ws)
    (u64 (zsum ((fun w => TotalLost (bw_trk (base w))) <$> ws)))
    (total_of C_corrupted ws) (total_of C_duplicated ws) (total_of C_fanoutDeliveries ws) (total_of C_fanoutDropped ws)
    (uptime now e).

(** [built] is whether the map of groups has been made: it is nil until the
    first run builds its workers, and the snapshot then leaves its metrics, the
    uptime included, at zero. *)
Definition RunSnapshot (built : bool) (now : Z) (e : engine)
  : string * string * option Config * gmap string (list WorkerSnapshot_) * MetricsSnapshot :=
  (state_name (e_state e), e_runID e, e_runCfg e,
   if built then (fun ws : list W => instance_of <$> ws) <$> e_groups e else ∅,
   if built then run_metrics now e else mkMetricsSnapshot 0 0 0 0 0 0 0 0 f0).
End control.

(** ** How the process ends (main.go) *)

(** [-validate-config]. *)
Definition validate_exit (cfg : Config) : Z :=
  if existsb (fun e => negb (is_warning e)) (Validate cfg) then 1 else 0.

(** What [waitForExit] meets: a signal, or a tick at which the engine is in a
    state. *)
Inductive exit_event := ESignal | ETick (s : run_state).

(** Whether it has returned after these events. *)
Fixpoint waitForExit (bounded : bool) (evs : list exit_event) : bool :=
  match evs with
  | [] => false
  | ESignal :: _ => true
  | ETick s :: evs' =>
      if bounded && (bool_decide (s = StateStopped) || bool_decide (s = StateError)) then true
      else waitForExit bounded evs'
  end.
Definition bounded_run (autoRun : bool) (cfg : Config) : bool := autoRun && (0 <? c_DurationParsed cfg).

(** [strings.ToLower]; of the characters it maps to the letters compared with
    below, only the ASCII capitals are others. *)
Definition lower_char (c : ascii) : ascii :=
  let n := char_code c in if (65 <=? n) && (n <=? 90) then char_of (n + 32) else c.
Fixpoint ToLower (s : string) : string :=
  match s with EmptyString => "" | String c s' => String (lower_char c) (ToLower s') end.

Inductive level := LevelDebug | LevelInfo | LevelWarn | LevelError.
Definition parseLogLevel (s : string) : level :=
  let l := ToLower s in
  if String.eqb l "debug" then LevelDebug
  else if String.eqb l "warn" || String.eqb l "warning" then LevelWarn
  else if String.eqb l "error" then LevelError
  else LevelInfo.

(** ** Durations of a fresh copy *)

(** What a duration field is parsed to. *)
Definition parsed (skip : bool) (text : string) : result Z := if skip then Ok 0 else parseDuration text.

(** The assigned field, and any other. *)
Lemma parse_field_get (get : Config -> Z) skip text label set c c' :
  (forall c d, get (set c d) = d) -> get c = 0 -> parse_field skip text label set c = Ok c' -> parsed skip text = Ok (get c').
Proof.
  intros Hs H0. unfold parse_field, parsed. destruct skip; [intros [= <-]; by rewrite H0|].
  destruct (parseDuration text) as [d|]; cbn; [|done]. intros [= <-]. by rewrite Hs.
Qed.

Lemma parse_field_frame {A} (g : Config -> A) skip text label set c c' :
  (forall c d, g (set c d) = g c) -> parse_field skip text label set c = Ok c' -> g c' = g c.
Proof.
  intros Hs. unfold parse_field. destruct skip; [by intros [= <-]|]. destruct (parseDuration text); cbn; [|done].
  intros [= <-]. apply Hs.
Qed.

(** Carry a field back over the assignments of others. *)
Ltac frames g :=
  repeat match goal with
  | E : parse_field ?a ?b ?l ?s ?c = Ok ?x |- context [g ?x] => rewrite (parse_field_frame g a b l s c x ltac:(done) E)
  end.

(** Every parsed duration agrees with its text. *)
Record durations_fresh (c : Config) : Prop := {
  df_duration : parsed (String.eqb (c_Duration c) "" || String.eqb (c_Duration c) "0") (c_Duration c) = Ok (c_DurationParsed c);
  df_warmup : parsed (String.eqb (c_WarmupDuration c) "") (c_WarmupDuration c) = Ok (c_WarmupDurationParsed c);
  df_report : parsed (String.eqb (mt_ReportInterval (c_Metrics c)) "") (mt_ReportInterval (c_Metrics c)) = Ok (c_ReportIntervalParsed c);
  df_disconnect : parsed (String.eqb (fd_Interval (c_ForcedDisconnect c)) "" || String.eqb (fd_Interval (c_ForcedDisconnect c)) "0")
                    (fd_Interval (c_ForcedDisconnect c)) = Ok (c_ForcedDisconnInterval c);
  df_outage : parsed (String.eqb (fd_Duration (c_ForcedDisconnect c)) "") (fd_Duration (c_ForcedDisconnect c)) = Ok (c_ForcedDisconnDuration c)
}.

(** A copy through JSON has no parsed durations: parsing makes them all fresh
    and changes nothing else. *)
Definition unparsed (c : Config) : Prop :=
  c_DurationParsed c = 0 /\ c_WarmupDurationParsed c = 0 /\ c_ReportIntervalParsed c = 0 /\
  c_ForcedDisconnInterval c = 0 /\ c_ForcedDisconnDuration c = 0 /\ c_ReconnectInterval c = 0 /\
  c_ReconnectMaxInterval c = 0 /\ c_MaxDurationParsed c = 0.

Ltac fresh_field text get :=
  frames text; frames get;
  match goal with
  | E : parse_field ?a ?b ?l ?s ?c = Ok ?x |- _ = Ok (get ?x) =>
      let P := fresh in
      assert (parsed a b = Ok (get x)) as P
        by (apply (parse_field_get get a b l s c x ltac:(done)); [frames get; assumption|exact E]);
      revert P; frames text; exact id
  end.

Lemma parseDurations_fresh c c' :
  parseDurations c = Ok c' -> unparsed c ->
  durations_fresh c' /\ json_copy c' = json_copy c /\ c_Warnings c' = c_Warnings c.
Proof.
  unfold parseDurations. cbv zeta. intros H (U1 & U2 & U3 & U4 & U5 & _).
  do 7 match type of H with
  | (?m ≫= _) = Ok _ => let E := fresh "E" in destruct m eqn:E; cbn [mbind result_bind] in H; [|done]
  end.
  split; [|split; [frames json_copy|frames c_Warnings]; done].
  split;
    [fresh_field c_Duration c_DurationParsed|fresh_field c_WarmupDuration c_WarmupDurationParsed
    |fresh_field c_Metrics c_ReportIntervalParsed|fresh_field c_ForcedDisconnect c_ForcedDisconnInterval
    |fresh_field c_ForcedDisconnect c_ForcedDisconnDuration].
Qed.

(** ** The overlay *)

(** A request that is accepted held no float JSON cannot
    carry, and neither did the startup configuration; the merged configuration
    has no hard error; it is the request's blocks over the startup ones, with
    every duration parsed from the merged text and none carried over from the
    startup run; and its run id is the startup configuration's whenever that
    has one. *)
Theorem overlay_spec r c random4 cfg :
  ToInternalConfig r c random4 = Ok cfg ->
  omap unsupported (config_floats c ++ request_floats r) = [] /\ hard_errors cfg = [] /\ durations_fresh cfg /\
  c_RunID cfg = (if nonempty (c_RunID c) then c_RunID c else RandomRunID random4) /\
  c_GCP cfg = default (c_GCP c) (rq_GCP r) /\ c_Workers cfg = default (c_Workers c) (rq_Workers r) /\
  c_Message cfg = default (c_Message c) (rq_Message r) /\ c_Thresholds cfg = default (c_Thresholds c) (rq_Thresholds r) /\
  c_ForcedDisconnect cfg = default (c_ForcedDisconnect c) (rq_ForcedDisconnect r) /\
  c_Duration cfg = (if nonempty (rq_Duration r) then rq_Duration r else c_Duration c) /\
  c_Broker cfg = c_Broker c /\ c_Warnings cfg = [].
Proof.
  unfold ToInternalConfig, marshal.
  destruct (omap unsupported (config_floats c)) as [|t l] eqn:E1; cbn [mbind result_bind]; [|done].
  destruct (omap unsupported (request_floats r)) as [|t l] eqn:E2; cbn [mbind result_bind]; [|done].
  destruct (parseDurations (overlay r (json_copy c))) as [c1|] eqn:Ep; cbn [wrap_err mbind result_bind]; [|done].
  destruct (parseDurations_fresh _ _ Ep) as (Hf & Hj & Hw); [done|].
  set (c2 := if nonempty (c_RunID c1) then c1 else set_c_RunID c1 (RandomRunID random4)).
  destruct (hard_errors c2) as [|e l] eqn:Eh; [|done]. intros [= <-].
  split; [by rewrite omap_app, E1, E2|]. split; [done|].
  pose proof (f_equal c_RunID Hj) as J1. pose proof (f_equal c_GCP Hj) as J2. pose proof (f_equal c_Workers Hj) as J3.
  pose proof (f_equal c_Message Hj) as J4. pose proof (f_equal c_Thresholds Hj) as J5.
  pose proof (f_equal c_ForcedDisconnect Hj) as J6. pose proof (f_equal c_Duration Hj) as J7.
  pose proof (f_equal c_Broker Hj) as J8.
  cbn [json_copy overlay c_RunID c_GCP c_Workers c_Message c_Thresholds c_ForcedDisconnect c_Duration c_Broker] in *.
  assert (c2 = c1 \/ c2 = set_c_RunID c1 (RandomRunID random4)) as Hc by (unfold c2; case_if; auto).
  assert (c_RunID c2 = if nonempty (c_RunID c) then c_RunID c else RandomRunID random4) as Hr.
  { unfold c2. rewrite J1. by destruct (nonempty (c_RunID c)) eqn:E; [rewrite <- J1 in *|]. }
  split; [by destruct Hc as [-> | ->]; [|destruct Hf; split]|]. split; [exact Hr|].
  destruct Hc as [-> | ->]; cbn; repeat split; assumption.
Qed.

(** The request of an empty body on the default configuration. *)
Definition empty_request : RunConfig := mkRunConfig "" "" None None None None None.

Lemma overlay_spec_witness :
  exists cfg, ToInternalConfig (mkRunConfig "5m" "" None None None None None) DefaultConfig [1; 2; 3; 4] = Ok cfg /\
  c_DurationParsed cfg = 5 * Minute /\ c_RunID cfg = "01020304".
Proof.
  assert (exists cfg, ToInternalConfig (mkRunConfig "5m" "" None None None None None) DefaultConfig [1; 2; 3; 4] = Ok cfg)
    as [cfg E] by (eexists; vm_compute; reflexivity).
  exists cfg. split; [exact E|].
  destruct (overlay_spec _ _ _ _ E) as (_ & _ & Hf & Hr & _ & _ & _ & _ & _ & Hd & _).
  split; [|rewrite Hr; reflexivity].
  pose proof (df_duration _ Hf) as P. rewrite Hd in P. vm_compute in P. injection P as P. symmetry. exact P.
Defined.

(** ** Control *)

Section control_props.
Context {W : Type} {HB : HasBase W} (Getenv : string -> string).

(** The start handler answers 202 only when it started a run, of
    a configuration that passed validation, on an engine that had no run in
    progress; the engine is then starting, with that configuration and a run id
    that is not empty unless one was drawn empty.  With any other status the
    engine is untouched.  It never answers 202 or 500 when it saw a run in
    progress. *)
Theorem start_handler_sound post seen r startup random4 rid now (e : Engine (W := W)) :
  let '((status, _), e') := handleRunStart Getenv post seen r startup random4 rid now e in
  (status <> 202 -> e' = e) /\
  (status = 202 ->
     post = true /\ startable (e_state e) = true /\ e_state e' = StateStarting /\
     exists cfg, ToInternalConfig r startup random4 = Ok cfg /\ hard_errors cfg = [] /\
       e_runCfg e' = Some (resolve_emulator Getenv cfg) /\
       e_runID e' = (if nonempty (c_RunID cfg) then c_RunID cfg else rid)) /\
  (startable seen = false -> status = 405 \/ status = 409).
Proof.
  unfold handleRunStart. destruct post; cbn [negb].
  2: { split; [done|]. split; [done|]. by left. }
  destruct (startable seen) eqn:Hs; cbn [negb].
  2: { split; [done|]. split; [done|]. by right. }
  unfold StartRun. destruct (ToInternalConfig r startup random4) as [cfg|t] eqn:Ec; cbn [wrap_err mbind result_bind].
  2: { split; [done|]. split; [done|]. done. }
  destruct (StartRunFromConfig _ rid now e) as [e'|t] eqn:Es.
  2: { split; [done|]. split; [done|]. done. }
  split; [done|]. split; [|done]. intros _. split; [done|].
  assert (hard_errors cfg = []) as Hh.
  { revert Ec. clear. unfold ToInternalConfig.
    destruct (marshal _ (config_floats _)); cbn [mbind result_bind]; [|done].
    destruct (marshal _ _); cbn [mbind result_bind]; [|done].
    destruct (parseDurations _); cbn [wrap_err mbind result_bind]; [|done].
    match goal with |- context [hard_errors ?c] => destruct (hard_errors c) eqn:E; [|done] end. by intros [= <-]. }
  assert (c_RunID (resolve_emulator Getenv cfg) = c_RunID cfg) as Hr by (unfold resolve_emulator; by case_if).
  unfold StartRunFromConfig in Es. rewrite Hr in Es.
  destruct (e_state e); try done; injection Es as <-; (split; [done|]); (split; [done|]); exists cfg; done.
Qed.

(** The totals of the snapshot are the sums of the per-worker status, whatever
    order the groups are ranged over in. *)
Lemma total_of_app c (l1 l2 : list W) : total_of c (l1 ++ l2) = total_of c l1 +u total_of c l2.
Proof. unfold total_of, uadd, u64. rewrite fmap_app, zsum_app. by rewrite <- Zplus_mod. Qed.

Lemma total_of_concat c (ls : list (list W)) : total_of c (concat ls) = u64 (zsum (total_of c <$> ls)).
Proof.
  induction ls as [|l ls IH]; [done|]. cbn [concat fmap list_fmap zsum]. rewrite total_of_app, IH.
  unfold uadd, u64. by rewrite Zplus_mod_idemp_r.
Qed.

Theorem snapshot_totals_agree now (e : Engine (W := W)) :
  let st := RunStatus now e in
  ms_TotalSent (run_metrics now e) = u64 (zsum (ws_Sent <$> (snd <$> map_to_list (rs_Workers st)))) /\
  ms_TotalReceived (run_metrics now e) = u64 (zsum (ws_Received <$> (snd <$> map_to_list (rs_Workers st)))) /\
  ms_TotalErrors (run_metrics now e) = u64 (zsum (ws_Errors <$> (snd <$> map_to_list (rs_Workers st)))).
Proof.
  cbv zeta. unfold RunStatus, run_metrics, all_workers. cbn [rs_Workers ms_TotalSent ms_TotalReceived ms_TotalErrors].
  rewrite !total_of_concat, map_to_list_fmap, <- !list_fmap_compose. done.
Qed.
End control_props.
