(* ===== verification/Server.v ===== *)
(** * burnin/server: the control server

    The routes of the server, its middleware and handlers, with the engine
    behind them: a request is its method, its path and what the decoder made of
    its body; a response is a status, headers and the value that is encoded.
    [net/http] is Go's: listening, reading and writing are left out, and paths
    are those the multiplexer does not redirect. *)
From S2P Require Import Prelude GoFloat GoFmt Config ConfigProps Payload Tracker Metrics Transport Worker.
From S2P Require Import Verdict Report Handlers OrderingKeys Engine EngineProps Api.
From Stdlib Require Import SpecFloat Ascii.

Record Request := mkRequest { rq_Method : string; rq_Path : string; rq_Config : RunConfig }.

(** What is encoded into a body. *)
Inductive body :=
| BEmpty
| BText (text : string)
| BMap (entries : list (string * string))
| BStatus (status : RunStatus_)
| BConfig (cfg : Config)
| BReport (summary : Summary) (verdict : Report.Verdict)
| BSnapshot (state runID : string) (cfg : option Config) (workers : gmap string (list WorkerSnapshot_)) (m : MetricsSnapshot)
| BMetrics.

(** The floats of a value: [encoding/json] refuses a value in which one is not
    finite. *)
Definition stats_floats (s : WorkerStats) : list float64 :=
  [st_LossPct s; st_DowntimeSeconds s; st_LatencyP50MS s; st_LatencyP95MS s; st_LatencyP99MS s; st_LatencyP999MS s;
   st_AvgRate s; st_PeakRate s].
Definition summary_floats (s : Summary) : list float64 :=
  [su_DurationSeconds s] ++ concat ((fun e => stats_floats e.2) <$> su_Workers s) ++
  [PeakRSSMB (su_Resources s); BaselineRSSMB (su_Resources s); MemoryGrowthFactor (su_Resources s)].
Definition verdict_floats (v : Report.Verdict) : list float64 :=
  concat ((fun e : string * CheckResult => [ck_Value e.2; ck_Threshold e.2]) <$> map_to_list (rv_Checks v)).
Definition body_floats (b : body) : list float64 :=
  match b with
  | BStatus s => rs_Uptime s :: ((fun e : string * WorkerStatus => ws_Rate e.2) <$> map_to_list (rs_Workers s))
  | BConfig c => config_floats c
  | BReport s v => summary_floats s ++ verdict_floats v
  | BSnapshot _ _ cfg ws m =>
      match cfg with Some c => config_floats c | None => [] end ++
      concat ((fun e : string * list WorkerSnapshot_ => wk_Rate <$> e.2) <$> map_to_list ws) ++ [ms_UptimeSeconds m]
  | _ => []
  end.

Record Response := mkResponse { rs_Status : Z; rs_Headers : list (string * string); rs_Body : body }.

(** [writeJSON]: the status goes out first, and a value that cannot be encoded
    leaves the body empty. *)
Definition writeJSON (status : Z) (v : body) : Response :=
  mkResponse status [("Content-Type", "application/json")]
    (match omap unsupported (body_floats v) with [] => v | _ => BEmpty end).

Section server.
Context {W : Type} {HB : HasBase W} (Getenv : string -> string).
Notation engine := (@Engine W).

(** What a handler reads besides the request: the state [State] returned (the
    engine may have moved on since), the draws of the ids, the time, and
    whether the groups have been built. *)
Record serve_env := mkServe { sv_seen : run_state; sv_random4 : list Z; sv_rid : string; sv_now : Z; sv_built : bool }.

Definition handleHealth : Response := writeJSON 200 (BMap [("status", "alive")]).
Definition handleReady (seen : run_state) : Response :=
  writeJSON 200 (BMap [("status", "ready"); ("state", state_name seen)]).
Definition handleInfo (cfg : Config) : Response :=
  let emulator := gcp_EmulatorHost (c_GCP cfg) in
  let emulator := if nonempty emulator then emulator else br_Address (c_Broker cfg) in
  writeJSON 200 (BMap [("connector", "gcp-pub-sub"); ("sdk", SDK); ("version", out_SDKVersion (c_Output cfg));
    ("broker", br_Address (c_Broker cfg)); ("endpoint", emulator); ("project_id", gcp_ProjectID (c_GCP cfg));
    ("port", Itoa (mt_Port (c_Metrics cfg)))]).

(** The entries the start and stop handlers write, by status. *)
Definition start_reply (r : reply) (seen : run_state) (e' : engine) : Response :=
  writeJSON (fst r) (BMap
    (if fst r =? 202 then [("status", snd r); ("run_id", e_runID e')]
     else if fst r =? 409 then [("error", snd r); ("state", state_name seen)]
     else [("error", snd r)])).
Definition stop_reply (r : reply) : Response :=
  writeJSON (fst r) (BMap (if fst r =? 202 then [("state", snd r)] else [("error", snd r)])).

Definition handleRunStatus (env : serve_env) (e : engine) : Response := writeJSON 200 (BStatus (RunStatus (sv_now env) e)).

Definition config_reply (e : engine) : Response :=
  match handleRunConfig e with
  | (status, Some c) => writeJSON status (BConfig c)
  | (status, None) => writeJSON status (BMap [("error", "no active or completed run")])
  end.

(** The adapter's view of the engine. *)
Definition engine_view (e : engine) : EngineView :=
  mkView (e_runID e) (e_runStartedAt e) (e_runEndedAt e) (e_snapshots e) (e_baselineRSS e) (e_peakRSS e) (e_verdict e).
Definition handleRunReport (startup : Config) (e : engine) : Response :=
  match RunReport (default startup (e_runCfg e)) (engine_view e) with
  | None => writeJSON 404 (BMap [("error", "no report available (run not stopped)")])
  | Some (summary, verdict) => writeJSON 200 (BReport summary verdict)
  end.

Definition handleRunSnapshot (env : serve_env) (e : engine) : Response :=
  let '(state, runID, cfg, ws, m) := RunSnapshot (sv_built env) (sv_now env) e in
  writeJSON 200 (BSnapshot state runID cfg ws m).

(** The multiplexer: the patterns match whole paths. *)
Definition mux (startup : Config) (env : serve_env) (req : Request) (e : engine) : Response * engine :=
  let path := rq_Path req in
  let post := String.eqb (rq_Method req) "POST" in
  if String.eqb path "/health" then (handleHealth, e)
  else if String.eqb path "/ready" then (handleReady (sv_seen env), e)
  else if String.eqb path "/info" then (handleInfo startup, e)
  else if String.eqb path "/metrics" then (mkResponse 200 [] BMetrics, e)
  else if String.eqb path "/run/start" then
    let '(r, e') := handleRunStart Getenv post (sv_seen env) (rq_Config req) startup (sv_random4 env) (sv_rid env) (sv_now env) e in
    (start_reply r (sv_seen env) e', e')
  else if String.eqb path "/run/stop" then let '(r, e') := handleRunStop post e in (stop_reply r, e')
  else if String.eqb path "/run/status" then (handleRunStatus env e, e)
  else if String.eqb path "/run/config" then (config_reply e, e)
  else if String.eqb path "/run/report" then (handleRunReport startup e, e)
  else if String.eqb path "/run" then (handleRunSnapshot env e, e)
  else (mkResponse 404 [] (BText "404 page not found"), e).

Definition cors_headers (cfg : Config) : list (string * string) :=
  let origins := cors_Origins (c_CORS cfg) in
  [("Access-Control-Allow-Origin", if nonempty origins then origins else "*");
   ("Access-Control-Allow-Methods", "GET, POST, OPTIONS"); ("Access-Control-Allow-Headers", "Content-Type, Accept")].
Definition corsMiddleware (cfg : Config) (method : string) (next : Response * engine) (e : engine) : Response * engine :=
  if String.eqb method "OPTIONS" then (mkResponse 204 (cors_headers cfg) BEmpty, e)
  else (mkResponse (rs_Status next.1) (cors_headers cfg ++ rs_Headers next.1) (rs_Body next.1), next.2).

Definition serve (startup : Config) (env : serve_env) (req : Request) (e : engine) : Response * engine :=
  corsMiddleware startup (rq_Method req) (mux startup env req e) e.
End server.

(** ** What a client can rely on *)

Section server_props.
Context {W : Type} {HB : HasBase W} (Getenv : string -> string).
Notation engine := (@Engine W).

(** The stop handler. *)
Lemma stop_handler_sound post (e : engine) :
  let '((status, _), e') := handleRunStop post e in
  (status <> 202 /\ e' = e) \/
  (status = 202 /\ post = true /\ (e_state e = StateStarting \/ e_state e = StateRunning) /\
   e' = match e_runCancel e with Some k => cancel e k | None => e end).
Proof.
  unfold handleRunStop, StopRun. destruct post; cbn [negb]; [|by left]. destruct (e_state e); (by left) || right; auto.
Qed.

(** A change of the engine by a request, with the answer to it. *)
Definition accepted (startup : Config) (env : serve_env) (req : Request) (resp : Response) (e e' : engine) : Prop :=
  rs_Status resp = 202 /\ rq_Method req = "POST" /\
  ((rq_Path req = "/run/start" /\ startable (e_state e) = true /\ e_state e' = StateStarting /\
    rs_Body resp = BMap [("status", "starting"); ("run_id", e_runID e')] /\
    exists cfg, ToInternalConfig (rq_Config req) startup (sv_random4 env) = Ok cfg /\ hard_errors cfg = [] /\
      e_runCfg e' = Some (resolve_emulator Getenv cfg)) \/
   (rq_Path req = "/run/stop" /\ (e_state e = StateStarting \/ e_state e = StateRunning) /\
    e' = match e_runCancel e with Some k => cancel e k | None => e end)).

Lemma start_path_sound startup env req (e : engine) :
  rq_Path req = "/run/start" ->
  let '(r, e') := handleRunStart Getenv (String.eqb (rq_Method req) "POST") (sv_seen env) (rq_Config req) startup
                    (sv_random4 env) (sv_rid env) (sv_now env) e in
  let resp := start_reply r (sv_seen env) e' in
  (rs_Status resp <> 202 /\ e' = e) \/ accepted startup env req resp e e'.
Proof.
  intros Hp. pose proof (start_handler_sound Getenv (String.eqb (rq_Method req) "POST") (sv_seen env)
    (rq_Config req) startup (sv_random4 env) (sv_rid env) (sv_now env) e) as Hs.
  destruct (handleRunStart _ _ _ _ _ _ _ _ _) as [[status text] e'] eqn:Er. destruct Hs as (Hno & Hyes & _).
  unfold start_reply. cbn [writeJSON rs_Status rs_Body fst snd].
  destruct (Z.eq_dec status 202) as [->|Hn]; [|left; auto]. right.
  destruct (Hyes eq_refl) as (Hm & H1 & H2 & cfg & H3 & H4 & H5 & _). apply String.eqb_eq in Hm.
  assert (text = "starting") as ->.
  { revert Er. unfold handleRunStart. repeat case_match; try (by intros [=]). }
  split; [done|]. split; [done|]. left. split_and!; try done. by exists cfg.
Qed.

Lemma stop_path_sound startup env req (e : engine) :
  rq_Path req = "/run/stop" ->
  let '(r, e') := handleRunStop (String.eqb (rq_Method req) "POST") e in
  (rs_Status (stop_reply r) <> 202 /\ e' = e) \/ accepted startup env req (stop_reply r) e e'.
Proof.
  intros Hp. pose proof (stop_handler_sound (String.eqb (rq_Method req) "POST") e) as Hs.
  destruct (handleRunStop _ e) as [[status text] e'].
  destruct Hs as [[Hn ->]|(-> & Hm & H1 & H2)]; [by left|right]. apply String.eqb_eq in Hm.
  split; [done|]. split; [done|]. by right.
Qed.

Lemma mux_sound startup env req (e : engine) :
  let '(resp, e') := mux Getenv startup env req e in
  (rs_Status resp <> 202 /\ e' = e) \/ accepted startup env req resp e e'.
Proof.
  pose proof (start_path_sound startup env req e) as H1. pose proof (stop_path_sound startup env req e) as H2.
  rewrite <- (String.eqb_eq (rq_Path req)) in H1, H2. unfold mux.
  repeat (match goal with |- context [String.eqb (rq_Path req) ?p] => destruct (String.eqb (rq_Path req) p) end;
          [first [by left | idtac]|]); [..|by left].
  - specialize (H1 eq_refl). by destruct (handleRunStart _ _ _ _ _ _ _ _ _).
  - specialize (H2 eq_refl). by destruct (handleRunStop _ _).
  - left. split; [|done]. unfold config_reply, handleRunConfig. by destruct (e_runCfg e).
  - left. split; [|done]. unfold handleRunReport. by destruct (RunReport _ _) as [[]|].
Qed.

(** The engine is changed by two kinds of request only, and then
    the answer is 202: a POST to /run/start on an engine without a run in
    progress, after which it is starting a configuration that passed validation
    and the answer carries the id of the run; and a POST to /run/stop while a
    run is starting or running, which cancels that run.  Every other request
    leaves the engine as it was and is answered with another status, and every
    answer carries the CORS headers. *)
Theorem server_changes_by_post_only startup env req (e : engine) :
  let '(resp, e') := serve Getenv startup env req e in
  (forall h, h ∈ cors_headers startup -> h ∈ rs_Headers resp) /\
  ((rs_Status resp <> 202 /\ e' = e) \/ accepted startup env req resp e e').
Proof.
  pose proof (mux_sound startup env req e) as H. unfold serve, corsMiddleware.
  destruct (mux Getenv startup env req e) as [resp e']. destruct (String.eqb (rq_Method req) "OPTIONS"); [by auto|].
  split; [|exact H]. intros h Hh. cbn [rs_Headers fst]. apply elem_of_app. by left.
Qed.

(** The message of the report handler says that a run must have stopped; the
    handler answers as soon as the counters are captured, while the consumers
    are still being stopped and before the engine has judged the run: the
    verdict it shows is then the report's own, without the engine's gates. *)
Theorem report_served_before_verdict startup (e : engine) k t :
  live e k t -> t_pc t = PStop \/ t_pc t = PVerdict ->
  e_state e = StateStopping /\ e_verdict e = None /\
  exists summary, RunReport (default startup (e_runCfg e)) (engine_view e) = Some (summary, GenerateVerdict summary (t_cfg t)) /\
    rs_Status (handleRunReport startup e) = 200.
Proof.
  intros L Hp. pose proof (lv_fits _ _ _ L) as F. pose proof (lv_verdict _ _ _ L) as V.
  assert (e_state e = StateStopping /\ e_verdict e = None /\ is_Some (e_snapshots e)) as (E1 & E2 & [sn E3]).
  { destruct Hp as [Hp|Hp]; rewrite Hp in F, V; cbn in F, V; tauto. }
  split; [done|]. split; [done|]. unfold handleRunReport, RunReport, engine_view. cbn [ev_Snapshots ev_Verdict].
  rewrite E2, E3, (lv_cfg _ _ _ L). cbn [mbind option_bind default reconcile]. eexists. split; reflexivity.
Qed.

(** A configuration with a threshold that is not a number can be run from the
    command line.  The answers that show it have status 200 and no body. *)
Theorem unencodable_config_empty_reply startup env (e : engine) cfg :
  e_runCfg e = Some cfg -> omap unsupported (config_floats cfg) <> [] ->
  forall path, path = "/run/config" \/ path = "/run" ->
  let '(resp, _) := serve Getenv startup env (mkRequest "GET" path empty_request) e in
  rs_Status resp = 200 /\ rs_Body resp = BEmpty.
Proof.
  intros Hc Hf path [->| ->]; unfold serve, corsMiddleware, mux; cbn [rq_Method rq_Path]; cbn [String.eqb Ascii.eqb Bool.eqb].
  - unfold config_reply, handleRunConfig. rewrite Hc. cbn [writeJSON fst rs_Status rs_Body body_floats].
    by destruct (omap unsupported (config_floats cfg)).
  - unfold handleRunSnapshot, RunSnapshot. rewrite Hc. cbn [writeJSON fst rs_Status rs_Body body_floats]. rewrite omap_app.
    by destruct (omap unsupported (config_floats cfg)).
Qed.
End server_props.
