(* ===== verification/Console.v ===== *)
(** * What an operator reads

    The console report and the JSON file of burnin/report, and the log records
    of the engine: the status every report interval, the summary at the end.
    Console output is a list of lines; a log record is its level, its message
    and its attributes. *)
From S2P Require Import Prelude GoFloat GoFmt GoTime GoJson Config ConfigProps Payload Tracker Metrics Transport Worker.
From S2P Require Import Verdict Report VerdictProps Handlers Engine Api Server.
From Stdlib Require Import SpecFloat Ascii.

(** ** fmt and time *)

(** [%-ws]: padded on the right to [w] runes. *)
Definition pad_right (w : nat) (s : string) : string := s +:+ Repeat " " (w - length (runes_of s)).

(** The digits of the fraction [v / 10^prec] without trailing zeros, and the
    point when there are any. *)
Fixpoint frac_digits (prec : nat) (v : Z) (acc : string) : string :=
  match prec with
  | O => acc
  | S p =>
      let d := v mod 10 in
      frac_digits p (v / 10) (if (d =? 0) && negb (nonempty acc) then acc else String (digit_char d) acc)
  end.
Definition fmtFrac (prec : nat) (v : Z) : string :=
  let s := frac_digits prec v "" in if nonempty s then "." +:+ s else "".
Definition micro : string := String "194" (str1 "181").

(** [time.Duration.String]. *)
Definition Duration_String (d : Z) : string :=
  let u := Z.abs d in
  let sign := if d <? 0 then "-" else "" in
  if u <? Second then
    if u =? 0 then "0s"
    else if u <? Microsecond then sign +:+ FormatUint u +:+ "ns"
    else if u <? Millisecond then sign +:+ FormatUint (u / 1000) +:+ fmtFrac 3 u +:+ micro +:+ "s"
    else sign +:+ FormatUint (u / 1000000) +:+ fmtFrac 6 u +:+ "ms"
  else
    let s := u / Second in
    sign +:+
    (if 0 <? s / 60 then (if 0 <? s / 3600 then FormatUint (s / 3600) +:+ "h" else "") +:+ FormatUint (s / 60 mod 60) +:+ "m" else "") +:+
    FormatUint (s mod 60) +:+ fmtFrac 9 u +:+ "s".

Example Duration_String_ex :
  map Duration_String [0; 1; 1500; 2000000; 1500000000; 90 * Second; 3600 * Second; -61000000001]
  = ["0s"; "1ns"; "1.5" +:+ micro +:+ "s"; "2ms"; "1.5s"; "1m30s"; "1h0m0s"; "-1m1.000000001s"].
Proof. vm_compute. reflexivity. Qed.

(** ** PrintConsole *)

Definition separator : string := Repeat "-" 64.

Definition console_head (s : Summary) (v : Verdict) : list string :=
  [""; separator; " GCP Pub/Sub Burn-In Report"; separator;
   Sprintf " Run ID:       %s" [AStr (su_RunID s)];
   Sprintf " Mode:         %s" [AStr (su_Mode s)];
   Sprintf " Duration:     %s" [AStr (Duration_String (f_trunc (fmul (su_DurationSeconds s) (f_of_Z Second))))];
   Sprintf " Emulator:     %s" [AStr (su_EmulatorHost s)];
   Sprintf " Broker:       %s" [AStr (su_BrokerAddress s)];
   Sprintf " Project:      %s" [AStr (su_ProjectID s)];
   Sprintf " Verdict:      %s" [AStr (rv_Result v)];
   separator].

(** The lines on the counters of a worker, by its kind. *)
Definition console_counters (name : string) (ws : WorkerStats) : list string :=
  let n c := AInt (st_cnt ws c) in
  let lost := [n C_sent; n C_received; AInt (st_Lost ws); AFloat (st_LossPct ws)] in
  let dup := Sprintf "   Duplicated: %d  Corrupted: %d" [n C_duplicated; n C_corrupted] in
  if IsFanoutWorker name then
    [Sprintf "   Published: %d  Deliveries: %d  Dropped: %d" [n C_sent; n C_fanoutDeliveries; n C_fanoutDropped]; dup]
  else if IsExactlyOnceWorker name then
    [Sprintf "   Sent: %d  Received: %d  Lost: %d (%.2f%%)" lost;
     Sprintf "   EO-Confirmed: %d  EO-Unreconciled: %d  Dup: %d" [n C_exactlyOnceConfirmed; n C_exactlyOnceUnreconciled; n C_duplicated]]
  else if IsDeadLetterWorker name then
    [Sprintf "   Sent: %d  Republished: %d  Lost: %d" [n C_sent; n C_deadLetterRepublished; n C_deadLetterLost]; dup]
  else if IsInteropWorker name then
    [Sprintf "   Published: %d  Converged: %d  Diverged: %d" [n C_sent; n C_interopConverged; n C_interopDiverged]; dup]
  else if IsOrderingWorker name then
    [Sprintf "   Sent: %d  Received: %d  Lost: %d (%.2f%%)" lost;
     Sprintf "   OrderViolations: %d  Duplicated: %d  Corrupted: %d" [n C_orderingViolations; n C_duplicated; n C_corrupted]]
  else
    [Sprintf "   Sent: %d  Received: %d  Acked: %d  Lost: %d (%.2f%%)"
       [n C_sent; n C_received; n C_acked; AInt (st_Lost ws); AFloat (st_LossPct ws)];
     Sprintf "   Duplicated: %d  Corrupted: %d  OutOfOrder: %d" [n C_duplicated; n C_corrupted; AInt (st_OutOfOrder ws)]].

Definition console_worker (name : string) (ws : WorkerStats) : list string :=
  [""; Sprintf " Worker: %s (%d ch)" [AStr name; AInt (st_Channels ws)]] ++ console_counters name ws ++
  (if fltb f0 (st_LatencyP50MS ws) then
     [Sprintf "   Latency: P50=%.1fms P95=%.1fms P99=%.1fms P999=%.1fms"
        [AFloat (st_LatencyP50MS ws); AFloat (st_LatencyP95MS ws); AFloat (st_LatencyP99MS ws); AFloat (st_LatencyP999MS ws)]]
   else []) ++
  [Sprintf "   Rate: %.1f msgs/s (target %d)  Peak: %.1f msgs/s" [AFloat (st_AvgRate ws); AInt (st_TargetRate ws); AFloat (st_PeakRate ws)]] ++
  (if (0 <? st_cnt ws C_reconnections) || fltb f0 (st_DowntimeSeconds ws) then
     [Sprintf "   Reconnections: %d  Downtime: %.1fs" [AInt (st_cnt ws C_reconnections); AFloat (st_DowntimeSeconds ws)]]
   else []).

Definition find_stats (workers : list (string * WorkerStats)) (name : string) : option WorkerStats :=
  snd <$> List.find (fun e => String.eqb (fst e) name) workers.
Definition console_workers (workers : list (string * WorkerStats)) : list string :=
  concat (omap (fun name => ws ← find_stats workers name;
                            if st_Enabled ws then Some (console_worker name ws) else None) AllWorkerNames).

Definition check_status (c : CheckResult) : string :=
  if ck_Passed c then "PASS" else if ck_Advisory c then "WARN" else "FAIL".
Definition console_check (e : string * CheckResult) : string :=
  "   " +:+ pad_right 38 (fst e) +:+ Sprintf " %s  %s" [AStr (check_status (snd e)); AStr (ck_Message (snd e))].

Definition console_tail (s : Summary) (warnings : list string) : list string :=
  (match warnings with [] => [] | _ => [""; " Warnings:"] ++ map (fun w => Sprintf "   - %s" [AStr w]) warnings end) ++
  [""; separator; " Resources:";
   Sprintf "   Memory: peak=%.1fMB baseline=%.1fMB growth=%.2fx"
     [AFloat (PeakRSSMB (su_Resources s)); AFloat (BaselineRSSMB (su_Resources s)); AFloat (MemoryGrowthFactor (su_Resources s))];
   separator; ""].

(** [checks] are the checks in the order in which Go ranges over the map. *)
Definition PrintConsole (s : Summary) (v : Verdict) (checks : list (string * CheckResult)) : list string :=
  console_head s v ++ console_workers (su_Workers s) ++ [""; separator; " Checks:"] ++ map console_check checks ++
  console_tail s (rv_Warnings v).

(** [WriteJSON]: what is written to the file, or the error; [io] is how
    [os.WriteFile] ends. *)
Definition WriteJSON (io : option string) (s : Summary) (v : Verdict) : result (Summary * Verdict) :=
  _ ← marshal "marshal report" (summary_floats s ++ verdict_floats v);
  match io with Some err => Err err | None => Ok (s, v) end.

(** ** The engine's log *)

Record record := mkRecord { lr_level : level; lr_msg : string; lr_attrs : list (string * arg) }.
Definition info (msg : string) (attrs : list (string * arg)) : record := mkRecord LevelInfo msg attrs.

Section log.
Context {W : Type} {HB : HasBase W}.

Definition log_worker (name : string) (ws : list W) : record :=
  let total (f : BaseWorker -> Z) := AInt (u64 (zsum (map (fun w => f (base w)) ws))) in
  let n c := total (fun b => bw_cnt b c) in
  let lost := total (fun b => TotalLost (bw_trk b)) in
  let rate := foldl (fun r w => fadd r (sw_Rate (bw_rate (base w)))) f0 ws in
  let tail := [("dup", n C_duplicated); ("err", n C_errors); ("rate", AStr (Sprintf "%.1f/s" [AFloat rate]))] in
  if IsFanoutWorker name then
    info name ([("pub", n C_sent); ("recv", n C_received); ("dropped", n C_fanoutDropped)] ++ tail)
  else if IsOrderingWorker name then
    info name ([("sent", n C_sent); ("recv", n C_received); ("lost", lost); ("order_viol", n C_orderingViolations)] ++ tail)
  else info name ([("sent", n C_sent); ("recv", n C_received); ("lost", lost)] ++ tail).

Definition logStatus (g : groups (W := W)) : list record :=
  omap (fun name => ws ← g !! name; Some (log_worker name ws)) AllWorkerNames.
End log.

Definition summary_record (name : string) (s : WorkerSnapshot) : record :=
  let n c := AInt (sn_cnt s c) in
  let msg := "  " +:+ name in
  let seen := [("sent", n C_sent); ("recv", n C_received); ("lost", AInt (sn_Lost s))] in
  if IsFanoutWorker name then
    info msg [("pub", n C_sent); ("deliveries", n C_fanoutDeliveries); ("dropped", n C_fanoutDropped); ("dup", n C_duplicated); ("err", n C_errors)]
  else if IsOrderingWorker name then
    info msg (seen ++ [("order_viol", n C_orderingViolations); ("dup", n C_duplicated); ("err", n C_errors)])
  else if IsExactlyOnceWorker name then
    info msg (seen ++ [("eo_confirmed", n C_exactlyOnceConfirmed); ("eo_unreconciled", n C_exactlyOnceUnreconciled); ("err", n C_errors)])
  else if IsDeadLetterWorker name then
    info msg [("sent", n C_sent); ("republished", n C_deadLetterRepublished); ("dl_lost", n C_deadLetterLost); ("err", n C_errors)]
  else if IsInteropWorker name then
    info msg [("sent", n C_sent); ("converged", n C_interopConverged); ("diverged", n C_interopDiverged); ("err", n C_errors)]
  else info msg (seen ++ [("dup", n C_duplicated); ("err", n C_errors); ("acked", n C_acked)]).

Definition summary_sep : string := Repeat "=" 43.
Definition bool_text (b : bool) : string := if b then "true" else "false".

Definition logFinalSummary (verdict : option VerdictResult) (snapshots : list (string * WorkerSnapshot)) : list record :=
  match verdict with
  | None => []
  | Some v =>
      [info summary_sep []; info "burn-in verdict" [("result", AStr (v_Result v)); ("passed", AStr (bool_text (v_Passed v)))]] ++
      omap (fun name => s ← find_snapshot snapshots name; Some (summary_record name s)) AllWorkerNames ++
      map (fun w => mkRecord LevelWarn ("  " +:+ w) []) (v_Warnings v) ++ [info summary_sep []]
  end.

(** ** The report explains its verdict *)

Definition failed_check (c : CheckResult) : bool := String.eqb (check_status c) "FAIL".

Lemma failed_check_alt c : failed_check c = negb (ck_Passed c) && negb (ck_Advisory c).
Proof. unfold failed_check, check_status. by destruct (ck_Passed c), (ck_Advisory c). Qed.

Definition fresh (names : list string) (v : Verdict) : Prop := forall k, k ∈ names -> rv_Checks v !! k = None.

(** [v'] is [v] with checks under some of the names, and fails exactly when [v]
    did or one of them does. *)
Definition adds (names : list string) (v v' : Verdict) : Prop :=
  fresh names v ->
  (forall k, k ∉ names -> rv_Checks v' !! k = rv_Checks v !! k) /\
  (rv_Passed v' = false <-> rv_Passed v = false \/
    exists k c, k ∈ names /\ rv_Checks v' !! k = Some c /\ failed_check c = true).

Lemma adds_seq n1 n2 v v1 v2 : (forall k, k ∈ n1 -> k ∈ n2 -> False) -> adds n1 v v1 -> adds n2 v1 v2 -> adds (n1 ++ n2) v v2.
Proof.
  intros Hd A1 A2 Hf. assert (fresh n1 v) as F1 by (intros k Hk; apply Hf, elem_of_app; by left).
  destruct (A1 F1) as [G1 P1]. assert (fresh n2 v1) as F2.
  { intros k Hk. rewrite G1; [apply Hf, elem_of_app; by right|]. intros Hk1. by apply (Hd k). }
  destruct (A2 F2) as [G2 P2]. split.
  - intros k Hk. apply not_elem_of_app in Hk as [H1 H2]. by rewrite G2, G1.
  - rewrite P2, P1. split.
    + intros [[H|(k & c & Hk & Hc & Hb)]|(k & c & Hk & Hc & Hb)]; [by left|right..]; exists k, c; rewrite elem_of_app.
      * split; [by left|]. split; [|done]. rewrite G2; [done|]. intros Hk2. by apply (Hd k).
      * split; [by right|done].
    + intros [H|(k & c & Hk & Hc & Hb)]; [by left; left|]. apply elem_of_app in Hk as [Hk|Hk]; [left|]; right; exists k, c; [|done].
      split; [done|]. split; [|done]. rewrite <- G2; [done|]. intros Hk2. by apply (Hd k).
Qed.

Lemma adds_id v : adds [] v v.
Proof. intros _. split; [done|]. split; [by left|]. intros [H|(k & c & Hk & _)]; [done|by apply not_elem_of_nil in Hk]. Qed.

Lemma adds_weaken n n' v v' : (forall k, k ∈ n -> k ∈ n') -> adds n v v' -> adds n' v v'.
Proof.
  intros Hsub A Hf. destruct A as [G P]; [intros k Hk; by apply Hf, Hsub|]. split.
  - intros k Hk. apply G. intros H. by apply Hk, Hsub.
  - rewrite P. split; (intros [H|(k & c & Hk & Hc & Hb)]; [by left|right; exists k, c; split_and!; auto]).
    destruct (decide (k ∈ n)) as [|Hn]; [done|]. rewrite G, Hf in Hc by done. done.
Qed.

Lemma adds_check v c ok : ok = negb (failed_check c) -> adds [ck_Name c] v (add_check v c ok).
Proof.
  intros -> Hf. split.
  - intros k Hk. cbn. rewrite lookup_insert_ne; [done|]. intros <-. apply Hk. left.
  - cbn [add_check rv_Passed rv_Checks]. split.
    + destruct (failed_check c) eqn:E; cbn [negb]; [|by left]. intros _. right. exists (ck_Name c), c.
      split; [left|]. split; [by rewrite lookup_insert_eq|done].
    + intros [H|(k & c' & [->|Hk%not_elem_of_nil]%elem_of_cons & Hc & Hb)]; [by destruct (failed_check c)| |done].
      rewrite lookup_insert_eq in Hc. injection Hc as <-. by rewrite Hb.
Qed.

Lemma adds_hard v name value threshold msg : adds [name] v (addHard v name value threshold msg).
Proof. unfold addHard. apply (adds_check v (mkCheck name _ false _ _ msg)). rewrite failed_check_alt. cbn. by rewrite andb_true_r, negb_involutive. Qed.
Lemma adds_zero v name value msg : 0 <= value -> adds [name] v (addZero v name value msg).
Proof.
  intros H. unfold addZero. apply (adds_check v (mkCheck name _ false _ _ msg)). rewrite failed_check_alt. cbn.
  rewrite andb_true_r, negb_involutive. destruct (value =? 0) eqn:E, (0 <? value) eqn:E2; zbool; try done; lia.
Qed.
Lemma adds_warning n v v' w : adds n v v' -> adds n v (add_warning v' w).
Proof. done. Qed.

(** The names of the checks of a worker. *)
Definition standard_checks : list string := ["message_loss:"; "duplication:"; "p99_latency:"; "error_rate:"].
Definition structured_checks : list string :=
  ["ordering_violations:"; "exactly_once_reconciled:"; "dead_letter_loss:"; "fanout_dropped:"; "interop_convergence:"].
Definition check_names (name : string) : list string := map (fun p => p +:+ name) (standard_checks ++ structured_checks).

Lemma check_names_nodup : NoDup (concat (map check_names AllWorkerNames) ++ ["corruption"; "memory_stability"]).
Proof. apply (bool_decide_unpack _). vm_compute. exact I. Qed.

Ltac distinct_names :=
  intros k; rewrite ?elem_of_cons, ?elem_of_nil; intros;
  repeat match goal with H : _ \/ _ |- _ => destruct H end; try done; subst;
  match goal with H : _ +:+ _ = _ +:+ _ |- _ => apply sapp_inj_tail in H; discriminate H end.

Lemma adds_optional (b : bool) n v v' : adds [n] v v' -> adds [n] v (if b then v' else v).
Proof. destruct b; [done|]. intros _. eapply (adds_weaken []), adds_id. intros k Hk. by apply not_elem_of_nil in Hk. Qed.
Lemma adds_nothing n v : adds [n] v v.
Proof. apply (adds_optional false n v (addHard v n f0 f0 "")), adds_hard. Qed.

Section worker_checks.
Context (th : ThresholdsConfig) (name : string) (ws : WorkerStats) (Hws : forall c, 0 <= st_cnt ws c).

Lemma adds_loss v : adds ["message_loss:" +:+ name] v (report_loss th name ws v).
Proof. unfold report_loss. apply adds_optional, adds_hard. Qed.
Lemma adds_dup v : adds ["duplication:" +:+ name] v (report_dup th name ws v).
Proof.
  unfold report_dup. apply adds_optional. destruct (IsDuplicationGateExempt name); [|apply adds_hard].
  case_if; [apply adds_warning|]; apply adds_nothing.
Qed.
Lemma adds_latency v : adds ["p99_latency:" +:+ name] v (report_latency th name ws v).
Proof.
  unfold report_latency. cbv zeta. apply adds_optional. destruct (IsLatencyGateExempt name); [|apply adds_hard].
  case_if; [apply adds_warning|]; apply adds_nothing.
Qed.
Lemma adds_errors v : adds ["error_rate:" +:+ name] v (report_errors th name ws v).
Proof. unfold report_errors. cbv zeta. apply adds_optional, adds_hard. Qed.

Lemma adds_structured v : adds (map (fun p => p +:+ name) structured_checks) v (report_structured name ws v).
Proof.
  unfold report_structured, structured_checks. cbv zeta. cbn [map].
  eapply (adds_seq [_; _; _; _] [_]); [distinct_names| |apply adds_optional; by apply adds_zero].
  eapply (adds_seq [_; _; _] [_]); [distinct_names| |apply adds_optional; by apply adds_zero].
  eapply (adds_seq [_; _] [_]); [distinct_names| |apply adds_optional; by apply adds_zero].
  eapply (adds_seq [_] [_]); [distinct_names| |apply adds_optional; by apply adds_zero].
  apply adds_optional; by apply adds_zero.
Qed.

Lemma adds_worker v : adds (check_names name) v (report_worker th v (name, ws)).
Proof.
  unfold report_worker, check_names. destruct (st_Enabled ws); cbn [negb].
  2: { eapply adds_weaken, adds_id. intros k Hk. by apply not_elem_of_nil in Hk. }
  rewrite map_app. eapply adds_seq; [|eapply (adds_seq [_; _; _] [_])|apply adds_structured].
  - unfold standard_checks, structured_checks. cbn [map]. distinct_names.
  - distinct_names.
  - eapply (adds_seq [_; _] [_]); [distinct_names| |apply adds_latency].
    eapply (adds_seq [_] [_]); [distinct_names|apply adds_loss|apply adds_dup].
  - apply adds_errors.
Qed.
End worker_checks.

Lemma adds_workers th l v :
  NoDup (concat (map check_names (map fst l))) -> (forall e c, e ∈ l -> 0 <= st_cnt (snd e) c) ->
  adds (concat (map check_names (map fst l))) v (foldl (report_worker th) v l).
Proof.
  revert v. induction l as [|[name ws] l IH]; intros v Hnd Hc; [apply adds_id|].
  cbn [map concat fst foldl] in *. apply NoDup_app in Hnd as (_ & Hd & Hnd).
  eapply adds_seq; [exact Hd| |apply IH; [done|]].
  - apply adds_worker. intros c. apply (Hc (name, ws)). left.
  - intros e c He. apply Hc. by right.
Qed.

Lemma total_corrupted_nonneg l : 0 <= total_corrupted l.
Proof.
  unfold total_corrupted. assert (forall a, 0 <= a -> 0 <= foldl (fun total e => total +u st_cnt (snd e) C_corrupted) a l) as H; [|by apply H].
  induction l as [|e l IH]; intros a Ha; [done|]. cbn. apply IH. apply uadd_range.
Qed.

(** A report fails exactly when one of its checks is shown as failed. *)
Lemma verdict_by_checks summary cfg :
  NoDup (concat (map check_names (map fst (su_Workers summary))) ++ ["corruption"; "memory_stability"]) ->
  (forall e c, e ∈ su_Workers summary -> 0 <= st_cnt (snd e) c) ->
  rv_Passed (GenerateVerdict summary cfg) = false <->
  exists k c, rv_Checks (GenerateVerdict summary cfg) !! k = Some c /\ failed_check c = true.
Proof.
  intros Hnd Hc. set (names := concat (map check_names (map fst (su_Workers summary)))) in *.
  assert (adds (names ++ ["corruption"; "memory_stability"]) (mkReportVerdict "PASSED" true [] ∅) (GenerateVerdict summary cfg)) as A.
  { apply NoDup_app in Hnd as (Hn & Hd & _). change ["corruption"; "memory_stability"] with (["corruption"] ++ ["memory_stability"]).
    rewrite (assoc_L (++)). eapply adds_seq.
    - intros k [Hk|Hk]%elem_of_app Hm.
      + apply (Hd k Hk). apply elem_of_cons. right. done.
      + apply elem_of_cons in Hk as [->|Hk%not_elem_of_nil]; [|done]. apply elem_of_cons in Hm as [Hm|Hm%not_elem_of_nil]; done.
    - eapply adds_seq; [|by apply (adds_workers (c_Thresholds cfg))|apply adds_zero, total_corrupted_nonneg].
      intros k Hk Hm. apply (Hd k Hk). apply elem_of_cons in Hm as [->|Hm%not_elem_of_nil]; [left|done].
    - unfold GenerateVerdict. cbv zeta. match goal with |- adds _ ?v (mkReportVerdict _ (rv_Passed ?w) _ _) => change (adds ["memory_stability"] v w) end.
      apply adds_optional. case_if; [|apply adds_warning]; (apply (adds_check _ (mkCheck "memory_stability" _ true _ _ _)); by rewrite failed_check_alt, andb_false_r). }
  destruct A as [G P]; [intros k Hk; apply lookup_empty|]. rewrite P. split.
  - intros [?|(k & c & _ & H)]; [done|by exists k, c].
  - intros (k & c & Hk & Hb). right. exists k, c. split; [|done]. apply dec_stable. intros Hn. rewrite G in Hk by done. done.
Qed.

Lemma report_names_sublist cfg snaps names :
  map fst (omap (fun name => s ← find_snapshot snaps name; wc ← GetWorkerConfig cfg name;
    if wc_Enabled wc then Some (name, worker_stats wc s) else None) names) `sublist_of` names.
Proof.
  induction names as [|n names IH]; [done|]. cbn.
  destruct (find_snapshot snaps n) as [s|]; cbn; [|by apply sublist_cons].
  destruct (GetWorkerConfig cfg n) as [wc|]; cbn; [|by apply sublist_cons].
  destruct (wc_Enabled wc); cbn; [by apply sublist_skip|by apply sublist_cons].
Qed.
Lemma sublist_concat_map {A B} (f : A -> list B) l l' : l `sublist_of` l' -> concat (map f l) `sublist_of` concat (map f l').
Proof. induction 1; cbn; [done|by apply sublist_app|by apply sublist_inserts_l]. Qed.

Lemma report_checks_nodup cfg ev snaps :
  NoDup (concat (map check_names (map fst (su_Workers (build_summary cfg ev snaps)))) ++ ["corruption"; "memory_stability"]).
Proof.
  eapply sublist_NoDup; [exact check_names_nodup|]. apply sublist_app; [|done].
  apply sublist_concat_map. apply report_names_sublist.
Qed.

(** Whether the engine judged the run a failure. *)
Definition engine_failed (ev : option VerdictResult) : Prop := exists r, ev = Some r /\ v_Passed r = false.

Lemma result_zero (b : bool) v name value msg : rv_Result (if b then addZero v name value msg else v) = rv_Result v.
Proof. by destruct b. Qed.
Lemma result_worker th v e : rv_Result (report_worker th v e) = rv_Result v.
Proof.
  destruct e as [name ws]. unfold report_worker. destruct (st_Enabled ws); [|done]. cbn [negb].
  transitivity (rv_Result (report_errors th name ws (report_latency th name ws (report_dup th name ws (report_loss th name ws v))))).
  { unfold report_structured. cbv zeta. by rewrite !result_zero. }
  transitivity (rv_Result (report_latency th name ws (report_dup th name ws (report_loss th name ws v)))).
  { unfold report_errors. cbv zeta. by case_if. }
  transitivity (rv_Result (report_dup th name ws (report_loss th name ws v))).
  { unfold report_latency. cbv zeta. by repeat case_if. }
  transitivity (rv_Result (report_loss th name ws v)); [unfold report_dup|unfold report_loss]; cbv zeta; by repeat case_if.
Qed.

Lemma result_by_verdict summary cfg :
  rv_Result (GenerateVerdict summary cfg) = "FAILED" <-> rv_Passed (GenerateVerdict summary cfg) = false.
Proof.
  unfold GenerateVerdict. cbv zeta. cbn [rv_Result rv_Passed].
  match goal with |- context [rv_Passed ?w] => set (v := w) end.
  assert (rv_Result v = "PASSED") as Hr.
  { assert (forall l v, rv_Result (foldl (report_worker (c_Thresholds cfg)) v l) = rv_Result v) as Hf.
    { induction l as [|e l IH]; intros w; [done|]. cbn [foldl]. by rewrite IH, result_worker. }
    unfold v. repeat case_if; cbn [rv_Result add_warning add_check addZero]; by rewrite Hf. }
  destruct (rv_Passed v); cbn [negb]; [|done]. destruct (rv_Warnings v); [by rewrite Hr|done].
Qed.

(** The console explains the result it shows: FAILED is
    printed exactly when a check is listed as FAIL or the engine judged the run
    a failure, each check and each warning has its line, and a failure of the
    engine's own comes with the engine's warnings.  This holds in whatever order
    Go ranges over the checks. *)
Theorem console_explains_verdict cfg ev snaps summary v order :
  Forall (fun e => snap_ok (snd e)) snaps -> ev_Snapshots ev = Some snaps -> RunReport cfg ev = Some (summary, v) ->
  order ≡ₚ map_to_list (rv_Checks v) ->
  let lines := PrintConsole summary v order in
  Sprintf " Verdict:      %s" [AStr (rv_Result v)] ∈ lines /\
  (rv_Result v = "FAILED" <-> (exists e, e ∈ order /\ check_status (snd e) = "FAIL") \/ engine_failed (ev_Verdict ev)) /\
  (forall e, e ∈ order -> console_check e ∈ lines) /\
  (forall w, w ∈ rv_Warnings v -> Sprintf "   - %s" [AStr w] ∈ lines) /\
  (forall r w, ev_Verdict ev = Some r -> v_Passed r = false -> w ∈ v_Warnings r -> w ∈ rv_Warnings v).
Proof.
  intros Hs Hev Hr Ho lines. unfold RunReport in Hr. rewrite Hev in Hr. cbn [mbind option_bind] in Hr.
  apply (inj Some) in Hr. injection Hr as <- <-. set (summary := build_summary cfg ev snaps) in *. set (g := GenerateVerdict summary cfg) in *.
  split_and!.
  - unfold lines, PrintConsole. apply elem_of_app. left. unfold console_head. rewrite !elem_of_cons. tauto.
  - assert (rv_Checks (reconcile g (ev_Verdict ev)) = rv_Checks g) as Hck.
    { unfold reconcile. destruct (ev_Verdict ev); [|done]. by repeat case_if. }
    assert ((exists e, e ∈ order /\ check_status (snd e) = "FAIL") <-> rv_Result g = "FAILED") as Hg.
    { unfold g. rewrite (result_by_verdict summary cfg), verdict_by_checks.
      - setoid_rewrite Ho. rewrite Hck. split.
        + intros ([k c] & Hk%elem_of_map_to_list & Hc). exists k, c. split; [done|]. by apply String.eqb_eq.
        + intros (k & c & Hk & Hc%String.eqb_eq). exists (k, c). split; [|done]. by apply elem_of_map_to_list.
      - apply report_checks_nodup.
      - intros e c (wc & s & -> & Hin)%report_workers_in. rewrite Forall_forall in Hs. destruct (Hs _ Hin) as [Hc _].
        cbn [snd worker_stats st_cnt] in *. specialize (Hc c). range. }
    rewrite Hg. unfold engine_failed, reconcile.
    destruct (ev_Verdict ev) as [r|]; [|split; [by left|intros [?|(r & ? & _)]; done]].
    destruct (v_Passed r) eqn:Ep; cbn [negb]; [|split; [right; by exists r|done]].
    assert (forall P, P <-> P \/ exists r0, Some r = Some r0 /\ v_Passed r0 = false) as Hno.
    { intros P. split; [by left|]. intros [?|(r0 & E & E0)]; [done|]. injection E as <-. congruence. }
    rewrite <- Hno. destruct (_ && _) eqn:E; [|done]. apply andb_true_iff in E as [_ E%String.eqb_eq].
    cbn [rv_Result]. by rewrite E.
  - intros e He. unfold lines, PrintConsole. rewrite !elem_of_app. do 3 right. left. apply list_elem_of_fmap. by exists e.
  - intros w Hw. unfold lines, PrintConsole, console_tail. rewrite !elem_of_app. do 4 right. left.
    destruct (rv_Warnings _) as [|w0 ws] eqn:E; [by apply not_elem_of_nil in Hw|]. apply elem_of_app. right.
    apply list_elem_of_fmap. by exists w.
  - intros r w Hv Hp Hw. unfold reconcile. rewrite Hv, Hp. cbn [negb rv_Warnings]. apply elem_of_app. by right.
Qed.

Lemma console_explains_verdict_witness :
  let ev := one_worker_view DefaultConfig WorkerPublishPullRoundTrip (traffic 6000 5000 3 1000) in
  exists summary v, RunReport DefaultConfig ev = Some (summary, v) /\ rv_Result v = "FAILED" /\
    Sprintf " Verdict:      %s" [AStr "FAILED"] ∈ PrintConsole summary v (map_to_list (rv_Checks v)).
Proof.
  intros ev. eexists _, _. split; [reflexivity|].
  match goal with |- rv_Result ?v = _ /\ _ => assert (rv_Result v = "FAILED") as E by (vm_compute; reflexivity) end.
  split; [exact E|]. rewrite <- E.
  refine (proj1 (console_explains_verdict DefaultConfig ev [(WorkerPublishPullRoundTrip, traffic 6000 5000 3 1000)] _ _ _ _ _ _ _)).
  - apply Forall_singleton, traffic_ok; range.
  - reflexivity.
  - reflexivity.
  - reflexivity.
Defined.

(** Every group of the engine has its line in the status, and every snapshot
    its line in the summary. *)
Lemma status_covers {W} {HB : HasBase W} (g : gmap string (list W)) :
  (forall n, is_Some (g !! n) -> n ∈ AllWorkerNames) -> forall n ws, g !! n = Some ws -> log_worker n ws ∈ logStatus g.
Proof.
  intros Hd n ws Hn. apply list_elem_of_omap. exists n. split; [apply Hd; by eexists|]. change (@lookup string (list W) groups _ n g) with (g !! n). by rewrite Hn.
Qed.
