(* ===== verification/Process.v ===== *)
(** * burnin/main.go: the process

    From the flags to the exit code: loading and checking the configuration,
    the logger, the engine and its server, the wait, the shutdown and the
    report (read by read; what the exit code says is in [Reads]).  What happens in between is the engine's ([Engine]) and the
    server's ([Server]). *)
From S2P Require Import Prelude GoFloat GoFmt GoTime GoJson Config ConfigProps Payload Tracker Metrics Transport TransportProps Worker.
From S2P Require Import Verdict Report VerdictProps Handlers OrderingKeys Engine EngineProps Api Server Console.
From Stdlib Require Import SpecFloat Ascii.

(** ** The logger *)

Inductive handler := JSONHandler | TextHandler.
Definition setupLogger (c : LoggingConfig) : handler * level :=
  (if String.eqb (lg_Format c) "json" then JSONHandler else TextHandler, parseLogLevel (lg_Level c)).

(** slog writes the records at or above the handler's level. *)
Definition severity (l : level) : Z := match l with LevelDebug => -4 | LevelInfo => 0 | LevelWarn => 4 | LevelError => 8 end.
Definition written_at (min : level) (r : record) : bool := severity min <=? severity (lr_level r).

Definition printBanner (cfg : Config) : record :=
  info "GCP Pub/Sub burn-in starting"
    [("mode", AStr (c_Mode cfg)); ("emulator", AStr (gcp_EmulatorHost (c_GCP cfg))); ("broker", AStr (br_Address (c_Broker cfg)));
     ("grpc", AStr (br_GRPCAddress (c_Broker cfg))); ("project", AStr (gcp_ProjectID (c_GCP cfg)));
     ("port", AInt (mt_Port (c_Metrics cfg))); ("duration", AStr (c_Duration cfg)); ("channels", AInt (TotalChannelCount cfg))].

(** ** The server's life *)

(** [server.New]: the address it will listen on. *)
Definition server_addr (port : Z) : string := Sprintf ":%d" [AInt port].
(** [Start] listens in a goroutine and returns at once: [listen] is how
    listening ends, if it does.  What [Start] returns, and what is logged. *)
Definition server_Start (addr : string) (listen : option string) : option string * list record :=
  (None, info "starting control API server" [("addr", AStr addr)] ::
     match listen with
     | Some err => if String.eqb err "http: Server closed" then [] else [mkRecord LevelError "API server error" [("error", AStr err)]]
     | None => []
     end).
Definition server_Stop (result : option string) : option string * list record :=
  (result, [info "stopping control API server" []]).

(** ** The getters *)

Section getters.
Context {W : Type} {HB : HasBase W} {Wk : Worker W}.
Notation engine := (@Engine W).

Definition Engine_RunID (e : engine) : string := e_runID e.
Definition Engine_RunConfig (e : engine) : option Config := e_runCfg e.
Definition Engine_RunStartedAt (e : engine) : option Z := e_runStartedAt e.
Definition Engine_RunEndedAt (e : engine) : option Z := e_runEndedAt e.
Definition Engine_GetWorkerSnapshots (e : engine) : option (list (string * WorkerSnapshot)) := e_snapshots e.
Definition Engine_BaselineRSS (e : engine) : Z := e_baselineRSS e.
Definition Engine_PeakRSS (e : engine) : Z := e_peakRSS e.
Definition Engine_Verdict (e : engine) : option VerdictResult := e_verdict e.

(** [RunReport] of the adapter when the i-th read sees the engine [r i]. *)
Definition RunReport_at (startup : Config) (r : nat -> engine) : option (Summary * Report.Verdict) :=
  snapshots ← Engine_GetWorkerSnapshots (r 0%nat);
  let cfg := default startup (Engine_RunConfig (r 1%nat)) in
  let view := mkView (Engine_RunID (r 2%nat)) (Engine_RunStartedAt (r 3%nat)) (Engine_RunEndedAt (r 4%nat)) (Some snapshots)
                (Engine_BaselineRSS (r 5%nat)) (Engine_PeakRSS (r 6%nat)) None in
  let summary := build_summary cfg view snapshots in
  Some (summary, reconcile (GenerateVerdict summary cfg) (Engine_Verdict (r 7%nat))).
End getters.

(** ** Start-up *)

Record Flags := mkFlags { fl_config : string; fl_validate : bool; fl_run : bool }.

Definition error_record (msg : string) (attrs : list (string * arg)) : record := mkRecord LevelError msg attrs.

(** [-validate-config]: an entry of [Validate] is logged as a warning or as an
    error. *)
Definition validate_log (cfg : Config) : list record :=
  map (fun e => if is_warning e then mkRecord LevelWarn e [] else error_record e []) (Validate cfg) ++
  (if validate_exit cfg =? 0 then [info "config valid" []] else []).

Section process.
Context {W : Type} {HB : HasBase W} {Wk : Worker W}.
Context (ReadFile : string -> result string) (DecodeStrict Unmarshal : string -> Config -> result Config).
Context (Getenv : string -> string) (exists_ : string -> bool) (random4 : list Z).
Notation engine := (@Engine W).

Definition load_config (fl : Flags) : result Config :=
  let cfgPath := if nonempty (fl_config fl) then fl_config fl else Getenv "BURNIN_CONFIG_FILE" in
  Load ReadFile DecodeStrict Unmarshal Getenv random4 (FindConfigFile exists_ cfgPath).

(** What start-up comes to: the process exits, or it serves with an engine. *)
Inductive outcome :=
| Exits (code : Z) (log : list record)
| Serves (cfg : Config) (e : engine) (metrics : list metric_op) (log : list record).

(** [-run]: a run is started at once. *)
Definition autostart (fl : Flags) (cfg : Config) (rid : string) (now : Z) (e : engine) : result engine :=
  if fl_run fl then StartRunFromConfig cfg rid now e else Ok e.

Definition boot (fl : Flags) (listen : option string) (rid : string) (now : Z) : outcome :=
  match load_config fl with
  | Err err => Exits 1 [error_record (Sprintf "ERROR: load config: %v" [AStr err]) []]
  | Ok cfg =>
      let cfg := resolve_emulator Getenv cfg in
      if fl_validate fl then Exits (validate_exit cfg) (validate_log cfg)
      else match hard_errors cfg with
      | err :: _ => Exits 1 [error_record "invalid config" [("error", AStr err)]]
      | [] =>
          let warnings := map (fun w => mkRecord LevelWarn w []) (LogResourceWarnings cfg) in
          let '(failed, log) := server_Start (server_addr (mt_Port (c_Metrics cfg))) listen in
          match failed with
          | Some err => Exits 1 (warnings ++ log ++ [error_record "failed to start server" [("error", AStr err)]])
          | None =>
              match autostart fl cfg rid now (New cfg) with
              | Err err => Exits 1 (warnings ++ log ++ [printBanner cfg; error_record "failed to start run" [("error", AStr err)]])
              | Ok e => Serves cfg e (InitMetrics AllWorkerNames) (warnings ++ log ++ [printBanner cfg])
              end
          end
      end
  end.

(** ** The end *)

Record ending := mkEnding { end_code : Z; end_file : option (string * (Summary * Report.Verdict)); end_console : list string; end_log : list record }.

(** After [waitForExit] and the wait of [GracefulShutdown].  The server still
    serves, and each read takes the engine's lock anew: [p] is the engine when
    [GracefulShutdown] reads the verdict, [r] the engines the report reads, [h] the
    one of [HasWarnings].  [io] is how writing the file ends, [order] how Go ranges
    over the checks, [stop] what the server's [Stop] returns. *)
Definition finish (cfg : Config) (p : engine) (r : nat -> engine) (h : engine) (io stop : option string)
    (order : gmap string CheckResult -> list (string * CheckResult)) : ending :=
  let passed := shutdown_passed p in
  let '(file, console, log) :=
    match RunReport_at cfg r with
    | None => (None, [], [])
    | Some (summary, verdict) =>
        let path := out_ReportFile (c_Output cfg) in
        let console := PrintConsole summary verdict (order (rv_Checks verdict)) in
        if nonempty path then
          match WriteJSON io summary verdict with
          | Err err => (None, console, [error_record "failed to write report" [("error", AStr err)]])
          | Ok r => (Some (path, r), console, [])
          end
        else (None, console, [])
    end in
  mkEnding (if negb passed then 1 else if HasWarnings h then 2 else 0) file console
    (info "shutting down" [] :: log ++ snd (server_Stop stop)).
End process.

(** ** What the exit code says *)

Lemma validate_exit_alt cfg : validate_exit cfg = if bool_decide (hard_errors cfg = []) then 0 else 1.
Proof.
  unfold validate_exit, hard_errors. induction (Validate cfg) as [|e l IH]; [done|]. cbn [existsb List.filter].
  destruct (negb (is_warning e)); cbn [orb]; [by rewrite bool_decide_eq_false_2|exact IH].
Qed.

Section exits.
Context {W : Type} {HB : HasBase W} {Wk : Worker W}.
Context (ReadFile : string -> result string) (DecodeStrict Unmarshal : string -> Config -> result Config).
Context (Getenv : string -> string) (exists_ : string -> bool) (random4 : list Z).
Context (NewWorker : string -> Config -> Z -> option W).
Context (ValueAtQuantile : list Z -> float64 -> Z) (TotalCount : list Z -> Z).
Context (evolves : W -> W -> Prop).
Local Notation boot := (boot (W := W) ReadFile DecodeStrict Unmarshal Getenv exists_ random4).
Local Notation load_config := (load_config ReadFile DecodeStrict Unmarshal Getenv exists_ random4).
Local Notation calmly_reachable := (calmly_reachable NewWorker ValueAtQuantile TotalCount evolves).

Lemma autostart_ok fl cfg rid now :
  exists e, autostart fl cfg rid now (New cfg) = Ok e /\ calmly_reachable cfg e /\
    e_state e = (if fl_run fl then StateStarting else StateIdle) /\ e_runCfg e = (if fl_run fl then Some cfg else None) /\
    e_verdict e = None.
Proof.
  unfold autostart. destruct (fl_run fl).
  - destruct (StartRunFromConfig cfg rid now (New cfg)) as [e|] eqn:E; [|done]. exists e. split; [done|]. split.
    + apply rtc_once. by eapply c_start.
    + cbn in E. by injection E as <-.
  - eexists. split; [done|]. split; [apply rtc_refl|done].
Qed.

(** Nothing is served or run from a bad configuration: the
    process exits before it serves only when the configuration cannot be loaded
    (1), when asked to validate it (0 exactly when it has no hard error, else 1),
    or when it has a hard error (1).  Otherwise it serves a configuration without
    hard errors, and with -run the run of that configuration is being started:
    the start never fails.  A port that cannot be listened on does not keep it
    from serving. *)
Theorem boot_serves_valid fl listen rid now :
  match boot fl listen rid now with
  | Exits code _ =>
      (exists err, load_config fl = Err err /\ code = 1) \/
      (exists c, load_config fl = Ok c /\ let cfg := resolve_emulator Getenv c in
         (fl_validate fl = true /\ code = if bool_decide (hard_errors cfg = []) then 0 else 1) \/
         (fl_validate fl = false /\ hard_errors cfg <> [] /\ code = 1))
  | Serves cfg e ms _ =>
      fl_validate fl = false /\ hard_errors cfg = [] /\
      (exists c, load_config fl = Ok c /\ cfg = resolve_emulator Getenv c) /\
      calmly_reachable cfg e /\ e_state e = (if fl_run fl then StateStarting else StateIdle) /\
      e_runCfg e = (if fl_run fl then Some cfg else None) /\ ms = InitMetrics AllWorkerNames
  end.
Proof.
  unfold boot. destruct (load_config fl) as [c|err]; [|left; by eexists].
  set (cfg := resolve_emulator Getenv c). destruct (fl_validate fl).
  - right. exists c. split; [done|]. left. split; [done|]. apply validate_exit_alt.
  - destruct (hard_errors cfg) as [|err l] eqn:Eh.
    + cbn [server_Start]. destruct (autostart_ok fl cfg rid now) as (e & -> & Hr & Hs & Hc & _). split_and!; try done. by exists c.
    + right. exists c. split; [done|]. right. cbv zeta. fold cfg. rewrite Eh. done.
Qed.
End exits.

(** The two channels' run, judged. *)
Definition judged_steps : list (@Engine OrderingKeysWorker -> @Engine OrderingKeysWorker) :=
  [at_thread (loop_capture vq tc) 0; at_thread (loop_stop_consumers 4 5) 0; at_thread loop_verdict 0].
Definition judged_engine : @Engine OrderingKeysWorker := foldl (fun e f => f e) (run_steps draining) judged_steps.

Lemma judged_reachable : calmly_reachable new_one vq tc eq one_config judged_engine.
Proof.
  unfold calmly_reachable, judged_engine, judged_steps. cbn [foldl].
  calm_undo s_verdict PVerdict. calm_undo s_stop_consumers PStop. calm_undo s_capture PDrain. exact draining_reachable.
Qed.
