(* ===== verification/Reads.v ===== *)
(** * The report under concurrent requests

    [RunReport] of main.go reads the engine through eight getters, each of which
    takes and releases the engine's lock: between two of them the run loop, a
    signal or another request may take steps.  Without a new run in between the
    report passes and fails as one taken at the last read would; across a start
    it is a mixture of two runs.  The end of main reads the verdict, the report and
    the warnings in the same way. *)
From S2P Require Import Prelude GoFloat GoFmt GoTime GoJson Config Payload Tracker Metrics Transport Worker Verdict Report.
From S2P Require Import Handlers OrderingKeys Engine EngineProps Api Server Console Process.

(** ** Reports *)

Section getters.
Context {W : Type} {HB : HasBase W} {Wk : Worker W}.
Notation engine := (@Engine W).

(** The report of one state. *)
Definition report_of (startup : Config) (e : engine) : option (Summary * Report.Verdict) :=
  RunReport (default startup (e_runCfg e)) (engine_view e).

Lemma report_of_some startup e sn : e_snapshots e = Some sn ->
  let cfg := default startup (e_runCfg e) in
  let s := build_summary cfg (engine_view e) sn in
  report_of startup e = Some (s, reconcile (GenerateVerdict s cfg) (e_verdict e)).
Proof. intros E. cbv zeta. unfold report_of, RunReport. change (ev_Snapshots (engine_view e)) with (e_snapshots e). rewrite E. reflexivity. Qed.

Lemma reads_at_once startup e : RunReport_at startup (fun _ => e) = report_of startup e.
Proof. unfold RunReport_at, report_of, RunReport, Engine_GetWorkerSnapshots, engine_view. cbn [ev_Snapshots]. by destruct (e_snapshots e). Qed.

(** Reads of states that differ in nothing a report shows. *)
Lemma reads_same_view startup r :
  (forall i, (i <= 7)%nat -> engine_view (r i) = engine_view (r 0%nat) /\ e_runCfg (r i) = e_runCfg (r 0%nat)) ->
  RunReport_at startup r = report_of startup (r 0%nat).
Proof.
  intros H. rewrite <- reads_at_once.
  pose proof (f_equal ev_RunID (proj1 (H 2%nat ltac:(lia)))) as E2. pose proof (f_equal ev_StartedAt (proj1 (H 3%nat ltac:(lia)))) as E3.
  pose proof (f_equal ev_EndedAt (proj1 (H 4%nat ltac:(lia)))) as E4. pose proof (f_equal ev_Baseline (proj1 (H 5%nat ltac:(lia)))) as E5.
  pose proof (f_equal ev_Peak (proj1 (H 6%nat ltac:(lia)))) as E6. pose proof (f_equal ev_Verdict (proj1 (H 7%nat ltac:(lia)))) as E7.
  cbn [engine_view ev_RunID ev_StartedAt ev_EndedAt ev_Baseline ev_Peak ev_Verdict] in *.
  unfold RunReport_at, Engine_RunConfig, Engine_RunID, Engine_RunStartedAt, Engine_RunEndedAt, Engine_BaselineRSS, Engine_PeakRSS, Engine_Verdict.
  by rewrite (proj2 (H 1%nat ltac:(lia))), E2, E3, E4, E5, E6, E7.
Qed.
End getters.

(** ** Passing depends on the workers' numbers only *)

Lemma generate_passed s s' cfg : su_Workers s = su_Workers s' -> rv_Passed (GenerateVerdict s cfg) = rv_Passed (GenerateVerdict s' cfg).
Proof.
  intros E. unfold GenerateVerdict. rewrite E. cbn [rv_Passed].
  set (v := addZero _ _ _ _). generalize v. clear. intros v.
  assert (forall r, rv_Passed (if fltb f0 (BaselineRSSMB r) then
      let growth := MemoryGrowthFactor r in
      let limit := th_MaxMemoryGrowthFactor (c_Thresholds cfg) in
      let passed := fleb growth limit in
      let v := add_check v (mkCheck "memory_stability" passed true growth limit
                 (Sprintf "%.2fx growth (threshold %.2fx)" [AFloat growth; AFloat limit])) true in
      if passed then v
      else add_warning v (Sprintf "memory_stability: %.2fx growth exceeds %.2fx" [AFloat growth; AFloat limit])
    else v) = rv_Passed v) as H.
  { intros r. destruct (fltb _ _); [|done]. cbv zeta. by destruct (fleb _ _). }
  by rewrite !H.
Qed.

Lemma reconcile_passed v v' ev : rv_Passed v = rv_Passed v' -> rv_Passed (reconcile v ev) = rv_Passed (reconcile v' ev).
Proof. intros E. unfold reconcile. destruct ev as [x|]; [|done]. repeat case_if; done. Qed.

(** ** A run's captured counters stay *)

Section reads.
Context {W : Type} {HB : HasBase W} {Wk : Worker W}.
Context (NewWorker : string -> Config -> Z -> option W).
Context (ValueAtQuantile : list Z -> float64 -> Z) (TotalCount : list Z -> Z).
Context (evolves : W -> W -> Prop).
Notation engine := (@Engine W).
Notation quiet_step := (quiet_step NewWorker ValueAtQuantile TotalCount evolves).
Notation calmly_reachable := (calmly_reachable NewWorker ValueAtQuantile TotalCount evolves).

(** Counters are captured at the end of the drain. *)
Definition past_capture (p : pc) : bool := match p with PStop | PVerdict | PExit => true | _ => false end.
Definition captured (e : engine) : Prop :=
  is_Some (e_snapshots e) -> forall k t, e_threads e !! k = Some t -> past_capture (t_pc t) = true.

(** What a report shows of a run, but for its end and the memory. *)
Record same_run (e e' : engine) : Prop := {
  sr_snapshots : e_snapshots e' = e_snapshots e;
  sr_cfg : e_runCfg e' = e_runCfg e;
  sr_id : e_runID e' = e_runID e;
  sr_started : e_runStartedAt e' = e_runStartedAt e
}.
#[export] Instance same_run_preorder : PreOrder same_run.
Proof. split; [intros e; by split|]. intros a b c [A1 A2 A3 A4] [B1 B2 B3 B4]. split; congruence. Qed.

Lemma same_run_frame e e' :
  e_snapshots e' = e_snapshots e -> e_runCfg e' = e_runCfg e -> e_runID e' = e_runID e -> e_runStartedAt e' = e_runStartedAt e ->
  e_threads e' = e_threads e -> captured e -> captured e' /\ same_run e e'.
Proof. intros E1 E2 E3 E4 E5 C. split; [|done]. unfold captured. by rewrite E1, E5. Qed.

Lemma same_run_goto e e' k t p :
  e_snapshots e' = e_snapshots e -> e_runCfg e' = e_runCfg e -> e_runID e' = e_runID e -> e_runStartedAt e' = e_runStartedAt e ->
  e_threads e' = {[ k := mkThread p (t_cfg t) ]} -> e_threads e = {[ k := t ]} -> past_capture p = past_capture (t_pc t) || past_capture p ->
  captured e -> captured e' /\ same_run e e'.
Proof.
  intros E1 E2 E3 E4 E5 E6 Hp C. split; [|done]. intros Hs k' t'. rewrite E5. intros [<- <-]%lookup_singleton_Some. cbn [t_pc].
  rewrite E1 in Hs. specialize (C Hs k t). rewrite E6, lookup_singleton_eq in C. by rewrite Hp, C.
Qed.

(** A step of the loop keeps what was captured; only the end of the drain, when
    nothing has been captured, captures. *)
Lemma run_loop_keeps e e' : inv e -> captured e -> loop_step NewWorker ValueAtQuantile TotalCount e e' ->
  captured e' /\ (is_Some (e_snapshots e) -> same_run e e').
Proof.
  intros I C Hs. destruct (inv_runs e I) as [Hi|(k0 & t0 & L)]; [destruct Hs; by edestruct (idle_at e)|].
  pose proof (lv_threads _ _ _ L) as T.
  assert (forall p e', e_snapshots e' = e_snapshots e -> e_runCfg e' = e_runCfg e -> e_runID e' = e_runID e ->
    e_runStartedAt e' = e_runStartedAt e -> e_threads e' = <[k0 := mkThread p (t_cfg t0)]> (e_threads e) ->
    past_capture p = past_capture (t_pc t0) || past_capture p -> captured e' /\ (is_Some (e_snapshots e) -> same_run e e')) as G.
  { intros p x E1 E2 E3 E4 E5 E6. rewrite T, insert_singleton_eq in E5. by destruct (same_run_goto e x k0 t0 p). }
  destruct Hs;
    match goal with H : at_pc _ _ _ _ |- _ => destruct (live_at _ _ _ _ _ _ L H) as (-> & -> & Hp) end; rewrite Hp in G.
  - by apply (G PConsumers).
  - unfold loop_consumers. destruct (start_groups _ _ _) as [started [err|]]; [by apply (G PExit)|by apply (G PReady)].
  - unfold loop_ready. destruct timeout; [by apply (G PExit)|]. case_bool_decide; [by apply (G PExit)|by apply (G PWarmup)].
  - unfold loop_warmup. cbn [e_cancelled set_groups]. case_bool_decide; [by apply (G PExit)|by apply (G PMeasure)].
  - by apply (G PRunning).
  - by apply (G PShutdown).
  - by apply (G PDrain).
  - by destruct (same_run_frame e (detect_gaps e)).
  - split; [|intros Hsn; specialize (C Hsn k0 t0); rewrite T, lookup_singleton_eq, Hp in C; by specialize (C eq_refl)].
    intros _ k' t'. cbn [loop_capture goto set_thread e_threads set_outcome detect_gaps set_groups]. rewrite T, insert_singleton_eq.
    by intros [-> <-]%lookup_singleton_Some.
  - by apply (G PVerdict).
  - by apply (G PExit).
  - split; [|done]. intros _ k' t'. cbn [loop_exit e_threads]. by rewrite T, delete_singleton_eq, lookup_empty.
Qed.

Lemma quiet_keeps e e' : inv e -> captured e -> quiet_step e e' -> captured e' /\ (is_Some (e_snapshots e) -> same_run e e').
Proof.
  intros I C Hq. destruct Hq as [e e' Hl|e e' Hp|e e' Hst|e|e g _]; [by eapply run_loop_keeps|..].
  - destruct Hp as [e k t _|e k t el _|e k t sys el sb _|e k t _|e k t _ _]; [by edestruct (same_run_frame e)..| | |].
    + unfold memory_tick. case_if; by edestruct (same_run_frame e).
    + by edestruct (same_run_frame e).
    + by edestruct (same_run_frame e).
  - unfold StopRun in Hst. destruct (e_state e); simplify_eq; destruct (e_runCancel e); by edestruct (same_run_frame e).
  - unfold shutdown_begin. destruct (e_state e); cbn [fst]; try by edestruct (same_run_frame e e).
    all: destruct (e_runCancel e); by edestruct (same_run_frame e).
  - by edestruct (same_run_frame e).
Qed.

Lemma calm_captured cfg e : calmly_reachable cfg e -> inv e /\ captured e.
Proof.
  intros H. split; [by eapply calm_inv|]. revert e H. refine (rtc_ind_r captured (New cfg) _ _); [by intros []|].
  intros x y Hr Hs C. destruct Hs as [x y Hq|x y c rid now Ht Hst].
  - destruct (quiet_keeps x y) as [H _]; [by eapply calm_inv|done..].
  - intros [sn Hsn]. unfold StartRunFromConfig in Hst. by destruct (e_state x); simplify_eq.
Qed.

Lemma quiet_path e e' : rtc quiet_step e e' -> inv e -> captured e -> is_Some (e_snapshots e) ->
  inv e' /\ captured e' /\ same_run e e'.
Proof.
  induction 1 as [|x y z Hs _ IH]; intros I C S; [done|]. destruct (quiet_keeps x y I C Hs) as [C' R]. specialize (R S).
  destruct IH as (I' & C'' & R'); [by eapply quiet_step_inv|done|by rewrite (sr_snapshots _ _ R)|]. split_and!; [done..|by etrans].
Qed.
(** The reads of one request, between which others take quiet steps. *)
Definition undisturbed (r : nat -> engine) : Prop := forall i, (i < 7)%nat -> rtc quiet_step (r i) (r (S i)).

Lemma undisturbed_from r i : undisturbed r -> (i <= 7)%nat -> rtc quiet_step (r 0%nat) (r i).
Proof.
  intros H. induction i as [|i IH]; intros Hi; [apply rtc_refl|]. etrans; [apply IH; lia|]. apply H. lia.
Qed.

(** Without a run loop there is nothing left to change. *)
Lemma idle_quiet e e' : rtc quiet_step e e' -> idle e -> idle e' /\ engine_view e' = engine_view e /\ e_runCfg e' = e_runCfg e.
Proof.
  induction 1 as [|x y z Hs _ IH]; intros Hi; [done|].
  assert (idle y /\ engine_view y = engine_view x /\ e_runCfg y = e_runCfg x) as (H1 & H2 & H3).
  { destruct Hs as [x y Hl|x y Hp|x y Hst|x|x g _].
    - destruct Hl; by edestruct (idle_at e).
    - destruct Hp; by edestruct (idle_at e).
    - unfold StopRun in Hst. destruct (id_state _ Hi) as [E|[E|E]]; by rewrite E in Hst.
    - unfold shutdown_begin. destruct (id_state _ Hi) as [E|[E|E]]; by rewrite E.
    - split; [|done]. destruct Hi as [A B C]. by split. }
  destruct (IH H1) as (H4 & H5 & H6). split_and!; [done|congruence..].
Qed.

(** C36 (safety).  A report put together from eight separate reads of the engine,
    with run loop, signals, stop requests and workers going on in between but no
    new run, is about one run: it shows the counters, the configuration and the
    id of the engine at the last read, and it passes exactly when the report of
    that state alone would.  When the run was over at the first read it is that
    state's report in every field. *)
Theorem report_reads_one_run startup r :
  calmly_reachable startup (r 0%nat) -> undisturbed r -> is_Some (e_snapshots (r 0%nat)) ->
  exists s v s' v', RunReport_at startup r = Some (s, v) /\ report_of startup (r 7%nat) = Some (s', v') /\
    su_RunID s = su_RunID s' /\ su_Workers s = su_Workers s' /\ rv_Passed v = rv_Passed v' /\
    (e_threads (r 0%nat) = ∅ -> report_of startup (r 0%nat) = Some (s, v)).
Proof.
  intros Hr Hu Hs. destruct (calm_captured _ _ Hr) as [I C].
  assert (forall i, (i <= 7)%nat -> same_run (r 0%nat) (r i)) as R.
  { intros i Hi. by destruct (quiet_path _ _ (undisturbed_from r i Hu Hi) I C Hs) as (_ & _ & ?). }
  destruct Hs as [sn Hsn]. pose proof (sr_snapshots _ _ (R 7%nat ltac:(lia))) as Hsn7. rewrite Hsn in Hsn7.
  pose proof (report_of_some startup _ _ Hsn) as H0. pose proof (report_of_some startup _ _ Hsn7) as H7. cbv zeta in H0, H7.
  rewrite (sr_cfg _ _ (R 7%nat ltac:(lia))) in H7.
  assert (exists s v, RunReport_at startup r = Some (s, v) /\ s = build_summary (default startup (e_runCfg (r 0%nat)))
      (mkView (e_runID (r 0%nat)) (e_runStartedAt (r 3%nat)) (e_runEndedAt (r 4%nat)) (Some sn) (e_baselineRSS (r 5%nat)) (e_peakRSS (r 6%nat)) None) sn /\
    v = reconcile (GenerateVerdict s (default startup (e_runCfg (r 0%nat)))) (e_verdict (r 7%nat))) as (s & v & E & Es & Ev).
  { unfold RunReport_at, Engine_GetWorkerSnapshots, Engine_RunConfig, Engine_RunID. rewrite Hsn. cbn [mbind option_bind].
    rewrite (sr_cfg _ _ (R 1%nat ltac:(lia))), (sr_id _ _ (R 2%nat ltac:(lia))). do 2 eexists. split; [reflexivity|]. split; reflexivity. }
  exists s, v. do 2 eexists. split; [exact E|]. split; [exact H7|]. split_and!.
  - rewrite Es. cbn [su_RunID build_summary ev_RunID engine_view]. by rewrite (sr_id _ _ (R 7%nat ltac:(lia))).
  - by rewrite Es.
  - rewrite Ev. apply reconcile_passed, generate_passed. by rewrite Es.
  - intros Ht. rewrite <- E. symmetry. apply reads_same_view. intros i Hi. assert (idle (r 0%nat)) as Hidle.
    { destruct (inv_runs _ I) as [?|(k & t & L)]; [done|]. pose proof (lv_threads _ _ _ L) as T. rewrite Ht in T.
      symmetry in T. by apply map_non_empty_singleton in T. }
    by destruct (idle_quiet _ _ (undisturbed_from r i Hu Hi) Hidle) as (_ & ? & ?).
Qed.
(** The reads of one request, with a start after the first [n] of them. *)
Definition across (n : nat) (e e' : engine) (i : nat) : engine := if (i <? n)%nat then e else e'.

(** A run that is started while a report is being read is mixed
    into it.  Wherever the start falls among the reads after the first, the
    report is served with the counters of the run before, but the engine's
    verdict on them is gone: it shows the report's own verdict even when the
    engine had failed that run, and when the start precedes the read of the id,
    the verdict appears under the id of the new run, which has measured nothing
    and has no report. *)
Theorem report_across_restart startup e e' cfg rid now sn n :
  calmly_reachable startup e -> e_threads e = ∅ -> e_snapshots e = Some sn -> StartRunFromConfig cfg rid now e = Ok e' ->
  (1 <= n <= 7)%nat ->
  let used := if (n =? 1)%nat then cfg else default startup (e_runCfg e) in
  calm_step NewWorker ValueAtQuantile TotalCount evolves e e' /\ report_of startup e' = None /\
  (exists s, RunReport_at startup (across n e e') = Some (s, GenerateVerdict s used) /\
     su_Workers s = report_workers used sn /\ su_RunID s = (if (n <=? 2)%nat then e_runID e' else e_runID e)) /\
  (forall v, e_verdict e = Some v -> v_Passed v = false -> exists s r, report_of startup e = Some (s, r) /\ rv_Passed r = false).
Proof.
  intros Hr Ht Hsn Hst Hn used.
  assert (e_snapshots e' = None /\ e_verdict e' = None /\ e_runCfg e' = Some cfg) as (E1 & E2 & E3).
  { unfold StartRunFromConfig in Hst. by destruct (e_state e); simplify_eq. }
  split; [by eapply c_start|]. split; [by unfold report_of, RunReport; cbn [engine_view ev_Snapshots]; rewrite E1|]. split.
  - assert (across n e e' 0%nat = e) as A0 by (destruct n; [lia|done]).
    assert (across n e e' 7%nat = e') as A7 by (unfold across; destruct (Nat.ltb_spec 7 n); [lia|done]).
    unfold RunReport_at, Engine_GetWorkerSnapshots, Engine_Verdict. rewrite A0, A7, Hsn, E2. cbn [mbind option_bind reconcile].
    assert (default startup (Engine_RunConfig (across n e e' 1%nat)) = used) as ->.
    { unfold used, across, Engine_RunConfig. destruct (Nat.eqb_spec n 1), (Nat.ltb_spec 1 n); try lia; [by rewrite E3|done]. }
    eexists. split; [done|]. split; [done|]. cbn [su_RunID build_summary ev_RunID]. unfold Engine_RunID, across.
    destruct (Nat.leb_spec n 2), (Nat.ltb_spec 2 n); done || lia.
  - intros v Ev Hv. eexists _, _. split; [by apply report_of_some|]. by rewrite Ev; unfold reconcile; rewrite Hv.
Qed.

(** A verdict, once there, stays until the next start. *)
Lemma quiet_verdict e e' v : inv e -> quiet_step e e' -> e_verdict e = Some v -> e_verdict e' = Some v.
Proof.
  intros I Hq Hv. destruct Hq as [e e' Hl|e e' Hp|e e' Hst|e|e g _].
  - destruct (inv_runs e I) as [Hi|(k0 & t0 & L)]; [destruct Hl; by edestruct (idle_at e)|].
    pose proof (lv_verdict _ _ _ L) as V.
    destruct Hl; match goal with H : at_pc _ _ _ _ |- _ => destruct (live_at _ _ _ _ _ _ L H) as (-> & -> & Hp) end;
      rewrite Hp in V; cbn in V; first [done | exfalso; naive_solver congruence].
  - destruct Hp; try done. unfold memory_tick. by case_if.
  - unfold StopRun in Hst. destruct (e_state e); simplify_eq; by destruct (e_runCancel e).
  - unfold shutdown_begin. destruct (e_state e); cbn [fst]; try done; by destruct (e_runCancel e).
  - done.
Qed.

Lemma quiet_path_verdict e e' v : rtc quiet_step e e' -> inv e -> e_verdict e = Some v -> e_verdict e' = Some v.
Proof. induction 1 as [|x y z Hs _ IH]; intros I Hv; [done|]. apply IH; [by eapply quiet_step_inv|by eapply quiet_verdict]. Qed.

(** A verdict comes with the counters it judges. *)
Lemma judged_snapshots (e : engine) v : inv e -> e_verdict e = Some v -> is_Some (e_snapshots e).
Proof.
  intros I Ev. destruct (inv_runs e I) as [Hi|(k & t & L)].
  - destruct (id_verdict _ Hi) as [?|[?%verdict_of_run_some _]]; [congruence|tauto].
  - pose proof (lv_verdict _ _ _ L) as V. destruct (t_pc t); cbn in V; try congruence; try (by destruct V).
    destruct V as [?|[?%verdict_of_run_some _]]; [congruence|tauto].
Qed.

(** The reads of main's end in their order: the verdict, the report's eight, the
    warnings. *)
Definition leaves (p : engine) (r : nat -> engine) (h : engine) : Prop :=
  rtc quiet_step p (r 0%nat) /\ undisturbed r /\ rtc quiet_step (r 7%nat) h.

Lemma finish_code cfg (p : engine) (r : nat -> engine) h io stop order :
  end_code (finish cfg p r h io stop order) = if shutdown_passed p then if HasWarnings h then 2 else 0 else 1.
Proof.
  unfold finish. destruct (RunReport_at _ _) as [[s v]|]; [case_if; [destruct (WriteJSON _ _ _)|]|]; cbn [end_code]; by destruct (shutdown_passed p).
Qed.

Lemma finish_console cfg (p : engine) (r : nat -> engine) h io stop order :
  end_console (finish cfg p r h io stop order) =
  match RunReport_at cfg r with Some (s, v) => PrintConsole s v (order (rv_Checks v)) | None => [] end.
Proof. unfold finish. destruct (RunReport_at _ _) as [[s v]|]; [case_if; [destruct (WriteJSON _ _ _)|]|]; done. Qed.

Lemma finish_file cfg (p : engine) (r : nat -> engine) h io stop order :
  let out := finish cfg p r h io stop order in
  is_Some (end_file out) <-> out_ReportFile (c_Output cfg) <> "" /\ io = None /\
     exists summary v, RunReport_at cfg r = Some (summary, v) /\
       omap unsupported (summary_floats summary ++ verdict_floats v) = [] /\ end_file out = Some (out_ReportFile (c_Output cfg), (summary, v)).
Proof.
  intros out. unfold out, finish. destruct (RunReport_at _ _) as [[s v]|].
  2: { cbn. split; [by intros []|]. intros (_ & _ & s & v & [=] & _). }
  destruct (nonempty (out_ReportFile (c_Output cfg))) eqn:Ep.
  2: { cbn. split; [by intros []|]. intros (H & _). by destruct (out_ReportFile (c_Output cfg)). }
  assert (out_ReportFile (c_Output cfg) <> "") as Hp by (intros E; by rewrite E in Ep).
  unfold WriteJSON, marshal. destruct (omap unsupported (summary_floats s ++ verdict_floats v)) as [|t l] eqn:Eu; cbn [mbind result_bind end_file].
  - destruct io; cbn [end_file]; [split; [by intros []|intros (_ & [=] & _)]|].
    split; [|done]. intros _. split_and!; [done..|]. by exists s, v.
  - split; [by intros []|]. intros (_ & _ & s' & v' & E & Hu & _). injection E as <- <-. by rewrite Eu in Hu.
Qed.

(** The report's run is the one of its first read. *)
Lemma report_at_run cfg (r : nat -> engine) sn :
  inv (r 0%nat) -> captured (r 0%nat) -> undisturbed r -> e_snapshots (r 0%nat) = Some sn ->
  exists s v, RunReport_at cfg r = Some (s, v) /\ su_RunID s = e_runID (r 0%nat) /\
    su_Workers s = report_workers (default cfg (e_runCfg (r 0%nat))) sn.
Proof.
  intros I C Hu Hsn.
  assert (forall i, (i <= 7)%nat -> same_run (r 0%nat) (r i)) as Hs.
  { intros i Hi. by destruct (quiet_path _ _ (undisturbed_from r i Hu Hi) I C ltac:(by eexists)) as (_ & _ & ?). }
  unfold RunReport_at, Engine_GetWorkerSnapshots, Engine_RunConfig, Engine_RunID. rewrite Hsn. cbn [mbind option_bind].
  rewrite (sr_cfg _ _ (Hs 1%nat ltac:(lia))), (sr_id _ _ (Hs 2%nat ltac:(lia))). do 2 eexists. split; [reflexivity|]. done.
Qed.

(** C31 (error).  The verdict, the report and the warnings are read from the engine
    one after the other, with the server up and the run loop, requests and workers
    going on in between; if no run is started during these reads (and none was in
    the window between a failed run's error and its loop's return), the exit code
    is that of the verdict [GracefulShutdown] read and of nothing else: 1 without a
    verdict or with a failed one, 2 when it passed with warnings, 0 when it passed.
    An exit with 0 or 2 has printed the report of that run, with its id and
    counters; a report file is written exactly when one is configured, there is a
    report, it has only finite numbers and the write succeeds; and failing to write
    it does not change the exit code. *)
Theorem exit_reports_verdict startup cfg p r h io stop order :
  calmly_reachable startup p -> leaves p r h ->
  let out := finish cfg p r h io stop order in
  end_code out = exit_code (e_verdict p) /\
  (end_code out <> 1 -> exists sn summary v, e_snapshots p = Some sn /\ RunReport_at cfg r = Some (summary, v) /\
     su_RunID summary = e_runID p /\ su_Workers summary = report_workers (default cfg (e_runCfg p)) sn /\
     end_console out = PrintConsole summary v (order (rv_Checks v))) /\
  (is_Some (end_file out) <-> out_ReportFile (c_Output cfg) <> "" /\ io = None /\
     exists summary v, RunReport_at cfg r = Some (summary, v) /\
       omap unsupported (summary_floats summary ++ verdict_floats v) = [] /\ end_file out = Some (out_ReportFile (c_Output cfg), (summary, v))).
Proof.
  intros Hr (H1 & Hu & H2) out. destruct (calm_captured _ _ Hr) as [I C]. split_and!; [| |apply finish_file].
  - unfold out. rewrite finish_code. unfold shutdown_passed, HasWarnings, exit_code.
    destruct (e_verdict p) as [v|] eqn:Ev; [|done].
    rewrite (quiet_path_verdict p h v); [by destruct (v_Passed v)| |done..].
    etrans; [exact H1|]. etrans; [by apply (undisturbed_from r 7)|done].
  - unfold out. rewrite finish_code, finish_console. unfold shutdown_passed. destruct (e_verdict p) as [v|] eqn:Ev; [|done]. intros _.
    destruct (judged_snapshots p v I Ev) as [sn Hsn].
    destruct (quiet_path _ _ H1 I C ltac:(by eexists)) as (I0 & C0 & R0).
    destruct (report_at_run cfg r sn I0 C0 Hu) as (s & w & E & E1 & E2); [by rewrite (sr_snapshots _ _ R0)|].
    exists sn, s, w. rewrite E, E1, E2, (sr_id _ _ R0), (sr_cfg _ _ R0). done.
Qed.

(** The server answers until it is stopped, which is after the report: a run that
    is started between [GracefulShutdown]'s read and the report takes the judged
    run's report and its warnings away.  The process then exits with 0 although
    nothing was reported, even when the run had passed with warnings only. *)
Theorem start_hides_report startup cfg p q c rid now h io stop order v :
  calmly_reachable startup p -> e_threads p = ∅ -> e_verdict p = Some v -> v_Passed v = true ->
  StartRunFromConfig c rid now p = Ok q -> e_verdict h = None ->
  let out := finish cfg p (fun _ => q) h io stop order in
  calm_step NewWorker ValueAtQuantile TotalCount evolves p q /\ end_code out = 0 /\ end_console out = [] /\ end_file out = None.
Proof.
  intros Hr Ht Hv Hp Hst Hh out. assert (e_snapshots q = None) as E.
  { unfold StartRunFromConfig in Hst. by destruct (e_state p); simplify_eq. }
  split; [by eapply c_start|]. unfold out. rewrite finish_code, finish_console. unfold shutdown_passed, HasWarnings, finish, RunReport_at, Engine_GetWorkerSnapshots.
  by rewrite Hv, Hh, Hp, E.
Qed.
End reads.

(** The judged run, ended. *)
Definition ended_engine : @Engine OrderingKeysWorker := loop_exit 6 0 judged_engine.
Lemma ended_reachable : calmly_reachable new_one vq tc eq one_config ended_engine.
Proof.
  eapply rtc_r; [exact judged_reachable|]. destruct (thread_at_pc judged_engine 0 PExit) as (t & Hat & _); [vm_compute; reflexivity|].
  by eapply c_quiet, q_loop, s_exit.
Qed.

Lemma ended_snapshots : exists sn, e_snapshots ended_engine = Some sn.
Proof.
  assert ((if e_snapshots ended_engine is Some _ then true else false) = true) as H by (vm_compute; reflexivity).
  destruct (e_snapshots ended_engine) as [sn|]; [by exists sn|discriminate].
Qed.

Lemma report_reads_one_run_witness :
  RunReport_at one_config (fun _ => ended_engine) = report_of one_config ended_engine /\ is_Some (report_of one_config ended_engine).
Proof.
  destruct (report_reads_one_run new_one vq tc eq one_config (fun _ => ended_engine)) as (s & v & s' & v' & H1 & H2 & H3 & H4 & H5 & H6).
  - exact ended_reachable.
  - intros i _. apply rtc_refl.
  - exact ended_snapshots.
  - rewrite H1, H6; [split; [done|by eexists]|vm_compute; reflexivity].
Defined.

Lemma report_across_restart_witness :
  exists e' s, StartRunFromConfig one_config "second" 7 ended_engine = Ok e' /\
    RunReport_at one_config (across 2 ended_engine e') = Some (s, GenerateVerdict s one_config) /\ su_RunID s = "second".
Proof.
  assert (is_ok (StartRunFromConfig one_config "second" 7 ended_engine) = true) as Hok by (vm_compute; reflexivity).
  assert ((if StartRunFromConfig one_config "second" 7 ended_engine is Ok y then e_runID y else "") = "second") as Hid by (vm_compute; reflexivity).
  destruct (StartRunFromConfig one_config "second" 7 ended_engine) as [e'|] eqn:E; [|discriminate].
  destruct ended_snapshots as [sn Hsn].
  destruct (report_across_restart new_one vq tc eq one_config ended_engine e' one_config "second" 7 sn 2) as (_ & _ & (s & H1 & _ & H2) & _);
    [exact ended_reachable|vm_compute; reflexivity|exact Hsn|exact E|lia|].
  exists e', s. split; [done|]. change ((2 =? 1)%nat) with false in H1. cbv iota in H1. split.
  - replace (default one_config (e_runCfg ended_engine)) with one_config in H1; [exact H1|]. apply (inj Some). vm_compute. reflexivity.
  - rewrite H2. exact Hid.
Defined.

Lemma exit_reports_verdict_witness :
  let out := finish one_config judged_engine (fun _ => judged_engine) ended_engine None None map_to_list in
  end_code out = exit_code (e_verdict judged_engine) /\ is_Some (e_verdict judged_engine).
Proof.
  split; [|vm_compute; by eexists].
  apply (exit_reports_verdict new_one vq tc eq one_config one_config judged_engine (fun _ => judged_engine) ended_engine None None
    map_to_list judged_reachable).
  split; [apply rtc_refl|]. split; [intros i _; apply rtc_refl|]. apply rtc_once.
  destruct (thread_at_pc judged_engine 0 PExit) as (t & Hat & _); [vm_compute; reflexivity|]. by eapply q_loop, s_exit.
Defined.
