(* ===== verification/ExampleLib.v ===== *)
(** * The sample programs: programs that talk to a broker

    A sample program (src/examples/go) is a [prog]: a tree of calls, each with a
    continuation for every answer.  [Exit] is [os.Exit]: what [defer] has
    registered is not run by it, so a deferred function is code after a normal
    return only.  Loops that wait for the broker take fuel, and [OutOfFuel]
    marks a program that is still waiting.

    Nothing is assumed of the answers: a run is any tree path.  [wp] is what
    holds after every run, and its rules walk through a program. *)
From S2P Require Import Prelude GoFloat GoFmt GoTime GoJson Transport Clients Console.
From Stdlib Require Import Ascii.

(** ** Data *)

Inductive resource := RTopic (id : string) | RSub (id : string) | RSnapshot (id : string) | RSchema (id : string).
#[global] Instance resource_eq_dec : EqDecision resource.
Proof. solve_decision. Defined.

(** A message as it is published; as it is delivered, with its id and its
    publish time (RFC 3339); and as a pull returns it. *)
Record pub := mkPub { p_Data : string; p_Attributes : gmap string string; p_OrderingKey : string }.
Record msg := mkMsg { m_ID : string; m_Data : string; m_Attributes : gmap string string; m_OrderingKey : string; m_PublishTime : string }.
Record rmsg := mkRMsg { r_AckId : string; r_Message : msg; r_DeliveryAttempt : Z }.
Definition plain (body : string) : pub := mkPub body ∅ "".
Definition attr (m : gmap string string) (k : string) : string := default "" (m !! k).

Record sub_config := mkSC {
  sc_Topic : string; sc_AckDeadline : Z; sc_EnableMessageOrdering : bool; sc_EnableExactlyOnceDelivery : bool; sc_Filter : string;
  sc_DeadLetter : option (string * Z); sc_Retry : option (Z * Z); sc_RetainAcked : option Z; sc_Push : string
}.
Definition sub_on (topic : string) : sub_config := mkSC topic (10 * Second) false false "" None None None "".

(** [Labels], [RetentionDuration] and [SchemaSettings] (the schema's path; JSON
    encoding). *)
Record topic_config := mkTC { tc_Labels : gmap string string; tc_Retention : option Z; tc_Schema : option string }.
Definition no_topic_config : topic_config := mkTC ∅ None None.

(** An event of the native subscription. *)
Record event := mkEvent { ev_Body : string; ev_Tags : gmap string string }.
Inductive native_wait := NEvent (e : event) | NError (err : string) | NTimeout.

Inductive schema_type := SchemaAvro | SchemaProtocolBuffer.

(** ** Calls *)

(** A call that can fail gives its value or the error, or an optional error.
    [Send] is [Publish], whose result [Get] waits for.  [Receive] gives the
    messages the callback is run on, in the order in which the callbacks take
    effect, the error it returns, and whether its context has ended by then; the
    calls of the callbacks follow it.  A listing gives what the iterator yields
    and the error it ends with, if not [iterator.Done].  [Posts] are the bodies
    the push receiver is sent while the program waits, [None] one that cannot be
    read. *)
Inductive call : Type -> Type :=
| Getenv (k : string) : call string
| NewString : call string
| Now : call Z
| Sleep (d : Z) : call unit
| Out (line : string) : call unit
| Log (line : string) : call unit
| NewClient (project : string) : call (option rpc_error)
| NewSubscriber (o : client_options) : call (option rpc_error)
| NewSchemas (project : string) (o : client_options) : call (option rpc_error)
| CloseClient : call unit
| CloseSubscriber : call unit
| CreateTopic (id : string) (cfg : topic_config) : call (option rpc_error)
| CreateSub (id : string) (cfg : sub_config) : call (option rpc_error)
| CreateSnap (sub id : string) : call (string + rpc_error)
| CreateSchema (id : string) (t : schema_type) (definition : string) : call (string + rpc_error)
| Delete (r : resource) : call (option rpc_error)
| StopTopic (id : string) : call unit
| Send (topic : string) (m : pub) : call nat
| Flush (topic : string) : call unit
| Get (n : nat) : call (string + rpc_error)
| Receive (sub : string) (maxOutstanding goroutines : option Z) (timeout : Z) : call (list msg * option rpc_error * bool)
| Ack (id : string) : call unit
| AckWithResult (id : string) : call (AcknowledgeStatus * option rpc_error)
| Pull (sub : string) (max : Z) : call (list rmsg + rpc_error)
| Acknowledge (sub : string) (ids : list string) : call (option rpc_error)
| ModifyAckDeadline (sub : string) (ids : list string) (seconds : Z) : call (option rpc_error)
| SeekToTime (sub : string) (t : Z) : call (option rpc_error)
| SeekToSnapshot (sub snap : string) : call (option rpc_error)
| Topics : call (list string * option rpc_error)
| TopicConfig (id : string) : call (topic_config + rpc_error)
| UpdateTopic (id : string) (labels : gmap string string) : call (gmap string string + rpc_error)
| Subscriptions (topic : string) : call (list string * option rpc_error)
| TopicExists (id : string) : call (bool + rpc_error)
| Listen (addr : string) : call (string + rpc_error)
| Posts (d : Z) : call (list (option string))
| ShutdownServer : call unit
| NewNative (host : string) (port : Z) (clientID : string) : call (option rpc_error)
| CloseNative : call unit
| SubscribeNative (channel : string) : call (option rpc_error)
| CancelNative : call unit
| Await (d : Z) : call native_wait
| PollEvent : call (option event)
| PollError : call (option string).

(** ** Programs *)

Inductive prog (A : Type) : Type :=
| Ret (a : A)
| Exit (code : Z)
| OutOfFuel
| Do {X : Type} (c : call X) (k : X -> prog A).
Arguments Ret {A} a.
Arguments Exit {A} code.
Arguments OutOfFuel {A}.
Arguments Do {A X} c k.

Fixpoint bind {A B} (p : prog A) (f : A -> prog B) : prog B :=
  match p with
  | Ret a => f a
  | Exit code => Exit code
  | OutOfFuel => OutOfFuel
  | Do c k => Do c (fun x => bind (k x) f)
  end.

Declare Scope prog_scope.
Delimit Scope prog_scope with prog.
Notation "x <~ p ;; q" := (bind p (fun x => q)) (at level 62, p at next level, right associativity) : prog_scope.
Notation "p ;;; q" := (bind p (fun _ => q)) (at level 62, right associativity) : prog_scope.
Notation "x <- c ;; q" := (Do c (fun x => q)) (at level 62, c at next level, right associativity) : prog_scope.
Notation "! c ;; q" := (Do c (fun _ => q)) (at level 62, c at next level, right associativity) : prog_scope.
Open Scope prog_scope.

(** [fmt.Printf] of a line, [log.Printf], [log.Fatalf]. *)
Definition print {A} (line : string) (q : prog A) : prog A := ! Out line;; q.
Definition warn {A} (line : string) (q : prog A) : prog A := ! Log line;; q.
Definition Fatal {A} (line : string) : prog A := ! Log line;; Exit 1.
(** [defer d], for the rest [q] of the function. *)
Definition defer {A} (d : prog unit) (q : prog A) : prog A := a <~ q;; d;;; Ret a.

(** A call whose error is fatal. *)
Definition or_die {A} (r : option rpc_error) (f : string -> string) (q : prog A) : prog A :=
  match r with Some e => Fatal (f (e_text e)) | None => q end.
Definition get_or_die {A B} (r : B + rpc_error) (f : string -> string) (q : B -> prog A) : prog A :=
  match r with inr e => Fatal (f (e_text e)) | inl b => q b end.
(** A test whose failure is fatal. *)
Definition require {A} (ok : bool) (line : string) (q : prog A) : prog A := if ok then q else Fatal line.

(** ** What the programs share *)

(** [Printf] lines. *)
Definition line1 (f a : string) : string := Sprintf f [AStr a].
Definition line2 (f a b : string) : string := Sprintf f [AStr a; AStr b].

(** The project: the environment's, or a default. *)
Definition with_project {A} (q : string -> prog A) : prog A :=
  p <- Getenv "PUBSUB_PROJECT_ID";; q (if String.eqb p "" then "my-project" else p).
Definition banner {A} (name project : string) (q : prog A) : prog A :=
  host <- Getenv "PUBSUB_EMULATOR_HOST";;
  print (Sprintf ("[kubemq-gcp-pub-sub] " +:+ name +:+ " | emulator=%s project=%s") [AStr host; AStr project]) q.
Definition with_client {A} (project : string) (q : prog A) : prog A :=
  r <- NewClient project;; or_die r (line1 "pubsub.NewClient: %v") (defer (! CloseClient;; Ret tt) q).

(** The options of the low-level clients ([emulatorOptions], [emulatorOpts]). *)
Definition emulatorOptions (host : string) : client_options :=
  if String.eqb host "" then LibraryDefaults else Insecure host.
Definition with_subscriber {A} (label : string) (q : prog A) : prog A :=
  host <- Getenv "PUBSUB_EMULATOR_HOST";;
  r <- NewSubscriber (emulatorOptions host);; or_die r (line1 label) (defer (! CloseSubscriber;; Ret tt) q).

(** [uuid.NewString()[:8]]. *)
Definition with_suffix {A} (q : string -> prog A) : prog A := u <- NewString;; q (String.substring 0 8 u).

Definition with_topic {A} (id : string) (cfg : topic_config) (label : string) (q : prog A) : prog A :=
  r <- CreateTopic id cfg;; or_die r (fun e => line2 label id e) (defer (! StopTopic id;; Ret tt) q).
Definition with_sub {A} (id : string) (cfg : sub_config) (label : string) (q : prog A) : prog A :=
  r <- CreateSub id cfg;; or_die r (fun e => line2 label id e) q.

(** A best-effort delete: the warning, or the line that says it is done. *)
Definition delete (r : resource) (warning : string -> string) (done : option string) : prog unit :=
  x <- Delete r;;
  match x with
  | Some e => warn (warning (e_text e)) (Ret tt)
  | None => match done with Some l => print l (Ret tt) | None => Ret tt end
  end.
Definition cleanup (sub topic : string) : prog unit :=
  delete (RSub sub) (line1 "warning: DeleteSubscription: %v") (Some "DeleteSubscription: ok");;;
  delete (RTopic topic) (line1 "warning: DeleteTopic: %v") (Some "DeleteTopic: ok").

(** Publish and wait for the id. *)
Definition publish {A} (topic : string) (m : pub) (f : string -> string) (q : string -> prog A) : prog A :=
  n <- Send topic m;; r <- Get n;; get_or_die r f q.

(** The callback on every message a [Receive] delivers. *)
Fixpoint each {A S} (f : msg -> S -> (S -> prog A) -> prog A) (ms : list msg) (s : S) (q : S -> prog A) : prog A :=
  match ms with [] => q s | m :: ms' => f m s (fun s' => each f ms' s' q) end.
(** The error of [Receive] counts only while its context is alive. *)
Definition receive {A S} (sub : string) (maxOutstanding goroutines : option Z) (timeout : Z) (label : string)
    (f : msg -> S -> (S -> prog A) -> prog A) (s : S) (q : S -> prog A) : prog A :=
  r <- Receive sub maxOutstanding goroutines timeout;;
  let '(ms, err, ended) := r in
  each f ms s (fun s' =>
    match err with
    | Some e => if ended : bool then q s' else Fatal (line1 label (e_text e))
    | None => q s'
    end).

Definition sub_path (project sub : string) : string := line2 "projects/%s/subscriptions/%s" project sub.

(** [check] of the newer samples: [Exit] after a line of its own. *)
Definition check {A} (ok : bool) (message : string) (q : prog A) : prog A :=
  if ok then print (line1 "[OK] %s" message) q else print (line1 "[FAIL] %s" message) (Exit 1).

Fixpoint equal (a b : list string) : bool :=
  match a, b with
  | [], [] => true
  | x :: a', y :: b' => String.eqb x y && equal a' b'
  | _, _ => false
  end.

(** [%v] of a list of strings. *)
Fixpoint join (sep : string) (l : list string) : string :=
  match l with [] => "" | [x] => x | x :: l' => x +:+ sep +:+ join sep l' end.
Definition fmt_list (l : list string) : string := "[" +:+ join " " l +:+ "]".

(** [drain] of the seek, snapshot and schema samples: pull and acknowledge until
    two pulls in a row are empty, or the time is over. *)
Fixpoint drain_loop (fuel : nat) (sub : string) (deadline : Z) (emptyStreak : nat) (bodies : list string) : prog (list string) :=
  match fuel with
  | O => OutOfFuel
  | S fuel' =>
      now <- Now;;
      if negb (now <? deadline) then Ret bodies
      else
        r <- Pull sub 10;;
        get_or_die r (line1 "Pull: %v") (fun rms =>
        match rms with
        | [] => if (2 <=? S emptyStreak)%nat then Ret bodies
                else ! Sleep (300 * Millisecond);; drain_loop fuel' sub deadline (S emptyStreak) bodies
        | _ =>
            a <- Acknowledge sub (map r_AckId rms);;
            or_die a (line1 "Acknowledge: %v")
              (drain_loop fuel' sub deadline 0 (bodies ++ map (fun rm => m_Data (r_Message rm)) rms))
        end)
  end.
Definition drain (fuel : nat) (window : Z) (sub : string) : prog (list string) :=
  now <- Now;; drain_loop fuel sub (now + window) 0 [].

(** ** Runs *)

Inductive outcome (A : Type) := Done (a : A) | Died (code : Z) | Waiting.
Arguments Done {A} a.
Arguments Died {A} code.
Arguments Waiting {A}.

(** A call with its answer. *)
Inductive entry :=
| Entry {X : Type} (c : call X) (x : X).

(** A run: the calls in order with their answers, and how it ended. *)
Inductive runs {A} : prog A -> list entry -> outcome A -> Prop :=
| runs_ret a : runs (Ret a) [] (Done a)
| runs_exit code : runs (Exit code) [] (Died code)
| runs_fuel : runs OutOfFuel [] Waiting
| runs_do {X} (c : call X) (x : X) k tr o : runs (k x) tr o -> runs (Do c k) (Entry c x :: tr) o.

(** A broker, and the rest of the world: a state that answers calls. *)
Definition world (W : Type) : Type := forall X, call X -> W -> X * W.
Fixpoint exec {A W} (w : world W) (p : prog A) (s : W) : list entry * outcome A :=
  match p with
  | Ret a => ([], Done a)
  | Exit code => ([], Died code)
  | OutOfFuel => ([], Waiting)
  | Do c k => let '(x, s') := w _ c s in let '(tr, o) := exec w (k x) s' in (Entry c x :: tr, o)
  end.

Lemma exec_runs {A W} (w : world W) (p : prog A) s : runs p (fst (exec w p s)) (snd (exec w p s)).
Proof.
  revert s. induction p as [a|code| |X c k IH]; intros s; cbn; [constructor..|].
  destruct (w X c s) as [x s']. specialize (IH x s'). destruct (exec w (k x) s') as [tr o]. cbn in *. by constructor.
Qed.

(** ** What holds after every run *)

Section wp.
Context {G : Type} (step : G -> entry -> G).

(** [g] is what is known of the calls so far. *)
Fixpoint wp {A} (p : prog A) (g : G) (Q : outcome A -> G -> Prop) : Prop :=
  match p with
  | Ret a => Q (Done a) g
  | Exit code => Q (Died code) g
  | OutOfFuel => Q Waiting g
  | Do c k => forall x, wp (k x) (step g (Entry c x)) Q
  end.

Lemma wp_sound {A} (p : prog A) g Q tr o : wp p g Q -> runs p tr o -> Q o (foldl step g tr).
Proof. intros H R. revert g H. induction R as [| | |X c x k tr o R IH]; intros g H; [exact H..|]. cbn in *. by apply IH. Qed.

Lemma wp_mono {A} (p : prog A) g (Q R : outcome A -> G -> Prop) : (forall o g', Q o g' -> R o g') -> wp p g Q -> wp p g R.
Proof. intros H. revert g. induction p as [a|code| |X c k IH]; intros g; cbn; [apply H..|]. intros Hx x. by apply IH. Qed.

(** The rest of a program, after its first part. *)
Definition after {A B} (f : A -> prog B) (Q : outcome B -> G -> Prop) (o : outcome A) (g : G) : Prop :=
  match o with Done a => wp (f a) g Q | Died code => Q (Died code) g | Waiting => Q Waiting g end.

Lemma wp_bind {A B} (p : prog A) (f : A -> prog B) g Q : wp p g (after f Q) -> wp (bind p f) g Q.
Proof. revert g. induction p as [a|code| |X c k IH]; intros g H; cbn in *; [exact H..|]. intros x. apply IH, H. Qed.

(** What is left to do when a function returns: its deferred functions. *)
Definition finally {A} (d : prog unit) (Q : outcome A -> G -> Prop) (o : outcome A) (g : G) : Prop :=
  after (fun a => d;;; Ret a) Q o g.
Lemma wp_defer {A} (d : prog unit) (q : prog A) g Q : wp q g (finally d Q) -> wp (defer d q) g Q.
Proof. apply wp_bind. Qed.

Lemma wp_do {A X} (c : call X) (k : X -> prog A) g Q : (forall x, wp (k x) (step g (Entry c x)) Q) -> wp (Do c k) g Q.
Proof. done. Qed.
Lemma wp_require {A} (ok : bool) line (q : prog A) g Q :
  (ok = false -> wp (Fatal line) g Q) -> (ok = true -> wp q g Q) -> wp (require ok line q) g Q.
Proof. intros H1 H2. unfold require. destruct ok; auto. Qed.

(** A loop over messages keeps what one round keeps. *)
Lemma wp_each {A S} (f : msg -> S -> (S -> prog A) -> prog A) ms s q g Q (I : list msg -> S -> G -> Prop) pre :
  (forall pre m s g k, I pre s g -> (forall s' g', I (pre ++ [m]) s' g' -> wp (k s') g' Q) -> wp (f m s k) g Q) ->
  I pre s g -> (forall s' g', I (pre ++ ms) s' g' -> wp (q s') g' Q) -> wp (each f ms s q) g Q.
Proof.
  intros Hf. revert pre s g. induction ms as [|m ms IH]; intros pre s g Hi Hq; cbn.
  - apply Hq. by rewrite app_nil_r.
  - apply (Hf pre); [done|]. intros s' g' Hi'. apply (IH (pre ++ [m])); [done|]. intros s'' g'' Hi''. apply Hq. by rewrite <- app_assoc in Hi''.
Qed.
End wp.

(** ** Resources *)

(** What is there after a call that was not there before, and what has been
    asked to be gone. *)
Definition held_step (s : list resource) (e : entry) : list resource :=
  match e with
  | Entry c x =>
      match c in call X return X -> list resource with
      | CreateTopic id _ => fun x => if x is None then RTopic id :: s else s
      | CreateSub id _ => fun x => if x is None then RSub id :: s else s
      | CreateSnap _ id => fun x => if x is inl _ then RSnapshot id :: s else s
      | CreateSchema id _ _ => fun x => if x is inl _ then RSchema id :: s else s
      | Delete r => fun _ => List.filter (fun r' => negb (bool_decide (r' = r))) s
      | _ => fun _ => s
      end x
  end.
(** The resources created and not deleted since. *)
Definition held (tr : list entry) : list resource := foldl held_step [] tr.

(** The resources a run asks to be deleted. *)
Definition delete_of (e : entry) : option resource :=
  match e with Entry c _ => match c with Delete r => Some r | _ => None end end.
Definition deletes (tr : list entry) : list resource := omap delete_of tr.

Lemma in_filter_ne (r r' : resource) (s : list resource) : r ∈ List.filter (fun x => negb (bool_decide (x = r'))) s <-> r ∈ s /\ r <> r'.
Proof.
  rewrite !list_elem_of_In, filter_In. split; intros [H1 H2]; (split; [done|]).
  - intros ->. by rewrite bool_decide_eq_true_2 in H2.
  - by rewrite bool_decide_eq_false_2.
Qed.

(** ** Walking through a program *)

(** What is asked of a normal end only. *)
Definition on_done {A G} (P : A -> G -> Prop) (o : outcome A) (g : G) : Prop := match o with Done a => P a g | _ => True end.

(** [simp] brings what is known up to date after a call. *)
Ltac walk_step simp :=
  lazymatch goal with
  | |- wp _ (Do _ _) _ _ => apply wp_do; intros ?; simp tt
  | |- wp _ (Ret _) _ _ => cbn [wp]
  | |- wp _ (Exit _) _ _ => cbn [wp]
  | |- wp _ OutOfFuel _ _ => cbn [wp]
  | |- wp _ (print _ _) _ _ => unfold print
  | |- wp _ (warn _ _) _ _ => unfold warn
  | |- wp _ (Fatal _) _ _ => unfold Fatal
  | |- wp _ (defer _ _) _ _ => apply wp_defer
  | |- wp _ (bind _ _) _ _ => apply wp_bind
  | |- wp _ (with_project _) _ _ => unfold with_project
  | |- wp _ (with_client _ _) _ _ => unfold with_client
  | |- wp _ (with_subscriber _ _) _ _ => unfold with_subscriber
  | |- wp _ (with_suffix _) _ _ => unfold with_suffix
  | |- wp _ (with_topic _ _ _ _) _ _ => unfold with_topic
  | |- wp _ (with_sub _ _ _ _) _ _ => unfold with_sub
  | |- wp _ (banner _ _ _) _ _ => unfold banner
  | |- wp _ (publish _ _ _ _) _ _ => unfold publish
  | |- wp _ (delete _ _ _) _ _ => unfold delete
  | |- wp _ (cleanup _ _) _ _ => unfold cleanup
  | |- wp _ (or_die ?r _ _) _ _ => destruct r; cbn [or_die]
  | |- wp _ (get_or_die ?r _ _) _ _ => destruct r; cbn [get_or_die]
  | |- wp _ (check ?b _ _) _ _ => destruct b eqn:?; cbn [check]
  | |- wp _ (require _ _ _) _ _ => apply wp_require; intros ?
  | |- wp _ (if ?b then _ else _) _ _ => destruct b eqn:?
  | |- wp _ (match ?x with _ => _ end) _ _ => destruct x
  | |- finally _ _ _ _ _ => cbn [finally after]
  | |- after _ _ _ _ _ => cbn [after]
  | |- on_done _ _ _ => cbn [on_done]
  | |- True => exact I
  end.
Ltac walk_with simp := repeat (walk_step simp; cbv beta).

(** Nothing is held: every resource created has been deleted. *)
Ltac nothing_left :=
  apply elem_of_nil_inv; intros ? Hheld; repeat (rewrite in_filter_ne in Hheld || rewrite elem_of_cons in Hheld);
  rewrite ?elem_of_nil in Hheld; intuition congruence.
