(* ===== verification/Examples.v ===== *)
(** * The sample programs on topics, subscriptions and delivery

    Each [main] of src/examples/go/{topics,subscriptions,delivery} as a program
    over the calls of [ExampleLib], in the order of its statements; contexts are
    part of what a call answers.  Where Go ranges over a map the order of
    [map_to_list] stands for the unspecified one. *)
From S2P Require Import Prelude GoFloat GoFmt GoTime GoJson Transport Clients Console ExampleLib.
From Stdlib Require Import Ascii.

Definition Printf (f : string) (args : list string) : string := Sprintf f (map AStr args).
(** [%-wq]. *)
Definition quote_pad (w : nat) (s : string) : string := pad_right w (quote s).

(** ** topics/basic-publish-subscribe *)

Definition basic_body : string := "order #4242 — 3x widget, ship express".

Definition basic_callback {A} (m : msg) (s : Z * option msg) (k : Z * option msg -> prog A) : prog A :=
  let '(received, got) := s in
  ! Ack (m_ID m);; k (received + 1, if got is Some _ then got else Some m).

Definition basic_assert (msgID : string) (s : Z * option msg) : prog unit :=
  let '(received, got) := s in
  match got with
  | None => Fatal (Sprintf "FAIL: expected 1 message, received %d" [AInt received])
  | Some got =>
      let value := attr (m_Attributes got) "priority" in
      print (Printf "Receive: messageId=%s body=%q attr[%s]=%q publishTime=%s"
               [m_ID got; m_Data got; "priority"; value; m_PublishTime got])
      (require (String.eqb (m_Data got) basic_body) (Printf "FAIL: received body %q != published %q" [m_Data got; basic_body])
      (require (String.eqb value "express") (Printf "FAIL: received attr %q=%q != published %q" ["priority"; value; "express"])
      (require (String.eqb (m_ID got) msgID) (Printf "FAIL: received messageId %q != published %q" [m_ID got; msgID])
      (print "Acknowledge: ok (acked by ack_id under its lease)"
      (print "PASS: full Pub/Sub round-trip verified (publish -> pull -> ack)" (Ret tt))))))
  end.

Definition basic_main : prog unit :=
  with_project (fun projectID =>
  banner "topics/basic-publish-subscribe" projectID (
  with_client projectID (
  with_suffix (fun suffix =>
  let topicID := "orders-" +:+ suffix in
  let subID := "sub-orders-" +:+ suffix in
  with_topic topicID no_topic_config "CreateTopic %q: %v" (
  print (Printf "CreateTopic: %s (channel pubsub.%s)" [topicID; topicID]) (
  with_sub subID (sub_on topicID) "CreateSubscription %q: %v" (
  print (Printf "CreateSubscription: %s (channel pubsub.sub.%s)" [subID; subID]) (
  defer (cleanup subID topicID) (
  publish topicID (mkPub basic_body {[ "priority" := "express" ]} "") (line1 "Publish: %v") (fun msgID =>
  print (line1 "Publish: messageId=%s" msgID) (
  receive subID None None (15 * Second) "Receive: %v" basic_callback (0, None) (basic_assert msgID)))))))))))).

(** ** topics/batch-publish *)

Definition batchSize : nat := 10.

Fixpoint batch_send (topic : string) (idx : list nat) : prog (list nat) :=
  match idx with
  | [] => Ret []
  | i :: idx' =>
      h <- Send topic (mkPub ("event-" +:+ Itoa (Z.of_nat i)) {[ "seq" := Itoa (Z.of_nat i) ]} "");;
      hs <~ batch_send topic idx';; Ret (h :: hs)
  end.

Fixpoint batch_get (i : Z) (hs : list nat) (seen : gmap string Z) (ids : list string) : prog (gmap string Z * list string) :=
  match hs with
  | [] => Ret (seen, ids)
  | h :: hs' =>
      r <- Get h;;
      get_or_die r (fun e => Sprintf "Publish[%d]: %v" [AInt i; AStr e]) (fun id =>
      print (Sprintf "  [%d] event-%d -> messageId=%s" [AInt i; AInt i; AStr id]) (
      match seen !! id with
      | Some prev => Fatal (Sprintf "FAIL: duplicate messageId %q at indexes %d and %d" [AStr id; AInt prev; AInt i])
      | None => batch_get (i + 1) hs' (<[id := i]> seen) (ids ++ [id])
      end))
  end.

Fixpoint batch_nonempty (i : Z) (ids : list string) : prog unit :=
  match ids with
  | [] => Ret tt
  | id :: ids' => require (negb (String.eqb id "")) (Sprintf "FAIL: message index %d has no id" [AInt i]) (batch_nonempty (i + 1) ids')
  end.

Definition batch_main : prog unit :=
  with_project (fun projectID =>
  banner "topics/batch-publish" projectID (
  with_client projectID (
  with_suffix (fun suffix =>
  let topicID := "events-" +:+ suffix in
  with_topic topicID no_topic_config "CreateTopic %q: %v" (
  print (Printf "CreateTopic: %s (channel pubsub.%s)" [topicID; topicID]) (
  defer (delete (RTopic topicID) (line1 "warning: DeleteTopic: %v") (Some "DeleteTopic: ok")) (
  print (Sprintf "Publish: issuing a batch of %d messages (limit 1000/batch)" [AInt (Z.of_nat batchSize)]) (
  results <~ batch_send topicID (seq 0 batchSize);;
  si <~ batch_get 0 results ∅ [];;
  let '(seen, ids) := si in
  require (size seen =? batchSize)%nat
    (Sprintf "FAIL: expected %d distinct message ids, got %d" [AInt (Z.of_nat batchSize); AInt (Z.of_nat (size seen))]) (
  batch_nonempty 0 ids;;;
  print (Sprintf "Verified: %d message ids returned in request order, all distinct" [AInt (Z.of_nat batchSize)])
  (print "PASS: batch publish verified (ids in request order, atomic batch)" (Ret tt))))))))))).

(** ** topics/topic-management *)

Definition durationOf (d : option Z) : string := if d is Some dur then Duration_String dur else "unset".

(** [%v] of a map: its entries by key. *)
Fixpoint insert_sorted {A} (key : A -> string) (x : A) (l : list A) : list A :=
  match l with [] => [x] | y :: l' => if String.leb (key x) (key y) then x :: l else y :: insert_sorted key x l' end.
Definition sort_by {A} (key : A -> string) (l : list A) : list A := foldr (insert_sorted key) [] l.
Definition fmt_map (m : gmap string string) : string :=
  "map[" +:+ join " " (map (fun e => fst e +:+ ":" +:+ snd e) (sort_by fst (map_to_list m))) +:+ "]".

Definition stage (v : string) : gmap string string := <["team" := "orders"]> {[ "stage" := v ]}.

(** An iterator read to its end; the error it may end with is fatal. *)
Definition listed {A} (r : list string * option rpc_error) (label : string) (q : list string -> prog A) : prog A :=
  let '(ids, err) := r in or_die err (line1 label) (q ids).

(** The topic has been deleted when the function returns normally: the flag the
    deferred function tests is set by then. *)
Definition topic_management_cleanup (subID topicID : string) (topicDeleted : bool) : prog unit :=
  delete (RSub subID) (line1 "warning: DeleteSubscription: %v") None;;;
  if topicDeleted then Ret tt else delete (RTopic topicID) (line1 "warning: DeleteTopic: %v") None.

Definition topic_management_steps (topicID subID : string) : prog bool :=
  tit <- Topics;;
  listed tit "ListTopics: %v" (fun ids =>
  require (existsb (String.eqb topicID) ids) (line1 "FAIL: created topic %q not found in ListTopics" topicID) (
  print (line1 "ListTopics: found %s" topicID) (
  r <- TopicConfig topicID;;
  get_or_die r (line1 "GetTopic (Config): %v") (fun cfg =>
  print (Printf "GetTopic: labels=%v retention=%s" [fmt_map (tc_Labels cfg); durationOf (tc_Retention cfg)]) (
  require (String.eqb (attr (tc_Labels cfg) "team") "orders")
    (line1 "FAIL: GetTopic label team=%q, expected orders" (attr (tc_Labels cfg) "team")) (
  r <- UpdateTopic topicID (stage "production");;
  get_or_die r (line1 "UpdateTopic: %v") (fun labels =>
  print (line1 "UpdateTopic: labels=%v" (fmt_map labels)) (
  require (String.eqb (attr labels "stage") "production")
    (line1 "FAIL: UpdateTopic stage=%q, expected production" (attr labels "stage")) (
  sit <- Subscriptions topicID;;
  listed sit "ListTopicSubscriptions: %v" (fun subs =>
  require (existsb (String.eqb subID) subs)
    (Sprintf "FAIL: subscription %q not found among the topic's %d subscriptions" [AStr subID; AInt (Z.of_nat (length subs))]) (
  print (Sprintf "ListTopicSubscriptions: found %s (%d total on topic)" [AStr subID; AInt (Z.of_nat (length subs))]) (
  r <- Delete (RTopic topicID);;
  or_die r (line1 "DeleteTopic: %v") (
  r <- TopicExists topicID;;
  get_or_die r (line1 "Exists after DeleteTopic: %v") (fun exists_ =>
  require (negb exists_) (line1 "FAIL: topic %q still exists after DeleteTopic (expected tombstone)" topicID) (
  print "DeleteTopic: ok (tombstone — Exists=false)"
  (print "PASS: topic management verified (list/get/update/list-subs/delete-tombstone)" (Ret true))))))))))))))))).

Definition topic_management_main : prog unit :=
  with_project (fun projectID =>
  banner "topics/topic-management" projectID (
  with_client projectID (
  with_suffix (fun suffix =>
  let topicID := "managed-" +:+ suffix in
  let subID := "sub-managed-" +:+ suffix in
  with_topic topicID (mkTC (stage "demo") (Some (30 * Minute)) None) "CreateTopic %q: %v" (
  print (Printf "CreateTopic: %s (channel pubsub.%s)" [topicID; topicID]) (
  with_sub subID (sub_on topicID) "CreateSubscription %q: %v" (
  print (Printf "CreateSubscription: %s (channel pubsub.sub.%s)" [subID; subID]) (
  topicDeleted <~ topic_management_steps topicID subID;;
  topic_management_cleanup subID topicID topicDeleted)))))))).

(** ** subscriptions/streaming-pull *)

Definition messageCount : nat := 8.

Fixpoint streaming_publish (topic : string) (idx : list nat) : prog (list string) :=
  match idx with
  | [] => Ret []
  | i :: idx' =>
      let seq := Itoa (Z.of_nat i) in
      publish topic (mkPub ("event-" +:+ seq) {[ "seq" := seq ]} "") (fun e => Sprintf "Publish #%d: %v" [AInt (Z.of_nat i); AStr e]) (fun _ =>
      rest <~ streaming_publish topic idx';; Ret (seq :: rest))
  end.

Definition streaming_callback {A} (m : msg) (received : gmap string Z) (k : gmap string Z -> prog A) : prog A :=
  let seq := attr (m_Attributes m) "seq" in
  ! Ack (m_ID m);; k (<[seq := default 0 (received !! seq) + 1]> received).

Fixpoint streaming_never (published : list string) (received : gmap string Z) (q : prog unit) : prog unit :=
  match published with
  | [] => q
  | seq :: rest =>
      require (negb (default 0 (received !! seq) =? 0)) (line1 "FAIL: published message seq=%q was never delivered" seq)
        (streaming_never rest received q)
  end.
Fixpoint streaming_twice (received : list (string * Z)) (q : prog unit) : prog unit :=
  match received with
  | [] => q
  | (seq, n) :: rest =>
      require (n =? 1) (Sprintf "FAIL: message seq=%q delivered %d times (expected 1)" [AStr seq; AInt n]) (streaming_twice rest q)
  end.

Definition streaming_assert (published : list string) (received : gmap string Z) : prog unit :=
  let n := Z.of_nat (size received) in
  let count := AInt (Z.of_nat messageCount) in
  print (Sprintf "Received           -> %d messages over the StreamingPull stream" [AInt n])
  (require (n =? Z.of_nat messageCount) (Sprintf "FAIL: received %d distinct messages, expected %d" [AInt n; count])
  (print (Sprintf "  [OK] received all %d published messages" [count])
  (streaming_never published received
  (print "  [OK] every published message was delivered exactly once"
  (streaming_twice (map_to_list received)
  (print "  [OK] no duplicate deliveries (each acked once)"
  (print "" (print "PASS: StreamingPull round-trip complete — all messages drained and acked." (Ret tt))))))))).

Definition cleanup_arrows (sub topic : string) : prog unit :=
  delete (RSub sub) (line1 "warning: DeleteSubscription: %v") (Some "DeleteSubscription -> ok");;;
  delete (RTopic topic) (line1 "warning: DeleteTopic: %v") (Some "DeleteTopic        -> ok").

Definition streaming_main : prog unit :=
  with_project (fun projectID =>
  banner "subscriptions/streaming-pull" projectID (
  with_client projectID (
  with_suffix (fun suffix =>
  let topicID := "orders-" +:+ suffix in
  let subID := "sub-orders-" +:+ suffix in
  with_topic topicID no_topic_config "CreateTopic %q: %v" (
  print (Printf "CreateTopic        -> %s (channel pubsub.%s)" [topicID; topicID]) (
  with_sub subID (sub_on topicID) "CreateSubscription %q: %v" (
  print (Printf "CreateSubscription -> %s (channel pubsub.sub.%s)" [subID; subID]) (
  defer (cleanup_arrows subID topicID) (
  published <~ streaming_publish topicID (seq 0 messageCount);;
  print (Sprintf "Publish            -> %d messages to the topic log" [AInt (Z.of_nat messageCount)]) (
  print "StreamingPull      -> stream open (Receive loop); acking each via callback" (
  receive subID (Some (Z.of_nat messageCount)) (Some 1) (30 * Second) "Receive: %v" streaming_callback ∅
    (streaming_assert published)))))))))))).

(** ** subscriptions/ack-deadline-nack *)

Definition extendSeconds : Z := 30.
Definition truncate (s : string) (n : nat) : string := if (String.length s <=? n)%nat then s else String.substring 0 n s.

Definition pullOne {A} (subPath : string) (q : option rmsg -> prog A) : prog A :=
  r <- Pull subPath 1;; get_or_die r (line1 "Pull: %v") (fun rms => q (head rms)).
Fixpoint pullWithRetry {A} (subPath : string) (attempts : nat) (delay : Z) (q : option rmsg -> prog A) : prog A :=
  match attempts with
  | O => q None
  | S n => pullOne subPath (fun m => if m is Some _ then q m else ! Sleep delay;; pullWithRetry subPath n delay q)
  end.

Definition ack_deadline_steps (subPath payload : string) : prog unit :=
  pullOne subPath (fun first =>
  match first with
  | None => Fatal "FAIL: first Pull returned no message"
  | Some first =>
  print "  [OK] first Pull returns the message" (
  print (Printf "Pull #1            -> body=%q ack_id=%s..." [m_Data (r_Message first); truncate (r_AckId first) 16]) (
  r <- ModifyAckDeadline subPath [r_AckId first] extendSeconds;;
  or_die r (line1 "ModifyAckDeadline(extend): %v") (
  print (Sprintf "ModifyAckDeadline  -> +%ds (lease extended, still owned)" [AInt extendSeconds]) (
  r <- ModifyAckDeadline subPath [r_AckId first] 0;;
  or_die r (line1 "ModifyAckDeadline(nack): %v") (
  print "ModifyAckDeadline  -> 0 (nack: redeliver now)" (
  pullWithRetry subPath 10 (300 * Millisecond) (fun second =>
  match second with
  | None => Fatal "FAIL: the nacked message was not redelivered"
  | Some second =>
  print "  [OK] the nacked message is redelivered on a later Pull" (
  require (String.eqb (m_Data (r_Message second)) payload)
    (Printf "FAIL: redelivered body %q != original %q" [m_Data (r_Message second); payload]) (
  print "  [OK] redelivered body matches the original" (
  print (Printf "Pull #2            -> body=%q ack_id=%s..." [m_Data (r_Message second); truncate (r_AckId second) 16]) (
  r <- Acknowledge subPath [r_AckId second];;
  or_die r (line1 "Acknowledge: %v") (
  print "Acknowledge        -> message acked" (
  pullWithRetry subPath 3 (300 * Millisecond) (fun leftover =>
  match leftover with
  | Some l => Fatal (line1 "FAIL: subscription not empty after ack (got ack_id=%s)" (truncate (r_AckId l) 16))
  | None =>
      print "  [OK] subscription is empty after the ack (no further redelivery)" (
      print "" (print "PASS: ack-deadline / nack lifecycle complete — nack redelivered, ack drained." (Ret tt)))
  end)))))))
  end)))))))
  end).

Definition ack_deadline_main : prog unit :=
  with_project (fun projectID =>
  banner "subscriptions/ack-deadline-nack" projectID (
  with_client projectID (
  with_subscriber "apiv1.NewSubscriberClient: %v" (
  with_suffix (fun suffix =>
  let topicID := "orders-" +:+ suffix in
  let subID := "sub-orders-" +:+ suffix in
  let subPath := sub_path projectID subID in
  with_topic topicID no_topic_config "CreateTopic %q: %v" (
  print (Printf "CreateTopic        -> %s (channel pubsub.%s)" [topicID; topicID]) (
  with_sub subID (sub_on topicID) "CreateSubscription %q: %v" (
  print (Printf "CreateSubscription -> %s (ack deadline 10 s, channel pubsub.sub.%s)" [subID; subID]) (
  defer (cleanup_arrows subID topicID) (
  publish topicID (mkPub "lease-me" {[ "seq" := "0" ]} "") (line1 "Publish: %v") (fun _ =>
  print "Publish            -> 1 message to the topic log" (
  ack_deadline_steps subPath "lease-me")))))))))))).

(** ** delivery/exactly-once *)

Definition ackStatusLabel (s : AcknowledgeStatus) : string :=
  match s with
  | StatusSuccess => "Success" | StatusPermissionDenied => "PermissionDenied"
  | StatusFailedPrecondition => "FailedPrecondition" | StatusInvalidAckID => "InvalidAckID" | StatusOther => "Other"
  end.
(** The number of a status, which [%v] prints. *)
Definition ack_status_number (s : AcknowledgeStatus) : Z :=
  match s with
  | StatusSuccess => 0 | StatusPermissionDenied => 1 | StatusFailedPrecondition => 2 | StatusInvalidAckID => 3 | StatusOther => 4
  end.

(** The callback: the count, and what the first of them stored. *)
Definition eo_first : Type := string * string * AcknowledgeStatus * option rpc_error.
Definition exactly_once_callback {A} (m : msg) (s : Z * option eo_first) (k : Z * option eo_first -> prog A) : prog A :=
  let '(received, first) := s in
  r <- AckWithResult (m_ID m);;
  k (received + 1, if first is Some _ then first else Some (m_ID m, m_Data m, fst r, snd r)).

Definition exactly_once_body : string := "exactly-once payload".

Definition exactly_once_assert (msgID : string) (s : Z * option eo_first) : prog unit :=
  let '(received, first) := s in
  let '(gotID, gotBy, ackStatus, ackErr) := default ("", "", StatusSuccess, None) first in
  require (negb (received =? 0)) "FAIL: expected 1 message, received 0"
  (or_die ackErr (line1 "FAIL: AckWithResult confirmation error: %v")
  (print (Printf "Receive: messageId=%s body=%q ackConfirmation=%s" [gotID; gotBy; ackStatusLabel ackStatus])
  (require (String.eqb gotBy exactly_once_body) (Printf "FAIL: received body %q != published %q" [gotBy; exactly_once_body])
  (require (String.eqb gotID msgID) (Printf "FAIL: received messageId %q != published %q" [gotID; msgID])
  (require (bool_decide (ackStatus = StatusSuccess))
    (Sprintf "FAIL: ack confirmation %v != AcknowledgeStatusSuccess" [AInt (ack_status_number ackStatus)])
  (print "PASS: exactly-once ack confirmed by the broker (AcknowledgeStatusSuccess)" (Ret tt))))))).

Definition exactly_once_main : prog unit :=
  with_project (fun projectID =>
  banner "delivery/exactly-once" projectID (
  with_client projectID (
  with_suffix (fun suffix =>
  let topicID := "eos-" +:+ suffix in
  let subID := "sub-eos-" +:+ suffix in
  with_topic topicID no_topic_config "CreateTopic %q: %v" (
  print (Printf "CreateTopic: %s (channel pubsub.%s)" [topicID; topicID]) (
  with_sub subID (mkSC topicID (10 * Second) false true "" None None None "") "CreateSubscription %q: %v" (
  print (line1 "CreateSubscription: %s (EnableExactlyOnceDelivery=true)" subID) (
  defer (cleanup subID topicID) (
  publish topicID (plain exactly_once_body) (line1 "Publish: %v") (fun msgID =>
  print (Printf "Publish: messageId=%s body=%q" [msgID; exactly_once_body]) (
  print "StreamingPull (Receive): ack with confirmation via AckWithResult()" (
  receive subID None None (20 * Second) "Receive: %v" exactly_once_callback (0, None) (exactly_once_assert msgID))))))))))))).

(** ** delivery/ordering-keys *)

Definition keyA : string := "cust-7".
Definition keyB : string := "cust-9".
Definition plan : list (string * string) :=
  [(keyA, "A1"); (keyB, "B1"); (keyA, "A2"); ("", "keyless"); (keyB, "B2"); (keyA, "A3"); (keyB, "B3")].
Definition shown (key : string) : string := if String.eqb key "" then "(keyless)" else key.

Fixpoint ordering_publish (topic : string) (l : list (string * string)) (q : prog unit) : prog unit :=
  match l with
  | [] => q
  | (key, body) :: l' =>
      publish topic (mkPub body ∅ key) (fun e => Printf "Publish body=%q key=%q: %v" [body; key; e]) (fun id =>
      print ("  publish body=" +:+ quote_pad 9 body +:+ " ordering_key=" +:+ pad_right 10 (shown key) +:+ line1 " -> id=%s" id) (
      ordering_publish topic l' q))
  end.

(** [perKey[key] = append(perKey[key], body)]. *)
Definition append_key (perKey : gmap string (list string)) (key body : string) : gmap string (list string) :=
  <[key := default [] (perKey !! key) ++ [body]]> perKey.

Fixpoint ordering_pull (fuel : nat) (subPath : string) (want : nat) (deadline : Z) (received : nat)
    (perKey : gmap string (list string)) : prog (nat * gmap string (list string)) :=
  match fuel with
  | O => OutOfFuel
  | S fuel' =>
      if negb (received <? want)%nat then Ret (received, perKey)
      else
        now <- Now;;
        if negb (now <? deadline) then Ret (received, perKey)
        else
          r <- Pull subPath 1;;
          get_or_die r (line1 "Pull: %v") (fun rms =>
          match rms with
          | [] => ordering_pull fuel' subPath want deadline received perKey
          | rm :: _ =>
              let key := m_OrderingKey (r_Message rm) in
              let body := m_Data (r_Message rm) in
              print ("  received body=" +:+ quote_pad 9 body +:+ line1 " ordering_key=%s" (shown key)) (
              a <- Acknowledge subPath [r_AckId rm];;
              or_die a (line1 "Acknowledge: %v")
                (ordering_pull fuel' subPath want deadline (S received) (append_key perKey key body)))
          end)
  end.

Definition ordering_assert (rp : nat * gmap string (list string)) : prog unit :=
  let '(received, perKey) := rp in
  let kept key := default [] (perKey !! key) in
  print "Per-key delivery order:"
  (print (Printf "  %s: %v" [keyA; fmt_list (kept keyA)])
  (print (Printf "  %s: %v" [keyB; fmt_list (kept keyB)])
  (print (line1 "  keyless: %v" (fmt_list (kept "")))
  (require (bool_decide (kept keyA = ["A1"; "A2"; "A3"])) (Printf "FAIL: key %q out of order: got %v, want [A1 A2 A3]" [keyA; fmt_list (kept keyA)])
  (require (bool_decide (kept keyB = ["B1"; "B2"; "B3"])) (Printf "FAIL: key %q out of order: got %v, want [B1 B2 B3]" [keyB; fmt_list (kept keyB)])
  (require (received =? length plan)%nat
     (Sprintf "FAIL: expected %d messages, received %d" [AInt (Z.of_nat (length plan)); AInt (Z.of_nat received)])
  (print "PASS: per-key in-order delivery, one in flight per key (A1->A2->A3, B1->B2->B3)" (Ret tt)))))))).

Definition ordering_main (fuel : nat) : prog unit :=
  with_project (fun projectID =>
  banner "delivery/ordering-keys" projectID (
  with_client projectID (
  with_suffix (fun suffix =>
  let topicID := "ordered-" +:+ suffix in
  let subID := "sub-ordered-" +:+ suffix in
  with_topic topicID no_topic_config "CreateTopic %q: %v" (
  print (Printf "CreateTopic: %s (channel pubsub.%s, EnableMessageOrdering=true)" [topicID; topicID]) (
  with_sub subID (mkSC topicID (10 * Second) true false "" None None None "") "CreateSubscription %q: %v" (
  print (Printf "CreateSubscription: %s (channel pubsub.sub.%s, EnableMessageOrdering=true)" [subID; subID]) (
  defer (cleanup subID topicID) (
  print "Publish (publisher ordering enabled; interleaved across two keys):" (
  ordering_publish topicID plan (
  with_subscriber "apiv1.NewSubscriberClient: %v" (
  print "Pull (one in flight per key; ack drives the next per-key message):" (
  now <- Now;;
  rp <~ ordering_pull fuel (sub_path projectID subID) (length plan) (now + 30 * Second) 0
          (<[keyA := []]> (<[keyB := []]> {[ "" := [] ]}));;
  ordering_assert rp))))))))))))).

(** ** delivery/dead-letter-topic *)

Definition maxDeliveryAttempts : Z := 5.
Definition poison : string := "poison".
Definition seconds_since (start now : Z) : string := fmt_f 0 (Seconds (now - start)).

Fixpoint dead_letter_drive (fuel : nat) (workPath dltPath : string) (start deadline srcDeliveries : Z) : prog (string * Z) :=
  match fuel with
  | O => OutOfFuel
  | S fuel' =>
      now <- Now;;
      if negb (now <? deadline) then Ret ("", srcDeliveries)
      else
        r <- Pull workPath 1;;
        get_or_die r (line1 "Pull (source): %v") (fun src =>
        n <~ (match src with
              | [] => Ret srcDeliveries
              | rm :: _ =>
                  now <- Now;;
                  print (Sprintf "  source delivery #%d (DeliveryAttempt=%d) @ %ss — NOT acking, letting the lease expire"
                           [AInt (srcDeliveries + 1); AInt (r_DeliveryAttempt rm); AStr (seconds_since start now)])
                    (Ret (srcDeliveries + 1))
              end);;
        r <- Pull dltPath 1;;
        get_or_die r (line1 "Pull (dead-letter): %v") (fun dlt =>
        match dlt with
        | rm :: _ =>
            a <- Acknowledge dltPath [r_AckId rm];;
            or_die a (line1 "Acknowledge (dead-letter): %v") (Ret (m_Data (r_Message rm), n))
        | [] => ! Sleep Second;; dead_letter_drive fuel' workPath dltPath start deadline n
        end))
  end.

Definition dead_letter_cleanup (dltSub workSub dltTopic srcTopic : string) : prog unit :=
  let sub s := delete (RSub s) (line2 "warning: DeleteSubscription %s: %v" s) None in
  let topic t := delete (RTopic t) (line2 "warning: DeleteTopic %s: %v" t) None in
  sub dltSub;;; sub workSub;;; topic dltTopic;;; topic srcTopic;;;
  print "cleanup: subscriptions + topics deleted" (Ret tt).

Definition dead_letter_assert (start : Z) (dltTopicID : string) (d : string * Z) : prog unit :=
  let '(dead, srcDeliveries) := d in
  require (negb (String.eqb dead ""))
    (Sprintf "FAIL: poison message not dead-lettered within 90s (source deliveries=%d)" [AInt srcDeliveries])
  (now <- Now;;
  print (Sprintf "Dead-letter: received %q after %d source deliveries (~%ss)" [AStr dead; AInt srcDeliveries; AStr (seconds_since start now)])
  (require (String.eqb dead poison) (Printf "FAIL: dead-letter body %q != published %q" [dead; poison])
  (print (Sprintf "PASS: poison dead-lettered to %q once receive count exceeded max_delivery_attempts=%d"
            [AStr dltTopicID; AInt maxDeliveryAttempts]) (Ret tt)))).

Definition dead_letter_main (fuel : nat) : prog unit :=
  with_project (fun projectID =>
  banner "delivery/dead-letter-topic" projectID (
  with_client projectID (
  with_suffix (fun suffix =>
  let srcTopicID := "work-" +:+ suffix in
  let dltTopicID := "work-dlq-" +:+ suffix in
  let workSubID := "sub-work-" +:+ suffix in
  let dltSubID := "sub-dlq-" +:+ suffix in
  with_topic srcTopicID no_topic_config "CreateTopic (source) %q: %v" (
  with_topic dltTopicID no_topic_config "CreateTopic (dead-letter) %q: %v" (
  print (Printf "CreateTopic: %s (source) + %s (dead-letter)" [srcTopicID; dltTopicID]) (
  with_sub workSubID (mkSC srcTopicID (10 * Second) false false ""
      (Some (Printf "projects/%s/topics/%s" [projectID; dltTopicID], maxDeliveryAttempts)) (Some (10 * Millisecond, 50 * Millisecond)) None "")
    "CreateSubscription (source) %q: %v" (
  print (Sprintf "CreateSubscription: %s (dead_letter_topic=%s, max_delivery_attempts=%d)"
           [AStr workSubID; AStr dltTopicID; AInt maxDeliveryAttempts]) (
  with_sub dltSubID (sub_on dltTopicID) "CreateSubscription (dead-letter) %q: %v" (
  print (line1 "CreateSubscription: %s (dead-letter consumer)" dltSubID) (
  defer (dead_letter_cleanup dltSubID workSubID dltTopicID srcTopicID) (
  publish srcTopicID (plain poison) (line1 "Publish: %v") (fun srcMsgID =>
  print (Printf "Publish: messageId=%s body=%q (to source topic)" [srcMsgID; poison]) (
  with_subscriber "apiv1.NewSubscriberClient: %v" (
  print "Drive: pull the source WITHOUT acking (let leases expire) and poll the dead-letter sub:" (
  start <- Now;;
  d <~ dead_letter_drive fuel (sub_path projectID workSubID) (sub_path projectID dltSubID) start (start + 90 * Second) 0;;
  dead_letter_assert start dltTopicID d)))))))))))))))).

(** ** delivery/message-filtering *)

Definition euFilter : string := "attributes.region = " +:+ quote "eu".
Definition mixed : list (string * string) :=
  [("order-1", "eu"); ("order-2", "us"); ("order-3", "eu"); ("order-4", "ap"); ("order-5", "eu")].

(** The bodies published with region eu, and all of them. *)
Fixpoint filtering_publish (topic : string) (l : list (string * string)) (eu all : list string) : prog (list string * list string) :=
  match l with
  | [] => Ret (eu, all)
  | (body, region) :: l' =>
      publish topic (mkPub body (<["region" := region]> {[ "type" := "order" ]}) "") (fun e => Printf "Publish %q: %v" [body; e]) (fun id =>
      print ("  publish body=" +:+ quote_pad 9 body +:+ " region=" +:+ pad_right 3 region +:+ line1 " -> id=%s" id) (
      filtering_publish topic l' (if String.eqb region "eu" then eu ++ [body] else eu) (all ++ [body])))
  end.

Definition drain_callback {A} (m : msg) (seen : gset string) (k : gset string -> prog A) : prog A :=
  ! Ack (m_ID m);; k ({[ m_Data m ]} ∪ seen).
(** The distinct bodies a subscription delivers. *)
Definition filtering_drain {A} (sub : string) (want : nat) (q : list string -> prog A) : prog A :=
  receive sub (if (0 <? want)%nat then Some (Z.of_nat want) else None) (Some 1) (10 * Second) ("Receive on " +:+ sub +:+ ": %v")
    drain_callback ∅ (fun seen => q (elements seen)).

Definition equalSorted (a b : list string) : bool :=
  (length a =? length b)%nat && String.eqb (join "," (sort_by id a)) (join "," (sort_by id b)).

Definition code_name (c : code) : string :=
  match c with
  | InvalidArgument => "InvalidArgument" | NotFound => "NotFound" | AlreadyExists => "AlreadyExists"
  | PermissionDenied => "PermissionDenied" | FailedPrecondition => "FailedPrecondition" | Unavailable => "Unavailable" | OtherCode => "Unknown"
  end.

Definition filtering_cleanup (subs : list string) (topic : string) : prog unit :=
  foldr (fun s q => delete (RSub s) (line2 "warning: DeleteSubscription %s: %v" s) (Some (line1 "DeleteSubscription: %s ok" s));;; q)
    (delete (RTopic topic) (line1 "warning: DeleteTopic: %v") (Some "DeleteTopic: ok")) subs.

(** A malformed filter: accepted, the subscription is deleted and the program
    fails. *)
Definition filtering_negative (topic suffix : string) : prog unit :=
  let badID := "sub-bad-" +:+ suffix in
  print "Negative path: a malformed filter is rejected at CreateSubscription:" (
  r <- CreateSub badID (mkSC topic (10 * Second) false false "this is not a filter" None None None "");;
  match r with
  | None => ! Delete (RSub badID);; Fatal "FAIL: malformed filter was accepted; expected INVALID_ARGUMENT"
  | Some e =>
      print (Printf "  malformed filter -> %s (%v)" [code_name (e_code e); e_text e])
      (require (bool_decide (e_code e = InvalidArgument))
         (line1 "FAIL: malformed filter rejected with %s, want INVALID_ARGUMENT" (code_name (e_code e)))
      (print "PASS: attributes-only CEL-subset filter applied at publish fan-out; malformed filter rejected" (Ret tt)))
  end).

Definition filtering_assert (euGot euBodies allGot allBodies : list string) (q : prog unit) : prog unit :=
  require (equalSorted euGot euBodies) (Printf "FAIL: filtered sub got %v, want only region=eu %v" [fmt_list euGot; fmt_list euBodies])
  (require (equalSorted allGot allBodies) (Printf "FAIL: unfiltered sub got %v, want full batch %v" [fmt_list allGot; fmt_list allBodies])
  (print (Sprintf "non-matching attribute -> suppressed (%d not enqueued for filtered sub)"
            [AInt (Z.of_nat (length allBodies) - Z.of_nat (length euBodies))]) q)).

Definition filtering_main : prog unit :=
  with_project (fun projectID =>
  banner "delivery/message-filtering" projectID (
  print (line1 "filter: %s" euFilter) (
  with_client projectID (
  with_suffix (fun suffix =>
  let topicID := "filtered-" +:+ suffix in
  let subFilteredID := "sub-filtered-" +:+ suffix in
  let subAllID := "sub-all-" +:+ suffix in
  with_topic topicID no_topic_config "CreateTopic %q: %v" (
  print (Printf "CreateTopic: %s (channel pubsub.%s)" [topicID; topicID]) (
  with_sub subFilteredID (mkSC topicID (10 * Second) false false euFilter None None None "") "CreateSubscription (filtered) %q: %v" (
  print (Printf "CreateSubscription: %s (filter=%s)" [subFilteredID; euFilter]) (
  with_sub subAllID (sub_on topicID) "CreateSubscription (all) %q: %v" (
  print (line1 "CreateSubscription: %s (no filter)" subAllID) (
  defer (filtering_cleanup [subFilteredID; subAllID] topicID) (
  print "Publish mixed batch (one Publish per message; region attribute drives the filter):" (
  ea <~ filtering_publish topicID mixed [] [];;
  let '(euBodies, allBodies) := ea in
  print "Pull filtered subscription (expects region=eu only):" (
  filtering_drain subFilteredID (length euBodies) (fun euGot =>
  print (line1 "  filtered received: %v" (fmt_list euGot)) (
  print "Pull unfiltered subscription (expects everything):" (
  filtering_drain subAllID (length allBodies) (fun allGot =>
  print (line1 "  unfiltered received: %v" (fmt_list allGot)) (
  filtering_assert euGot euBodies allGot allBodies (filtering_negative topicID suffix)))))))))))))))))))).
