(* ===== verification/ExamplesAdvanced.v ===== *)
(** * The sample programs on seeking, snapshots, schemas, push and interop

    The [main]s of src/examples/go/advanced, of delivery/push-delivery with its
    HTTP receiver, and of interop/native-events-store. *)
From S2P Require Import Prelude GoFloat GoFmt GoTime GoJson Transport Clients Console ExampleLib Examples.
From Stdlib Require Import Ascii.

(** ** time *)

(** The civil date of a day counted from 1970-01-01. *)
Definition civil (days : Z) : Z * Z * Z :=
  let z := days + 719468 in
  let era := z / 146097 in
  let doe := z mod 146097 in
  let yoe := (doe - doe / 1460 + doe / 36524 - doe / 146096) / 365 in
  let doy := doe - (365 * yoe + yoe / 4 - yoe / 100) in
  let mp := (5 * doy + 2) / 153 in
  let m := if mp <? 10 then mp + 3 else mp - 9 in
  ((if m <=? 2 then 1 else 0) + yoe + era * 400, m, doy - (153 * mp + 2) / 5 + 1).
(** [Format(time.RFC3339)] of a time in UTC, for years of four digits. *)
Definition RFC3339 (ns : Z) : string :=
  let secs := ns / Second in
  let '(y, m, d) := civil (secs / 86400) in
  let s := secs mod 86400 in
  Sprintf "%04d-%02d-%02dT%02d:%02d:%02dZ" [AInt y; AInt m; AInt d; AInt (s / 3600); AInt (s / 60 mod 60); AInt (s mod 60)].

Example RFC3339_ex :
  map RFC3339 [0; 951782400 * Second; 1709208000 * Second; 1767225599 * Second]
  = ["1970-01-01T00:00:00Z"; "2000-02-29T00:00:00Z"; "2024-02-29T12:00:00Z"; "2025-12-31T23:59:59Z"].
Proof. vm_compute. reflexivity. Qed.

(** ** advanced/seek-timestamp *)

Definition retained_sub (topic : string) : sub_config := mkSC topic (10 * Second) false false "" None None (Some (10 * Minute)) "".

(** [publish] of the seek and snapshot samples. *)
Definition publish_order {A} (topic body : string) (q : prog A) : prog A :=
  publish topic (plain body) (fun e => Printf "Publish %q: %v" [body; e]) (fun id =>
  print (Printf "Publish: %s -> messageId=%s" [body; id]) q).

Definition orders (l : list Z) : list string := map (fun i => "order-" +:+ Itoa i) l.

Definition seek_count : Z := 6.

Definition seek_steps (fuel : nat) (topicID subID subName : string) (checkpoint : Z) : prog unit :=
  initial <~ drain fuel (15 * Second) subName;;
  print (line1 "Pull (initial) -> %v" (fmt_list initial))
  (check (equal initial (orders [1; 2; 3; 4; 5; 6])) (Sprintf "initial drain delivered all %d in order" [AInt seek_count]) (
  r <- SeekToTime subID checkpoint;;
  or_die r (line1 "SeekToTime(checkpoint): %v") (
  print "Seek(time=checkpoint) -> cursor rewound" (
  replay <~ drain fuel (15 * Second) subName;;
  print (line1 "Pull (after checkpoint seek) -> %v" (fmt_list replay))
  (check (equal replay (orders [3; 4; 5; 6])) "seek-to-checkpoint replayed only order-3..order-6 (4 at/after the boundary)" (
  now <- Now;;
  r <- SeekToTime subID (now - 365 * 24 * Hour);;
  or_die r (line1 "SeekToTime(pre-window): %v") (
  print "Seek(time=now-365d) -> pre-window (clamps to earliest retained, not an error)" (
  clamped <~ drain fuel (15 * Second) subName;;
  print (line1 "Pull (after pre-window seek) -> %v" (fmt_list clamped))
  (check (equal clamped (orders [1; 2; 3; 4; 5; 6])) "pre-window seek clamped to earliest retained (all 6 replayed)"
  (print "PASS: timestamp seek replayed the in-window tail and clamped a pre-window seek" (Ret tt))))))))))).

Definition seek_main (fuel : nat) : prog unit :=
  with_project (fun projectID =>
  banner "advanced/seek-timestamp" projectID (
  with_client projectID (
  with_subscriber "vkit.NewSubscriberClient: %v" (
  with_suffix (fun suffix =>
  let topicID := "seekable-" +:+ suffix in
  let subID := "sub-seekable-" +:+ suffix in
  with_topic topicID no_topic_config "CreateTopic %q: %v" (
  print (Printf "CreateTopic: %s (channel pubsub.%s)" [topicID; topicID]) (
  with_sub subID (retained_sub topicID) "CreateSubscription %q: %v" (
  print (Printf "CreateSubscription: %s (channel pubsub.sub.%s, retain_acked=true)" [subID; subID]) (
  defer (cleanup subID topicID) (
  publish_order topicID "order-1" (
  publish_order topicID "order-2" (
  ! Sleep (1200 * Millisecond);;
  checkpoint <- Now;;
  print (line1 "checkpoint timestamp recorded -> %s" (RFC3339 checkpoint)) (
  ! Sleep (1200 * Millisecond);;
  publish_order topicID "order-3" (
  publish_order topicID "order-4" (
  publish_order topicID "order-5" (
  publish_order topicID "order-6" (
  seek_steps fuel topicID subID (sub_path projectID subID) checkpoint))))))))))))))))).

(** ** advanced/snapshots *)

Definition snapshot_drain (fuel : nat) (sub : string) : prog (list string) := drain fuel (15 * Second) sub.

Definition snapshot_cleanup (snapshotID subID topicID : string) (topicDeleted : bool) : prog unit :=
  delete (RSnapshot snapshotID) (line1 "warning: DeleteSnapshot: %v") (Some "DeleteSnapshot: ok");;;
  delete (RSub subID) (line1 "warning: DeleteSubscription: %v") (Some "DeleteSubscription: ok");;;
  if topicDeleted then Ret tt else delete (RTopic topicID) (line1 "warning: DeleteTopic: %v") (Some "DeleteTopic: ok").

(** A snapshot of a subscription whose topic is gone must be refused. *)
Definition snapshot_detached (topicID detachedSubID detachedSnapID : string) : prog bool :=
  with_sub detachedSubID (sub_on topicID) "CreateSubscription %q: %v" (
  print (line1 "CreateSubscription: %s (will be detached)" detachedSubID) (
  r <- Delete (RTopic topicID);;
  or_die r (line1 "DeleteTopic (to detach): %v") (
  print (line1 "DeleteTopic: %s (detaches its subscriptions)" topicID) (
  r <- CreateSnap detachedSubID detachedSnapID;;
  require (if r is inr e then bool_decide (e_code e = FailedPrecondition) else false)
    (line1 "FAIL: snapshot of detached subscription returned %v, expected FAILED_PRECONDITION"
       (if r is inr e then e_text e else "<nil>")) (
  print "CreateSnapshot(detached sub) -> FAILED_PRECONDITION"
  (check true "snapshot of a detached subscription rejected FAILED_PRECONDITION" (
  d <- Delete (RSub detachedSubID);;
  let pass := print "PASS: snapshot captured the cursor, seek-to-snapshot replayed, detached rejected" (Ret true) in
  if d is Some e then warn (line1 "warning: DeleteSubscription (detached): %v" (e_text e)) pass else pass))))))).

Definition snapshot_steps (fuel : nat) (suffix topicID subID snapshotID subName : string) : prog bool :=
  publish_order topicID "order-1" (publish_order topicID "order-2" (publish_order topicID "order-3" (
  first <~ snapshot_drain fuel subName;;
  print (line1 "Pull (initial) -> %v" (fmt_list first))
  (check (equal first (orders [1; 2; 3])) "initial drain delivered order-1..order-3" (
  r <- CreateSnap subID snapshotID;;
  get_or_die r (fun e => line2 "CreateSnapshot %q: %v" snapshotID e) (fun expires =>
  print (Printf "CreateSnapshot: %s (cursor captured, expires %s)" [snapshotID; expires]) (
  publish_order topicID "order-4" (publish_order topicID "order-5" (publish_order topicID "order-6" (
  second <~ snapshot_drain fuel subName;;
  print (line1 "Pull (after snapshot) -> %v" (fmt_list second))
  (check (equal second (orders [4; 5; 6])) "drained order-4..order-6 after the snapshot" (
  r <- SeekToSnapshot subID snapshotID;;
  or_die r (fun e => line2 "SeekToSnapshot %q: %v" snapshotID e) (
  print (line1 "Seek(snapshot=%s) -> cursor rewound to captured position" snapshotID) (
  replay <~ snapshot_drain fuel subName;;
  print (line1 "Pull (after seek-to-snapshot) -> %v" (fmt_list replay))
  (check (equal replay (orders [3; 4; 5; 6]))
     "seek-to-snapshot replayed order-3..order-6 from the captured cursor (pre-snapshot excluded)"
  (snapshot_detached topicID ("sub-detached-" +:+ suffix) ("snap-detached-" +:+ suffix))))))))))))))))).

Definition snapshots_main (fuel : nat) : prog unit :=
  with_project (fun projectID =>
  banner "advanced/snapshots" projectID (
  with_client projectID (
  with_subscriber "vkit.NewSubscriberClient: %v" (
  with_suffix (fun suffix =>
  let topicID := "snapped-" +:+ suffix in
  let subID := "sub-snapped-" +:+ suffix in
  let snapshotID := "snap-cursor-" +:+ suffix in
  with_topic topicID no_topic_config "CreateTopic %q: %v" (
  print (Printf "CreateTopic: %s (channel pubsub.%s)" [topicID; topicID]) (
  with_sub subID (retained_sub topicID) "CreateSubscription %q: %v" (
  print (Printf "CreateSubscription: %s (channel pubsub.sub.%s)" [subID; subID]) (
  topicDeleted <~ snapshot_steps fuel suffix topicID subID snapshotID (sub_path projectID subID);;
  snapshot_cleanup snapshotID subID topicID topicDeleted))))))))).

(** ** advanced/schema-avro and advanced/schema-protobuf *)

Definition field_def (name type : string) : string :=
  "    {" +:+ quote "name" +:+ ": " +:+ quote name +:+ ", " +:+ quote "type" +:+ ": " +:+ quote type +:+ "}".
Definition nl : string := str1 (char_of 10).
Definition avroDefinition : string :=
  join nl ["{"; "  " +:+ quote "type" +:+ ": " +:+ quote "record" +:+ ","; "  " +:+ quote "name" +:+ ": " +:+ quote "Order" +:+ ",";
           "  " +:+ quote "fields" +:+ ": ["; field_def "order_id" "string" +:+ ","; field_def "amount" "double"; "  ]"; "}"].
Definition protobufDefinition : string :=
  join nl ["syntax = " +:+ quote "proto3" +:+ ";"; "message Order {"; "  string order_id = 1;"; "  double amount = 2;"; "}"; ""].
Definition order (id amount : string) : string :=
  "{" +:+ quote "order_id" +:+ ":" +:+ quote id +:+ "," +:+ quote "amount" +:+ ":" +:+ amount +:+ "}".

Definition schema_cleanup (schemaID subID topicID : string) : prog unit :=
  cleanup subID topicID;;;
  delete (RSchema schemaID) (line1 "warning: DeleteSchema: %v") (Some "DeleteSchema: ok").

(** The schema samples wait for a shorter time. *)
Definition schema_drain (fuel : nat) (sub : string) : prog (list string) := drain fuel (12 * Second) sub.

(** What differs between the two samples. *)
Record schema_sample := mkSample {
  ss_name : string; ss_label : string; ss_type : schema_type; ss_definition : string; ss_ids : string * string * string;
  ss_conforming : string; ss_good : string; ss_bad : string
}.

(** The whole batch is refused for the one message that does not conform. *)
Definition schema_steps (fuel : nat) (s : schema_sample) (topicID subName : string) : prog unit :=
  publish topicID (plain (ss_conforming s)) (line1 "Publish(conforming): %v") (fun msgID =>
  print (line1 "Publish(conforming): messageId=%s" msgID)
  (check (negb (String.eqb msgID "")) "conforming message accepted (message-id returned)" (
  good <- Send topicID (plain (ss_good s));;
  bad <- Send topicID (plain (ss_bad s));;
  ! Flush topicID;;
  goodErr <- Get good;;
  badErr <- Get bad;;
  print "Publish(batch w/ 1 invalid) -> schema-invalid msg → batch rejected INVALID_ARGUMENT"
  (check (if badErr is inr e then bool_decide (e_code e = InvalidArgument) else false) "non-conforming message rejected with INVALID_ARGUMENT"
  (check (if goodErr is inr _ then true else false) "the conforming sibling in the rejected batch was NOT enqueued (atomic batch)" (
  delivered <~ schema_drain fuel subName;;
  print (line1 "Pull -> %v" (fmt_list delivered))
  (check (equal delivered [ss_conforming s]) "only the conforming message was enqueued (rejected batch enqueues nothing)"
  (print (line1 "PASS: %s schema enforced on publish — conforming ok, non-conforming batch rejected" (ss_label s)) (Ret tt))))))))).

Definition schema_main (fuel : nat) (s : schema_sample) : prog unit :=
  with_project (fun projectID =>
  banner (ss_name s) projectID (
  with_client projectID (
  host <- Getenv "PUBSUB_EMULATOR_HOST";;
  r <- NewSchemas projectID (emulatorOptions host);;
  or_die r (line1 "pubsub.NewSchemaClient: %v") (
  with_subscriber "vkit.NewSubscriberClient: %v" (
  with_suffix (fun suffix =>
  let '(schemaPrefix, topicPrefix, subPrefix) := ss_ids s in
  let schemaID := schemaPrefix +:+ suffix in
  let topicID := topicPrefix +:+ suffix in
  let subID := subPrefix +:+ suffix in
  created <- CreateSchema schemaID (ss_type s) (ss_definition s);;
  get_or_die created (fun e => Printf "CreateSchema(%s) %q: %v" [ss_label s; schemaID; e]) (fun revision =>
  print (Printf "CreateSchema(%s): %s revision=%s" [ss_label s; schemaID; revision])
  (check (negb (String.eqb revision "")) "schema created with a server-assigned revision id" (
  with_topic topicID (mkTC ∅ None (Some (Printf "projects/%s/schemas/%s" [projectID; schemaID]))) "CreateTopic %q (schema_settings): %v" (
  print (Printf "CreateTopic: %s (channel pubsub.%s, schema_settings -> %s, encoding=JSON)" [topicID; topicID; schemaID]) (
  with_sub subID (sub_on topicID) "CreateSubscription %q: %v" (
  print (Printf "CreateSubscription: %s (channel pubsub.sub.%s)" [subID; subID]) (
  defer (schema_cleanup schemaID subID topicID) (
  schema_steps fuel s topicID (sub_path projectID subID))))))))))))))).

Definition avro_sample : schema_sample :=
  mkSample "advanced/schema-avro" "Avro" SchemaAvro avroDefinition ("avro-schema-", "avro-topic-", "sub-avro-")
    (order "A-1" "12.5") (order "A-2" "7.0") (order "A-3" (quote "not-a-number")).
Definition protobuf_sample : schema_sample :=
  mkSample "advanced/schema-protobuf" "Protobuf" SchemaProtocolBuffer protobufDefinition ("proto-schema-", "proto-topic-", "sub-proto-")
    (order "P-1" "99.0") (order "P-2" "5.0") (order "P-3" (quote "not-a-number")).
Definition avro_main (fuel : nat) : prog unit := schema_main fuel avro_sample.
Definition protobuf_main (fuel : nat) : prog unit := schema_main fuel protobuf_sample.

(** ** delivery/push-delivery *)

(** [base64.StdEncoding.DecodeString]. *)
Definition base64_value (c : ascii) : option Z :=
  let n := char_code c in
  if (65 <=? n) && (n <=? 90) then Some (n - 65)
  else if (97 <=? n) && (n <=? 122) then Some (n - 71)
  else if is_digit c then Some (n + 4)
  else if n =? 43 then Some 62 else if n =? 47 then Some 63 else None.
Fixpoint base64_quads (s : string) : option string :=
  match s with
  | EmptyString => Some ""
  | String a (String b (String c (String d rest))) =>
      x ← base64_value a; y ← base64_value b;
      let b1 := char_of (x * 4 + y / 16) in
      if Ascii.eqb c "=" then (if Ascii.eqb d "=" && String.eqb rest "" then Some (str1 b1) else None)
      else
        z ← base64_value c;
        let b2 := char_of (y mod 16 * 16 + z / 4) in
        if Ascii.eqb d "=" then (if String.eqb rest "" then Some (String b1 (str1 b2)) else None)
        else t ← base64_value d; r ← base64_quads rest; Some (String b1 (String b2 (String (char_of (z mod 4 * 64 + t)) r)))
  | _ => None
  end.
Fixpoint strip_newlines (s : string) : string :=
  match s with
  | EmptyString => ""
  | String c s' => if (char_code c =? 10) || (char_code c =? 13) then strip_newlines s' else String c (strip_newlines s')
  end.
Definition base64_decode (s : string) : option string := base64_quads (strip_newlines s).

Example base64_ex :
  map base64_decode ["cHVzaCBtZQ=="; "YWI="; "YWJj"; ""; "YQ"; "Y*=="]
  = [Some "push me"; Some "ab"; Some "abc"; Some ""; None; None].
Proof. vm_compute. reflexivity. Qed.

Record pushEnvelope := mkEnvelope {
  pe_Data : string; pe_Attributes : gmap string string; pe_MessageID : string; pe_PublishTime : string; pe_OrderingKey : string;
  pe_Subscription : string
}.

(** The field a name of the JSON object goes to: the exact one, or else the
    first whose folded name it has. *)
Definition json_field (names : list string) (k : string) : string :=
  if existsb (String.eqb k) names then k
  else default "" (List.find (fun n => String.eqb (fold_name k) (fold_name n)) names).
Definition assign_all {A} (f : A -> string * json -> option A) (l : list (string * json)) (a : A) : option A :=
  foldl (fun acc m => a ← acc; f a m) (Some a) l.

Definition string_map (v : json) (old : gmap string string) : option (gmap string string) :=
  match v with
  | JNull => Some ∅
  | JObj l => assign_all (fun m e => x ← to_string_field (snd e) ""; Some (<[fst e := x]> m)) l old
  | _ => None
  end.
Definition assign_message (e : pushEnvelope) (m : string * json) : option pushEnvelope :=
  let '(k, v) := m in
  let k := json_field ["data"; "attributes"; "messageId"; "publishTime"; "orderingKey"] k in
  let upd d a i t o := mkEnvelope d a i t o (pe_Subscription e) in
  let '(d, a, i, t, o) := (pe_Data e, pe_Attributes e, pe_MessageID e, pe_PublishTime e, pe_OrderingKey e) in
  if String.eqb k "data" then x ← to_string_field v d; Some (upd x a i t o)
  else if String.eqb k "attributes" then x ← string_map v a; Some (upd d x i t o)
  else if String.eqb k "messageId" then x ← to_string_field v i; Some (upd d a x t o)
  else if String.eqb k "publishTime" then x ← to_string_field v t; Some (upd d a i x o)
  else if String.eqb k "orderingKey" then x ← to_string_field v o; Some (upd d a i t x)
  else Some e.
Definition assign_envelope (e : pushEnvelope) (m : string * json) : option pushEnvelope :=
  let '(k, v) := m in
  let k := json_field ["message"; "subscription"] k in
  if String.eqb k "message" then
    match v with JObj l => assign_all assign_message l e | JNull => Some e | _ => None end
  else if String.eqb k "subscription" then
    x ← to_string_field v (pe_Subscription e);
    Some (mkEnvelope (pe_Data e) (pe_Attributes e) (pe_MessageID e) (pe_PublishTime e) (pe_OrderingKey e) x)
  else Some e.
Definition decode_envelope (raw : string) : option pushEnvelope :=
  let empty := mkEnvelope "" ∅ "" "" "" "" in
  match parse_json raw with
  | Some (JObj l) => assign_all assign_envelope l empty
  | Some JNull => Some empty
  | _ => None
  end.

(** The HTTP handler up to its send: the status it answers with after it, and
    what it passes on. *)
Definition push_handler (raw : option string) : Z * option (pushEnvelope * string) :=
  match raw with
  | None => (400, None)
  | Some raw =>
      match decode_envelope raw with
      | None => (400, None)
      | Some env => match base64_decode (pe_Data env) with None => (400, None) | Some body => (204, Some (env, body)) end
      end
  end.

(** The channel [got] has four places; a handler that finds them taken blocks in
    its send and has not answered ([None]). *)
Record receiver := mkReceiver { rc_got : list (pushEnvelope * string); rc_blocked : list (pushEnvelope * string) }.
Definition got_capacity : nat := 4.
Definition push_post (s : receiver) (raw : option string) : receiver * option Z :=
  let '(code, r) := push_handler raw in
  match r with
  | None => (s, Some code)
  | Some r =>
      if (length (rc_got s) <? got_capacity)%nat then (mkReceiver (rc_got s ++ [r]) (rc_blocked s), Some code)
      else (mkReceiver (rc_got s) (rc_blocked s ++ [r]), None)
  end.

Definition push_assert (msgID body : string) (env : pushEnvelope) (got : string) : prog unit :=
  let value := attr (pe_Attributes env) "priority" in
  print (Printf "Push received: messageId=%s body=%q attr[%s]=%q subscription=%q publishTime=%s"
           [pe_MessageID env; got; "priority"; value; pe_Subscription env; pe_PublishTime env])
  (require (String.eqb got body) (Printf "FAIL: pushed body %q != published %q" [got; body])
  (require (String.eqb value "high") (Printf "FAIL: pushed attr %q=%q != published %q" ["priority"; value; "high"])
  (require (String.eqb (pe_MessageID env) msgID) (Printf "FAIL: pushed messageId %q != published %q" [pe_MessageID env; msgID])
  (print "PASS: push worker POSTed the wrapped envelope; 2xx acked it" (Ret tt))))).

(** What is received from [got]: its first value, if one comes in time. *)
Definition first_read (posts : list (option string)) : option (pushEnvelope * string) :=
  head (rc_got (foldl (fun s raw => fst (push_post s raw)) (mkReceiver [] []) posts)).
Definition push_select (posts : list (option string)) (q : pushEnvelope -> string -> prog unit) : prog unit :=
  match first_read posts with
  | None => Fatal "FAIL: no push delivery received within 30s"
  | Some (env, got) => q env got
  end.

Definition push_main : prog unit :=
  with_project (fun projectID =>
  banner "delivery/push-delivery" projectID (
  ln <- Listen "127.0.0.1:0";;
  get_or_die ln (line1 "listen: %v") (fun addr =>
  let endpoint := line1 "http://%s/push" addr in
  defer (! ShutdownServer;; Ret tt) (
  print (line1 "Push receiver listening at %s (HTTP allowed for localhost)" endpoint) (
  with_client projectID (
  with_suffix (fun suffix =>
  let topicID := "pushed-" +:+ suffix in
  let subID := "sub-pushed-" +:+ suffix in
  with_topic topicID no_topic_config "CreateTopic %q: %v" (
  print (Printf "CreateTopic: %s (channel pubsub.%s)" [topicID; topicID]) (
  with_sub subID (mkSC topicID (10 * Second) false false "" None None None endpoint) "CreateSubscription (push) %q: %v" (
  print (Printf "CreateSubscription: %s (push_config endpoint=%s)" [subID; endpoint]) (
  defer (cleanup subID topicID) (
  publish topicID (mkPub "push me" {[ "priority" := "high" ]} "") (line1 "Publish: %v") (fun msgID =>
  print (Printf "Publish: messageId=%s body=%q attr[%s]=%q" [msgID; "push me"; "priority"; "high"]) (
  print "Waiting for the push worker to POST the wrapped envelope..." (
  posts <- Posts (30 * Second);;
  push_select posts (fun env got => push_assert msgID "push me" env got)))))))))))))))).

(** ** interop/native-events-store *)

Definition reservedTags : list string := ["_pubsub_message_id"; "_pubsub_publish_time"; "_pubsub_ordering_key"].
Definition hasAll (tags : gmap string string) (keys : list string) : bool := forallb (fun k => bool_decide (is_Some (tags !! k))) keys.
(** The error of [strconv.Atoi]. *)
Definition atoi_error (s : string) : string :=
  let digits := match s with String c s' => if Ascii.eqb c "-" || Ascii.eqb c "+" then s' else s | _ => s end in
  line2 "strconv.Atoi: parsing %q: %s" s
    (if all_digits digits && negb (String.eqb digits "") then "value out of range" else "invalid syntax").
(** [strings.Cut] at the first colon. *)
Definition native_splitHostPort (addr : string) : result (string * Z) :=
  match SplitN2 addr ":" with
  | (host, Some portStr) =>
      if String.eqb host "" || String.eqb portStr "" then Err (line1 "expected host:port, got %q" addr)
      else match Atoi portStr with
           | Some port => Ok (host, port)
           | None => Err (line2 "invalid port %q: %w" portStr (atoi_error portStr))
           end
  | (_, None) => Err (line1 "expected host:port, got %q" addr)
  end.
Definition native_check {A} (ok : bool) (message : string) (q : prog A) : prog A :=
  if ok then print (line1 "  [OK] %s" message) q else warn (line1 "  [FAIL] %s" message) (Exit 1).

Fixpoint print_tags (keys : list string) (tags : gmap string string) (q : prog unit) : prog unit :=
  match keys with [] => q | k :: keys' => print (Printf "    %s = %q" [k; attr tags k]) (print_tags keys' tags q) end.

Definition native_assert (channel messageID : string) (e : event) : prog unit :=
  let tags := ev_Tags e in
  print (Printf "native receive(%q) -> body=%q" [channel; ev_Body e])
  (print_tags reservedTags tags
  (print (Printf "    %s (attribute) = %q" ["region"; attr tags "region"])
  (native_check (String.eqb (ev_Body e) "from-gcp-pubsub") "native side sees the Pub/Sub-published body"
  (native_check (hasAll tags reservedTags) "all three reserved tags are present (_pubsub_message_id/publish_time/ordering_key)"
  (native_check (String.eqb (attr tags "_pubsub_message_id") messageID) "_pubsub_message_id matches the Pub/Sub-returned message id"
  (native_check (String.eqb (attr tags "_pubsub_ordering_key") "shipments") "_pubsub_ordering_key carries the publish ordering key"
  (native_check (String.eqb (attr tags "region") "emea") "the message attribute rides along as an ordinary tag" (
  extra <- PollEvent;;
  native_check (if extra is None then true else false)
    (if extra is Some x then line1 "exactly one message was consumed (no cross-talk); got extra %q" (ev_Body x)
     else "exactly one message was consumed (no cross-talk)") (
  err <- PollError;;
  native_check (if err is None then true else false)
    (if err is Some x then line1 "no subscription errors (%v)" x else "no subscription errors ([])")
  (print "" (print "PASS — Pub/Sub publish consumed natively on the Events Store topic log." (Ret tt)))))))))))).

Definition native_steps (topicID channel run grpcAddress : string) : prog unit :=
  match native_splitHostPort grpcAddress with
  | Err e => Fatal (Printf "parse KUBEMQ_GRPC_ADDRESS %q: %v" [grpcAddress; e])
  | Ok (host, port) =>
  r <- NewNative host port (line1 "gcp-interop-go-%s" run);;
  or_die r (fun e => line2 "connect native KubeMQ gRPC (%s): %v" grpcAddress e) (
  defer (! CloseNative;; Ret tt) (
  r <- SubscribeNative channel;;
  or_die r (fun e => line2 "native SubscribeToEventsStore(%q): %v" channel e) (
  defer (! CancelNative;; Ret tt) (
  print (line1 "native SubscribeToEventsStore(%q, startAt='new') -> stream open" channel) (
  publish topicID (mkPub "from-gcp-pubsub" {[ "region" := "emea" ]} "shipments") (line1 "Publish: %v") (fun messageID =>
  print (Printf "Publisher.Publish(%q) -> message_id=%s" [topicID; messageID]) (
  let received := line1 "native consumer received the published message on %q" channel in
  w <- Await (15 * Second);;
  match w with
  | NError e => native_check false (line1 "native subscribe stream error: %v" e) (Ret tt)
  | NTimeout => native_check false received (Ret tt)
  | NEvent e => native_check true received (native_assert channel messageID e)
  end)))))))
  end.

Definition native_main : prog unit :=
  with_project (fun projectID =>
  host <- Getenv "PUBSUB_EMULATOR_HOST";;
  let emulatorHost := if String.eqb host "" then "localhost:8085" else host in
  addr <- Getenv "KUBEMQ_GRPC_ADDRESS";;
  let grpcAddress := if String.eqb addr "" then "localhost:50000" else addr in
  with_suffix (fun run =>
  let topicID := "orders-" +:+ run in
  let channel := "pubsub." +:+ topicID in
  print (Printf "=== interop: Pub/Sub publish -> native Events Store consume — topic %q / channel %q ===" [topicID; channel]) (
  print (line1 "  pubsub : %s (PUBSUB_EMULATOR_HOST; insecure, no Google auth)" emulatorHost) (
  print (line1 "  grpc   : %s (native KubeMQ broker)" grpcAddress) (print "" (
  with_client projectID (
  with_topic topicID no_topic_config "CreateTopic %q: %v" (
  print (Printf "CreateTopic -> projects/%s/topics/%s" [projectID; topicID]) (
  defer (x <- Delete (RTopic topicID);;
         match x with
         | Some e => print (Printf "DeleteTopic(%q) -> skipped (%v)" [topicID; e_text e]) (Ret tt)
         | None => print (line1 "DeleteTopic(%q) -> done" topicID) (Ret tt)
         end)
  (native_steps topicID channel run grpcAddress)))))))))).
