(* ===== verification/ExampleBroker.v ===== *)
(** * A broker to run the sample programs on

    One topic with one subscription, kept in memory: a message is delivered
    until it is acknowledged.  [b_fail] makes every [Get] of a publish result
    fail, [b_repeat] delivers a received message twice, [b_ids] gives the
    message ids.  With it the theorems on the sample programs are applied to
    concrete runs. *)
From S2P Require Import Prelude GoFloat GoFmt GoTime GoJson Transport Clients Console ExampleLib.
From Stdlib Require Import Ascii.

Record broker := mkBroker {
  b_fail : bool; b_repeat : bool; b_ids : nat -> string; b_clock : Z; b_published : nat; b_backlog : list msg
}.
Definition fresh (fail repeat : bool) (ids : nat -> string) : broker := mkBroker fail repeat ids 0 0 [].
Definition numbered (n : nat) : string := "m" +:+ Itoa (Z.of_nat n).

Definition b_tick (b : broker) : broker := mkBroker (b_fail b) (b_repeat b) (b_ids b) (b_clock b + Millisecond) (b_published b) (b_backlog b).
Definition b_send (b : broker) (m : pub) : broker :=
  let m' := mkMsg (b_ids b (b_published b)) (p_Data m) (p_Attributes m) (p_OrderingKey m) "2024-01-01T00:00:00Z" in
  mkBroker (b_fail b) (b_repeat b) (b_ids b) (b_clock b) (S (b_published b)) (b_backlog b ++ [m']).
Definition b_ack (b : broker) (ids : list string) : broker :=
  mkBroker (b_fail b) (b_repeat b) (b_ids b) (b_clock b) (b_published b)
    (List.filter (fun m => negb (bool_decide (m_ID m ∈ ids))) (b_backlog b)).
Definition leased (m : msg) : rmsg := mkRMsg (m_ID m) m 0.
Definition refused : rpc_error := mkErr Unavailable None "refused".

Definition broker_world : world broker := fun X c =>
  match c in call X return broker -> X * broker with
  | Getenv _ => fun b => ("", b)
  | NewString => fun b => ("0123abcd-0000-4000-8000-000000000000", b)
  | Now => fun b => (b_clock b, b_tick b)
  | Sleep _ => fun b => (tt, b_tick b)
  | Out _ => fun b => (tt, b)
  | Log _ => fun b => (tt, b)
  | NewClient _ => fun b => (None, b)
  | NewSubscriber _ => fun b => (None, b)
  | NewSchemas _ _ => fun b => (None, b)
  | CloseClient => fun b => (tt, b)
  | CloseSubscriber => fun b => (tt, b)
  | CreateTopic _ _ => fun b => (None, b)
  | CreateSub _ _ => fun b => (None, b)
  | CreateSnap _ id => fun b => (inl id, b)
  | CreateSchema id _ _ => fun b => (inl id, b)
  | Delete _ => fun b => (None, b)
  | StopTopic _ => fun b => (tt, b)
  | Send _ m => fun b => (b_published b, b_send b m)
  | Flush _ => fun b => (tt, b)
  | Get n => fun b => (if b_fail b then inr refused else inl (b_ids b n), b)
  | Receive _ _ _ _ => fun b => ((if b_repeat b then b_backlog b ++ b_backlog b else b_backlog b, None, true), b)
  | Ack id => fun b => (tt, b_ack b [id])
  | AckWithResult id => fun b => ((StatusSuccess, None), b_ack b [id])
  | Pull _ max => fun b => (inl (map leased (take (Z.to_nat max) (b_backlog b))), b)
  | Acknowledge _ ids => fun b => (None, b_ack b ids)
  | ModifyAckDeadline _ _ _ => fun b => (None, b)
  | SeekToTime _ _ => fun b => (None, b)
  | SeekToSnapshot _ _ => fun b => (None, b)
  | Topics => fun b => (([], None), b)
  | TopicConfig _ => fun b => (inr refused, b)
  | UpdateTopic _ l => fun b => (inl l, b)
  | Subscriptions _ => fun b => (([], None), b)
  | TopicExists _ => fun b => (inl true, b)
  | Listen addr => fun b => (inl addr, b)
  | Posts _ => fun b => ([], b)
  | ShutdownServer => fun b => (tt, b)
  | NewNative _ _ _ => fun b => (None, b)
  | CloseNative => fun b => (tt, b)
  | SubscribeNative _ => fun b => (None, b)
  | CancelNative => fun b => (tt, b)
  | Await _ => fun b => (NTimeout, b)
  | PollEvent => fun b => (None, b)
  | PollError => fun b => (None, b)
  end.
