(* ===== verification/ExampleProps.v ===== *)
(** * What the sample programs do with their resources, and what PASS means

    Every run of every sample program, whatever the broker answers: a run that
    ends normally has deleted what it created; a run that fails has deleted
    nothing, because [log.Fatalf] leaves without the deferred functions; and a
    run that ends normally has made the observations its checks ask for. *)
From S2P Require Import Prelude GoFloat GoFmt GoTime GoJson Transport Clients Console ExampleLib Examples ExamplesAdvanced ExampleBroker.
From Stdlib Require Import Ascii.

(** ** Resources *)

(** What is held, and what has been deleted. *)
Definition track (g : list resource * list resource) (e : entry) : list resource * list resource :=
  (held_step (fst g) e, if delete_of e is Some r then snd g ++ [r] else snd g).

Lemma track_fold tr h d : foldl track (h, d) tr = (foldl held_step h tr, d ++ deletes tr).
Proof.
  revert h d. induction tr as [|e tr IH]; intros h d; [by rewrite app_nil_r|]. cbn [foldl deletes omap list_omap].
  unfold track at 2. cbn [fst snd]. rewrite IH. f_equal. destruct (delete_of e); cbn [app]; [|done]. by rewrite <- app_assoc.
Qed.

(** At the end of a run: nothing is held, or nothing was deleted. *)
Definition tidy_end {A} (o : outcome A) (g : list resource * list resource) : Prop :=
  match o with Done _ => fst g = [] | Died _ => snd g = [] | Waiting => True end.
(** The same, for a program that deletes some resources itself. *)
Definition tidy_done {A} (o : outcome A) (g : list resource * list resource) : Prop :=
  match o with Done _ => fst g = [] | _ => True end.

Definition tidy {A} (p : prog A) : Prop := wp track p ([], []) tidy_end.

Lemma tidy_sound {A} (p : prog A) tr o : tidy p -> runs p tr o -> tidy_end o (held tr, deletes tr).
Proof. intros H R. pose proof (wp_sound track p _ _ _ _ H R) as E. by rewrite track_fold in E. Qed.

(** A part of a program that creates and deletes nothing. *)
Definition quiet {A} (p : prog A) : Prop := forall g Q, (forall o, Q o g) -> wp track p g Q.

Ltac update_track :=
  match goal with |- wp track ?p (track ?g ?e) ?Q =>
    let g' := eval cbv [track held_step delete_of fst snd] in (track g e) in change (wp track p g' Q) end.
Ltac walk := walk_with ltac:(fun _ => update_track).

Lemma sample_drain_quiet fuel window sub : quiet (drain fuel window sub).
Proof.
  intros [h d] Q HQ. unfold drain. walk. generalize (x + window) as deadline, 0%nat as e, (@nil string) as bodies.
  induction fuel as [|fuel IH]; intros deadline e bodies; cbn [drain_loop]; walk; try apply HQ; apply IH.
Qed.

Lemma batch_send_quiet topic idx : quiet (batch_send topic idx).
Proof.
  induction idx as [|i idx IH]; intros [h d] Q HQ; cbn [batch_send]; walk; [apply HQ|]. apply IH. intros o. destruct o; walk; apply HQ.
Qed.
Lemma batch_get_quiet i hs seen ids : quiet (batch_get i hs seen ids).
Proof.
  revert i seen ids. induction hs as [|n hs IH]; intros i seen ids [h d] Q HQ; cbn [batch_get]; walk; try apply HQ. by apply IH.
Qed.
Lemma batch_nonempty_quiet i ids : quiet (batch_nonempty i ids).
Proof. revert i. induction ids as [|id ids IH]; intros i [h d] Q HQ; cbn [batch_nonempty]; walk; try apply HQ. by apply IH. Qed.

Lemma streaming_publish_quiet topic idx : quiet (streaming_publish topic idx).
Proof.
  induction idx as [|i idx IH]; intros [h d] Q HQ; cbn [streaming_publish]; walk; try apply HQ. apply IH. intros o. destruct o; walk; apply HQ.
Qed.
Lemma filtering_publish_quiet topic l eu all : quiet (filtering_publish topic l eu all).
Proof.
  revert eu all. induction l as [|[body region] l IH]; intros eu all [h d] Q HQ; cbn [filtering_publish]; walk; try apply HQ; by apply IH.
Qed.
Lemma ordering_pull_quiet fuel subPath want deadline received perKey : quiet (ordering_pull fuel subPath want deadline received perKey).
Proof.
  revert received perKey. induction fuel as [|fuel IH]; intros received perKey [h d] Q HQ; cbn [ordering_pull]; walk; try apply HQ; by apply IH.
Qed.
Lemma dead_letter_drive_quiet fuel workPath dltPath start deadline n : quiet (dead_letter_drive fuel workPath dltPath start deadline n).
Proof.
  revert n. induction fuel as [|fuel IH]; intros n [h d] Q HQ; cbn [dead_letter_drive]; walk; try apply HQ; by apply IH.
Qed.

(** A callback that creates and deletes nothing and always goes on. *)
Definition polite {A S} (f : msg -> S -> (S -> prog A) -> prog A) : Prop :=
  forall m s k g Q, (forall s', wp track (k s') g Q) -> wp track (f m s k) g Q.

Lemma receive_polite {A S} (f : msg -> S -> (S -> prog A) -> prog A) sub mo gr t label s q g Q :
  polite f -> (forall c, Q (Died c) g) -> (forall s', wp track (q s') g Q) -> wp track (receive sub mo gr t label f s q) g Q.
Proof.
  intros Hf Hd Hq. destruct g as [h d]. unfold receive. walk.
  apply (wp_each track f _ s _ _ _ (fun _ _ g => g = (h, d)) []); [|done|].
  - intros pre m s0 g0 k -> Hk. apply Hf. intros s'. by apply Hk.
  - intros s' g' ->. walk; [apply Hq|apply Hd|apply Hq].
Qed.

Lemma basic_polite {A} : polite (@basic_callback A).
Proof. intros m [n got] k [h d] Q Hk. unfold basic_callback. walk. apply Hk. Qed.
Lemma streaming_polite {A} : polite (@streaming_callback A).
Proof. intros m s k [h d] Q Hk. unfold streaming_callback. cbv zeta. walk. apply Hk. Qed.
Lemma exactly_once_polite {A} : polite (@exactly_once_callback A).
Proof. intros m [n first] k [h d] Q Hk. unfold exactly_once_callback. walk. apply Hk. Qed.
Lemma drain_polite {A} : polite (@drain_callback A).
Proof. intros m s k [h d] Q Hk. unfold drain_callback. walk. apply Hk. Qed.

Section continuations.
Context (h : list resource) (Q : outcome unit -> list resource * list resource -> Prop) (Hd : forall c, Q (Died c) (h, [])).

Lemma ordering_publish_tidy topic l q : wp track q (h, []) Q -> wp track (ordering_publish topic l q) (h, []) Q.
Proof. intros Hq. induction l as [|[key body] l IH]; cbn [ordering_publish]; [exact Hq|]. walk; [exact IH|apply Hd]. Qed.
Lemma streaming_never_tidy l received q : wp track q (h, []) Q -> wp track (streaming_never l received q) (h, []) Q.
Proof. intros Hq. induction l as [|x l IH]; cbn [streaming_never]; [exact Hq|]. walk; [apply Hd|exact IH]. Qed.
Lemma streaming_twice_tidy l q : wp track q (h, []) Q -> wp track (streaming_twice l q) (h, []) Q.
Proof. intros Hq. induction l as [|[x n] l IH]; cbn [streaming_twice]; [exact Hq|]. walk; [apply Hd|exact IH]. Qed.
Lemma pullWithRetry_tidy subPath n delay q :
  (forall r, wp track (q r) (h, []) Q) -> wp track (pullWithRetry subPath n delay q) (h, []) Q.
Proof.
  intros Hq. induction n as [|n IH]; cbn [pullWithRetry]; [apply Hq|]. unfold pullOne. walk; [apply Hq|exact IH|apply Hd].
Qed.
Lemma print_tags_tidy keys tags q : wp track q (h, []) Q -> wp track (print_tags keys tags q) (h, []) Q.
Proof. intros Hq. induction keys as [|k keys IH]; cbn [print_tags]; [exact Hq|]. walk. exact IH. Qed.
End continuations.

(** *** The samples *)

Ltac the_end :=
  cbn [finally after tidy_end tidy_done fst snd];
  lazymatch goal with
  | |- True => exact I
  | |- [] = [] => reflexivity
  | |- List.filter _ _ = [] =>
      repeat match goal with |- context [match ?x with inl _ => _ | inr _ => _ end] => destruct x; try discriminate end;
      nothing_left
  | |- _ => idtac
  end.
Ltac go := walk; the_end.

Lemma basic_tidy : tidy basic_main.
Proof.
  unfold tidy, basic_main. go. apply receive_polite; [apply basic_polite|intros c; go|]. intros [n got]. unfold basic_assert. go.
Qed.

Lemma batch_tidy : tidy batch_main.
Proof.
  unfold tidy, batch_main. go. apply batch_send_quiet. intros [hs|c|]; go. apply batch_get_quiet. intros [[seen ids]|c|]; go.
  apply batch_nonempty_quiet. intros [[]|c|]; go.
Qed.

Lemma streaming_tidy : tidy streaming_main.
Proof.
  unfold tidy, streaming_main. go. apply streaming_publish_quiet. intros [published|c|]; go.
  apply receive_polite; [apply streaming_polite|intros c; go|]. intros received. unfold streaming_assert. go.
  apply streaming_never_tidy; [intros c; go|]. go. apply streaming_twice_tidy; [intros c; go|]. unfold cleanup_arrows. go.
Qed.

Lemma ack_deadline_tidy : tidy ack_deadline_main.
Proof.
  unfold tidy, ack_deadline_main, ack_deadline_steps, pullOne. go.
  apply pullWithRetry_tidy; [intros c; go|]. intros second. go.
  apply pullWithRetry_tidy; [intros c; go|]. intros leftover. unfold cleanup_arrows. go.
Qed.

Lemma exactly_once_tidy : tidy exactly_once_main.
Proof.
  unfold tidy, exactly_once_main. go. apply receive_polite; [apply exactly_once_polite|intros c; go|].
  intros [n first]. unfold exactly_once_assert. go.
Qed.

Lemma ordering_tidy fuel : tidy (ordering_main fuel).
Proof.
  unfold tidy, ordering_main. go. apply ordering_publish_tidy; [intros c; go|]. go.
  apply ordering_pull_quiet. intros [[n perKey]|c|]; go. unfold ordering_assert. go.
Qed.

Lemma dead_letter_tidy fuel : tidy (dead_letter_main fuel).
Proof.
  unfold tidy, dead_letter_main. go. apply dead_letter_drive_quiet. intros [[dead n]|c|]; go.
  unfold dead_letter_assert. go. unfold dead_letter_cleanup. go.
Qed.

Lemma push_tidy : tidy push_main.
Proof. unfold tidy, push_main. go. unfold push_select. go. unfold push_assert. go. Qed.

Ltac go_native :=
  repeat (go; lazymatch goal with |- wp _ (native_check ?b _ _) _ _ => unfold native_check end); go.
Lemma native_tidy : tidy native_main.
Proof.
  unfold tidy, native_main, native_steps. go_native. unfold native_assert. go.
  apply print_tags_tidy. go_native.
Qed.

Lemma seek_tidy fuel : tidy (seek_main fuel).
Proof.
  unfold tidy, seek_main, publish_order, seek_steps. go.
  apply sample_drain_quiet. intros [initial|c|]; go. apply sample_drain_quiet. intros [replay|c|]; go. apply sample_drain_quiet. intros [clamped|c|]; go.
Qed.

(** A schema is created before anything is there to delete it. *)
Lemma schema_tidy fuel s : tidy (schema_main fuel s).
Proof.
  unfold tidy, schema_main, schema_steps. go. unfold schema_cleanup. apply sample_drain_quiet. intros [delivered|c|]; go.
Qed.

(** These three delete something themselves. *)
Definition tidies {A} (p : prog A) : Prop := wp track p ([], []) tidy_done.

Lemma tidies_sound {A} (p : prog A) tr a : tidies p -> runs p tr (Done a) -> held tr = [].
Proof. intros H R. pose proof (wp_sound track p _ _ _ _ H R) as E. by rewrite track_fold in E. Qed.

Lemma topic_management_tidies : tidies topic_management_main.
Proof. unfold tidies, topic_management_main, topic_management_steps, listed. go. unfold topic_management_cleanup. go. Qed.

Lemma filtering_tidies : tidies filtering_main.
Proof.
  unfold tidies, filtering_main. go. apply filtering_publish_quiet. intros [[eu all]|c|]; go. unfold filtering_drain.
  apply receive_polite; [apply drain_polite|intros c; go|]. intros euSeen. go.
  apply receive_polite; [apply drain_polite|intros c; go|]. intros allSeen. unfold filtering_assert, filtering_negative. cbv zeta. go.
  unfold filtering_cleanup. cbn [foldr]. go.
Qed.

Lemma snapshots_tidies fuel : tidies (snapshots_main fuel).
Proof.
  unfold tidies, snapshots_main, snapshot_steps, publish_order. go.
  apply sample_drain_quiet. intros [first|c|]; go. apply sample_drain_quiet. intros [second|c|]; go. apply sample_drain_quiet. intros [replay|c|]; go.
  unfold snapshot_detached. cbv zeta. go; unfold snapshot_cleanup; go.
Qed.

(** The samples that delete nothing but in their deferred functions, and those
    that do; [fuel] is for their waiting loops. *)
Definition plain_samples (fuel : nat) : list (string * prog unit) :=
  [("topics/basic-publish-subscribe", basic_main); ("topics/batch-publish", batch_main);
   ("subscriptions/streaming-pull", streaming_main); ("subscriptions/ack-deadline-nack", ack_deadline_main);
   ("delivery/exactly-once", exactly_once_main); ("delivery/ordering-keys", ordering_main fuel);
   ("delivery/dead-letter-topic", dead_letter_main fuel); ("delivery/push-delivery", push_main);
   ("advanced/seek-timestamp", seek_main fuel); ("advanced/schema-avro", avro_main fuel);
   ("advanced/schema-protobuf", protobuf_main fuel); ("interop/native-events-store", native_main)].
Definition deleting_samples (fuel : nat) : list (string * prog unit) :=
  [("topics/topic-management", topic_management_main); ("delivery/message-filtering", filtering_main);
   ("advanced/snapshots", snapshots_main fuel)].
Definition samples (fuel : nat) : list (string * prog unit) := plain_samples fuel ++ deleting_samples fuel.

Lemma plain_tidy fuel name p : (name, p) ∈ plain_samples fuel -> tidy p.
Proof.
  revert p. enough (Forall (fun e => tidy (snd e)) (plain_samples fuel)) as H
    by (intros p Hp; exact (proj1 (Forall_forall _ _) H (name, p) Hp)).
  unfold plain_samples, avro_main, protobuf_main. repeat apply Forall_cons_2; cbn [snd].
  all: [> apply basic_tidy|apply batch_tidy|apply streaming_tidy|apply ack_deadline_tidy|apply exactly_once_tidy|apply ordering_tidy
    |apply dead_letter_tidy|apply push_tidy|apply seek_tidy|apply schema_tidy|apply schema_tidy|apply native_tidy|apply Forall_nil_2].
Qed.
Lemma deleting_tidy fuel name p : (name, p) ∈ deleting_samples fuel -> tidies p.
Proof.
  revert p. enough (Forall (fun e => tidies (snd e)) (deleting_samples fuel)) as H
    by (intros p Hp; exact (proj1 (Forall_forall _ _) H (name, p) Hp)).
  unfold deleting_samples. repeat apply Forall_cons_2; cbn [snd].
  all: [> apply topic_management_tidies|apply filtering_tidies|apply snapshots_tidies|apply Forall_nil_2].
Qed.

(** C37 (safety).  A sample program that ends normally leaves nothing behind,
    whatever the broker answered on the way: every topic, subscription, snapshot
    and schema it created it has asked to be deleted since. *)
Theorem samples_clean_up fuel name p tr : (name, p) ∈ samples fuel -> runs p tr (Done tt) -> held tr = [].
Proof.
  intros [H|H]%elem_of_app R; [|by eapply tidies_sound; [eapply deleting_tidy|]].
  by apply (tidy_sound p tr (Done tt)); [eapply plain_tidy|].
Qed.

(** On the in-memory broker, the basic sample ends normally. *)
Lemma samples_clean_up_witness : held (fst (exec broker_world basic_main (fresh false false numbered))) = [].
Proof.
  apply (samples_clean_up 0 "topics/basic-publish-subscribe" basic_main).
  - apply elem_of_cons. by left.
  - assert (snd (exec broker_world basic_main (fresh false false numbered)) = Done tt) as <- by (vm_compute; reflexivity).
    apply exec_runs.
Defined.

(** The resources a run has created. *)
Definition create_of (e : entry) : option resource := head (held_step [] e).
Definition created (tr : list entry) : list resource := omap create_of tr.

Lemma held_without_deletes tr h : deletes tr = [] -> foldl held_step h tr = reverse (created tr) ++ h.
Proof.
  revert h. induction tr as [|e tr IH]; intros h Hd; [done|]. unfold deletes, created in *. cbn [omap list_omap] in *.
  assert (delete_of e = None /\ omap delete_of tr = []) as [He Ht] by (destruct (delete_of e); done).
  cbn [foldl]. rewrite (IH _ Ht). destruct e as [X c x]. unfold create_of.
  destruct c; cbn [held_step delete_of head] in *; try done; destruct x; cbn [head]; rewrite ?reverse_cons, <- ?app_assoc; done.
Qed.

(** A sample program that fails leaves everything behind:
    log.Fatalf exits without running the deferred functions, so that it has
    asked for no deletion at all and all it created is still there. *)
Theorem failed_sample_leaks fuel name p tr code :
  (name, p) ∈ plain_samples fuel -> runs p tr (Died code) -> deletes tr = [] /\ held tr = reverse (created tr).
Proof.
  intros H R. pose proof (tidy_sound p tr (Died code) (plain_tidy fuel name p H) R) as E. cbn in E. split; [done|].
  unfold held. by rewrite held_without_deletes, app_nil_r.
Qed.

(** A publish that fails: topic and subscription stay. *)
Lemma failed_sample_leaks_witness :
  let tr := fst (exec broker_world basic_main (fresh true false numbered)) in
  deletes tr = [] /\ held tr = [RSub "sub-orders-0123abcd"; RTopic "orders-0123abcd"].
Proof.
  set (tr := fst (exec broker_world basic_main (fresh true false numbered))). cbv zeta.
  assert (held tr = reverse (created tr) -> held tr = [RSub "sub-orders-0123abcd"; RTopic "orders-0123abcd"]) as E
    by (intros _; vm_compute; reflexivity).
  assert (deletes tr = [] /\ held tr = reverse (created tr)) as [H1 H2]; [|split; [exact H1|exact (E H2)]].
  apply (failed_sample_leaks 0 "topics/basic-publish-subscribe" basic_main tr 1).
  - apply elem_of_cons. by left.
  - assert (snd (exec broker_world basic_main (fresh true false numbered)) = Died 1) as <- by (vm_compute; reflexivity).
    apply exec_runs.
Defined.
