(* ===== verification/ExampleVerify.v ===== *)
(** * What the checks of the sample programs establish

    A sample that ends normally has printed its PASS line.  For every run of the
    samples below, whatever the broker answers, this file says what has been
    observed by then, and how long a sample waits. *)
From S2P Require Import Prelude GoFloat GoFmt GoTime GoJson Transport Clients Console ExampleLib Examples ExamplesAdvanced ExampleBroker.
From Stdlib Require Import Ascii.

(** ** Observations *)

(** The first message of every pull, and the ids acknowledged by lease; the
    messages of every [Receive], and the messages acknowledged in a callback. *)
Definition pulled_of (e : entry) : list rmsg :=
  match e with
  | Entry c x => match c in call X return X -> list rmsg with
                 | Pull _ _ => fun x => if x is inl (rm :: _) then [rm] else []
                 | _ => fun _ => []
                 end x
  end.
Definition acknowledged_of (e : entry) : list string :=
  match e with Entry c _ => match c with Acknowledge _ ids => ids | _ => [] end end.
Definition received_of (e : entry) : list msg :=
  match e with
  | Entry c x => match c in call X return X -> list msg with
                 | Receive _ _ _ _ => fun x => fst (fst x)
                 | _ => fun _ => []
                 end x
  end.
Definition acked_of (e : entry) : list string :=
  match e with Entry c _ => match c with Ack id => [id] | AckWithResult id => [id] | _ => [] end end.

Definition pulled (tr : list entry) : list rmsg := mjoin (map pulled_of tr).
Definition acknowledged (tr : list entry) : list string := mjoin (map acknowledged_of tr).
Definition received (tr : list entry) : list msg := mjoin (map received_of tr).
Definition acked (tr : list entry) : list string := mjoin (map acked_of tr).

(** Two observations, collected in the order of the calls. *)
Definition observe {A B} (f : entry -> list A) (g : entry -> list B) (s : list A * list B) (e : entry) : list A * list B :=
  (fst s ++ f e, snd s ++ g e).

Lemma observe_fold {A B} (f : entry -> list A) (g : entry -> list B) tr a b :
  foldl (observe f g) (a, b) tr = (a ++ mjoin (map f tr), b ++ mjoin (map g tr)).
Proof.
  revert a b. induction tr as [|e tr IH]; intros a b; cbn; [by rewrite !app_nil_r|]. unfold observe at 2. cbn [fst snd].
  by rewrite IH, <- !app_assoc.
Qed.

(** A call that is not observed changes nothing. *)
Ltac update_observe :=
  match goal with |- wp (observe ?f ?g) ?p (observe _ _ (?a, ?b) ?e) ?Q =>
    let x := eval cbv [pulled_of acknowledged_of received_of acked_of] in (f e) in
    let y := eval cbv [pulled_of acknowledged_of received_of acked_of] in (g e) in
    change (wp (observe f g) p (a ++ x, b ++ y) Q); rewrite ?app_nil_r
  end.
Ltac look := walk_with ltac:(fun _ => update_observe).

(** ** delivery/ordering-keys *)

(** The bodies that came with a key, in the order of delivery. *)
Definition of_key (key : string) (ms : list rmsg) : list string :=
  map (fun rm => m_Data (r_Message rm)) (List.filter (fun rm => String.eqb (m_OrderingKey (r_Message rm)) key) ms).

Lemma of_key_snoc key ms rm :
  of_key key (ms ++ [rm]) = of_key key ms ++ (if String.eqb (m_OrderingKey (r_Message rm)) key then [m_Data (r_Message rm)] else []).
Proof. unfold of_key. rewrite List.filter_app, map_app. cbn. by destruct (String.eqb _ _). Qed.

Definition grouped (ms : list rmsg) (perKey : gmap string (list string)) : Prop :=
  forall key, default [] (perKey !! key) = of_key key ms.

Lemma grouped_snoc ms perKey rm :
  grouped ms perKey -> grouped (ms ++ [rm]) (append_key perKey (m_OrderingKey (r_Message rm)) (m_Data (r_Message rm))).
Proof.
  intros H key. rewrite of_key_snoc, <- H. unfold append_key. destruct (String.eqb_spec (m_OrderingKey (r_Message rm)) key) as [<-|Hne].
  - by rewrite lookup_insert_eq.
  - by rewrite lookup_insert_ne, app_nil_r.
Qed.

(** The loop counts and groups what it pulls, and acknowledges it one by one. *)
Lemma ordering_pull_observes fuel subPath want deadline ms perKey Q :
  grouped ms perKey ->
  (forall c g, Q (Died c) g) -> (forall g, Q Waiting g) ->
  (forall ms' perKey', grouped ms' perKey' -> Q (Done (length ms', perKey')) (ms', map r_AckId ms')) ->
  wp (observe pulled_of acknowledged_of) (ordering_pull fuel subPath want deadline (length ms) perKey) (ms, map r_AckId ms) Q.
Proof.
  intros Hg Hd Hw Hq. revert ms perKey Hg. induction fuel as [|fuel IH]; intros ms perKey Hg; cbn [ordering_pull]; [apply Hw|].
  destruct (length ms <? want)%nat; cbn [negb]; [|by apply Hq].
  look; cbv match; rewrite ?app_nil_r; [by apply Hq|by apply IH|apply Hd| |apply Hd].
  pose proof (IH (ms ++ [r]) _ (grouped_snoc ms perKey r Hg)) as H. rewrite length_app, map_app, Nat.add_1_r in H. exact H.
Qed.

Lemma ordering_publish_observes topic l q g Q :
  (forall c g, Q (Died c) g) -> wp (observe pulled_of acknowledged_of) q g Q ->
  wp (observe pulled_of acknowledged_of) (ordering_publish topic l q) g Q.
Proof.
  intros Hd Hq. destruct g as [a b]. induction l as [|[key body] l IH]; cbn [ordering_publish]; [exact Hq|].
  look; [exact IH|apply Hd].
Qed.

(** What the sample's PASS line stands for. *)
Definition in_order (g : list rmsg * list string) : Prop :=
  of_key keyA (fst g) = ["A1"; "A2"; "A3"] /\ of_key keyB (fst g) = ["B1"; "B2"; "B3"] /\ length (fst g) = length plan /\
  snd g = map r_AckId (fst g).

Lemma ordering_assert_observes ms perKey : grouped ms perKey ->
  wp (observe pulled_of acknowledged_of) (ordering_assert (length ms, perKey)) (ms, map r_AckId ms) (on_done (fun _ => in_order)).
Proof.
  intros Hg. unfold ordering_assert. cbv zeta. look. unfold in_order. cbn [fst snd].
  repeat match goal with H : bool_decide _ = true |- _ => apply bool_decide_eq_true in H; rewrite Hg in H end.
  split_and!; [done..| |done]. by apply Nat.eqb_eq.
Qed.

Lemma ordering_observes fuel :
  wp (observe pulled_of acknowledged_of) (ordering_main fuel) ([], []) (on_done (fun _ => in_order)).
Proof.
  unfold ordering_main. look. apply ordering_publish_observes; [done|]. look.
  apply (ordering_pull_observes _ _ _ _ []); [|done..|].
  - intros key. unfold of_key. cbn [List.filter map].
    rewrite !lookup_insert, lookup_singleton. by repeat case_decide.
  - intros ms perKey Hg. look. eapply wp_mono, (ordering_assert_observes ms perKey Hg). intros [[]|c|] [ms' a] H; look; done.
Qed.

(** C38 (functional).  When the ordering sample ends normally it has pulled as
    many messages as it published, seven; those that came with the first key are
    A1, A2, A3 and those with the second B1, B2, B3, in this order; and it has
    acknowledged each message it pulled, in the order of the pulls.  The seventh
    message, which the sample publishes without a key, is counted but not looked
    at, by the sample and by this statement: PASS means per-key order. *)
Theorem ordering_sample_verifies fuel tr :
  runs (ordering_main fuel) tr (Done tt) ->
  of_key keyA (pulled tr) = ["A1"; "A2"; "A3"] /\ of_key keyB (pulled tr) = ["B1"; "B2"; "B3"] /\
  length (pulled tr) = length plan /\ acknowledged tr = map r_AckId (pulled tr).
Proof.
  intros R. pose proof (wp_sound _ _ _ _ _ _ (ordering_observes fuel) R) as E. by rewrite observe_fold in E.
Qed.

Lemma ordering_sample_verifies_witness :
  acknowledged (fst (exec broker_world (ordering_main 20) (fresh false false numbered))) = ["m0"; "m1"; "m2"; "m3"; "m4"; "m5"; "m6"].
Proof.
  set (tr := fst (exec broker_world (ordering_main 20) (fresh false false numbered))).
  assert (acknowledged tr = map r_AckId (pulled tr)) as ->; [|vm_compute; reflexivity].
  apply (ordering_sample_verifies 20 tr).
  assert (snd (exec broker_world (ordering_main 20) (fresh false false numbered)) = Done tt) as <- by (vm_compute; reflexivity).
  apply exec_runs.
Defined.

(** ** subscriptions/streaming-pull *)

Definition seq_of (m : msg) : string := attr (m_Attributes m) "seq".
Definition count_seq (s : string) (ms : list msg) : nat := count_occ String.string_dec (map seq_of ms) s.

(** The map counts the deliveries of each sequence number. *)
Definition counted (ms : list msg) (received : gmap string Z) : Prop :=
  forall s, received !! s = if (count_seq s ms =? 0)%nat then None else Some (Z.of_nat (count_seq s ms)).

Lemma counted_snoc ms m (received : gmap string Z) : counted ms received ->
  counted (ms ++ [m]) (<[seq_of m := default 0 (received !! seq_of m) + 1]> received).
Proof.
  intros H s. unfold count_seq. rewrite map_app, count_occ_app. cbn [map count_occ].
  destruct (String.string_dec (seq_of m) s) as [<-|Hne].
  - rewrite lookup_insert_eq, H. unfold count_seq. destruct (count_occ _ _ (seq_of m)) as [|n]; [done|].
    rewrite (proj2 (Nat.eqb_neq (S n + 1) 0)) by lia. cbn [Nat.eqb default from_option id]. f_equal. lia.
  - by rewrite lookup_insert_ne, H, Nat.add_0_r.
Qed.

Lemma streaming_publish_observes topic idx g Q :
  (forall c g, Q (Died c) g) -> (Q (Done (map (fun i => Itoa (Z.of_nat i)) idx)) g) ->
  wp (observe received_of acked_of) (streaming_publish topic idx) g Q.
Proof.
  intros Hd. destruct g as [a b]. revert Q Hd. induction idx as [|i idx IH]; intros Q Hd HQ; cbn [streaming_publish map] in *; [exact HQ|].
  cbv zeta. look; [|apply Hd]. apply IH; [intros; apply Hd|]. look. exact HQ.
Qed.

Lemma streaming_never_observes l received q g Q :
  (forall c g, Q (Died c) g) -> ((forall s, s ∈ l -> default 0 (received !! s) <> 0) -> wp (observe received_of acked_of) q g Q) ->
  wp (observe received_of acked_of) (streaming_never l received q) g Q.
Proof.
  intros Hd. destruct g as [a b]. induction l as [|x l IH]; intros Hq; cbn [streaming_never]; [apply Hq; set_solver|].
  look; [apply Hd|]. apply IH. intros Hl. apply Hq. intros s [->|Hs]%elem_of_cons; [|by apply Hl].
  intros E. by rewrite E in *.
Qed.
Lemma streaming_twice_observes (l : list (string * Z)) q g Q :
  (forall c g, Q (Died c) g) -> ((forall s n, (s, n) ∈ l -> n = 1) -> wp (observe received_of acked_of) q g Q) ->
  wp (observe received_of acked_of) (streaming_twice l q) g Q.
Proof.
  intros Hd. destruct g as [a b]. induction l as [|[x m] l IH]; intros Hq; cbn [streaming_twice]; [apply Hq; set_solver|].
  look; [apply Hd|]. apply IH. intros Hl. apply Hq. intros s n [[= -> ->]|Hs]%elem_of_cons; [by apply Z.eqb_eq|by eapply Hl].
Qed.

(** Every number published is there, none is there twice, and there are no more
    than were published. *)
Lemma counted_once (ms : list msg) (received : gmap string Z) (l : list string) :
  counted ms received -> NoDup l -> size received = length l ->
  (forall s, s ∈ l -> default 0 (received !! s) <> 0) -> (forall s n, (s, n) ∈ map_to_list received -> n = 1) ->
  map seq_of ms ≡ₚ l.
Proof.
  intros Hc Hl Hn Hall Hone.
  assert (forall s, (count_seq s ms <= 1)%nat) as Hle.
  { intros s. pose proof (Hc s) as E. destruct (Nat.eqb_spec (count_seq s ms) 0) as [->|]; [lia|].
    specialize (Hone s (Z.of_nat (count_seq s ms))). rewrite elem_of_map_to_list in Hone. specialize (Hone E). lia. }
  assert (NoDup (map seq_of ms)) as Hms by (apply NoDup_ListNoDup, (NoDup_count_occ String.string_dec); exact Hle).
  assert (list_to_set (C := gset string) l = dom received) as Hd.
  { apply set_subseteq_size_eq; [|by rewrite size_list_to_set, size_dom, Hn].
    intros s Hs%elem_of_list_to_set. apply elem_of_dom. specialize (Hall s Hs). destruct (received !! s); [done|]. by destruct Hall. }
  apply NoDup_Permutation; [done..|]. intros s. rewrite <- (elem_of_list_to_set (C := gset string) s l), Hd, elem_of_dom, Hc, list_elem_of_In.
  rewrite (count_occ_In String.string_dec). fold (count_seq s ms). destruct (Nat.eqb_spec (count_seq s ms) 0) as [->|].
  - split; [lia|]. by intros [? [=]].
  - split; [done|lia].
Qed.

Definition numbers : list string := map (fun i => Itoa (Z.of_nat i)) (seq 0 messageCount).
Lemma numbers_nodup : NoDup numbers.
Proof. apply (bool_decide_unpack _). vm_compute. reflexivity. Qed.

(** What the sample's PASS line stands for. *)
Definition all_once (g : list msg * list string) : Prop := map seq_of (fst g) ≡ₚ numbers /\ snd g = map m_ID (fst g).

Lemma streaming_assert_observes ms (received : gmap string Z) : counted ms received ->
  wp (observe received_of acked_of) (streaming_assert numbers received) (ms, map m_ID ms) (on_done (fun _ => all_once)).
Proof.
  intros Hc. unfold streaming_assert. cbv zeta. look.
  apply streaming_never_observes; [done|]. intros Hall. look. apply streaming_twice_observes; [done|]. intros Hone. look.
  split; [|done]. cbn [fst]. apply (counted_once ms received); [done|apply numbers_nodup| |done..].
  match goal with H : (_ =? _) = true |- _ => apply Z.eqb_eq in H end. unfold numbers. rewrite length_map, length_seq. lia.
Qed.

Lemma streaming_observes : wp (observe received_of acked_of) streaming_main ([], []) (on_done (fun _ => all_once)).
Proof.
  unfold streaming_main. look. apply streaming_publish_observes; [done|]. look. unfold receive. look.
  rename l into ms.
  apply (wp_each _ streaming_callback ms ∅ _ _ _ (fun pre received g => counted pre received /\ g = ([] ++ ms, map m_ID pre)) []).
  - intros pre m s g k [Hc ->] Hk. unfold streaming_callback. look. apply Hk. split; [by apply counted_snoc|]. by rewrite map_app.
  - split; [done|reflexivity].
  - intros s' g' [Hc ->]. cbn [app] in *.
    pose proof (streaming_assert_observes ms s' Hc) as H.
    look; try done; (eapply wp_mono, H; intros [[]|c|] [ms' a] Ha; look; unfold cleanup_arrows; look; done).
Qed.

(** C40 (functional).  When the streaming-pull sample ends normally the stream
    has delivered each of the eight messages it published exactly once (their
    sequence numbers are 0 to 7 in some order) and each delivery was
    acknowledged: the counting of the callback and the three checks after it
    together rule out a loss, a duplicate and a stranger. *)
Theorem streaming_sample_verifies tr :
  runs streaming_main tr (Done tt) -> map seq_of (received tr) ≡ₚ numbers /\ acked tr = map m_ID (received tr).
Proof. intros R. pose proof (wp_sound _ _ _ _ _ _ streaming_observes R) as E. by rewrite observe_fold in E. Qed.

Lemma streaming_sample_verifies_witness :
  acked (fst (exec broker_world streaming_main (fresh false false numbered))) = ["m0"; "m1"; "m2"; "m3"; "m4"; "m5"; "m6"; "m7"].
Proof.
  set (tr := fst (exec broker_world streaming_main (fresh false false numbered))).
  assert (acked tr = map m_ID (received tr)) as ->; [|vm_compute; reflexivity].
  apply (streaming_sample_verifies tr).
  assert (snd (exec broker_world streaming_main (fresh false false numbered)) = Done tt) as <- by (vm_compute; reflexivity).
  apply exec_runs.
Defined.

(** ** drain, of the seek, snapshot and schema samples *)

(** All messages of every pull, and the readings of the clock. *)
Definition batch_of (e : entry) : list rmsg :=
  match e with
  | Entry c x => match c in call X return X -> list rmsg with
                 | Pull _ _ => fun x => if x is inl rms then rms else []
                 | _ => fun _ => []
                 end x
  end.
Definition batches (tr : list entry) : list rmsg := mjoin (map batch_of tr).
Definition time_of (e : entry) : list Z :=
  match e with
  | Entry c x => match c in call X return X -> list Z with Now => fun x => [x] | _ => fun _ => [] end x
  end.
Definition times (tr : list entry) : list Z := mjoin (map time_of tr).

Ltac update_drain :=
  match goal with |- wp (observe ?f ?g) ?p (observe _ _ (?a, ?b) ?e) ?Q =>
    let x := eval cbv [batch_of acknowledged_of time_of] in (f e) in
    let y := eval cbv [batch_of acknowledged_of time_of] in (g e) in
    change (wp (observe f g) p (a ++ x, b ++ y) Q); rewrite ?app_nil_r
  end.
Ltac look_drain := walk_with ltac:(fun _ => update_drain).

(** What a drain has taken out, and acknowledged. *)
Definition taken_out (bodies : list string) (g : list rmsg * list string) : Prop :=
  bodies = map (fun rm => m_Data (r_Message rm)) (fst g) /\ snd g = map r_AckId (fst g).

Lemma drain_loop_observes fuel sub deadline e bodies g :
  taken_out bodies g -> wp (observe batch_of acknowledged_of) (drain_loop fuel sub deadline e bodies) g (on_done taken_out).
Proof.
  revert e bodies g. induction fuel as [|fuel IH]; intros e bodies [ms a] H; cbn [drain_loop]; look_drain; cbv match; rewrite ?app_nil_r.
  - exact H.
  - exact H.
  - apply IH, H.
  - apply IH. destruct H as [-> E]. cbn [fst snd] in *. subst a. split; cbn [fst snd]; by rewrite map_app.
Qed.

(** A drain that ends gives the bodies of all messages its
    pulls returned, in their order, and has acknowledged every one of them. *)
Theorem drain_takes_everything fuel window sub tr bodies :
  runs (drain fuel window sub) tr (Done bodies) ->
  bodies = map (fun rm => m_Data (r_Message rm)) (batches tr) /\ acknowledged tr = map r_AckId (batches tr).
Proof.
  intros R. assert (wp (observe batch_of acknowledged_of) (drain fuel window sub) ([], []) (on_done taken_out)) as H
    by (unfold drain; look_drain; by apply drain_loop_observes).
  pose proof (wp_sound _ _ _ _ _ _ H R) as E. by rewrite observe_fold in E.
Qed.

(** Two messages in the backlog. *)
Definition stocked : broker := b_send (b_send (fresh false false numbered) (plain "order-0")) (plain "order-1").

Lemma drain_takes_everything_witness :
  let r := exec broker_world (drain 9 (20 * Millisecond) "sub") stocked in
  snd r = Done ["order-0"; "order-1"] /\ acknowledged (fst r) = ["m0"; "m1"].
Proof.
  set (tr := fst (exec broker_world (drain 9 (20 * Millisecond) "sub") stocked)).
  assert (snd (exec broker_world (drain 9 (20 * Millisecond) "sub") stocked) = Done ["order-0"; "order-1"]) as E by (vm_compute; reflexivity).
  cbv zeta. split; [exact E|]. fold tr.
  assert (acknowledged tr = map r_AckId (batches tr)) as ->; [|vm_compute; reflexivity].
  apply (drain_takes_everything 9 (20 * Millisecond) "sub" tr ["order-0"; "order-1"]). rewrite <- E. apply exec_runs.
Defined.

(** Consecutive readings of the clock are at least [d] apart. *)
Fixpoint spaced (d : Z) (l : list Z) : Prop :=
  match l with
  | t :: (t' :: _) as l' => t + d <= t' /\ spaced d l'
  | _ => True
  end.

Lemma spaced_last d t l : spaced d (t :: l) -> t + d * Z.of_nat (length l) <= default t (last l).
Proof.
  revert t. induction l as [|t' l IH]; intros t; [cbn; lia|]. intros [H1 H2]. apply IH in H2.
  destruct l as [|x l]; cbn [last length default from_option] in *; [cbn in *; lia|].
  change (last (t' :: x :: l)) with (last (x :: l)). destruct (last (x :: l)) eqn:E; cbn [default from_option id] in *; [lia|].
  by apply last_None in E.
Qed.

(** A drain that is out of fuel has read the clock once for each unit, and never
    past the deadline. *)
Definition still_waiting {A} (fuel : nat) (deadline : Z) (g : list Z) (o : outcome A) (g' : list Z * list string) : Prop :=
  match o with Waiting => exists l, fst g' = g ++ l /\ length l = fuel /\ Forall (fun t => t < deadline) l | _ => True end.

Lemma drain_loop_waits fuel sub deadline e bodies g :
  wp (observe time_of acknowledged_of) (drain_loop fuel sub deadline e bodies) g (still_waiting fuel deadline (fst g)).
Proof.
  revert e bodies g. induction fuel as [|fuel IH]; intros e bodies [ts a]; cbn [drain_loop].
  - exists []. by rewrite app_nil_r.
  - assert (forall e bodies a t, (t <? deadline) = true -> wp (observe time_of acknowledged_of) (drain_loop fuel sub deadline e bodies)
      (ts ++ [t], a) (still_waiting (S fuel) deadline ts)) as Hstep.
    { intros e' bodies' a' t Ht. eapply wp_mono, IH. intros [b|c|] g' H; [done..|]. destruct H as (l & E & Hl & Hf).
      exists (t :: l). cbn [fst] in E. rewrite E, <- app_assoc. cbn. split_and!; [done|lia|]. constructor; [by apply Z.ltb_lt|done]. }
    look_drain; cbn [still_waiting]; try exact I; apply Hstep; by apply negb_false_iff.
Qed.

(** A drain ends: with a clock that advances by at least [d]
    between two of its readings, [window / d] rounds are enough, whatever the
    broker answers, though it may go on returning messages. *)
Theorem drain_terminates fuel window sub d tr o :
  runs (drain fuel window sub) tr o -> spaced d (times tr) -> (0 < fuel)%nat -> window <= d * Z.of_nat fuel -> o <> Waiting.
Proof.
  intros R Hs Hf Hw ->.
  assert (wp (observe time_of acknowledged_of) (drain fuel window sub) ([], []) (fun o g =>
    match o with Waiting => exists t l, fst g = t :: l /\ length l = fuel /\ Forall (fun x => x < t + window) l | _ => True end)) as H.
  { unfold drain. look_drain. rename x into t. eapply wp_mono, drain_loop_waits. intros [b|c|] g' H; [done..|].
    destruct H as (l & E & H). by exists t, l. }
  pose proof (wp_sound _ _ _ _ _ _ H R) as (t & l & E & Hl & Hb). rewrite observe_fold in E. cbn [fst app] in E.
  fold (times tr) in E. rewrite E in Hs. apply spaced_last in Hs. destruct (last l) as [x|] eqn:El.
  - apply last_Some_elem_of in El. rewrite Forall_forall in Hb. specialize (Hb x El). cbn in Hs. nia.
  - apply last_None in El. subst l. cbn in Hl. lia.
Qed.

Lemma drain_terminates_witness : snd (exec broker_world (drain 5 (5 * Millisecond) "sub") stocked) <> Waiting.
Proof.
  apply (drain_terminates 5 (5 * Millisecond) "sub" Millisecond (fst (exec broker_world (drain 5 (5 * Millisecond) "sub") stocked))).
  - apply exec_runs.
  - vm_compute. repeat split; discriminate.
  - lia.
  - vm_compute. discriminate.
Defined.

(** ** What a PASS line leaves open *)

(** One message published, delivered twice: the exactly-once and the basic
    sample end normally, though they say that exactly one was received. *)
Lemma exactly_once_sample_accepts_duplicates :
  let r := exec broker_world exactly_once_main (fresh false true numbered) in
  snd r = Done tt /\ map m_ID (received (fst r)) = ["m0"; "m0"].
Proof. vm_compute. split; reflexivity. Qed.
Lemma basic_sample_accepts_duplicates :
  let r := exec broker_world basic_main (fresh false true numbered) in
  snd r = Done tt /\ map m_ID (received (fst r)) = ["m0"; "m0"].
Proof. vm_compute. split; reflexivity. Qed.

(** The ids of a batch may come in any order. *)
Lemma batch_sample_accepts_any_order :
  snd (exec broker_world batch_main (fresh false false (fun n => numbered (9 - n)))) = Done tt.
Proof. vm_compute. reflexivity. Qed.

(** The poison message is in the dead-letter subscription after one delivery
    from the source, far from the five attempts. *)
Lemma dead_letter_sample_accepts_first_attempt :
  let r := exec broker_world (dead_letter_main 1) (fresh false false numbered) in
  snd r = Done tt /\ map (fun rm => m_Data (r_Message rm)) (pulled (fst r)) = [poison; poison].
Proof. vm_compute. split; reflexivity. Qed.
