(* ===== verification/ExampleReplay.v ===== *)
(** * The histories of the replay and schema samples

    What a passing run of the seek, snapshot and schema samples has published,
    pulled and rewound, in the order in which it did so: the checks after every
    drain pin the history of the run down completely, whatever the broker
    answers. *)
From S2P Require Import Prelude GoFloat GoFmt GoTime GoJson Transport Clients Console ExampleLib Examples ExamplesAdvanced ExampleBroker.
From S2P Require Import ExampleVerify.
From Stdlib Require Import Ascii.

(** ** Histories *)

Inductive deed :=
| Clock (t : Z)
| Published (body : string)
| Pulled (body : string)
| Rewound (to : Z)
| Snapped (snapshot : string)
| RewoundTo (snapshot : string).

Definition deed_of (e : entry) : list deed :=
  match e with
  | Entry c x => match c in call X return X -> list deed with
                 | Now => fun t => [Clock t]
                 | Send _ m => fun _ => [Published (p_Data m)]
                 | Pull _ _ => fun x => if x is inl rms then map (fun rm => Pulled (m_Data (r_Message rm))) rms else []
                 | SeekToTime _ t => fun x => if x is None then [Rewound t] else []
                 | CreateSnap _ id => fun x => if x is inl _ then [Snapped id] else []
                 | SeekToSnapshot _ id => fun x => if x is None then [RewoundTo id] else []
                 | _ => fun _ => []
                 end x
  end.
Definition history (tr : list entry) : list deed := mjoin (map deed_of tr).

Ltac update_deeds :=
  match goal with |- wp (observe ?f ?g) ?p (observe _ _ (?a, ?b) ?e) ?Q =>
    let x := eval cbv [deed_of acknowledged_of] in (f e) in
    let y := eval cbv [deed_of acknowledged_of] in (g e) in
    change (wp (observe f g) p (a ++ x, b ++ y) Q); rewrite ?app_nil_r
  end.
(** After a call, what it answers decides what is known. *)
Ltac recount := walk_with ltac:(fun _ => update_deeds); cbv match; rewrite ?app_nil_r.

(** ** A drain in the middle of a run *)

Definition bodies_of (ms : list rmsg) : list string := map (fun rm => m_Data (r_Message rm)) ms.

(** A part of a history but for the readings of the clock. *)
Definition unclocked (h : list deed) : list deed := List.filter (fun d => if d is Clock _ then false else true) h.
(** A drain pulls these bodies, reading the clock as it waits. *)
Definition drained (bodies : list string) (h : list deed) : Prop := unclocked h = map Pulled bodies.

Lemma drained_app l l' h h' : drained l h -> drained l' h' -> drained (l ++ l') (h ++ h').
Proof. unfold drained, unclocked. intros H H'. by rewrite List.filter_app, map_app, H, H'. Qed.
Lemma drained_clock l h t : drained l h -> drained l (h ++ [Clock t]).
Proof. intros H. rewrite <- (app_nil_r l). by apply drained_app. Qed.
Lemma drained_pulls (ms : list rmsg) : drained (bodies_of ms) (map (fun rm => Pulled (m_Data (r_Message rm))) ms).
Proof. unfold drained, unclocked, bodies_of. induction ms as [|m ms IH]; [done|]. cbn in *. by rewrite IH. Qed.

Section drain.
Context (Q : outcome (list string) -> list deed * list string -> Prop) (a : list deed) (b : list string).
Context (Hdied : forall c g, Q (Died c) g) (Hwaiting : forall g, Q Waiting g).
Context (Hdone : forall ms h, drained (bodies_of ms) h -> Q (Done (bodies_of ms)) (a ++ h, b ++ map r_AckId ms)).

Lemma drain_loop_deeds fuel sub deadline e ms h :
  drained (bodies_of ms) h ->
  wp (observe deed_of acknowledged_of) (drain_loop fuel sub deadline e (bodies_of ms)) (a ++ h, b ++ map r_AckId ms) Q.
Proof.
  revert e ms h. induction fuel as [|fuel IH]; intros e ms h Hh; cbn [drain_loop]; [apply Hwaiting|].
  recount; try apply Hdied; rewrite <- ?app_assoc; try (apply Hdone || apply IH); try by repeat apply drained_clock.
  match goal with |- wp _ (drain_loop _ _ _ _ (_ ++ map _ ?l)) (_ ++ ?h', _) _ => pose proof (IH 0%nat (ms ++ l) h') as H end.
  unfold bodies_of in H at 2. rewrite !map_app, ?app_assoc in H. rewrite <- ?app_assoc in *. apply H. clear H.
  unfold bodies_of. rewrite map_app. rewrite ?app_assoc. apply drained_app; [by apply drained_clock|apply drained_pulls].
Qed.

Lemma drain_deeds fuel window sub : wp (observe deed_of acknowledged_of) (drain fuel window sub) (a, b) Q.
Proof.
  unfold drain. recount. pose proof (fun t => drain_loop_deeds fuel sub t 0 []) as H. cbn [bodies_of map] in H.
  rewrite app_nil_r in H. by apply H.
Qed.
End drain.

Lemma equal_eq a b : equal a b = true -> a = b.
Proof.
  revert b. induction a as [|x a IH]; intros [|y b]; cbn [equal]; try done. intros [->%String.eqb_eq Hb]%andb_true_iff. by rewrite (IH b).
Qed.
(** ** The samples *)

(** What is asked of a run that ends normally: its history. *)
Definition tells (P : list deed -> Prop) (g : list deed * list string) : Prop := P (fst g).

(** A drain and the check of what it took out. *)
Ltac after_drain ms h Hh :=
  apply drain_deeds; [done..|]; intros ms h Hh; unfold after at 1; cbv beta; recount; try done;
  repeat match goal with H : equal (bodies_of ?m) _ = true |- _ => apply equal_eq in H; rewrite H in Hh; clear H end.

(** The checkpoint is the clock between the second and the third publish, the
    late seek a year before the clock right before it. *)
Definition seek_history (h : list deed) : Prop :=
  exists checkpoint late d1 d2 d3,
    h = map Published (orders [1; 2]) ++ [Clock checkpoint] ++ map Published (orders [3; 4; 5; 6]) ++ d1 ++
        [Rewound checkpoint] ++ d2 ++ [Clock late; Rewound (late - 365 * 24 * Hour)] ++ d3 /\
    drained (orders [1; 2; 3; 4; 5; 6]) d1 /\ drained (orders [3; 4; 5; 6]) d2 /\ drained (orders [1; 2; 3; 4; 5; 6]) d3.

Lemma seek_deeds fuel :
  wp (observe deed_of acknowledged_of) (seek_main fuel) ([], []) (on_done (fun _ => tells seek_history)).
Proof.
  unfold seek_main, publish_order. recount; try done. unfold seek_steps.
  apply wp_bind. after_drain initial d1 H1. after_drain replay d2 H2. after_drain clamped d3 H3;
    eexists _, _, d1, d2, d3; (split; [cbn [fst]; rewrite <- !app_assoc; reflexivity|done]).
Qed.

Definition snapshot_history (h : list deed) : Prop :=
  exists snapshot d1 d2 d3,
    h = map Published (orders [1; 2; 3]) ++ d1 ++ [Snapped snapshot] ++ map Published (orders [4; 5; 6]) ++ d2 ++
        [RewoundTo snapshot] ++ d3 /\
    drained (orders [1; 2; 3]) d1 /\ drained (orders [4; 5; 6]) d2 /\ drained (orders [3; 4; 5; 6]) d3.

Lemma snapshots_deeds fuel :
  wp (observe deed_of acknowledged_of) (snapshots_main fuel) ([], []) (on_done (fun _ => tells snapshot_history)).
Proof.
  unfold snapshots_main, snapshot_steps, publish_order. recount; try done.
  after_drain initial d1 H1. after_drain second d2 H2. after_drain replay d3 H3. unfold snapshot_detached. recount; try done.
  all: match goal with H : match ?r with inl _ => _ | inr _ => _ end = true |- _ => destruct r; [discriminate|] end.
  all: unfold snapshot_cleanup; recount; try done.
  all: eexists _, d1, d2, d3; (split; [cbn [fst]; rewrite <- !app_assoc; reflexivity|done]).
Qed.

Definition schema_history (s : schema_sample) (h : list deed) : Prop :=
  exists d, h = map Published [ss_conforming s; ss_good s; ss_bad s] ++ d /\ drained [ss_conforming s] d.

Lemma schema_deeds fuel s :
  wp (observe deed_of acknowledged_of) (schema_main fuel s) ([], []) (on_done (fun _ => tells (schema_history s))).
Proof.
  unfold schema_main, schema_steps. recount; try done. after_drain delivered d H.
  unfold schema_cleanup. recount; try done; eexists; (split; [cbn [fst]; rewrite <- ?app_assoc; reflexivity|done]).
Qed.

(** C27 (functional).  A passing run of the seek sample has this history: it
    published two orders, read its clock, published four more, pulled the six in
    order, rewound to the time it had read, pulled exactly the last four again,
    read its clock, rewound to 365 days before that and pulled all six again.  A
    passing run of the snapshot sample published and pulled three, took the
    snapshot, published and pulled three more, went back to that snapshot, and
    pulled the third to the sixth again.  A passing run of a schema sample
    published the conforming and the rejected batch, and pulled the conforming
    message and nothing else.  While they pull, the samples also read the clock.
    Nothing is assumed of the broker, and no other history passes. *)
Theorem replay_samples_history fuel tr :
  (runs (seek_main fuel) tr (Done tt) -> seek_history (history tr)) /\
  (runs (snapshots_main fuel) tr (Done tt) -> snapshot_history (history tr)) /\
  (forall s, runs (schema_main fuel s) tr (Done tt) -> schema_history s (history tr)).
Proof.
  split_and!.
  - intros R. pose proof (wp_sound _ _ _ _ _ _ (seek_deeds fuel) R) as E. by rewrite observe_fold in E.
  - intros R. pose proof (wp_sound _ _ _ _ _ _ (snapshots_deeds fuel) R) as E. by rewrite observe_fold in E.
  - intros s R. pose proof (wp_sound _ _ _ _ _ _ (schema_deeds fuel s) R) as E. by rewrite observe_fold in E.
Qed.

(** ** A broker that replays *)

(** The answers to the pulls are given in advance; without its topic, a
    subscription is not snapshotted. *)
Record script := mkScript { sc_broker : broker; sc_pulls : list (list string); sc_detached : bool }.
Definition letter (body : string) : rmsg := leased (mkMsg body body ∅ "" "2024-01-01T00:00:00Z").
Definition script_world : world script := fun X c =>
  match c in call X return script -> X * script with
  | Pull _ _ => fun s =>
      match sc_pulls s with
      | [] => (inl [], s)
      | l :: rest => (inl (map letter l), mkScript (sc_broker s) rest (sc_detached s))
      end
  | Delete (RTopic _) => fun s => (None, mkScript (sc_broker s) (sc_pulls s) true)
  | CreateSnap _ id => fun s => (if sc_detached s then inr (mkErr FailedPrecondition None "detached") else inl id, s)
  | c' => fun s => let '(x, b) := broker_world _ c' (sc_broker s) in (x, mkScript b (sc_pulls s) (sc_detached s))
  end.
Definition seek_script : script :=
  mkScript (fresh false false numbered) [orders [1; 2; 3; 4; 5; 6]; []; []; orders [3; 4; 5; 6]; []; []; orders [1; 2; 3; 4; 5; 6]; []; []] false.
Definition snapshot_script : script :=
  mkScript (fresh false false numbered) [orders [1; 2; 3]; []; []; orders [4; 5; 6]; []; []; orders [3; 4; 5; 6]; []; []] false.

Lemma replay_samples_history_witness :
  seek_history (history (fst (exec script_world (seek_main 9) seek_script))) /\
  snapshot_history (history (fst (exec script_world (snapshots_main 9) snapshot_script))).
Proof.
  split.
  - apply (replay_samples_history 9 (fst (exec script_world (seek_main 9) seek_script))).
    assert (snd (exec script_world (seek_main 9) seek_script) = Done tt) as <- by (vm_compute; reflexivity). apply exec_runs.
  - apply (replay_samples_history 9 (fst (exec script_world (snapshots_main 9) snapshot_script))).
    assert (snd (exec script_world (snapshots_main 9) snapshot_script) = Done tt) as <- by (vm_compute; reflexivity). apply exec_runs.
Defined.
