(* ===== verification/ExamplePush.v ===== *)
(** * The push sample and the messages posted to it

    What the broker posts to a push endpoint, as its documentation gives it: the
    body in base64 inside of a JSON envelope.  The sample's handler reads every
    such post back, so that a passing run has seen the message it published. *)
From S2P Require Import Prelude GoFloat GoFmt GoTime GoJson Transport Clients Console ExampleLib Examples ExamplesAdvanced ExampleBroker.
From S2P Require Import ExampleVerify.
From Stdlib Require Import Ascii.

(** ** Base64 *)

Definition base64_char (n : Z) : ascii :=
  if n <? 26 then char_of (n + 65) else if n <? 52 then char_of (n + 71) else if n <? 62 then char_of (n - 4)
  else if n =? 62 then "+" else "/".
Fixpoint base64_encode (s : string) : string :=
  match s with
  | EmptyString => ""
  | String a EmptyString =>
      let x := char_code a in
      String (base64_char (x / 4)) (String (base64_char (x mod 4 * 16)) "==")
  | String a (String b EmptyString) =>
      let '(x, y) := (char_code a, char_code b) in
      String (base64_char (x / 4)) (String (base64_char (x mod 4 * 16 + y / 16)) (String (base64_char (y mod 16 * 4)) "="))
  | String a (String b (String c rest)) =>
      let '(x, y, z) := (char_code a, char_code b, char_code c) in
      String (base64_char (x / 4)) (String (base64_char (x mod 4 * 16 + y / 16))
        (String (base64_char (y mod 16 * 4 + z / 64)) (String (base64_char (z mod 64)) (base64_encode rest))))
  end.

Example base64_encode_ex :
  map base64_encode ["push me"; "ab"; "abc"; ""] = ["cHVzaCBtZQ=="; "YWI="; "YWJj"; ""].
Proof. vm_compute. reflexivity. Qed.

(** The letters: each is read as what it was written for, and none is a pad or a
    line break. *)
Definition letter_ok (n : Z) : bool :=
  let c := base64_char n in
  bool_decide (base64_value c = Some n) && negb (Ascii.eqb c "=") && negb ((char_code c =? 10) || (char_code c =? 13)).
Lemma letters_ok n : 0 <= n < 64 -> letter_ok n = true.
Proof.
  intros Hn. assert (forallb letter_ok (seqZ 0 64) = true) as H by (vm_compute; reflexivity).
  rewrite forallb_forall in H. apply H. apply list_elem_of_In, elem_of_seqZ. lia.
Qed.
Lemma base64_letter n : 0 <= n < 64 ->
  base64_value (base64_char n) = Some n /\ Ascii.eqb (base64_char n) "=" = false /\
  (char_code (base64_char n) =? 10) || (char_code (base64_char n) =? 13) = false.
Proof.
  intros [[H1%bool_decide_eq_true H2%negb_true_iff]%andb_true_iff H3%negb_true_iff]%letters_ok%andb_true_iff. done.
Qed.
Lemma char_code_range c : 0 <= char_code c < 256.
Proof. unfold char_code. pose proof (N_ascii_bounded c). lia. Qed.
Lemma char_of_code c n : n = char_code c -> char_of n = c.
Proof. intros ->. unfold char_of, char_code. by rewrite N2Z.id, ascii_N_embedding. Qed.

(** Three bytes at a time. *)
Lemma triples (P : string -> Prop) :
  P "" -> (forall a, P (str1 a)) -> (forall a b, P (String a (str1 b))) -> (forall a b c s, P s -> P (String a (String b (String c s)))) ->
  forall s, P s.
Proof.
  intros H0 H1 H2 H3 s. enough (forall n s, (String.length s <= n)%nat -> P s) as H by by apply (H (String.length s)).
  clear s. induction n as [|n IH]; intros [|a [|b [|c s]]]; cbn [String.length]; intros Hn; try done; try lia; [apply H1|apply H2|].
  apply H3, IH. lia.
Qed.

(** Quotients and remainders by constants; a letter whose value is one. *)
Ltac divide := Z.to_euclidean_division_equations; lia.
Ltac letter n :=
  let H1 := fresh in let H2 := fresh in let H3 := fresh in
  destruct (base64_letter n) as (H1 & H2 & H3); [divide|]; rewrite ?H1, ?H2, ?H3; clear H1 H2 H3; cbn [mbind option_bind].

Lemma base64_strip s : strip_newlines (base64_encode s) = base64_encode s.
Proof.
  induction s as [|a|a b|a b c s IH] using triples; [done|..]; cbn [base64_encode str1 strip_newlines]; rewrite ?IH; pose proof (char_code_range a).
  - letter (char_code a / 4). letter (char_code a mod 4 * 16). reflexivity.
  - pose proof (char_code_range b). letter (char_code a / 4). letter (char_code a mod 4 * 16 + char_code b / 16).
    letter (char_code b mod 16 * 4). reflexivity.
  - pose proof (char_code_range b). pose proof (char_code_range c). letter (char_code a / 4).
    letter (char_code a mod 4 * 16 + char_code b / 16). letter (char_code b mod 16 * 4 + char_code c / 64). letter (char_code c mod 64).
    reflexivity.
Qed.

Lemma base64_roundtrip s : base64_decode (base64_encode s) = Some s.
Proof.
  unfold base64_decode. rewrite base64_strip.
  induction s as [|a|a b|a b c s IH] using triples; [done|..]; cbn [base64_encode str1 base64_quads]; pose proof (char_code_range a).
  - letter (char_code a / 4). letter (char_code a mod 4 * 16). change (Ascii.eqb "=" "=") with true. cbn [andb String.eqb].
    unfold str1. do 2 f_equal. apply char_of_code. divide.
  - pose proof (char_code_range b). letter (char_code a / 4). letter (char_code a mod 4 * 16 + char_code b / 16).
    letter (char_code b mod 16 * 4). change (Ascii.eqb "=" "=") with true. cbn [String.eqb]. unfold str1.
    do 2 f_equal; [apply char_of_code; divide|]. f_equal. apply char_of_code. divide.
  - pose proof (char_code_range b). pose proof (char_code_range c). letter (char_code a / 4).
    letter (char_code a mod 4 * 16 + char_code b / 16). letter (char_code b mod 16 * 4 + char_code c / 64). letter (char_code c mod 64).
    rewrite IH. cbn [mbind option_bind]. do 2 f_equal; [apply char_of_code; divide|]. f_equal; [apply char_of_code; divide|].
    f_equal. apply char_of_code. divide.
Qed.

(** ** The envelope *)

Record pushed := mkPushed {
  pd_body : string; pd_attributes : list (string * string); pd_id : string; pd_time : string; pd_key : string; pd_subscription : string
}.

(** Attributes and ordering key are left out when there are none. *)
Definition object_text (l : list (string * string)) : string := String "{" (members_text l).
Definition attribute_members (l : list (string * string)) : list (string * string) := map (fun a => (a.1, json_string a.2)) l.
Definition message_members (m : pushed) : list (string * string) :=
  [("data", json_string (base64_encode (pd_body m)))] ++
  (if pd_attributes m is [] then [] else [("attributes", object_text (attribute_members (pd_attributes m)))]) ++
  [("messageId", json_string (pd_id m)); ("publishTime", json_string (pd_time m))] ++
  (if String.eqb (pd_key m) "" then [] else [("orderingKey", json_string (pd_key m))]).
Definition wrap (m : pushed) : string :=
  object_text [("message", object_text (message_members m)); ("subscription", json_string (pd_subscription m))].

(** Text that survives an encoder of JSON: everything but the body, whose bytes
    are arbitrary. *)
Definition is_text (s : string) : Prop := valid_utf8 s = s.
Record pushable (m : pushed) : Prop := {
  pb_keys : NoDup (pd_attributes m).*1;
  pb_attributes : Forall (fun a => is_text a.1 /\ is_text a.2) (pd_attributes m);
  pb_id : is_text (pd_id m);
  pb_time : is_text (pd_time m);
  pb_key : is_text (pd_key m);
  pb_subscription : is_text (pd_subscription m)
}.

(** What is read. *)
Definition attribute_values (l : list (string * string)) : list (string * json) := map (fun a => (a.1, JStr a.2)) l.
Definition message_values (m : pushed) : list (string * json) :=
  [("data", JStr (base64_encode (pd_body m)))] ++
  (if pd_attributes m is [] then [] else [("attributes", JObj (attribute_values (pd_attributes m)))]) ++
  [("messageId", JStr (pd_id m)); ("publishTime", JStr (pd_time m))] ++
  (if String.eqb (pd_key m) "" then [] else [("orderingKey", JStr (pd_key m))]).

Lemma is_text_written d s : is_text s -> written_at d (json_string s) (JStr s).
Proof. intros E. pose proof (written_string s d) as H. by rewrite E in H. Qed.

Lemma letter_ascii n : 0 <= n < 64 -> char_code (base64_char n) < 128.
Proof.
  intros Hn. assert (forallb (fun n => char_code (base64_char n) <? 128) (seqZ 0 64) = true) as H by (vm_compute; reflexivity).
  rewrite forallb_forall in H. apply Z.ltb_lt, H, list_elem_of_In, elem_of_seqZ. lia.
Qed.
Lemma base64_ascii s : is_ascii (base64_encode s) = true.
Proof.
  induction s as [|a|a b|a b c s IH] using triples; [done|..]; cbn [base64_encode str1 is_ascii]; pose proof (char_code_range a);
    try pose proof (char_code_range b); try pose proof (char_code_range c); rewrite ?IH.
  all: repeat rewrite (proj2 (Z.ltb_lt _ _)) by (apply letter_ascii; divide); reflexivity.
Qed.
Lemma base64_text s : is_text (base64_encode s).
Proof. apply valid_ascii, base64_ascii. Qed.

(** An object whose names and values are text, or objects in turn. *)
Lemma members_written d l (vs : list (string * json)) :
  Forall2 (fun m v => m.1 = v.1 /\ is_text m.1 /\ written_at d m.2 v.2) l vs ->
  Forall2 (fun m v => written_at d m.2 v) l vs.*2 /\ zip (valid_utf8 <$> l.*1) vs.*2 = vs.
Proof.
  induction 1 as [|[k t] [k' v] l vs (E & Hk & Hw) _ [IH1 IH2]]; [done|]. cbn [fst snd fmap list_fmap] in *. subst k'. split; [by constructor|].
  cbn [zip zip_with]. rewrite Hk. f_equal. exact IH2.
Qed.
Lemma object_written d l vs :
  l <> [] -> d < maxNestingDepth -> Forall2 (fun m v => m.1 = v.1 /\ is_text m.1 /\ written_at (d + 1) m.2 v.2) l vs ->
  written_at d (object_text l) (JObj vs).
Proof. intros Hl Hd H. destruct (members_written _ _ _ H) as [Hw Hz]. rewrite <- Hz. by apply written_object. Qed.

Lemma attributes_written m : pushable m -> pd_attributes m <> [] ->
  written_at 2 (object_text (attribute_members (pd_attributes m))) (JObj (attribute_values (pd_attributes m))).
Proof.
  intros P Hne. apply object_written; [by destruct (pd_attributes m)|done|]. apply Forall2_fmap, Forall_Forall2_diag.
  eapply Forall_impl; [apply (pb_attributes _ P)|]. intros a [H1 H2]. cbn. split_and!; [done..|by apply is_text_written].
Qed.
Lemma message_written m : pushable m -> written_at 1 (object_text (message_members m)) (JObj (message_values m)).
Proof.
  intros P. apply object_written; [done..|]. unfold message_members, message_values.
  repeat apply Forall2_app; repeat apply Forall2_cons_2; try apply Forall2_nil_2.
  1, 3, 4: cbn [fst snd]; split_and!; [done..|]; apply is_text_written; by (apply base64_text || apply P).
  - pose proof (attributes_written m P) as H. destruct (pd_attributes m); [apply Forall2_nil_2|].
    apply Forall2_cons_2, Forall2_nil_2. cbn [fst snd]. split_and!; [done..|by apply H].
  - case_if; [apply Forall2_nil_2|]. apply Forall2_cons_2, Forall2_nil_2. cbn [fst snd]. split_and!; [done..|]. apply is_text_written, P.
Qed.
Lemma wrap_parses m : pushable m -> parse_json (wrap m) = Some (JObj [("message", JObj (message_values m)); ("subscription", JStr (pd_subscription m))]).
Proof.
  intros P. set (vs := [("message", JObj (message_values m)); ("subscription", JStr (pd_subscription m))]).
  destruct (members_written 1 [("message", object_text (message_members m)); ("subscription", json_string (pd_subscription m))] vs) as [Hw Hz].
  { repeat apply Forall2_cons_2; try apply Forall2_nil_2; cbn [fst snd]; (split_and!; [done..|]).
    - by apply message_written.
    - apply is_text_written, P. }
  unfold wrap, object_text at 1. rewrite (object_parses _ vs.*2) by done. by rewrite Hz.
Qed.

(** ** Reading it back *)

Lemma assign_strings (f : string * string -> string * json) l old :
  (forall a, f a = (a.1, JStr a.2)) -> NoDup l.*1 -> (forall k, k ∈ l.*1 -> old !! k = None) ->
  string_map (JObj (map f l)) old = Some (list_to_map l ∪ old).
Proof.
  intros Hf. unfold string_map, assign_all. revert old. induction l as [|[k v] l IH]; intros old Hnd Hold; cbn [map foldl].
  - f_equal. symmetry. apply (left_id_L ∅ (∪)).
  - rewrite Hf. cbn [fst snd to_string_field mbind option_bind]. apply NoDup_cons in Hnd as [Hk Hnd].
    rewrite IH; [|done|].
    + f_equal. cbn [list_to_map fst snd]. rewrite <- insert_union_r by (by apply not_elem_of_list_to_map_1). by rewrite insert_union_l.
    + intros k' Hk'. rewrite lookup_insert_ne by (intros ->; done). apply Hold. by right.
Qed.

Definition opened (m : pushed) : pushEnvelope :=
  mkEnvelope (base64_encode (pd_body m)) (list_to_map (pd_attributes m)) (pd_id m) (pd_time m) (pd_key m) (pd_subscription m).

(** One member after the other. *)
Lemma assign_all_app {A} (f : A -> string * json -> option A) l l' a :
  assign_all f (l ++ l') a = (b ← assign_all f l a; assign_all f l' b).
Proof.
  unfold assign_all. rewrite foldl_app. destruct (foldl _ (Some a) l) as [b|]; [done|]. cbn [mbind option_bind].
  induction l' as [|x l' IH]; [done|]. exact IH.
Qed.

Lemma message_assigned m d : NoDup (pd_attributes m).*1 ->
  assign_all assign_message (message_values m) (mkEnvelope "" ∅ "" "" "" d) =
  Some (mkEnvelope (base64_encode (pd_body m)) (list_to_map (pd_attributes m)) (pd_id m) (pd_time m) (pd_key m) d).
Proof.
  intros Hnd. unfold message_values. rewrite assign_all_app.
  change (assign_all assign_message [("data", JStr ?x)] (mkEnvelope ?a ?b ?c ?d ?e ?f)) with (Some (mkEnvelope x b c d e f)). cbn [mbind option_bind].
  rewrite assign_all_app. assert (assign_all assign_message (if pd_attributes m is [] then [] else [("attributes", JObj (attribute_values (pd_attributes m)))])
    (mkEnvelope (base64_encode (pd_body m)) ∅ "" "" "" d) =
    Some (mkEnvelope (base64_encode (pd_body m)) (list_to_map (pd_attributes m)) "" "" "" d)) as ->.
  { pose proof (assign_strings (fun a => (a.1, JStr a.2)) (pd_attributes m) ∅ (fun _ => eq_refl) Hnd ltac:(done)) as E.
    fold (attribute_values (pd_attributes m)) in E. rewrite (right_id_L ∅ (∪)) in E.
    destruct (pd_attributes m); [done|].
    change (assign_all assign_message [("attributes", ?v)] (mkEnvelope ?a ?b ?c ?d ?e ?f))
      with (x ← string_map v b; Some (mkEnvelope a x c d e f)). by rewrite E. }
  cbn [mbind option_bind]. rewrite assign_all_app.
  change (assign_all assign_message [("messageId", JStr ?x); ("publishTime", JStr ?y)] (mkEnvelope ?a ?b ?c ?d ?e ?f))
    with (Some (mkEnvelope a b x y e f)). cbn [mbind option_bind].
  destruct (String.eqb_spec (pd_key m) "") as [E|_]; [by rewrite E|done].
Qed.

Lemma wrap_decodes m : pushable m -> decode_envelope (wrap m) = Some (opened m).
Proof.
  intros P. unfold decode_envelope. rewrite wrap_parses by done.
  change (assign_all assign_envelope [("message", JObj ?l); ("subscription", JStr ?s)] ?e)
    with (e' ← assign_all assign_message l e;
          Some (mkEnvelope (pe_Data e') (pe_Attributes e') (pe_MessageID e') (pe_PublishTime e') (pe_OrderingKey e') s)).
  by rewrite message_assigned by apply P.
Qed.

Lemma handler_reads m : pushable m -> push_handler (Some (wrap m)) = (204, Some (opened m, pd_body m)).
Proof. intros P. unfold push_handler. rewrite wrap_decodes by done. cbn [opened pe_Data]. by rewrite base64_roundtrip. Qed.

(** C33 (roundtrip).  Every message that is posted in the documented envelope is
    read back by the push sample's handler: whatever the bytes of its body, with
    or without attributes and ordering key, the attributes in any order, the
    handler answers 204 and passes on the body as it was published with every
    field of the envelope.  It never answers 204 without passing a message on,
    and passes nothing on with another answer.  The answer comes after the send
    on a channel of four places: it is given, and the message queued behind the
    others, exactly while fewer than four are waiting. *)
Theorem push_envelope_roundtrip :
  (forall m, pushable m -> push_handler (Some (wrap m)) = (204, Some (opened m, pd_body m))) /\
  (forall raw, fst (push_handler raw) = 204 <-> is_Some (snd (push_handler raw))) /\
  (forall m s, pushable m ->
     push_post s (Some (wrap m)) =
       if (length (rc_got s) <? 4)%nat then (mkReceiver (rc_got s ++ [(opened m, pd_body m)]) (rc_blocked s), Some 204)
       else (mkReceiver (rc_got s) (rc_blocked s ++ [(opened m, pd_body m)]), None)).
Proof.
  split_and!; [apply handler_reads| |].
  - intros [raw|]; cbn [push_handler fst snd]; [|split; [done|by intros [? [=]]]].
    destruct (decode_envelope raw) as [e|]; [destruct (base64_decode (pe_Data e)) as [b|]|]; cbn [fst snd];
      (split; [try done; eauto|try done; by intros [? [=]]]).
  - intros m s P. unfold push_post. by rewrite handler_reads.
Qed.

(** A message with bytes that are not text in its body. *)
Definition posted_message : pushed :=
  mkPushed "push me" [("priority", "high"); ("region", "eu")] "m0" "2024-01-01T00:00:00Z" "" "projects/p/subscriptions/s".
Definition raw_message : pushed :=
  mkPushed (String (char_of 255) (String (char_of 0) "x")) [] "m1" "2024-01-01T00:00:00Z" "k" "projects/p/subscriptions/s".

Lemma pushables : pushable posted_message /\ pushable raw_message.
Proof.
  split; split; try (apply valid_ascii; reflexivity); try (apply (bool_decide_unpack _); vm_compute; exact I).
  all: repeat constructor; apply valid_ascii; reflexivity.
Qed.

Lemma push_envelope_roundtrip_witness :
  push_handler (Some (wrap posted_message)) = (204, Some (opened posted_message, "push me")) /\
  push_handler (Some (wrap raw_message)) = (204, Some (opened raw_message, String (char_of 255) (String (char_of 0) "x"))).
Proof.
  split; [apply (proj1 push_envelope_roundtrip posted_message)|apply (proj1 push_envelope_roundtrip raw_message)]; apply pushables.
Defined.

(** ** The sample *)

(** What was posted while the program waited, and the ids of what it published. *)
Definition posted_of (e : entry) : list (list (option string)) :=
  match e with
  | Entry c x => match c in call X return X -> list (list (option string)) with Posts _ => fun x => [x] | _ => fun _ => [] end x
  end.
Definition id_of (e : entry) : list string :=
  match e with
  | Entry c x => match c in call X return X -> list string with Get _ => fun x => if x is inl id then [id] else [] | _ => fun _ => [] end x
  end.
Definition posted (tr : list entry) : list (list (option string)) := mjoin (map posted_of tr).
Definition ids (tr : list entry) : list string := mjoin (map id_of tr).

Ltac update_posts :=
  match goal with |- wp (observe ?f ?g) ?p (observe _ _ (?a, ?b) ?e) ?Q =>
    let x := eval cbv [posted_of id_of] in (f e) in
    let y := eval cbv [posted_of id_of] in (g e) in
    change (wp (observe f g) p (a ++ x, b ++ y) Q); rewrite ?app_nil_r
  end.
Ltac attend := walk_with ltac:(fun _ => update_posts).

(** The first post that can be read decides. *)
Definition as_published (id : string) (r : pushEnvelope * string) : bool :=
  String.eqb (snd r) "push me" && String.eqb (attr (pe_Attributes (fst r)) "priority") "high" && String.eqb (pe_MessageID (fst r)) id.
Definition judged (o : outcome unit) (g : list (list (option string)) * list string) : Prop :=
  match g with
  | ([posts], [id]) => o = Done tt <-> (if first_read posts is Some r then as_published id r else false) = true
  | _ => o <> Done tt
  end.

Lemma push_judged : wp (observe posted_of id_of) push_main ([], []) judged.
Proof.
  unfold push_main. attend; try done. unfold push_select. cbn [app].
  match goal with |- wp _ (match first_read ?x with _ => _ end) _ _ => rename x into posts end.
  destruct (first_read posts) as [[env got]|] eqn:E; attend; cbn [judged]; rewrite ?E; try done.
  unfold push_assert. cbv zeta. attend; cbn [judged]; rewrite ?E; unfold as_published; cbn [fst snd];
    repeat match goal with H : String.eqb _ _ = _ |- _ => rewrite H; clear H end; done.
Qed.

Lemma attr_is (m : gmap string string) k v : v <> "" -> attr m k = v <-> m !! k = Some v.
Proof. intros Hv. unfold attr. destruct (m !! k); cbn; split; congruence. Qed.

(** A post joins the end of the queue or none: the places do not decide what is
    received first. *)
Lemma first_read_alt posts : first_read posts = head (omap (fun raw => snd (push_handler raw)) posts).
Proof.
  unfold first_read.
  assert (forall s, head (rc_got (foldl (fun s raw => fst (push_post s raw)) s posts)) =
    head (rc_got s ++ omap (fun raw => snd (push_handler raw)) posts)) as H; [|by rewrite H].
  induction posts as [|raw posts IH]; intros s; cbn [foldl omap list_omap]; [by rewrite app_nil_r|]. rewrite IH. clear IH.
  unfold push_post. destruct (push_handler raw) as [code [r|]]; cbn [fst snd]; [|done].
  case_if; cbn [fst rc_got]; [by rewrite <- app_assoc|]. zbool. unfold got_capacity in *. by destruct (rc_got s).
Qed.

(** What came before the first post that could be read has no say. *)
Lemma first_read_skips bad raw rest r :
  Forall (fun raw => snd (push_handler raw) = None) bad -> snd (push_handler raw) = Some r -> first_read (bad ++ raw :: rest) = Some r.
Proof. intros H E. rewrite first_read_alt. induction H as [|x l Hx _ IH]; cbn [app omap list_omap]; [by rewrite E|by rewrite Hx]. Qed.

(** C35 (functional).  The verdict of the push sample, for every run in which it
    published and waited: when the broker posts, after any number of posts that
    cannot be read, a message in the documented envelope, then the sample ends
    normally exactly when that message has the published body, the published
    attribute and the id the publish returned.  A run that did not get that far,
    or in which nothing readable was posted, does not end normally. *)
Theorem push_sample_exact tr o :
  runs push_main tr o ->
  (forall id bad m rest, posted tr = [bad ++ Some (wrap m) :: rest] -> ids tr = [id] -> pushable m ->
     Forall (fun raw => snd (push_handler raw) = None) bad ->
     o = Done tt <-> pd_body m = "push me" /\ list_to_map (M := gmap string string) (pd_attributes m) !! "priority" = Some "high" /\ pd_id m = id) /\
  (o = Done tt -> exists posts id env, posted tr = [posts] /\ ids tr = [id] /\ first_read posts = Some (env, "push me") /\
     pe_Attributes env !! "priority" = Some "high" /\ pe_MessageID env = id).
Proof.
  intros R. pose proof (wp_sound _ _ _ _ _ _ push_judged R) as J. rewrite observe_fold in J. cbn [app] in J.
  fold (posted tr) in J. fold (ids tr) in J. split.
  - intros id bad m rest Ep Ei P Hb. rewrite Ep, Ei in J. cbn [judged] in J. rewrite J.
    rewrite (first_read_skips bad (Some (wrap m)) rest (opened m, pd_body m) Hb) by (by rewrite handler_reads).
    unfold as_published. cbn [fst snd opened pe_Attributes pe_MessageID]. rewrite !andb_true_iff, !String.eqb_eq, attr_is by done. tauto.
  - intros ->. destruct (posted tr) as [|posts [|]]; [by destruct J| |by destruct J].
    destruct (ids tr) as [|id [|]]; [by destruct J| |by destruct J]. cbn [judged] in J. destruct J as [J _]. specialize (J eq_refl).
    destruct (first_read posts) as [[env got]|] eqn:E; [|done]. unfold as_published in J. cbn [fst snd] in J.
    rewrite !andb_true_iff, !String.eqb_eq, attr_is in J by done. destruct J as [[-> Ha] Hi]. by exists posts, id, env.
Qed.

(** A broker that posts what it is told to. *)
Definition push_world (posts : list (option string)) : world broker := fun X c =>
  match c in call X return broker -> X * broker with
  | Posts _ => fun b => (posts, b)
  | c' => fun b => broker_world _ c' b
  end.

Lemma push_sample_exact_witness :
  snd (exec (push_world [None; Some "{"; Some (wrap posted_message)]) push_main (fresh false false numbered)) = Done tt.
Proof.
  set (w := push_world _). apply (proj1 (push_sample_exact (fst (exec w push_main (fresh false false numbered))) _ (exec_runs _ _ _))
    "m0" [None; Some "{"] posted_message []); [vm_compute; reflexivity..|apply pushables|repeat constructor|]. by vm_compute.
Defined.
