(* ===== verification/ExampleFilter.v ===== *)
(** * The filtering sample

    The comparison of two lists by sorting and joining them, what it is good for,
    and what a passing run of the sample has seen on the filtered and on the
    unfiltered subscription. *)
From S2P Require Import Prelude GoFloat GoFmt GoTime GoJson Transport Clients Console ExampleLib Examples ExamplesAdvanced ExampleBroker.
From S2P Require Import ExampleVerify.
From Stdlib Require Import Ascii.

(** ** Sorting strings *)

Lemma string_compare_refl s : String.compare s s = Eq.
Proof. pose proof (String.compare_antisym s s) as H. by destruct (String.compare s s). Qed.
Lemma ascii_compare_lt a b c : Ascii.compare a b <> Gt -> Ascii.compare b c = Lt -> Ascii.compare a c = Lt.
Proof. unfold Ascii.compare. rewrite N.compare_gt_iff, !N.compare_lt_iff. lia. Qed.
Lemma ascii_compare_lt' a b c : Ascii.compare a b = Lt -> Ascii.compare b c <> Gt -> Ascii.compare a c = Lt.
Proof. unfold Ascii.compare. rewrite N.compare_gt_iff, !N.compare_lt_iff. lia. Qed.

Lemma leb_trans a b c : String.leb a b = true -> String.leb b c = true -> String.leb a c = true.
Proof.
  unfold String.leb. revert b c. induction a as [|x a IH]; intros [|y b] [|z c]; cbn [String.compare]; try done.
  destruct (Ascii.compare x y) eqn:E1; [|..|done]; destruct (Ascii.compare y z) eqn:E2; try done.
  - apply Ascii.compare_eq_iff in E1, E2. subst y z. unfold Ascii.compare. rewrite N.compare_refl. apply IH.
  - by rewrite (ascii_compare_lt x y z) by (rewrite ?E1; done).
  - by rewrite (ascii_compare_lt' x y z) by (rewrite ?E2; done).
  - by rewrite (ascii_compare_lt x y z) by (rewrite ?E1; done).
Qed.
Lemma leb_false a b : String.leb a b = false -> String.leb b a = true.
Proof. intros H. destruct (String.leb_total a b); [congruence|done]. Qed.

Lemma insert_sorted_perm (x : string) l : insert_sorted id x l ≡ₚ x :: l.
Proof.
  induction l as [|y l IH]; [done|]. cbn [insert_sorted]. destruct (String.leb _ _); [done|]. rewrite IH. apply Permutation_swap.
Qed.
Lemma sort_perm (l : list string) : sort_by id l ≡ₚ l.
Proof. unfold sort_by. induction l as [|x l IH]; [done|]. cbn [foldr]. by rewrite insert_sorted_perm, IH. Qed.

(** The order in which strings are inserted does not matter. *)
Lemma insert_sorted_comm (x y : string) l : insert_sorted id x (insert_sorted id y l) = insert_sorted id y (insert_sorted id x l).
Proof.
  assert (forall x y l, String.leb x y = true -> insert_sorted id x (insert_sorted id y l) = insert_sorted id y (insert_sorted id x l)) as H.
  { clear. intros x y l Hxy. induction l as [|z l IH]; cbn [insert_sorted]; unfold id in *.
    - rewrite Hxy. destruct (String.leb y x) eqn:E; [|done]. by rewrite (String.leb_antisym x y).
    - destruct (String.leb y z) eqn:Eyz.
      + rewrite (leb_trans x y z) by done. cbn [insert_sorted]. rewrite Hxy.
        destruct (String.leb y x) eqn:E; [by rewrite (String.leb_antisym x y)|]. by rewrite Eyz.
      + cbn [insert_sorted]. destruct (String.leb x z) eqn:Exz; cbn [insert_sorted].
        * destruct (String.leb y x) eqn:E; [|by rewrite Eyz]. exfalso. apply leb_false in Eyz as Ezy.
          pose proof (leb_trans y x z E Exz). congruence.
        * rewrite Eyz. by rewrite IH. }
  destruct (String.leb_total x y); [by apply H|symmetry; by apply H].
Qed.
Lemma sort_canonical (a b : list string) : a ≡ₚ b -> sort_by id a = sort_by id b.
Proof.
  unfold sort_by. induction 1 as [|x a b _ IH|x y a|a b c _ IH1 _ IH2]; cbn [foldr]; [done|by rewrite IH|apply insert_sorted_comm|congruence].
Qed.

(** ** Joining strings *)

Fixpoint commas (s : string) : nat :=
  match s with EmptyString => 0 | String c s' => ((if Ascii.eqb c "," then 1 else 0) + commas s')%nat end.
Lemma commas_app s t : commas (s +:+ t) = (commas s + commas t)%nat.
Proof. induction s as [|c s IH]; [done|]. cbn [String.append commas]. rewrite IH. lia. Qed.

Lemma commas_join l : commas (join "," l) = (sum_list (map commas l) + pred (length l))%nat.
Proof.
  induction l as [|x [|y l] IH]; [done|cbn; lia|]. change (join "," (x :: y :: l)) with (x +:+ "," +:+ join "," (y :: l)).
  rewrite !commas_app, IH. cbn. lia.
Qed.
(** Up to its first comma a text is read in one way. *)
Lemma comma_split x y s t : commas x = 0%nat -> commas y = 0%nat -> x +:+ "," +:+ s = y +:+ "," +:+ t -> x = y /\ s = t.
Proof.
  revert y. induction x as [|c x IH]; intros [|d y]; cbn [commas String.append]; intros Hx Hy E.
  - by simplify_eq.
  - injection E as <- _. done.
  - injection E as -> _. done.
  - injection E as -> E. destruct (Ascii.eqb d ","); [lia|]. by destruct (IH y) as [-> ->].
Qed.
Lemma join_inj a b : length a = length b -> sum_list (map commas b) = 0%nat -> join "," a = join "," b -> a = b.
Proof.
  intros Hl Hb E. assert (sum_list (map commas a) = 0%nat) as Ha.
  { pose proof (commas_join a) as H1. rewrite E, commas_join, Hb, Hl in H1. lia. }
  revert b Hl Hb E. induction a as [|x a IH]; intros [|y b]; try done. cbn [length map sum_list sum_list_with] in *.
  unfold id in *. intros Hl Hb E.
  destruct a as [|x' a], b as [|y' b]; try done; [by cbn in E; rewrite E|].
  change (join "," (x :: x' :: a)) with (x +:+ "," +:+ join "," (x' :: a)) in E.
  change (join "," (y :: y' :: b)) with (y +:+ "," +:+ join "," (y' :: b)) in E.
  apply comma_split in E as [-> E]; [|lia..]. f_equal. apply IH; [lia|by apply (inj S)|lia|done].
Qed.

(** The comparison of the sample: against a list without commas it is equality
    up to order. *)
Lemma equalSorted_spec a b : sum_list (map commas b) = 0%nat -> equalSorted a b = true <-> a ≡ₚ b.
Proof.
  intros Hb. unfold equalSorted. rewrite andb_true_iff, Nat.eqb_eq, String.eqb_eq. split.
  - intros [Hl E]. apply join_inj in E; [|by rewrite !(Permutation_length (sort_perm _))|].
    + by rewrite <- (sort_perm a), E, sort_perm.
    + rewrite <- Hb. by rewrite (sort_perm b).
  - intros Hp. split; [by apply Permutation_length|]. by rewrite (sort_canonical a b).
Qed.
(** With commas it is not. *)
Lemma equalSorted_ambiguous : equalSorted ["a,b"; "c"] ["a"; "b,c"] = true.
Proof. vm_compute. reflexivity. Qed.

(** ** The sample *)

(** Bodies as a subscription delivers them, and refused subscriptions. *)
Inductive filter_event :=
| Delivered (sub body : string)
| Refused (filter : string) (c : code).
Definition filter_event_of (e : entry) : list filter_event :=
  match e with
  | Entry c x => match c in call X return X -> list filter_event with
                 | Receive sub _ _ _ => fun x => map (fun m => Delivered sub (m_Data m)) (fst (fst x))
                 | CreateSub _ cfg => fun x => if x is Some err then [Refused (sc_Filter cfg) (e_code err)] else []
                 | _ => fun _ => []
                 end x
  end.
Definition filter_events (tr : list entry) : list filter_event := mjoin (map filter_event_of tr).

Ltac update_filter :=
  match goal with |- wp (observe ?f ?g) ?p (observe _ _ (?a, ?b) ?e) ?Q =>
    let x := eval cbv [filter_event_of acked_of] in (f e) in
    let y := eval cbv [filter_event_of acked_of] in (g e) in
    change (wp (observe f g) p (a ++ x, b ++ y) Q); rewrite ?app_nil_r
  end.
Ltac sift := walk_with ltac:(fun _ => update_filter); cbv match; rewrite ?app_nil_r.

Lemma filtering_publish_sifts topic l eu all g Q :
  (forall c g, Q (Died c) g) ->
  Q (Done (eu ++ (List.filter (fun e => String.eqb (snd e) "eu") l).*1, all ++ l.*1)) g ->
  wp (observe filter_event_of acked_of) (filtering_publish topic l eu all) g Q.
Proof.
  intros Hd. destruct g as [a b]. revert eu all. induction l as [|[body region] l IH]; intros eu all HQ; cbn [filtering_publish].
  - cbn in HQ. by rewrite !app_nil_r in HQ.
  - sift; [|apply Hd]. apply IH. cbn [List.filter snd] in HQ. destruct (String.eqb region "eu"); cbn [fmap list_fmap fst] in HQ;
      by rewrite <- ?app_assoc.
Qed.

(** A subscription drained: the distinct bodies of what it delivered, all of it
    acknowledged. *)
Definition bodies (ms : list msg) : list string := map m_Data ms.
Lemma filtering_drain_sifts {A} sub want (q : list string -> prog A) a b Q :
  (forall c g, Q (Died c) g) ->
  (forall ms, wp (observe filter_event_of acked_of) (q (elements (list_to_set (C := gset string) (bodies ms))))
                (a ++ map (Delivered sub) (bodies ms), b ++ map m_ID ms) Q) ->
  wp (observe filter_event_of acked_of) (filtering_drain sub want q) (a, b) Q.
Proof.
  intros Hd Hq. unfold filtering_drain, receive. apply wp_do. intros [[ms err] ended].
  update_filter. cbn [fst]. rewrite <- (map_map m_Data (Delivered sub)). fold (bodies ms).
  apply (wp_each _ drain_callback ms ∅ _ _ _ (fun pre seen g => seen = list_to_set (bodies pre) /\
    g = (a ++ map (Delivered sub) (bodies ms), b ++ map m_ID pre)) []).
  - intros pre m s g k [-> ->] Hk. unfold drain_callback. sift. apply Hk. split.
    + unfold bodies. rewrite map_app, list_to_set_app_L. cbn [map list_to_set]. set_solver.
    + by rewrite map_app, <- app_assoc.
  - by rewrite app_nil_r.
  - intros s' g' [-> ->]. cbn [app]. destruct err; [destruct ended|]; [apply Hq| |apply Hq]. sift. apply Hd.
Qed.

Lemma elements_perm (s : gset string) l : elements s ≡ₚ l -> s = list_to_set l.
Proof. intros H. apply set_eq. intros x. by rewrite <- elem_of_elements, H, elem_of_list_to_set. Qed.

Definition euBodies : list string := ["order-1"; "order-3"; "order-5"].
Definition allBodies : list string := ["order-1"; "order-2"; "order-3"; "order-4"; "order-5"].
(** What the sample's PASS line stands for. *)
Definition separated (g : list filter_event * list string) : Prop :=
  exists suffix filtered unfiltered,
    fst g = map (Delivered ("sub-filtered-" +:+ suffix)) (bodies filtered) ++ map (Delivered ("sub-all-" +:+ suffix)) (bodies unfiltered) ++
            [Refused "this is not a filter" InvalidArgument] /\
    snd g = map m_ID (filtered ++ unfiltered) /\
    list_to_set (C := gset string) (bodies filtered) = list_to_set euBodies /\
    list_to_set (C := gset string) (bodies unfiltered) = list_to_set allBodies.

Lemma separates suffix filtered unfiltered c :
  equalSorted (elements (list_to_set (C := gset string) (bodies filtered))) ([] ++ (List.filter (fun e => String.eqb (snd e) "eu") mixed).*1) = true ->
  equalSorted (elements (list_to_set (C := gset string) (bodies unfiltered))) ([] ++ mixed.*1) = true ->
  bool_decide (c = InvalidArgument) = true ->
  separated ((([] ++ map (Delivered ("sub-filtered-" +:+ suffix)) (bodies filtered)) ++ map (Delivered ("sub-all-" +:+ suffix)) (bodies unfiltered)) ++
             [Refused "this is not a filter" c], ([] ++ map m_ID filtered) ++ map m_ID unfiltered).
Proof.
  intros H1%equalSorted_spec%elements_perm H2%equalSorted_spec%elements_perm ->%bool_decide_eq_true; [|reflexivity..].
  exists suffix, filtered, unfiltered. split_and!; [|by rewrite map_app|done..]. cbn [app fst]. by rewrite <- app_assoc.
Qed.

Lemma filtering_sifts : wp (observe filter_event_of acked_of) filtering_main ([], []) (on_done (fun _ => separated)).
Proof.
  unfold filtering_main. sift; try done. apply filtering_publish_sifts; [done|]. sift.
  apply filtering_drain_sifts; [done|]. intros filtered. sift.
  apply filtering_drain_sifts; [done|]. intros unfiltered. unfold filtering_assert, filtering_negative. cbv zeta. sift; try done.
  unfold filtering_cleanup. cbn [foldr]. sift; by apply separates.
Qed.

(** When the filtering sample ends normally, the filtered
    subscription has delivered the three bodies published with region eu, none of
    the others and each at least once, the unfiltered one all five and no
    stranger; each delivery was acknowledged; the malformed filter was refused as
    an invalid argument, and no other subscription was refused.  Sorting and
    joining loses nothing here, since no body has a comma. *)
Theorem filtering_sample_verifies tr :
  runs filtering_main tr (Done tt) ->
  exists suffix filtered unfiltered,
    filter_events tr = map (Delivered ("sub-filtered-" +:+ suffix)) (bodies filtered) ++
                       map (Delivered ("sub-all-" +:+ suffix)) (bodies unfiltered) ++ [Refused "this is not a filter" InvalidArgument] /\
    acked tr = map m_ID (filtered ++ unfiltered) /\
    list_to_set (C := gset string) (bodies filtered) = list_to_set euBodies /\
    list_to_set (C := gset string) (bodies unfiltered) = list_to_set allBodies.
Proof. intros R. pose proof (wp_sound _ _ _ _ _ _ filtering_sifts R) as E. by rewrite observe_fold in E. Qed.

(** A broker that knows this filter, and keeps what is acknowledged on one
    subscription for the other. *)
Definition filter_world : world broker := fun X c =>
  match c in call X return broker -> X * broker with
  | CreateSub _ cfg => fun b =>
      (if String.eqb (sc_Filter cfg) "" || String.eqb (sc_Filter cfg) euFilter then None else Some (mkErr InvalidArgument None "bad filter"), b)
  | Receive sub _ _ _ => fun b =>
      ((if String.prefix "sub-all-" sub then b_backlog b
        else List.filter (fun m => String.eqb (attr (m_Attributes m) "region") "eu") (b_backlog b), None, true), b)
  | Ack _ => fun b => (tt, b)
  | c' => fun b => broker_world _ c' b
  end.

Lemma filtering_sample_verifies_witness :
  exists suffix filtered unfiltered,
    filter_events (fst (exec filter_world filtering_main (fresh false false numbered))) =
      map (Delivered ("sub-filtered-" +:+ suffix)) (bodies filtered) ++
      map (Delivered ("sub-all-" +:+ suffix)) (bodies unfiltered) ++ [Refused "this is not a filter" InvalidArgument].
Proof.
  destruct (filtering_sample_verifies (fst (exec filter_world filtering_main (fresh false false numbered)))) as (suffix & f & u & E & _).
  - assert (snd (exec filter_world filtering_main (fresh false false numbered)) = Done tt) as <- by (vm_compute; reflexivity). apply exec_runs.
  - by exists suffix, f, u.
Defined.
